(* ===== verification/_CoqProject ===== *)
-Q . S2P
Prelude.v
Validation.v
Utf8.v
Replay.v
Binary.v
Throttle.v
Core.v
SessionStore.v
PgSession.v
Prog.v
Manager.v
ManagerInv.v
ManagerSpec.v
Scenario.v
Recording.v
PgRecording.v
Reconcile.v
AuthStore.v
Auth.v
AuthRoutes.v
AuthSafety.v
AuthSpec.v
Inventory.v
Vault.v
Bridge.v
BridgeSpec.v
HostKey.v
KeyVault.v
Config.v
ConfigSpec.v
Boot.v
BootSpec.v
BootScenario.v
Shutdown.v
TrustRoutes.v
InventoryRoutes.v
Frames.v
InventorySafety.v
TrustSafety.v
TrustSpec.v
InventorySpec.v
InventoryScenario.v
Messages.v
TrustWire.v
Socket.v
SocketSpec.v
SocketScenario.v
SessionRoutes.v
LaunchSpec.v
LaunchScenario.v
ReadRoutes.v
ReadSpec.v
Writers.v
Beside.v
Pipeline.v
