(* ===== verification/Prelude.v ===== *)
(** * RelayTerm backend: a verification library

    RelayTerm keeps SSH terminals alive on a server while browsers and phones attach to them, go
    away and come back.  This library models the Rust code that makes this work (the files under
    [crates/] that carry the session logic, the login throttle, the wire format and the storage)
    and proves what the rest of the system relies on.

    ** The program and the files of the library

    A client logs in (throttled per identifier), creates a terminal session, the backend binds an
    SSH PTY to it, and clients attach.  Output flows from the PTY to a forwarder task, which stamps
    each frame, mirrors it into a bounded replay ring, broadcasts it to the attached clients and
    tees it into a recording.  When the last client detaches, a timer keeps the PTY for a while; a
    client that reattaches in time continues where it stopped.  Recordings are purged when their
    retention ends; sessions that a crash left open are closed at the next start.

    - [Prelude.v]: Rust's [Result] with its [?], machine integers ([u16] to [u64], [i64], wrapping
      and saturating arithmetic on [Z]), bytes and big-endian encodings, strings as lists of code
      points, the hint database [relay] and the tactics of the library.
    - [Validation.v]: [relayterm-core/src/validation.rs], the input validators.
    - [Utf8.v]: UTF-8, as Rust's standard library encodes, checks and repairs it.
    - [Replay.v]: [relayterm-terminal/src/replay.rs], the replay ring ([ReplayBuffer]), with the
      complete log of a session as its specification ([ReplaySpec]).
    - [Binary.v]: [relayterm-protocol/src/binary.rs], the [RTB1] envelope.
    - [Throttle.v]: [relayterm-auth/src/throttle.rs], the login throttler.
    - [Core.v]: the entities, tags and errors of [relayterm-core/src] and [relayterm-ssh/src/pty.rs].
    - [SessionStore.v]: the repository traits of [relayterm-core/src/repository.rs] as a class of
      operations ([SessionStore]) and a class of laws ([SessionStoreLaws]).
    - [PgSession.v]: the Postgres repositories of sessions, attachments and events
      ([relayterm-db/src/repositories/terminal_session.rs], [session_event.rs], [rows.rs],
      [error.rs]) over tables with their constraints; the instance of the two classes.
    - [Prog.v]: asynchronous programs, their interleavings, and a rely-guarantee calculus that is
      proved sound for all of them.
    - [Manager.v]: [relayterm-terminal/src/manager.rs], the orchestrator: one [Definition] per
      [async fn], in the order of the source, over a [World] that holds the database, the two
      registries, the shared objects behind [Arc]s and the spawned tasks.
    - [ManagerInv.v]: the invariant of the orchestrator under every interleaving.
    - [ManagerSpec.v]: what each call does when it runs undisturbed; reconnection.
    - [Scenario.v]: a concrete deployment on which the theorems are instantiated.
    - [Recording.v]: [relayterm-terminal/src/recording.rs], the recording writer, against the class
      [RecordingStore].
    - [PgRecording.v]: [relayterm-db/src/repositories/terminal_recording.rs],
      [relayterm-terminal/src/retention.rs] and [retention_worker.rs]: the instance of
      [RecordingStore], the purge transaction, the sweep and the periodic tick.
    - [Reconcile.v]: start-up reconciliation and the remaining listings of the session repositories.
    - [AuthStore.v]: users, browser sessions, passwords and audit events of [relayterm-core/src] and
      their Postgres repositories in [relayterm-db/src/repositories].
    - [Auth.v]: [relayterm-auth/src]: session tokens ([session_token.rs]), the password hasher
      ([password.rs]) and [AuthService] ([service.rs]).
    - [AuthRoutes.v]: the [/auth] handlers of [relayterm-api/src/routes/v1/auth.rs] with the cookies,
      the [Origin] guard, the extractor, the request validation and the error answers they use.
    - [AuthSafety.v]: what holds of the authentication tables under every interleaving of requests.
    - [AuthSpec.v]: what each authentication request does; a concrete deployment.
    - [Inventory.v]: hosts, SSH identities, server profiles and known-host entries of
      [relayterm-core/src], their rows, constraints and Postgres repositories
      ([relayterm-db/src/repositories]).
    - [Vault.v]: [relayterm-vault/src/cipher.rs], the encrypted blob of a private key.
    - [KeyVault.v]: [identity.rs] and [master_key.rs] of the same crate: generation and import.
    - [HostKey.v]: [relayterm-ssh/src]: classification of host keys and preflight ([preflight.rs]), the
      authentication check with its permits and timeout ([auth_check.rs]), the russh clients and their
      [check_server_key] ([russh_probe.rs], [russh_auth.rs], [russh_pty.rs] up to the open shell).
    - [Bridge.v]: the handle and the driver task of an open channel ([RusshHandle], [drive_channel] of
      [russh_pty.rs]) with their queues; [BridgeSpec.v]: what they guarantee in every run.
    - [Writers.v]: [RecordingRuntime] and its writers, the implementation of the recording class of
      [Manager.v]; [Beside.v]: what the rest of the orchestrator leaves alone; [Pipeline.v]: bridge,
      forwarder, recording and orchestrator put together.
    - [Config.v]: [apps/backend/src/config.rs]: the configuration, its defaults, the file, the
      environment, the validators, the vault key and the mask of the database URL; [ConfigSpec.v]: what
      they guarantee.
    - [Boot.v]: [apps/backend/src/main.rs] up to the point where it serves, and the loop of the retention
      worker; [BootSpec.v], [BootScenario.v]: what a start guarantees; a concrete start.
    - [Shutdown.v]: the end of [main] and of that worker.
    - [TrustRoutes.v]: the host-key handlers of [relayterm-api/src/routes/v1/server_profiles.rs].
    - [InventoryRoutes.v]: the handlers of hosts, identities and profiles ([hosts.rs],
      [ssh_identities.rs], [server_profiles.rs]) with their DTOs ([relayterm-api/src/dto]).
    - [Frames.v]: which tables the authentication and host-key requests leave alone.
    - [InventorySafety.v]: what holds of the inventory under every interleaving of requests.
    - [TrustSafety.v]: what holds of pins and signatures under every interleaving of requests.
    - [TrustSpec.v]: what the host-key operations do; a concrete deployment.
    - [InventorySpec.v], [InventoryScenario.v]: what each inventory request does; a concrete deployment.
    - [TrustWire.v]: the answers of the host-key routes on the wire ([dto/preflight.rs], [dto/auth_check.rs]).
    - [Messages.v]: the JSON messages of [relayterm-protocol/src/lib.rs].
    - [Socket.v]: [run_attached_socket] and its handlers in
      [relayterm-api/src/routes/v1/terminal_sessions.rs], the task behind an open WebSocket.
    - [SocketSpec.v], [SocketScenario.v]: what a client sees on its socket; a concrete deployment.
    - [SessionRoutes.v]: the HTTP handlers of the same file ([create], [list], [get_by_id], [close],
      the gate of [ws_attach]) over the inventory, the network and the orchestrator.
    - [LaunchSpec.v], [LaunchScenario.v]: what a launch needs and does; a concrete deployment.
    - [ReadRoutes.v]: [routes/v1/terminal_recordings.rs], [audit_events.rs] and [session_policy.rs] with their
      DTOs; [ReadSpec.v]: what they give, and a concrete deployment.

    ** How the code is represented

    Integers are [Z] with their width written out where it matters: counters and sequence numbers
    wrap or saturate as the source does, and conversions that can fail return [option].  Instants
    and durations are nanoseconds.  UUIDs are integers and [Uuid::new_v4] is a counter, so that two
    draws differ; a key that is taken is nevertheless refused as Postgres refuses it.  A JSON value
    is a tree with ordered object fields.  A [panic!] is [None] where the code could reach one.

    A database is a record of tables.  Each statement consults a script of driver faults, so every
    theorem about a repository covers a failure at any statement; a transaction that fails or is
    dropped restores the tables.  A lock's critical section, an atomic operation and a repository
    call are each one atomic action of a program ([prog]); between two actions any task may run,
    and a task may be dropped there, which is what [tokio] and [Drop] allow.  Objects behind [Arc]
    live in maps from addresses, so two holders of one [Arc] see each other's writes.  The
    broadcast channel is the list of the frames sent; a receiver is a position in it, and it is closed
    when no sender is left.  What [tokio::select!] delivers to a socket task is a list of events, and a
    script says which sends fail; the theorems about a stream exclude the report that a slow receiver
    has missed frames.

    For the orchestrator the PTY bridge ([SshPtyHandle]) and the recording writer are type-class
    parameters without laws: its theorems hold for any behaviour of theirs.  [recording_runtime_sink] of
    [Writers.v] is the instance of the second, and [Pipeline.v] runs the forwarder over [Bridge.v] and it.  The repositories are parameters with the laws of
    [SessionStoreLaws]; [PgSession.v] proves that the Postgres code satisfies them.

    For authentication, Argon2, SHA-256, base64url and Postgres' [LOWER] are operations of the classes
    [AuthCrypto] and [PgLower].  What is used of them (a PHC string that Argon2 made parses and
    verifies the password it was made from; base64url keeps to its alphabet and is not empty on some
    bytes) is the class [AuthCryptoLaws], which the toy deployment of [AuthSpec.v] instantiates.
    Nothing is assumed of SHA-256: the unique index on the token hash gives what is needed.  The
    random source is a stream of draws.

    For the inventory, the SSH key library is the class [SshKeys], [{:?}] is [RustDebug], base64 is
    [Base64Standard] and the order of text in Postgres is [PgCollation], all without laws.  The table of
    terminal sessions is seen by these routes as the list of its references ([SessionRef]).

    For host-key trust, XChaCha20-Poly1305 is the class [Aead] with the law [AeadLaws] (what was
    encrypted decrypts to itself, and a ciphertext carries a tag), and the SSH library is the class
    [Russh] without laws: which key a server presents, whether a connection comes up, times out or
    fails, and how the server answers a signature may be anything.  A signature is recorded at the
    call of [authenticate_publickey], with the key that [check_server_key] had accepted.  A timeout
    cuts a program after a number of actions that the environment chooses.

    For the configuration, the TOML parser is [Toml], of which [toml_typed] says that a number it reads
    fits the type of its field, and socket addresses are [SocketAddrs].  The surroundings of a start (the
    environment, the files, whether the database and the port answer, the clock) are arguments.

    For recordings and the audit trail, base64 and the text of identifiers and instants are [RecordingText]; a
    JSON string that spells one of the two is kept as what it spells.

    For an open channel, the environment chooses what the server sends, which branch of [select!] is
    taken, when a caller is dropped, and whether a write on the channel succeeds.

    No definition needs fuel: loops are structural on the list they consume (the events a PTY
    delivers, the frames of a ring, the candidates of a sweep).  The writer task and the
    orchestrator, which do not terminate, are step relations with reachability.

    ** What is proved

    - The orchestrator.  [orchestrator_safety]: under every interleaving, with cancellation and
      failing repositories, rows, registries and rings stay consistent and history is append-only.
      [foreign_request_denied]: a request of a user who does not own the session changes nothing.
      The exact effect of create, attach, detach and close, idempotence of close and detach, the
      life of the detach window, and gap-free reconnection.  [detach_reopens_closed_session] records
      a defect: a detach after the remote shell ended reopens the closed row.
    - The replay ring answers as the complete log would, loses the fewest frames its bounds allow,
      and keeps an exact byte count.
    - The recording writer accounts for every frame, in order and once, whatever is dropped, refused
      or fails; [finished_recording_omits_trailing_gap] records that a gap at the very end is never
      written.
    - The purge is all or nothing; a sweep drains the backlog and fails softly; reconciliation closes
      exactly the orphans, succeeds when the driver answers, and is idempotent.
    - The wire format round-trips both ways, the decoder never panics and bounds what it accepts.
    - The throttle engages exactly at its threshold, keys do not influence each other, a block is
      never shortened, and memory is bounded.
    - Authentication.  [auth_history_safety]: under every interleaving of requests, with failing
      statements and cancellation, the tables keep their constraints, a revoked session stays revoked
      with its first time and reason, and the audit trail only grows.  [authentication_is_exact]: a
      cookie is accepted exactly when it is that of an active session.  Logging in issues a cookie
      that authenticates, logging out is final, a password change revokes exactly the other sessions
      of the user, refusals of unknown users and of wrong passwords look alike, a throttled login has
      no effect, a cross-site write and a request on the session of somebody else are refused.
      [bootstrap_race] and [logout_hides_database_failure] record two defects.

    - Host-key trust.  [host_trust_history]: under every interleaving of requests, every signature went
      to a server whose key was pinned, trusted and unrevoked when the pins were read, a revoked pin is
      never revived and the pins and audit rows of the past are kept.  [no_signature_without_pin]: that
      the two clients alone guarantee it, whatever the SSH library does.  A replacement is atomic and
      carries its two audit rows, trusting has the effect it reports, and the two notions of a trusted
      key in the code agree.  [replace_single_pin] records when the one-pin-per-type claim of a comment
      fails.

    - The inventory.  [inventory_history]: under every interleaving of inventory, host-key and
      authentication requests, with failing statements and cancellation, a profile refers to a host and
      an identity of its own user, names and fingerprints are unique per user, every text in the tables
      passes its validator, keys and owners never change, and nothing deleted returns.
      [validators_exact]: what the validators accept.  [vault_keeps_identity]: what is stored decrypts to
      the key that was announced.  [foreign_inventory_hidden]: the rows of others look missing.
      [delete_spares_references] and [profile_patch_exact]: what deleting and changing do on every branch.
      [host_delete_drops_pin] records a race: a pin that is written while its host is deleted is lost,
      which [host_trust_history] does not see because no task of its histories deletes hosts.

    - The socket.  [reconnect_stream_exact]: under every interleaving with the forwarder and any other
      task that keeps the session alive, a client that sends its bookmark first receives exactly the
      frames of the log from its bookmark on, across the seam of replay and live stream, or is told
      where the stream resumes ([forwarder_feeds] shows that the forwarder is such a task).
      [socket_outlives_pty], [failed_ack_leaks_session] and [late_handshake_duplicates] record three
      defects of the task.
    - Launches.  [create_gates]: nothing is dialled, signed or stored unless the user owns profile, host
      and identity, the profile is enabled, the host pinned and the ceilings are not reached.
      [create_effect]: the effect of a launch, for a PTY that starts and for one that does not.
      [foreign_session_hidden]: the sessions of others look missing.  [live_ceiling_exceeded] and
      [remote_exit_keeps_slot] record two defects of the ceilings.
    - The path of output.  [pipeline_exact]: in every interleaving of bridge, driver, forwarder and writer tasks
      with any calls, forwarders and timers of the orchestrator, live channel, replay ring and recorded rows
      hold what the server sent, in order and under the same numbers.  The lemmas of [Beside.v] show that no
      action of the others touches the forwarder's objects; [start_live_pty_binds]: a bound session is where
      the pipeline begins.  A turn of this forwarder is one step; [forwarder_feeds] looks inside a turn.
    - The bridge.  [bridge_streams_exact]: order and completeness of input and output in every run, and the
      bounds of the queues.  [closed_bridge_ends]: a closed bridge comes to its end whatever the scheduler
      does.  [close_loses_input] and [status_after_eof_lost] record what is lost at the end of a stream.
    - Reading.  [recording_reads_back]: paging through a recording gives back what the writer kept.
      [foreign_recording_hidden]: the recordings of others look missing.  [audit_feed_discloses_only_public]: the
      audit feed depends on public fields of own rows only.  [marker_beyond_page_unreachable] records a defect
      of the paging of markers.  [policy_reports_configuration]: the limits a client is told are in force.
    - Configuration and start.  [load_precedence]: which source a field comes from.
      [accepted_config_exact]: what the validators accept.  [start_is_safe]: no start panics, one that
      serves is sound, and one that refuses has done no harm; [sound_start_serves]: when it serves.
      [restart_restores_invariant]: the invariant of [orchestrator_safety] holds again after a crash.
      [worker_drains_expired]: the worker gets through its backlog.  [process_runs_worker_loop] and
      [shutdown_orderly]: the worker under [main], and its end after a signal.  [redaction_exact] shows what the
      mask of the database URL leaks.
    ** What is not modelled

    The HTTP server, the nesting of the routers and the health answer.  The parser of request bodies and of client messages
    is a parameter or left out ([ClientJson]); of the JSON of a profile patch, the one field that tells
    [null] from absence is modelled.  The times at which the retention worker ticks are arguments.  Tracing output, [Debug] implementations, the wiping of key buffers and the
    front ends are left out. *)

From stdpp Require Export base gmap list strings sets.
From Stdlib Require Export ZArith Lia.
From Stdlib Require Import Strings.Byte.

#[export] Set Default Goal Selector "!".
#[export] Set Warnings "-clear-no-such-hyp".

(** ** Scopes and notations *)

Declare Scope rust_scope.
Delimit Scope rust_scope with rust.
Open Scope Z_scope.
Open Scope rust_scope.

(** ** Results: Rust's [Result<A, E>] *)

Inductive result (E A : Type) : Type :=
| Ok (a : A)
| Err (e : E).
Arguments Ok {E A} _.
Arguments Err {E A} _.

#[export] Instance result_eq_dec `{EqDecision E, EqDecision A} : EqDecision (result E A).
Proof. solve_decision. Defined.

Definition result_bind {E A B} (r : result E A) (k : A -> result E B) : result E B :=
  match r with Ok a => k a | Err e => Err e end.

Definition ok_or {E A} (o : option A) (e : E) : result E A :=
  match o with Some a => Ok a | None => Err e end.

Definition map_err {E F A} (f : E -> F) (r : result E A) : result F A :=
  match r with Ok a => Ok a | Err e => Err (f e) end.

Definition is_ok {E A} (r : result E A) : bool :=
  match r with Ok _ => true | Err _ => false end.

(** The [?] operator of a pure fallible function. *)
Notation "'let?' x ':=' r 'in' k" := (result_bind r (fun x => k))
  (at level 10, x binder, r at level 100, k at level 200) : rust_scope.

(** [collect::<Result<Vec<_>, _>>()] *)
Fixpoint collect {E A} (l : list (result E A)) : result E (list A) :=
  match l with
  | [] => Ok []
  | Ok a :: l => let? rest := collect l in Ok (a :: rest)
  | Err e :: _ => Err e
  end.

Lemma collect_ok {E A B} (f : A -> result E B) (g : A -> B) l :
  Forall (fun a => f a = Ok (g a)) l -> collect (map f l) = Ok (map g l).
Proof. induction 1 as [|a l E1 _ IH]; [done|]. cbn. by rewrite E1, IH. Qed.

Lemma result_bind_ok {E A B} (r : result E A) (k : A -> result E B) b :
  result_bind r k = Ok b <-> exists a, r = Ok a /\ k a = Ok b.
Proof. destruct r; cbn; naive_solver. Qed.

Lemma result_bind_err {E A B} (r : result E A) (k : A -> result E B) e :
  result_bind r k = Err e <-> r = Err e \/ exists a, r = Ok a /\ k a = Err e.
Proof. destruct r; cbn; naive_solver. Qed.

Lemma map_err_ok {E F A} (f : E -> F) (r : result E A) a : map_err f r = Ok a <-> r = Ok a.
Proof. destruct r; cbn; naive_solver. Qed.

Lemma map_err_err {E F A} (f : E -> F) (r : result E A) e : map_err f r = Err e -> exists e', e = f e'.
Proof. destruct r; cbn; [done|]. intros [= <-]. by eexists. Qed.

Lemma ok_or_ok {E A} (o : option A) (e : E) a : ok_or o e = Ok a <-> o = Some a.
Proof. destruct o; cbn; naive_solver. Qed.

(** ** Machine integers

    An unsigned [w]-bit integer is a [Z] in [[0, 2^w)]; [usize] is 64 bits wide. *)

Definition u16_max : Z := 65535.
Definition u32_max : Z := 4294967295.
Definition u64_max : Z := 18446744073709551615.
Definition usize_max : Z := u64_max.
Definition i64_max : Z := 9223372036854775807.

Definition is_u16 (z : Z) : Prop := 0 <= z <= u16_max.
Definition is_u32 (z : Z) : Prop := 0 <= z <= u32_max.
Definition is_u64 (z : Z) : Prop := 0 <= z <= u64_max.

(** [AtomicU64::fetch_add] and release-mode [+] wrap around. *)
Definition wrapping_add64 (a b : Z) : Z := (a + b) mod (u64_max + 1).

(** [usize::saturating_add] and [usize::saturating_sub]. *)
Definition saturating_add (a b : Z) : Z := Z.min (a + b) usize_max.
Definition saturating_sub (a b : Z) : Z := Z.max 0 (a - b).

(** [Vec::len] and [slice::len] as a [usize]. *)
Definition len {A} (l : list A) : Z := Z.of_nat (length l).

Lemma len_nonneg {A} (l : list A) : 0 <= len l.
Proof. unfold len. lia. Qed.

Lemma len_nil {A} : len (@nil A) = 0.
Proof. reflexivity. Qed.

Lemma len_cons {A} (x : A) l : len (x :: l) = 1 + len l.
Proof. unfold len. cbn [length]. lia. Qed.

Lemma len_app {A} (l k : list A) : len (l ++ k) = len l + len k.
Proof. unfold len. rewrite length_app. lia. Qed.

Lemma wrapping_add64_small a b :
  0 <= a + b <= u64_max -> wrapping_add64 a b = a + b.
Proof. unfold wrapping_add64, u64_max. intros. apply Z.mod_small. lia. Qed.

Lemma wrapping_add64_range a b : is_u64 (wrapping_add64 a b).
Proof.
  unfold is_u64, wrapping_add64.
  pose proof (Z.mod_pos_bound (a + b) (u64_max + 1)) as H.
  unfold u64_max in *. lia.
Qed.

Lemma saturating_add_small a b : a + b <= usize_max -> saturating_add a b = a + b.
Proof. unfold saturating_add. lia. Qed.

Lemma saturating_sub_small a b : b <= a -> saturating_sub a b = a - b.
Proof. unfold saturating_sub. lia. Qed.

(** Filters that keep everything or nothing. *)
Lemma list_filter_all {A} (P : A -> Prop) `{!forall x, Decision (P x)} (l : list A) :
  Forall P l -> filter P l = l.
Proof.
  induction 1 as [|x l Hx _ IH]; [done|]. rewrite filter_cons_True by done. by rewrite IH.
Qed.

Lemma list_filter_none {A} (P : A -> Prop) `{!forall x, Decision (P x)} (l : list A) :
  Forall (fun x => ~ P x) l -> filter P l = [].
Proof. induction 1 as [|x l Hx _ IH]; [done|]. by rewrite filter_cons_False. Qed.

(** ** Bytes *)

Definition byte_val (b : Byte.byte) : Z := Z.of_N (Byte.to_N b).

Definition byte_of (z : Z) : Byte.byte :=
  match Byte.of_N (Z.to_N (z mod 256)) with Some b => b | None => Byte.x00 end.

#[export] Instance byte_eq_dec : EqDecision Byte.byte.
Proof. intros x y. destruct (Byte.byte_eq_dec x y); [left | right]; assumption. Defined.

Lemma byte_val_range b : 0 <= byte_val b < 256.
Proof. unfold byte_val. pose proof (Byte.to_N_bounded b). lia. Qed.

Lemma byte_val_of z : byte_val (byte_of z) = z mod 256.
Proof.
  unfold byte_val, byte_of.
  pose proof (Z.mod_pos_bound z 256 ltac:(lia)) as Hb.
  destruct (Byte.of_N (Z.to_N (z mod 256))) as [b|] eqn:E.
  - apply Byte.to_of_N in E. rewrite E. lia.
  - apply Byte.of_N_None_iff in E. lia.
Qed.

Lemma byte_val_inj a b : byte_val a = byte_val b -> a = b.
Proof.
  unfold byte_val. intros H. apply N2Z.inj in H.
  pose proof (Byte.of_to_N a) as Ha. pose proof (Byte.of_to_N b) as Hb.
  rewrite H in Ha. congruence.
Qed.

Lemma byte_of_val b : byte_of (byte_val b) = b.
Proof.
  apply byte_val_inj. rewrite byte_val_of. apply Z.mod_small. apply byte_val_range.
Qed.

(** Big-endian byte order: [uN::to_be_bytes] and [uN::from_be_bytes], most significant byte
    first. *)
Fixpoint to_be_bytes (n : nat) (z : Z) : list Byte.byte :=
  match n with
  | O => []
  | S n => to_be_bytes n (z / 256) ++ [byte_of z]
  end.

Definition from_be_bytes (l : list Byte.byte) : Z :=
  foldl (fun acc b => acc * 256 + byte_val b) 0 l.

Lemma length_to_be_bytes n z : length (to_be_bytes n z) = n.
Proof.
  revert z; induction n as [|n IH]; intros z; cbn; [done|].
  rewrite length_app, IH. cbn. lia.
Qed.

Lemma from_be_bytes_snoc l b : from_be_bytes (l ++ [b]) = from_be_bytes l * 256 + byte_val b.
Proof. unfold from_be_bytes. rewrite foldl_app. done. Qed.

Lemma from_to_be_bytes n z :
  0 <= z < 256 ^ Z.of_nat n -> from_be_bytes (to_be_bytes n z) = z.
Proof.
  revert z; induction n as [|n IH]; intros z Hz.
  - cbn in *. lia.
  - rewrite Nat2Z.inj_succ, Z.pow_succ_r in Hz by lia.
    cbn [to_be_bytes]. rewrite from_be_bytes_snoc, byte_val_of, IH.
    + pose proof (Z.div_mod z 256). lia.
    + split; [apply Z.div_pos; lia | apply Z.div_lt_upper_bound; lia].
Qed.

Lemma from_be_bytes_range l : 0 <= from_be_bytes l < 256 ^ len l.
Proof.
  induction l as [|b l IH] using rev_ind; [vm_compute; split; congruence|].
  rewrite from_be_bytes_snoc, len_app. change (len [b]) with 1.
  rewrite Z.pow_add_r, Z.pow_1_r by (pose proof (len_nonneg l); lia).
  pose proof (byte_val_range b). lia.
Qed.

Lemma to_from_be_bytes l : to_be_bytes (length l) (from_be_bytes l) = l.
Proof.
  induction l as [|b l IH] using rev_ind; [done|].
  rewrite length_app, Nat.add_comm. cbn [length Nat.add to_be_bytes].
  rewrite from_be_bytes_snoc. pose proof (byte_val_range b) as Hb. f_equal.
  - rewrite Z.div_add_l, Z.div_small, Z.add_0_r by lia. exact IH.
  - f_equal. apply byte_val_inj. rewrite byte_val_of.
    rewrite Z.add_comm, Z.mod_add, Z.mod_small; lia.
Qed.

(** ** Strings

    A Rust [str] is the list of its Unicode scalar values, so that [chars()], [trim()] and the
    ASCII case maps act on the elements; [str::len] is its UTF-8 length. *)

Abbreviation rstr := (list Z).

Definition lit (s : string) : rstr :=
  map (fun a => Z.of_N (Ascii.N_of_ascii a)) (String.list_ascii_of_string s).

(** [char::is_whitespace]: the Unicode [White_Space] property. *)
Definition is_whitespace (c : Z) : bool :=
  ((9 <=? c) && (c <=? 13)) || (c =? 32) || (c =? 133) || (c =? 160) || (c =? 5760)
  || ((8192 <=? c) && (c <=? 8202)) || (c =? 8232) || (c =? 8233) || (c =? 8239)
  || (c =? 8287) || (c =? 12288).

(** [char::is_control]: the Unicode category [Cc] *)
Definition is_control (c : Z) : bool := ((0 <=? c) && (c <=? 31)) || ((127 <=? c) && (c <=? 159)).

Definition char_len_utf8 (c : Z) : Z :=
  if c <? 128 then 1 else if c <? 2048 then 2 else if c <? 65536 then 3 else 4.

(** [str::len]. *)
Definition str_len (s : rstr) : Z := foldr (fun c n => char_len_utf8 c + n) 0 s.

Fixpoint trim_start (s : rstr) : rstr :=
  match s with
  | [] => []
  | c :: s' => if is_whitespace c then trim_start s' else s
  end.

Definition trim (s : rstr) : rstr := reverse (trim_start (reverse (trim_start s))).

Definition char_to_ascii_lowercase (c : Z) : Z :=
  if (65 <=? c) && (c <=? 90) then c + 32 else c.

Definition to_ascii_lowercase (s : rstr) : rstr := map char_to_ascii_lowercase s.

(** [str::split] on a character *)
Fixpoint split_on (sep : Z) (s : rstr) : list rstr :=
  match s with
  | [] => [[]]
  | c :: s' =>
      if c =? sep then [] :: split_on sep s'
      else match split_on sep s' with
           | p :: ps => (c :: p) :: ps
           | [] => [[c]]
           end
  end.

(** [str::find] and [split_at], without the separator *)
Fixpoint break_on (sep : Z) (s : rstr) : option (rstr * rstr) :=
  match s with
  | [] => None
  | c :: s' => if c =? sep then Some ([], s') else
      match break_on sep s' with Some (a, b) => Some (c :: a, b) | None => None end
  end.

(** [str::contains] *)
Fixpoint str_contains (needle hay : rstr) : bool :=
  bool_decide (needle `prefix_of` hay)
  || match hay with [] => false | _ :: hay => str_contains needle hay end.

(** [str::parse] of an unsigned integer: an optional plus sign and digits, none of which overflows. *)
Definition to_digit (c : Z) : option Z := if (48 <=? c) && (c <=? 57) then Some (c - 48) else None.

Fixpoint parse_digits (max acc : Z) (s : rstr) : option Z :=
  match s with
  | [] => Some acc
  | c :: s =>
      match to_digit c with
      | Some d => let n := 10 * acc + d in if n <=? max then parse_digits max n s else None
      | None => None
      end
  end.

Definition parse_uint (max : Z) (s : rstr) : option Z :=
  match s with
  | [] => None
  | c :: s' => if (c =? 43) && negb (bool_decide (s' = [])) then parse_digits max 0 s' else parse_digits max 0 s
  end.

(** [str::parse] of a [bool] *)
Definition parse_bool (s : rstr) : option bool :=
  if bool_decide (s = lit "true") then Some true else if bool_decide (s = lit "false") then Some false else None.

(** ** Automation *)

Create HintDb relay discriminated.

(** Reduce the booleans of a guard to propositions. *)
Ltac bool_props :=
  repeat match goal with
  | H : (_ <? _) = true |- _ => apply Z.ltb_lt in H
  | H : (_ <? _) = false |- _ => apply Z.ltb_ge in H
  | H : (_ <=? _) = true |- _ => apply Z.leb_le in H
  | H : (_ <=? _) = false |- _ => apply Z.leb_gt in H
  | H : (_ =? _) = true |- _ => apply Z.eqb_eq in H
  | H : (_ =? _) = false |- _ => apply Z.eqb_neq in H
  | H : (_ && _)%bool = true |- _ => apply andb_true_iff in H as [? ?]
  | H : (_ || _)%bool = false |- _ => apply orb_false_iff in H as [? ?]
  | H : negb _ = true |- _ => apply negb_true_iff in H
  | H : negb _ = false |- _ => apply negb_false_iff in H
  | H : bool_decide _ = true |- _ => apply bool_decide_eq_true in H
  | H : bool_decide _ = false |- _ => apply bool_decide_eq_false in H
  end.

(** Case analysis on every [if] and [match] of the goal, discarding the absurd cases. *)
Ltac split_cases :=
  repeat (case_match; simplify_eq/=; try done); bool_props.

(** Whitespace trimming. *)
Lemma trim_start_idemp s : trim_start (trim_start s) = trim_start s.
Proof.
  induction s as [|c s IH]; cbn; [done|].
  destruct (is_whitespace c) eqn:E; [exact IH|]. cbn. by rewrite E.
Qed.

Lemma trim_start_head s c : head (trim_start s) = Some c -> is_whitespace c = false.
Proof.
  induction s as [|d s IH]; cbn; [done|].
  destruct (is_whitespace d) eqn:E; [exact IH|]. cbn. congruence.
Qed.

Lemma trim_start_id s :
  (forall c, head s = Some c -> is_whitespace c = false) -> trim_start s = s.
Proof. destruct s as [|c s]; cbn; [done|]. intros H. by rewrite (H c eq_refl). Qed.

Lemma trim_start_suffix s : exists p, s = p ++ trim_start s.
Proof.
  induction s as [|c s [p IH]]; cbn; [by exists []|].
  destruct (is_whitespace c); [|by exists []]. exists (c :: p). cbn. congruence.
Qed.

Lemma trim_idemp s : trim (trim s) = trim s.
Proof.
  unfold trim. set (u := trim_start s).
  destruct (trim_start_suffix (reverse u)) as [p Hp].
  set (v := trim_start (reverse u)) in *.
  assert (Hu : u = reverse v ++ reverse p).
  { by rewrite <- reverse_app, <- Hp, reverse_involutive. }
  assert (trim_start (reverse v) = reverse v) as ->.
  { apply trim_start_id. intros c Hc. apply (trim_start_head s).
    fold u. rewrite Hu. destruct (reverse v); [done|]. exact Hc. }
  rewrite reverse_involutive. f_equal. unfold v. apply trim_start_idemp.
Qed.

Lemma trim_start_fixed s c : trim_start s = s -> head s = Some c -> is_whitespace c = false.
Proof. intros E H. apply (trim_start_head s). by rewrite E. Qed.

Lemma length_trim_start s : (length (trim_start s) <= length s)%nat.
Proof. destruct (trim_start_suffix s) as [p E]. rewrite E at 2. rewrite length_app. lia. Qed.

(** A string is trimmed when it neither starts nor ends with whitespace. *)
Lemma trim_fixed s :
  trim s = s <-> (forall c, head s = Some c \/ last s = Some c -> is_whitespace c = false).
Proof.
  unfold trim. split.
  - intros E.
    assert (H1 : trim_start s = s).
    { destruct (trim_start_suffix s) as [p Hp].
      pose proof (length_trim_start (reverse (trim_start s))) as H2. rewrite length_reverse in H2.
      apply (f_equal length) in E. rewrite length_reverse in E.
      assert (length p = 0)%nat.
      { pose proof (f_equal length Hp) as H3. rewrite length_app in H3. lia. }
      destruct p; [|done]. cbn in Hp. congruence. }
    rewrite H1 in E. assert (H2 : trim_start (reverse s) = reverse s)
      by (apply (f_equal reverse) in E; by rewrite reverse_involutive in E).
    intros c [Hc|Hc]; [by apply (trim_start_fixed s)|].
    apply (trim_start_fixed (reverse s)); [done|]. by rewrite head_reverse.
  - intros H. rewrite (trim_start_id s) by (intros c Hc; apply H; by left).
    rewrite (trim_start_id (reverse s)); [apply reverse_involutive|].
    intros c Hc. apply H. right. by rewrite <- head_reverse.
Qed.

(** ASCII strings have as many bytes as characters. *)
Lemma str_len_ascii s : Forall (fun c => c < 128) s -> str_len s = len s.
Proof.
  induction 1 as [|c s Hc _ IH]; [done|]. rewrite len_cons, <- IH.
  change (str_len (c :: s)) with (char_len_utf8 c + str_len s).
  unfold char_len_utf8. by rewrite (proj2 (Z.ltb_lt c 128) Hc).
Qed.

Lemma existsb_Forall {A} (f : A -> bool) (l : list A) :
  existsb f l = false <-> Forall (fun x => f x = false) l.
Proof.
  induction l as [|x l IH]; cbn; [by split; [constructor|]|].
  rewrite orb_false_iff, IH, Forall_cons. done.
Qed.
