(* ===== verification/Validation.v ===== *)
(** * Validation of user-supplied strings

    Models [crates/relayterm-core/src/validation.rs]: the validators behind the newtypes
    [HostDisplayName], [Hostname], [SshPort], [SshUsername], [ProfileName] and [Tag].  A newtype is
    transparent here; what its values satisfy is a predicate, and the validators accept exactly the
    values that satisfy it. *)

From stdpp Require Import pretty.
From S2P Require Import Prelude.

(** The [Debug] form of a character and of a string, which the messages quote. *)
Class RustDebug := { char_debug : Z -> rstr; str_debug : rstr -> rstr }.

Definition MAX_TAGS : Z := 32.

(** [ValidationError] *)
Inductive ValidationError :=
| Empty (field : string)
| TooLong (field : string) (max actual : Z)
| ControlChar (field : string)
| Whitespace (field : string)
| InvalidChar (field : string) (ch : Z)
| Surrounding (field : string)
| BadLeadingChar (field : string)
| OutOfRange (field : string) (min max actual : Z)
| TooMany (field : string) (max actual : Z)
| Duplicate (field : string) (value : rstr).

(** [Display] of [ValidationError] *)
Definition validation_display {Db : RustDebug} (e : ValidationError) : rstr :=
  match e with
  | Empty field => lit (field +:+ " must not be empty")
  | TooLong field max actual =>
      lit (field +:+ " must be at most " +:+ pretty max +:+ " characters (got " +:+ pretty actual +:+ ")")
  | ControlChar field => lit (field +:+ " must not contain control characters")
  | Whitespace field => lit (field +:+ " must not contain whitespace")
  | InvalidChar field ch => lit (field +:+ " contains an invalid character: ") ++ char_debug ch
  | Surrounding field => lit (field +:+ " must not start or end with whitespace")
  | BadLeadingChar field => lit (field +:+ " must start with a letter or underscore")
  | OutOfRange field min max actual =>
      lit (field +:+ " must be in range " +:+ pretty min +:+ "..=" +:+ pretty max +:+ " (got "
           +:+ pretty actual +:+ ")")
  | TooMany field max actual => lit ("too many " +:+ field +:+ ": " +:+ pretty actual +:+ " > " +:+ pretty max)
  | Duplicate field value => lit ("duplicate " +:+ field +:+ ": ") ++ value
  end.

(** ** Characters *)

Definition is_ascii_alphabetic (c : Z) : bool := ((65 <=? c) && (c <=? 90)) || ((97 <=? c) && (c <=? 122)).
Definition is_ascii_digit (c : Z) : bool := (48 <=? c) && (c <=? 57).
Definition is_ascii_alphanumeric (c : Z) : bool := is_ascii_alphabetic c || is_ascii_digit c.

(** [matches!(ch, 'a' | 'b' | ...)] *)
Definition one_of (chars : string) (c : Z) : bool := bool_decide (c ∈ lit chars).

(** ** The validators *)

(** [validate_host_display_name] *)
Definition validate_host_display_name (input : rstr) : result ValidationError rstr :=
  let field := "host display name"%string in
  if bool_decide (input = []) then Err (Empty field)
  else if negb (bool_decide (input = trim input)) then Err (Surrounding field)
  else if 128 <? len input then Err (TooLong field 128 (len input))
  else if existsb is_control input then Err (ControlChar field)
  else Ok input.

Definition hostname_char (c : Z) : bool := is_ascii_alphanumeric c || one_of "-.:[]_" c.

(** The loop of [validate_hostname]: the first character that is not allowed decides. *)
Fixpoint check_hostname_chars (chars : rstr) : result ValidationError unit :=
  match chars with
  | [] => Ok tt
  | ch :: rest =>
      if is_whitespace ch then Err (Whitespace "hostname")
      else if is_control ch then Err (ControlChar "hostname")
      else if negb (hostname_char ch) then Err (InvalidChar "hostname" ch)
      else check_hostname_chars rest
  end.

(** [validate_hostname] *)
Definition validate_hostname (input : rstr) : result ValidationError rstr :=
  if bool_decide (input = []) then Err (Empty "hostname")
  else if 253 <? str_len input then Err (TooLong "hostname" 253 (str_len input))
  else let? _ := check_hostname_chars input in Ok input.

(** [validate_ssh_port]: the argument is a [u32]. *)
Definition validate_ssh_port (port : Z) : result ValidationError Z :=
  if negb ((1 <=? port) && (port <=? u16_max)) then Err (OutOfRange "ssh port" 1 u16_max port)
  else Ok (port mod (u16_max + 1)).

(** The loops of [validate_ssh_username] and [validate_tag] *)
Fixpoint check_chars (field : string) (ok : Z -> bool) (chars : rstr) : result ValidationError unit :=
  match chars with
  | [] => Ok tt
  | ch :: rest => if negb (ok ch) then Err (InvalidChar field ch) else check_chars field ok rest
  end.

Definition username_char (c : Z) : bool := is_ascii_alphanumeric c || one_of "-_." c.
Definition username_lead (c : Z) : bool := is_ascii_alphabetic c || one_of "_" c.

(** [validate_ssh_username] *)
Definition validate_ssh_username (input : rstr) : result ValidationError rstr :=
  let field := "ssh username"%string in
  match input with
  | [] => Err (Empty field)
  | first :: chars =>
      if 64 <? str_len input then Err (TooLong field 64 (str_len input))
      else if negb (username_lead first) then Err (BadLeadingChar field)
      else let? _ := check_chars field username_char chars in Ok input
  end.

(** [validate_profile_name] *)
Definition validate_profile_name (input : rstr) : result ValidationError rstr :=
  let field := "profile name"%string in
  if bool_decide (input = []) then Err (Empty field)
  else if negb (bool_decide (input = trim input)) then Err (Surrounding field)
  else if 64 <? len input then Err (TooLong field 64 (len input))
  else if existsb is_control input then Err (ControlChar field)
  else Ok input.

Definition tag_char (c : Z) : bool := is_ascii_alphanumeric c || one_of "-_" c.

(** [validate_tag] *)
Definition validate_tag (input : rstr) : result ValidationError rstr :=
  if bool_decide (input = []) then Err (Empty "tag")
  else if 32 <? str_len input then Err (TooLong "tag" 32 (str_len input))
  else let? _ := check_chars "tag" tag_char input in Ok input.

(** The loop of [validate_tags]; [out] are the tags pushed so far. *)
Fixpoint collect_tags (out inputs : list rstr) : result ValidationError (list rstr) :=
  match inputs with
  | [] => Ok out
  | raw :: rest =>
      let? tag := validate_tag raw in
      if existsb (fun t => bool_decide (t = tag)) out then Err (Duplicate "tag" tag)
      else collect_tags (out ++ [tag]) rest
  end.

(** [validate_tags] *)
Definition validate_tags (inputs : list rstr) : result ValidationError (list rstr) :=
  if MAX_TAGS <? len inputs then Err (TooMany "tags" MAX_TAGS (len inputs))
  else collect_tags [] inputs.

(** ** What the newtypes promise *)

(** A label: [HostDisplayName] up to 128 characters, [ProfileName] up to 64. *)
Record label_wf (max : Z) (s : rstr) : Prop := {
  lw_nonempty : s <> [];
  lw_len : len s <= max;
  lw_trimmed : forall c, head s = Some c \/ last s = Some c -> is_whitespace c = false;
  lw_printable : Forall (fun c => is_control c = false) s
}.

(** A word over an ASCII alphabet: [Hostname] and [Tag]. *)
Record word_wf (max : Z) (ok : Z -> bool) (s : rstr) : Prop := {
  ww_nonempty : s <> [];
  ww_len : len s <= max;
  ww_chars : Forall (fun c => ok c = true) s
}.

Definition hostname_wf : rstr -> Prop := word_wf 253 hostname_char.
Definition tag_wf : rstr -> Prop := word_wf 32 tag_char.
Definition username_wf (s : rstr) : Prop :=
  word_wf 64 username_char s /\ exists c, head s = Some c /\ username_lead c = true.
Definition port_wf (p : Z) : Prop := 1 <= p <= u16_max.
Record tags_wf (l : list rstr) : Prop := {
  tg_count : len l <= MAX_TAGS;
  tg_distinct : NoDup l;
  tg_each : Forall tag_wf l
}.

(** *** Lemmas *)

Lemma alphanumeric_ascii c : is_ascii_alphanumeric c = true -> 48 <= c <= 122.
Proof. unfold is_ascii_alphanumeric, is_ascii_alphabetic, is_ascii_digit. intros H. lia. Qed.

(** A member of a literal alphabet is one of its characters. *)
Ltac one_of_cases H :=
  unfold one_of in H; apply bool_decide_eq_true in H; cbn in H;
  repeat (apply elem_of_cons in H as [->|H]); [..|by apply not_elem_of_nil in H].

Lemma hostname_char_plain c : hostname_char c = true -> 32 < c < 127.
Proof.
  unfold hostname_char. intros [H|H]%orb_true_iff; [apply alphanumeric_ascii in H; lia|].
  one_of_cases H; lia.
Qed.

Lemma username_char_plain c : username_char c = true -> 32 < c < 127.
Proof.
  unfold username_char. intros [H|H]%orb_true_iff; [apply alphanumeric_ascii in H; lia|].
  one_of_cases H; lia.
Qed.

Lemma tag_char_plain c : tag_char c = true -> 32 < c < 127.
Proof.
  unfold tag_char. intros [H|H]%orb_true_iff; [apply alphanumeric_ascii in H; lia|].
  one_of_cases H; lia.
Qed.

Lemma username_lead_char c : username_lead c = true -> username_char c = true.
Proof.
  unfold username_lead, username_char, is_ascii_alphanumeric. intros [->|H]%orb_true_iff; [done|].
  one_of_cases H. reflexivity.
Qed.

Lemma plain_no_space c : 32 < c < 127 -> is_whitespace c = false /\ is_control c = false.
Proof. unfold is_whitespace, is_control. lia. Qed.

(** An alphabet of plain characters: bytes and characters agree. *)
Lemma plain_str_len (ok : Z -> bool) s :
  (forall c, ok c = true -> 32 < c < 127) -> Forall (fun c => ok c = true) s -> str_len s = len s.
Proof.
  intros Hok Hs. apply str_len_ascii. eapply Forall_impl; [exact Hs|]. intros c Hc. specialize (Hok c Hc). lia.
Qed.

Lemma check_chars_ok field ok s : check_chars field ok s = Ok tt <-> Forall (fun c => ok c = true) s.
Proof.
  induction s as [|c s IH]; cbn; [by split|]. rewrite Forall_cons, <- IH. destruct (ok c); cbn; naive_solver.
Qed.

Lemma check_hostname_ok s : check_hostname_chars s = Ok tt <-> Forall (fun c => hostname_char c = true) s.
Proof.
  induction s as [|c s IH]; cbn; [by split|]. rewrite Forall_cons, <- IH.
  destruct (hostname_char c) eqn:E.
  - destruct (plain_no_space c (hostname_char_plain c E)) as [-> ->]. cbn. naive_solver.
  - destruct (is_whitespace c); [naive_solver|]. destruct (is_control c); naive_solver.
Qed.

(** *** The validators are exact *)

Lemma label_exact max s :
  s <> [] /\ trim s = s /\ len s <= max /\ existsb is_control s = false <-> label_wf max s.
Proof.
  rewrite trim_fixed, existsb_Forall. split; [by intros (? & ? & ? & ?)|by intros []].
Qed.

Lemma validate_host_display_name_exact s v :
  validate_host_display_name s = Ok v <-> v = s /\ label_wf 128 s.
Proof.
  rewrite <- label_exact. unfold validate_host_display_name.
  destruct (bool_decide (s = [])) eqn:E1; bool_props; [naive_solver|].
  destruct (bool_decide (s = trim s)) eqn:E2; bool_props; cbn [negb]; [|naive_solver].
  destruct (128 <? len s) eqn:E3; bool_props; [split; [done|lia]|].
  destruct (existsb is_control s); naive_solver.
Qed.

Lemma validate_profile_name_exact s v : validate_profile_name s = Ok v <-> v = s /\ label_wf 64 s.
Proof.
  rewrite <- label_exact. unfold validate_profile_name.
  destruct (bool_decide (s = [])) eqn:E1; bool_props; [naive_solver|].
  destruct (bool_decide (s = trim s)) eqn:E2; bool_props; cbn [negb]; [|naive_solver].
  destruct (64 <? len s) eqn:E3; bool_props; [split; [done|lia]|].
  destruct (existsb is_control s); naive_solver.
Qed.

Lemma word_exact max ok s :
  (forall c, ok c = true -> 32 < c < 127) ->
  s <> [] /\ str_len s <= max /\ Forall (fun c => ok c = true) s <-> word_wf max ok s.
Proof.
  intros Hok. split.
  - intros (H1 & H2 & H3). split; [done| |done]. by rewrite <- (plain_str_len ok).
  - intros [H1 H2 H3]. split; [done|]. split; [|done]. by rewrite (plain_str_len ok).
Qed.

Lemma validate_hostname_exact s v : validate_hostname s = Ok v <-> v = s /\ hostname_wf s.
Proof.
  unfold hostname_wf. rewrite <- (word_exact _ _ _ hostname_char_plain), <- check_hostname_ok.
  unfold validate_hostname. destruct (bool_decide (s = [])) eqn:E1; bool_props; [naive_solver|].
  destruct (253 <? str_len s) eqn:E2; bool_props; [split; [done|lia]|].
  destruct (check_hostname_chars s) as [[]|e]; cbn; naive_solver.
Qed.

Lemma validate_tag_exact s v : validate_tag s = Ok v <-> v = s /\ tag_wf s.
Proof.
  unfold tag_wf. rewrite <- (word_exact _ _ _ tag_char_plain), <- (check_chars_ok "tag").
  unfold validate_tag. destruct (bool_decide (s = [])) eqn:E1; bool_props; [naive_solver|].
  destruct (32 <? str_len s) eqn:E2; bool_props; [split; [done|lia]|].
  destruct (check_chars _ _ s) as [[]|e]; cbn; naive_solver.
Qed.

Lemma validate_ssh_username_exact s v : validate_ssh_username s = Ok v <-> v = s /\ username_wf s.
Proof.
  unfold username_wf. rewrite <- (word_exact _ _ _ username_char_plain).
  destruct s as [|c s]; [cbn; naive_solver|]. unfold validate_ssh_username. cbn [head].
  rewrite Forall_cons, <- (check_chars_ok "ssh username").
  destruct (64 <? str_len (c :: s)) eqn:E2; bool_props; [split; [done|lia]|].
  destruct (username_lead c) eqn:E3; cbn [negb]; [|split; [done|]; intros (_ & _ & x & [= <-] & ?); congruence].
  pose proof (username_lead_char c E3). destruct (check_chars _ _ s) as [[]|e]; cbn; naive_solver.
Qed.

Lemma validate_ssh_port_exact p v : validate_ssh_port p = Ok v <-> v = p /\ port_wf p.
Proof.
  unfold validate_ssh_port, port_wf.
  destruct ((1 <=? p) && (p <=? u16_max)) eqn:E; cbn [negb]; bool_props.
  - rewrite Z.mod_small by lia. naive_solver.
  - split; [done|]. intros [_ H]. lia.
Qed.

Lemma collect_tags_exact out l v :
  collect_tags out l = Ok v <-> v = out ++ l /\ NoDup l /\ Forall (fun t => t ∉ out) l /\ Forall tag_wf l.
Proof.
  revert out. induction l as [|t l IH]; intros out; cbn.
  { rewrite app_nil_r. split; [intros [= <-]|by intros [-> _]]. by split_and!; try constructor. }
  rewrite result_bind_ok. setoid_rewrite validate_tag_exact.
  rewrite NoDup_cons, !Forall_cons. split.
  - intros (t' & [-> Ht] & H). destruct (existsb _ out) eqn:E; [done|].
    apply existsb_Forall in E. apply IH in H as (-> & Hn & Ho & Hw). rewrite <- app_assoc.
    assert (Hto : t ∉ out).
    { intros Hin. rewrite Forall_forall in E. pose proof (E t Hin) as Hb. cbn beta in Hb. apply bool_decide_eq_false in Hb. done. }
    rewrite Forall_forall in Ho. split_and!; try done.
    + intros Hin. apply (Ho t Hin), elem_of_app. right. by apply list_elem_of_singleton.
    + apply Forall_forall. intros x Hx Hxo. apply (Ho x Hx), elem_of_app. by left.
  - intros (-> & [Hn1 Hn2] & [Ho1 Ho2] & Hw1 & Hw2). exists t. split; [done|].
    assert (existsb (fun t' => bool_decide (t' = t)) out = false) as ->.
    { apply existsb_Forall, Forall_forall. intros x Hx. apply bool_decide_eq_false. by intros ->. }
    apply IH. rewrite <- app_assoc. split_and!; try done. rewrite Forall_forall in Ho2 |- *.
    intros x Hx [H|H%list_elem_of_singleton]%elem_of_app; [by apply (Ho2 x Hx)|by subst].
Qed.

Lemma validate_tags_exact l v : validate_tags l = Ok v <-> v = l /\ tags_wf l.
Proof.
  unfold validate_tags. destruct (MAX_TAGS <? len l) eqn:E; bool_props.
  - split; [done|]. intros [_ []]. lia.
  - rewrite collect_tags_exact. cbn [app]. split.
    + by intros (-> & ? & _ & ?).
    + intros (-> & []). split_and!; try done. apply Forall_forall. intros x _. apply not_elem_of_nil.
Qed.

