(* ===== verification/Utf8.v ===== *)
(** * UTF-8

    [str::as_bytes], [str::from_utf8] and [String::from_utf8_lossy] of Rust's standard library: the
    encoder, and the strict decoder that finds the longest valid prefix of an ill-formed sequence.
    Decoding inverts encoding on Unicode scalar values. *)

From S2P Require Import Prelude.

Definition utf8_char (c : Z) : list Byte.byte :=
  if c <? 128 then [byte_of c]
  else if c <? 2048 then [byte_of (192 + c / 64); byte_of (128 + c mod 64)]
  else if c <? 65536 then
    [byte_of (224 + c / 4096); byte_of (128 + c / 64 mod 64); byte_of (128 + c mod 64)]
  else [byte_of (240 + c / 262144); byte_of (128 + c / 4096 mod 64);
        byte_of (128 + c / 64 mod 64); byte_of (128 + c mod 64)].

(** [str::as_bytes] *)
Definition as_bytes (s : rstr) : list Byte.byte := s ≫= utf8_char.

Definition between (a b x : Z) : bool := (a <=? x) && (x <=? b).
Definition continuation : Z -> bool := between 128 191.

(** The second byte of a sequence that is neither overlong, a surrogate nor past U+10FFFF. *)
Definition second_byte (b0 b1 : Z) : bool :=
  if b0 =? 224 then between 160 191 b1 else if b0 =? 237 then between 128 159 b1
  else if b0 =? 240 then between 144 191 b1 else if b0 =? 244 then between 128 143 b1
  else continuation b1.

(** The first character of a sequence and what follows it; [None] stands for an ill-formed part. *)
Definition next_char (b0 : Z) (l : list Z) : option Z * list Z :=
  if b0 <? 128 then (Some b0, l)
  else if between 194 223 b0 then
    match l with
    | b1 :: l1 => if continuation b1 then (Some ((b0 - 192) * 64 + (b1 - 128)), l1) else (None, l)
    | [] => (None, l)
    end
  else if between 224 239 b0 then
    match l with
    | b1 :: l1 =>
        if second_byte b0 b1 then
          match l1 with
          | b2 :: l2 =>
              if continuation b2 then (Some ((b0 - 224) * 4096 + (b1 - 128) * 64 + (b2 - 128)), l2)
              else (None, l1)
          | [] => (None, l1)
          end
        else (None, l)
    | [] => (None, l)
    end
  else if between 240 244 b0 then
    match l with
    | b1 :: l1 =>
        if second_byte b0 b1 then
          match l1 with
          | b2 :: l2 =>
              if continuation b2 then
                match l2 with
                | b3 :: l3 =>
                    if continuation b3 then
                      (Some ((b0 - 240) * 262144 + (b1 - 128) * 4096 + (b2 - 128) * 64 + (b3 - 128)), l3)
                    else (None, l2)
                | [] => (None, l2)
                end
              else (None, l1)
          | [] => (None, l1)
          end
        else (None, l)
    | [] => (None, l)
    end
  else (None, l).

(** The characters and the ill-formed parts of a byte sequence; every part takes at least one byte, so
    its length is fuel enough. *)
Fixpoint utf8_chunks (fuel : nat) (l : list Z) : list (option Z) :=
  match fuel, l with
  | S fuel, b0 :: l => let '(c, rest) := next_char b0 l in c :: utf8_chunks fuel rest
  | _, _ => []
  end.

Definition chunks (bytes : list Byte.byte) : list (option Z) := utf8_chunks (length bytes) (map byte_val bytes).

(** [str::from_utf8] *)
Definition from_utf8 (bytes : list Byte.byte) : option rstr := mapM id (chunks bytes).

(** [String::from_utf8_lossy] *)
Definition from_utf8_lossy (bytes : list Byte.byte) : rstr := map (default 65533) (chunks bytes).

(** ** Decoding inverts encoding *)

(** A Unicode scalar value *)
Definition scalar (c : Z) : Prop := 0 <= c <= 1114111 /\ ~ (55296 <= c <= 57343).

(** Prove a test on the bytes of an encoded character. *)
Ltac byte_test :=
  repeat match goal with x := _ |- _ => subst x end;
  unfold second_byte, continuation, between; repeat (case_match; bool_props);
  Z.to_euclidean_division_equations; lia.
Ltac rw_test b v := replace b with v by (symmetry; byte_test).

Lemma next_char_encoded c rest :
  scalar c -> exists b l, map byte_val (utf8_char c) ++ rest = b :: l /\ next_char b l = (Some c, rest).
Proof.
  intros [Hc Hs]. unfold utf8_char.
  destruct (c <? 128) eqn:E1; [|destruct (c <? 2048) eqn:E2; [|destruct (c <? 65536) eqn:E3]]; bool_props;
    cbn [map app]; rewrite !byte_val_of; do 2 eexists; (split; [reflexivity|]);
    rewrite !(Z.mod_small _ 256) by (Z.to_euclidean_division_equations; lia); unfold next_char.
  - by rewrite (proj2 (Z.ltb_lt c 128) E1).
  - set (b0 := 192 + c / 64). set (b1 := 128 + c mod 64).
    rw_test (b0 <? 128) false. rw_test (between 194 223 b0) true. rw_test (continuation b1) true.
    do 2 f_equal. subst b0 b1. Z.to_euclidean_division_equations; lia.
  - set (b0 := 224 + c / 4096). set (b1 := 128 + c / 64 mod 64). set (b2 := 128 + c mod 64).
    rw_test (b0 <? 128) false. rw_test (between 194 223 b0) false. rw_test (between 224 239 b0) true.
    rw_test (second_byte b0 b1) true. rw_test (continuation b2) true.
    do 2 f_equal. subst b0 b1 b2. Z.to_euclidean_division_equations; lia.
  - set (b0 := 240 + c / 262144). set (b1 := 128 + c / 4096 mod 64). set (b2 := 128 + c / 64 mod 64).
    set (b3 := 128 + c mod 64).
    rw_test (b0 <? 128) false. rw_test (between 194 223 b0) false. rw_test (between 224 239 b0) false.
    rw_test (between 240 244 b0) true. rw_test (second_byte b0 b1) true. rw_test (continuation b2) true.
    rw_test (continuation b3) true.
    do 2 f_equal. subst b0 b1 b2 b3. Z.to_euclidean_division_equations; lia.
Qed.

Lemma chunks_encoded s fuel :
  Forall scalar s -> (length (as_bytes s) <= fuel)%nat ->
  utf8_chunks fuel (map byte_val (as_bytes s)) = map Some s.
Proof.
  intros Hs. revert fuel. induction Hs as [|c s Hc _ IH]; intros fuel Hf; [by destruct fuel|].
  change (as_bytes (c :: s)) with (utf8_char c ++ as_bytes s) in *. rewrite map_app. rewrite length_app in Hf.
  destruct (next_char_encoded c (map byte_val (as_bytes s)) Hc) as (b & l & E & Hn). rewrite E.
  assert (Hlen : (1 <= length (utf8_char c))%nat) by (unfold utf8_char; repeat case_match; cbn; lia).
  destruct fuel as [|fuel]; [lia|]. cbn [utf8_chunks]. rewrite Hn. cbn [map]. f_equal. apply IH. lia.
Qed.

Lemma mapM_Some {A} (l : list A) : mapM (M := option) id (map Some l) = Some l.
Proof. induction l as [|x l IH]; [done|]. cbn. by rewrite IH. Qed.

(** A string decodes from its bytes. *)
Lemma from_utf8_as_bytes s : Forall scalar s -> from_utf8 (as_bytes s) = Some s.
Proof. intros Hs. unfold from_utf8, chunks. rewrite chunks_encoded by done. apply mapM_Some. Qed.

Lemma from_utf8_lossy_as_bytes s : Forall scalar s -> from_utf8_lossy (as_bytes s) = s.
Proof.
  intros Hs. unfold from_utf8_lossy, chunks. rewrite chunks_encoded by done.
  rewrite map_map. apply map_id.
Qed.
