(* ===== verification/Replay.v ===== *)
(** * The in-memory replay buffer

    Models [crates/relayterm-terminal/src/replay.rs]: the bounded ring of output frames a live
    session keeps so that a client that reconnects with the sequence number it saw last is made
    whole.  [ReplayBuffer] translates the type and its methods; [ReplaySpec] is the contract the
    documentation states, over the complete log of the frames ever stamped; the last section
    proves that the ring implements it. *)

From S2P Require Import Prelude.

(** ** Data *)

(** One stored frame ([OutputFrame]).  [Arc<[u8]>] is an immutable shared value, so the bytes
    themselves model it. *)
Record OutputFrame := mkFrame { f_seq : Z; f_data : list Byte.byte }.

(** [ReplayRange] *)
Record ReplayRange := mkRange { rr_frames : list OutputFrame; rr_latest_seq : Z }.

(** [ReplayWindowLost] *)
Record ReplayWindowLost := mkWindowLost {
  wl_requested : Z;
  wl_oldest_available : option Z;
  wl_latest : Z
}.

(** [ReplayBufferConfig] *)
Record ReplayBufferConfig := mkReplayConfig { max_frames : Z; max_bytes : Z }.

#[export] Instance OutputFrame_eq_dec : EqDecision OutputFrame.
Proof. solve_decision. Defined.
#[export] Instance ReplayRange_eq_dec : EqDecision ReplayRange.
Proof. solve_decision. Defined.
#[export] Instance ReplayWindowLost_eq_dec : EqDecision ReplayWindowLost.
Proof. solve_decision. Defined.

(** [ReplayBufferConfig::DEFAULT] *)
Definition replay_config_default : ReplayBufferConfig := mkReplayConfig 1024 (Z.shiftl 1 20).

(** The bytes of a run of frames. *)
Definition total_bytes (fs : list OutputFrame) : Z := foldr (fun f n => len (f_data f) + n) 0 fs.

(** Frames strictly newer than a bookmark. *)
Definition newer (k : Z) (fs : list OutputFrame) : list OutputFrame :=
  filter (fun f => k < f_seq f) fs.

(** ** The ring buffer *)

Module ReplayBuffer.

(** [struct ReplayBuffer]; the front of the [VecDeque] is the head of the list. *)
Record t := mk {
  config : ReplayBufferConfig;
  frames : list OutputFrame;
  bytes : Z;
  latest_seq : Z
}.

(** [ReplayBuffer::new] *)
Definition new (config : ReplayBufferConfig) : t := mk config [] 0 0.

(** The [while] loop of [push]: pop from the front as long as a bound is exceeded, and stop at
    the last frame. *)
Fixpoint evict (cfg : ReplayBufferConfig) (fs : list OutputFrame) (bytes : Z)
  : list OutputFrame * Z :=
  match fs with
  | [] => ([], bytes)
  | dropped :: rest =>
      if (max_frames cfg <? len fs) || (max_bytes cfg <? bytes) then
        if len fs <=? 1 then (fs, bytes)
        else evict cfg rest (saturating_sub bytes (len (f_data dropped)))
      else (fs, bytes)
  end.

(** [ReplayBuffer::push] (the [debug_assert!] is not part of a release build; the order it
    asserts is a hypothesis of the theorems). *)
Definition push (b : t) (frame : OutputFrame) : t :=
  let bytes := saturating_add (bytes b) (len (f_data frame)) in
  let '(fs, bytes) := evict (config b) (frames b ++ [frame]) bytes in
  mk (config b) fs bytes (f_seq frame).

(** [ReplayBuffer::replay_since]; [bookmark + 1] is a [u64] addition. *)
Definition replay_since (b : t) (last_seen_seq : option Z) : result ReplayWindowLost ReplayRange :=
  let bookmark := default 0 last_seen_seq in
  let oldest_available := f_seq <$> head (frames b) in
  match oldest_available with
  | None => Ok (mkRange [] (latest_seq b))
  | Some oldest =>
      if latest_seq b <=? bookmark then Ok (mkRange [] (latest_seq b))
      else if (0 <? bookmark) && (wrapping_add64 bookmark 1 <? oldest) then
        Err (mkWindowLost bookmark oldest_available (latest_seq b))
      else Ok (mkRange (newer bookmark (frames b)) (latest_seq b))
  end.

(** [ReplayBuffer::frame_count] and [ReplayBuffer::byte_count] *)
Definition frame_count (b : t) : Z := len (frames b).
Definition byte_count (b : t) : Z := bytes b.

(** Push a sequence of frames, oldest first. *)
Definition push_all (b : t) (fs : list OutputFrame) : t := foldl push b fs.

End ReplayBuffer.
Import ReplayBuffer.

(** What the post-push state of the ring satisfies: both bounds, except that a single frame is
    kept whatever its size. *)
Definition fits (cfg : ReplayBufferConfig) (fs : list OutputFrame) : Prop :=
  len fs <= 1 \/ (len fs <= max_frames cfg /\ total_bytes fs <= max_bytes cfg).

(** ** The contract

    A session stamps its frames 1, 2, 3, ...; the log remembers all of them and how many of the
    oldest the ring has let go. *)

Module ReplaySpec.

Record log := mkLog { entries : list OutputFrame; evicted : nat }.

(** The frames of a session are numbered from 1 without gaps. *)
Definition numbered (fs : list OutputFrame) : Prop := f_seq <$> fs = seqZ 1 (len fs).

(** What a client that saw the frames up to [last_seen_seq] must be sent: everything it missed
    when nothing it missed is gone, the retained tail when it has no bookmark, and a
    window-lost report otherwise. *)
Definition replay (l : log) (last_seen_seq : option Z) : result ReplayWindowLost ReplayRange :=
  let k := default 0 last_seen_seq in
  let latest := len (entries l) in
  if latest <=? k then Ok (mkRange [] latest)
  else if k =? 0 then Ok (mkRange (drop (evicted l) (entries l)) latest)
  else if Z.of_nat (evicted l) <=? k then Ok (mkRange (drop (Z.to_nat k) (entries l)) latest)
  else Err (mkWindowLost k (Some (Z.of_nat (evicted l) + 1)) latest).

(** The ring [b] holds the part of the log that is not evicted. *)
Record abs (b : t) (l : log) : Prop := mkAbs {
  abs_frames : frames b = drop (evicted l) (entries l);
  abs_latest : latest_seq b = len (entries l);
  abs_bytes : bytes b = total_bytes (frames b);
  abs_numbered : numbered (entries l);
  abs_retains : entries l <> [] -> (evicted l < length (entries l))%nat;
  abs_fits : fits (config b) (frames b);
  abs_tight : forall j, (j < evicted l)%nat -> ~ fits (config b) (drop j (entries l))
}.

End ReplaySpec.
Import ReplaySpec.

(** ** Lemmas on runs of frames *)

Lemma total_bytes_cons f fs : total_bytes (f :: fs) = len (f_data f) + total_bytes fs.
Proof. reflexivity. Qed.

Lemma total_bytes_nonneg fs : 0 <= total_bytes fs.
Proof.
  induction fs as [|f fs IH]; [done|].
  rewrite total_bytes_cons. pose proof (len_nonneg (f_data f)). lia.
Qed.

Lemma total_bytes_app fs gs : total_bytes (fs ++ gs) = total_bytes fs + total_bytes gs.
Proof.
  induction fs as [|f fs IH]; [done|]. cbn [app]. rewrite !total_bytes_cons. lia.
Qed.

(** A run that does not fit stays too large when it is extended on the right. *)
Lemma fits_app_l cfg fs g : fits cfg (fs ++ [g]) -> fits cfg fs.
Proof.
  unfold fits. rewrite len_app, total_bytes_app. change (len [g]) with 1.
  pose proof (len_nonneg fs). pose proof (total_bytes_nonneg [g]).
  intros [|[? ?]]; [left; lia|right; lia].
Qed.

(** The eviction loop drops the shortest prefix whose removal makes the run fit. *)
Lemma evict_spec cfg fs :
  exists k,
    evict cfg fs (total_bytes fs) = (drop k fs, total_bytes (drop k fs))
    /\ fits cfg (drop k fs)
    /\ (forall j, (j < k)%nat -> ~ fits cfg (drop j fs))
    /\ (fs <> [] -> (k < length fs)%nat).
Proof.
  induction fs as [|f fs IH].
  - exists O. repeat split; [by left|lia|done].
  - cbn [evict]. destruct (_ || _) eqn:Eover.
    + destruct (len (f :: fs) <=? 1) eqn:Elast; bool_props.
      * exists O. repeat split; [by left|lia|cbn; lia].
      * assert (fs <> []) as Hne.
        { intros ->. rewrite len_cons, len_nil in Elast. lia. }
        destruct IH as (k & Hev & Hfit & Hmin & Hlt). exists (S k).
        rewrite saturating_sub_small.
        2:{ rewrite total_bytes_cons. pose proof (total_bytes_nonneg fs). lia. }
        replace (total_bytes (f :: fs) - len (f_data f)) with (total_bytes fs)
          by (rewrite total_bytes_cons; lia).
        repeat split; [exact Hev|exact Hfit| |cbn; specialize (Hlt Hne); lia].
        intros [|j] Hj; [|apply Hmin; lia].
        cbn [drop]. intros [|[H1 H2]]; [lia|].
        apply orb_true_iff in Eover as [E|E]; bool_props; lia.
    + exists O. bool_props. repeat split; [|lia|cbn; lia]. right. cbn [drop]. lia.
Qed.

(** Whatever the byte counter says, the frame bound holds after the loop. *)
Lemma evict_len cfg fs bytes : len (evict cfg fs bytes).1 <= Z.max 1 (max_frames cfg).
Proof.
  revert bytes. induction fs as [|f fs IH]; intros bytes; [cbn [evict fst]; rewrite len_nil; lia|].
  cbn [evict]. destruct (_ || _) eqn:E1; [|bool_props; cbn [fst]; lia].
  destruct (len (f :: fs) <=? 1) eqn:E2; bool_props; [cbn [fst]; lia|apply IH].
Qed.

Lemma push_frame_count b f :
  frame_count (push b f) <= Z.max 1 (max_frames (config b)) /\ config (push b f) = config b.
Proof.
  unfold push, frame_count. pose proof (evict_len (config b) (frames b ++ [f])
    (saturating_add (bytes b) (len (f_data f)))) as H.
  destruct (evict _ _ _) as [fs n]. done.
Qed.

(** The numbered run, looked at through its indices. *)
Lemma numbered_lookup fs i f :
  numbered fs -> fs !! i = Some f -> f_seq f = Z.of_nat i + 1.
Proof.
  intros Hn Hi. unfold numbered in Hn.
  assert ((f_seq <$> fs) !! i = Some (f_seq f)) as H by (by rewrite list_lookup_fmap, Hi).
  rewrite Hn in H. apply lookup_seqZ in H. lia.
Qed.

Lemma numbered_snoc fs f :
  numbered fs -> f_seq f = len fs + 1 -> numbered (fs ++ [f]).
Proof.
  unfold numbered. intros Hn Hf.
  rewrite fmap_app, Hn, len_app. change (len [f]) with 1.
  rewrite seqZ_app by (pose proof (len_nonneg fs); lia). f_equal.
  rewrite seqZ_cons by lia. cbn [fmap list_fmap]. rewrite Hf. f_equal. lia.
Qed.

Lemma numbered_app_l fs gs : numbered (fs ++ gs) -> numbered fs.
Proof.
  unfold numbered. rewrite fmap_app, len_app.
  rewrite seqZ_app by (pose proof (len_nonneg fs); pose proof (len_nonneg gs); lia).
  intros H. apply app_inj_1 in H as [? _]; [done|].
  rewrite length_fmap, length_seqZ. unfold len. lia.
Qed.

Lemma numbered_head_drop fs n :
  numbered fs -> (n < length fs)%nat ->
  f_seq <$> head (drop n fs) = Some (Z.of_nat n + 1).
Proof.
  intros Hn Hlt. destruct (lookup_lt_is_Some_2 fs n Hlt) as [f Hf].
  rewrite (drop_S fs f n Hf). cbn. by rewrite (numbered_lookup _ _ _ Hn Hf).
Qed.

(** The newest frame is never evicted. *)
Lemma evict_last cfg fs n : last (evict cfg fs n).1 = last fs.
Proof.
  revert n. induction fs as [|f fs IH]; intros n; [done|]. cbn [evict].
  destruct (_ || _); [|done]. destruct (len (f :: fs) <=? 1) eqn:E; [done|]. rewrite IH.
  destruct fs as [|g fs]; [by cbn in E|done].
Qed.

Lemma push_last b frame : last (frames (push b frame)) = Some frame /\ latest_seq (push b frame) = f_seq frame.
Proof.
  unfold push. pose proof (evict_last (config b) (frames b ++ [frame]) (saturating_add (bytes b) (len (f_data frame)))) as H.
  destruct (evict _ _ _) as [fs n]. cbn in *. by rewrite H, last_snoc.
Qed.

(** Filtering a numbered run by a bookmark is dropping the frames up to it. *)
Lemma newer_drop fs n k :
  numbered fs -> Z.of_nat n <= k -> newer k (drop n fs) = drop (Z.to_nat k) fs.
Proof.
  intros Hn Hk.
  assert (drop (Z.to_nat k) fs = drop (Z.to_nat k - n) (drop n fs)) as ->
    by (rewrite drop_drop; f_equal; lia).
  rewrite <- (take_drop (Z.to_nat k - n) (drop n fs)) at 1.
  unfold newer. rewrite filter_app.
  rewrite (list_filter_none _ (take _ _)), (list_filter_all _ (drop _ _)); [done| |].
  - apply Forall_lookup. intros i f Hi. rewrite !lookup_drop in Hi.
    rewrite (numbered_lookup _ _ _ Hn Hi). lia.
  - apply Forall_lookup. intros i f Hi. apply lookup_take_Some in Hi as [Hi Hlt].
    rewrite lookup_drop in Hi. rewrite (numbered_lookup _ _ _ Hn Hi). lia.
Qed.

Lemma newer_all fs n :
  numbered fs -> newer 0 (drop n fs) = drop n fs.
Proof.
  intros Hn. apply list_filter_all. apply Forall_lookup. intros i f Hi.
  rewrite lookup_drop in Hi. rewrite (numbered_lookup _ _ _ Hn Hi). lia.
Qed.

(** ** The ring implements the contract *)

Lemma abs_new cfg : abs (new cfg) (mkLog [] 0).
Proof. split; try done; [by left|]. cbn. intros j Hj. lia. Qed.

(** What one push does to the log. *)
Lemma push_evicts b l frame :
  abs b l -> f_seq frame = len (entries l) + 1 ->
  total_bytes (frames b) + len (f_data frame) <= usize_max ->
  exists k, abs (push b frame) (mkLog (entries l ++ [frame]) (evicted l + k)).
Proof.
  intros [Hfr Hlat Hby Hnum Hret Hfit Htight] Hseq Hcap.
  set (fs := frames b ++ [frame]).
  assert (Hle : (evicted l <= length (entries l))%nat).
  { destruct (decide (entries l = [])) as [E|E]; [|specialize (Hret E); lia].
    destruct (decide (evicted l = O)) as [|Hne]; [lia|].
    exfalso. apply (Htight O ltac:(lia)). rewrite E. by left. }
  assert (Hfs : fs = drop (evicted l) (entries l ++ [frame])).
  { unfold fs. rewrite Hfr. by rewrite drop_app_le by lia. }
  assert (Htot : saturating_add (bytes b) (len (f_data frame)) = total_bytes fs).
  { unfold fs. rewrite total_bytes_app, total_bytes_cons, Hby.
    rewrite saturating_add_small by lia. cbn. lia. }
  destruct (evict_spec (config b) fs) as (k & Hev & Hf & Hmin & Hlt).
  exists k. unfold push. fold fs. rewrite Htot, Hev. split; cbn.
  - rewrite Hfs at 1. by rewrite drop_drop.
  - rewrite Hseq, len_app. done.
  - done.
  - by apply numbered_snoc.
  - intros _. specialize (Hlt ltac:(unfold fs; by destruct (frames b))).
    rewrite length_app. cbn. unfold fs in Hlt. rewrite length_app, Hfr, length_drop in Hlt.
    cbn in Hlt. lia.
  - exact Hf.
  - intros j Hj. destruct (decide (j < evicted l)%nat) as [Hlj|Hlj].
    + rewrite drop_app_le by lia. intros Hj'%fits_app_l. by apply (Htight j).
    + specialize (Hmin (j - evicted l)%nat ltac:(lia)). rewrite Hfs, drop_drop in Hmin.
      by replace (evicted l + (j - evicted l))%nat with j in Hmin by lia.
Qed.

Lemma replay_refines b l k :
  abs b l -> is_u64 k -> len (entries l) <= u64_max ->
  ReplayBuffer.replay_since b (Some k) = ReplaySpec.replay l (Some k).
Proof.
  intros [Hfr Hlat Hby Hnum Hret Hfit Htight] Hk Hlen.
  unfold ReplayBuffer.replay_since, ReplaySpec.replay, is_u64 in *. change (default 0 (Some k)) with k.
  destruct (decide (entries l = [])) as [E|E].
  { rewrite Hfr, E, drop_nil, Hlat, E. cbn. rewrite len_nil. by case_match; bool_props; [|lia]. }
  specialize (Hret E). rewrite Hfr, (numbered_head_drop _ _ Hnum Hret), Hlat.
  destruct (len (entries l) <=? k) eqn:E1; [done|]. bool_props.
  rewrite wrapping_add64_small by lia.
  destruct (k =? 0) eqn:E2; bool_props.
  { subst k. by rewrite newer_all. }
  destruct (Z.of_nat (evicted l) <=? k) eqn:E3; bool_props.
  - rewrite (proj2 (Z.ltb_ge (k + 1) _)), andb_false_r by lia. by rewrite newer_drop.
  - rewrite (proj2 (Z.ltb_lt 0 k)), (proj2 (Z.ltb_lt (k + 1) _)) by lia. done.
Qed.

Lemma replay_none_is_zero b : ReplayBuffer.replay_since b None = ReplayBuffer.replay_since b (Some 0).
Proof. reflexivity. Qed.

(** Stamping a whole session keeps the ring in step with its log. *)
Lemma push_all_abs cfg fs :
  numbered fs -> total_bytes fs <= usize_max ->
  exists n, abs (push_all (new cfg) fs) (mkLog fs n).
Proof.
  induction fs as [|f fs IH] using rev_ind; intros Hnum Htot; [exists O; apply abs_new|].
  unfold push_all. rewrite foldl_app. cbn.
  rewrite total_bytes_app, total_bytes_cons in Htot. pose proof (len_nonneg (f_data f)).
  pose proof (numbered_app_l _ _ Hnum) as Hnum'.
  destruct IH as [n Habs]; [done|cbn in *; lia|].
  destruct (push_evicts (push_all (new cfg) fs) (mkLog fs n) f Habs) as [k Hk].
  - cbn. assert ((fs ++ [f]) !! length fs = Some f) as Hf by apply list_lookup_middle, eq_refl.
    rewrite (numbered_lookup _ _ _ Hnum Hf). unfold len. lia.
  - rewrite (abs_frames _ _ Habs). cbn [entries evicted].
    pose proof (total_bytes_app (take n fs) (drop n fs)) as Hs. rewrite take_drop in Hs.
    pose proof (total_bytes_nonneg (take n fs)). cbn in *. lia.
  - eexists. exact Hk.
Qed.

(** The accounting invariant, for frames in any order. *)
Lemma push_all_suffix cfg fs :
  total_bytes fs <= usize_max ->
  exists n, let b := push_all (new cfg) fs in
    frames b = drop n fs /\ bytes b = total_bytes (frames b) /\ config b = cfg
    /\ fits cfg (frames b) /\ (n <= length fs)%nat /\ (fs <> [] -> (n < length fs)%nat).
Proof.
  induction fs as [|f fs IH] using rev_ind; intros Htot.
  { exists O. repeat split; [by left|lia|done]. }
  unfold push_all. rewrite foldl_app. cbn. fold (push_all (new cfg) fs).
  rewrite total_bytes_app, total_bytes_cons in Htot. change (total_bytes []) with 0 in Htot.
  pose proof (len_nonneg (f_data f)).
  destruct IH as (n & Hfr & Hby & Hcfg & Hfit & Hle & _); [lia|]. cbv zeta in *.
  unfold push. rewrite Hcfg, Hby.
  destruct (evict_spec cfg (frames (push_all (new cfg) fs) ++ [f])) as (k & Hev & Hf & _ & Hk).
  rewrite saturating_add_small, <- (Z.add_0_r (len (f_data f))).
  2:{ rewrite Hfr. pose proof (total_bytes_app (take n fs) (drop n fs)) as Hs.
      rewrite take_drop in Hs. pose proof (total_bytes_nonneg (take n fs)). lia. }
  change (len (f_data f) + 0) with (total_bytes [f]). rewrite <- total_bytes_app, Hev. cbn.
  exists (n + k)%nat. rewrite Hfr in *. specialize (Hk ltac:(by destruct (drop n fs))).
  rewrite length_app, length_drop in Hk. cbn in Hk.
  rewrite <- (drop_app_le fs [f] n Hle), drop_drop in *.
  repeat split; try done; rewrite length_app; cbn; lia.
Qed.

(** The answer to a bookmark inside the session: everything after it, or the report that the
    frame after it is gone. *)
Lemma push_all_replay cfg fs k :
  numbered fs -> total_bytes fs <= usize_max -> len fs <= u64_max -> 0 < k < len fs ->
  exists n, abs (push_all (new cfg) fs) (mkLog fs n) /\
    ReplayBuffer.replay_since (push_all (new cfg) fs) (Some k) =
    if Z.of_nat n <=? k
    then Ok (mkRange (drop (Z.to_nat k) fs) (len fs))
    else Err (mkWindowLost k (Some (Z.of_nat n + 1)) (len fs)).
Proof.
  intros Hnum Htot Hlen Hk. destruct (push_all_abs cfg fs Hnum Htot) as [n Habs].
  exists n. split; [done|]. rewrite (replay_refines _ _ k Habs) by (unfold is_u64; cbn; lia).
  unfold ReplaySpec.replay. cbn [entries evicted]. change (default 0 (Some k)) with k.
  by rewrite (proj2 (Z.leb_gt _ _)), (proj2 (Z.eqb_neq k 0)) by lia.
Qed.

(** ** Properties *)

(** C12: stamping a session's frames 1, 2, ..., n through [push] leaves a ring that answers every
    [replay_since] query exactly as the log of the whole session does: the frames the client
    missed when none of them is gone, the retained tail when it has no bookmark, and the
    window-lost report otherwise; and the ring has evicted the fewest frames that let the rest
    respect the bounds. *)
Theorem replay_log_refinement cfg fs
  (Hnum : numbered fs) (Htot : total_bytes fs <= usize_max) (Hlen : len fs <= u64_max) :
  exists n, let b := push_all (new cfg) fs in
    (forall o, (forall k, o = Some k -> is_u64 k) ->
      ReplayBuffer.replay_since b o = ReplaySpec.replay (mkLog fs n) o)
    /\ frames b = drop n fs /\ fits cfg (drop n fs)
    /\ (forall j, (j < n)%nat -> ~ fits cfg (drop j fs)).
Proof.
  destruct (push_all_abs cfg fs Hnum Htot) as [n Habs]. exists n. cbv zeta.
  destruct (push_all_suffix cfg fs Htot) as (_ & _ & _ & Hcfg & _).
  pose proof (abs_fits _ _ Habs) as Hf. pose proof (abs_tight _ _ Habs) as Ht.
  pose proof (abs_frames _ _ Habs) as Hfr. rewrite Hcfg, Hfr in Hf. rewrite Hcfg in Ht.
  split; [|done].
  intros [k|] Hk; [by apply replay_refines; auto|].
  rewrite replay_none_is_zero. apply (replay_refines _ (mkLog fs n)); [done|done|done].
Qed.

(** Three frames of two bytes through a ring of at most two frames. *)
Definition sample_frames : list OutputFrame :=
  map (fun i => mkFrame i [byte_of i; byte_of 7]) [1; 2; 3].

Lemma replay_log_refinement_witness :
  exists n, let b := push_all (new (mkReplayConfig 2 100)) sample_frames in
    (forall o, (forall k, o = Some k -> is_u64 k) ->
      ReplayBuffer.replay_since b o = ReplaySpec.replay (mkLog sample_frames n) o)
    /\ frames b = drop n sample_frames /\ fits (mkReplayConfig 2 100) (drop n sample_frames)
    /\ (forall j, (j < n)%nat -> ~ fits (mkReplayConfig 2 100) (drop j sample_frames)).
Proof.
  apply (replay_log_refinement (mkReplayConfig 2 100) sample_frames);
    [reflexivity | vm_compute; congruence | vm_compute; congruence].
Defined.

(** A successful replay for a positive bookmark is gap-free: it is exactly the run of the
    session's frames after the bookmark up to the newest one, in order, so the client's stream
    continues with the next sequence number. *)
Theorem replay_gap_free cfg fs k r
  (Hnum : numbered fs) (Htot : total_bytes fs <= usize_max) (Hlen : len fs <= u64_max)
  (Hk : 0 < k < len fs)
  (Hok : ReplayBuffer.replay_since (push_all (new cfg) fs) (Some k) = Ok r) :
  rr_frames r = drop (Z.to_nat k) fs
  /\ f_seq <$> rr_frames r = seqZ (k + 1) (len fs - k)
  /\ rr_latest_seq r = len fs.
Proof.
  destruct (push_all_replay cfg fs k Hnum Htot Hlen Hk) as (n & _ & Hr). rewrite Hr in Hok.
  case_match; simplify_eq. cbn. repeat split.
  rewrite fmap_drop, Hnum. replace (len fs) with (k + (len fs - k)) at 1 by lia.
  rewrite seqZ_app, drop_app_length' by (rewrite ?length_seqZ; lia). f_equal. lia.
Qed.

Lemma replay_gap_free_witness :
  rr_frames (mkRange (drop 1 sample_frames) 3) = drop (Z.to_nat 1) sample_frames
  /\ f_seq <$> rr_frames (mkRange (drop 1 sample_frames) 3) = seqZ (1 + 1) (len sample_frames - 1)
  /\ rr_latest_seq (mkRange (drop 1 sample_frames) 3) = len sample_frames.
Proof.
  apply (replay_gap_free (mkReplayConfig 2 100) sample_frames 1);
    [reflexivity | vm_compute; congruence | vm_compute; congruence | vm_compute; split; congruence
    | reflexivity].
Defined.

(** Whatever frames are pushed, in whatever order, the ring holds a non-empty tail of them
    ending in the newest, its byte counter is exact, and it respects [max_frames] and
    [max_bytes] unless a single frame is left. *)
Theorem push_bounds cfg fs f
  (Htot : total_bytes (fs ++ [f]) <= usize_max) :
  let b := push_all (new cfg) (fs ++ [f]) in
  last (frames b) = Some f
  /\ latest_seq b = f_seq f
  /\ byte_count b = total_bytes (frames b)
  /\ 1 <= frame_count b <= Z.max 1 (max_frames cfg)
  /\ (byte_count b <= max_bytes cfg \/ frame_count b = 1).
Proof.
  destruct (push_all_suffix cfg (fs ++ [f]) Htot) as (n & Hfr & Hby & _ & Hfit & _ & Hn).
  cbv zeta in *. specialize (Hn ltac:(by destruct fs)).
  rewrite length_app in Hn. cbn in Hn.
  assert (Hd : drop n (fs ++ [f]) = drop n fs ++ [f]) by (apply drop_app_le; lia).
  repeat split.
  - by rewrite Hfr, Hd, last_snoc.
  - unfold push_all. rewrite foldl_app. cbn. unfold push. by destruct (evict _ _ _).
  - exact Hby.
  - unfold frame_count. rewrite Hfr, Hd, len_app. change (len [f]) with 1.
    pose proof (len_nonneg (drop n fs)). lia.
  - unfold frame_count. destruct Hfit; lia.
  - unfold byte_count, frame_count. rewrite Hby. destruct Hfit as [Hfit|]; [right|left; lia].
    rewrite Hfr, Hd, len_app in *. change (len [f]) with 1 in *.
    pose proof (len_nonneg (drop n fs)). lia.
Qed.

Lemma push_bounds_witness :
  let b := push_all (new (mkReplayConfig 2 3)) (take 2 sample_frames ++ [mkFrame 3 []]) in
  last (frames b) = Some (mkFrame 3 [])
  /\ latest_seq b = f_seq (mkFrame 3 [])
  /\ byte_count b = total_bytes (frames b)
  /\ 1 <= frame_count b <= Z.max 1 2
  /\ (byte_count b <= 3 \/ frame_count b = 1).
Proof.
  apply (push_bounds (mkReplayConfig 2 3) (take 2 sample_frames) (mkFrame 3 [])).
  vm_compute. congruence.
Defined.
