(* ===== verification/Binary.v ===== *)
(** * The binary terminal data plane

    Models [crates/relayterm-protocol/src/binary.rs]: the [RTB1] envelope that carries PTY output
    and keystroke input over the WebSocket.  Indexing a slice out of range panics in Rust; the
    decoder below has type [option], with [None] for a panic, so that the absence of panics is a
    theorem and not a convention. *)

From S2P Require Import Prelude.

(** [BINARY_MAGIC_V1], the bytes of ["RTB1"] *)
Definition BINARY_MAGIC_V1 : list Byte.byte := map byte_of [82; 84; 66; 49].

Definition BINARY_HEADER_LEN : Z := 20.

Definition MAX_PAYLOAD_LEN : Z := 1024 * 1024.

(** [BinaryFrameKind] *)
Inductive BinaryFrameKind := Output | Input.

(** [BinaryFrameKind::from_u8] *)
Definition from_u8 (b : Byte.byte) : option BinaryFrameKind :=
  if byte_val b =? 1 then Some Output
  else if byte_val b =? 2 then Some Input
  else None.

(** [BinaryFrameKind::as_u8] *)
Definition as_u8 (k : BinaryFrameKind) : Byte.byte :=
  match k with Output => byte_of 1 | Input => byte_of 2 end.

(** [BinaryFrame] *)
Record BinaryFrame := mkBinaryFrame {
  bf_kind : BinaryFrameKind;
  bf_seq : Z;
  bf_payload : list Byte.byte
}.

(** [BinaryFrameDecodeError] *)
Inductive BinaryFrameDecodeError :=
| TruncatedHeader
| BadMagic
| NonZeroReserved
| PayloadTooLarge
| LengthMismatch
| UnknownKind.

#[export] Instance BinaryFrameKind_eq_dec : EqDecision BinaryFrameKind.
Proof. solve_decision. Defined.
#[export] Instance BinaryFrameDecodeError_eq_dec : EqDecision BinaryFrameDecodeError.
Proof. solve_decision. Defined.
#[export] Instance BinaryFrame_eq_dec : EqDecision BinaryFrame.
Proof. solve_decision. Defined.

(** [impl Display for BinaryFrameDecodeError] *)
Definition decode_error_display (e : BinaryFrameDecodeError) : string :=
  match e with
  | TruncatedHeader => "truncated header"
  | BadMagic => "bad magic"
  | NonZeroReserved => "reserved bytes must be zero"
  | PayloadTooLarge => "payload exceeds maximum length"
  | LengthMismatch => "payload length mismatch"
  | UnknownKind => "unknown frame kind"
  end.

(** [encode_binary_frame] *)
Definition encode_binary_frame (kind : BinaryFrameKind) (seq : Z) (payload : list Byte.byte)
  : result BinaryFrameDecodeError (list Byte.byte) :=
  if MAX_PAYLOAD_LEN <? len payload then Err PayloadTooLarge
  else
    Ok (BINARY_MAGIC_V1 ++ [as_u8 kind] ++ [byte_of 0] ++ [byte_of 0; byte_of 0]
        ++ to_be_bytes 8 seq ++ to_be_bytes 4 (len payload) ++ payload).

(** The range [buf[i..j]], [None] where Rust panics. *)
Definition slice (buf : list Byte.byte) (i j : nat) : option (list Byte.byte) :=
  if decide (i <= j <= length buf)%nat then Some (take (j - i) (drop i buf)) else None.

(** [decode_binary_frame]: [None] is a panic, [Some r] the value returned. *)
Definition decode_binary_frame (buf : list Byte.byte)
  : option (result BinaryFrameDecodeError BinaryFrame) :=
  if len buf <? BINARY_HEADER_LEN then Some (Err TruncatedHeader)
  else
    magic ← slice buf 0 4;
    if bool_decide (magic ≠ BINARY_MAGIC_V1) then Some (Err BadMagic)
    else
      kind_byte ← buf !! 4%nat;
      flags ← buf !! 5%nat;
      reserved ← from_be_bytes <$> slice buf 6 8;
      if negb (byte_val flags =? 0) || negb (reserved =? 0) then Some (Err NonZeroReserved)
      else
        seq ← from_be_bytes <$> slice buf 8 16;
        payload_len ← from_be_bytes <$> slice buf 16 20;
        if MAX_PAYLOAD_LEN <? payload_len then Some (Err PayloadTooLarge)
        else if negb (len buf =? BINARY_HEADER_LEN + payload_len) then Some (Err LengthMismatch)
        else
          match from_u8 kind_byte with
          | None => Some (Err UnknownKind)
          | Some kind =>
              payload ← slice buf 20 (length buf);
              Some (Ok (mkBinaryFrame kind seq payload))
          end.

(** ** The header as a record

    Every buffer of at least twenty bytes splits into the header's fields. *)

Lemma header_split (buf : list Byte.byte) :
  BINARY_HEADER_LEN <= len buf ->
  exists magic kind flags reserved seqb lenb payload,
    buf = magic ++ [kind] ++ [flags] ++ reserved ++ seqb ++ lenb ++ payload
    /\ length magic = 4%nat /\ length reserved = 2%nat /\ length seqb = 8%nat
    /\ length lenb = 4%nat.
Proof.
  unfold BINARY_HEADER_LEN, len. intros H.
  do 20 (destruct buf as [|? buf]; [cbn in H; lia|]).
  eexists [_; _; _; _], _, _, [_; _], [_; _; _; _; _; _; _; _], [_; _; _; _], buf.
  repeat split.
Qed.

(** The decoder on a split header. *)
Lemma decode_split magic kind flags reserved seqb lenb payload :
  length magic = 4%nat -> length reserved = 2%nat -> length seqb = 8%nat ->
  length lenb = 4%nat ->
  decode_binary_frame (magic ++ [kind] ++ [flags] ++ reserved ++ seqb ++ lenb ++ payload)
  = Some (
      if bool_decide (magic ≠ BINARY_MAGIC_V1) then Err BadMagic
      else if negb (byte_val flags =? 0) || negb (from_be_bytes reserved =? 0)
      then Err NonZeroReserved
      else if MAX_PAYLOAD_LEN <? from_be_bytes lenb then Err PayloadTooLarge
      else if negb (len payload =? from_be_bytes lenb) then Err LengthMismatch
      else match from_u8 kind with
           | None => Err UnknownKind
           | Some k => Ok (mkBinaryFrame k (from_be_bytes seqb) payload)
           end).
Proof.
  intros Hm Hr Hs Hl.
  do 5 (destruct magic as [|? magic]; try done).
  do 3 (destruct reserved as [|? reserved]; try done).
  do 9 (destruct seqb as [|? seqb]; try done).
  do 5 (destruct lenb as [|? lenb]; try done).
  unfold decode_binary_frame. cbn [app]. rewrite !len_cons.
  rewrite (proj2 (Z.ltb_ge _ _)) by (unfold BINARY_HEADER_LEN; pose proof (len_nonneg payload); lia).
  unfold slice. rewrite !decide_True by (cbn; lia).
  cbn [mbind option_bind fmap option_fmap option_map lookup list_lookup take drop Nat.sub].
  destruct (bool_decide _); [done|]. destruct (_ || _); [done|].
  destruct (MAX_PAYLOAD_LEN <? _); [done|].
  match goal with |- context [negb (?a =? BINARY_HEADER_LEN + ?n)] =>
    replace (a =? BINARY_HEADER_LEN + n) with (len payload =? n) end.
  - destruct (negb _); [done|]. destruct (from_u8 kind); [|done].
    cbn [length Nat.sub]. rewrite ?Nat.sub_0_r. by rewrite take_ge.
  - unfold BINARY_HEADER_LEN.
    match goal with |- (?a =? ?b) = _ => destruct (Z.eqb_spec a b) end; lia.
Qed.

Lemma decode_short buf : len buf < BINARY_HEADER_LEN ->
  decode_binary_frame buf = Some (Err TruncatedHeader).
Proof. intros H. unfold decode_binary_frame. by rewrite (proj2 (Z.ltb_lt _ _)). Qed.

Lemma from_as_u8 k : from_u8 (as_u8 k) = Some k.
Proof. by destruct k. Qed.

Lemma as_from_u8 b k : from_u8 b = Some k -> b = as_u8 k.
Proof.
  unfold from_u8. intros H. split_cases; apply byte_val_inj; done.
Qed.

Lemma byte_zero b : byte_val b = 0 -> b = byte_of 0.
Proof. intros H. by apply byte_val_inj. Qed.

Lemma reserved_zero r : length r = 2%nat -> from_be_bytes r = 0 -> r = [byte_of 0; byte_of 0].
Proof.
  intros Hl H. rewrite <- (to_from_be_bytes r), Hl, H. reflexivity.
Qed.

Lemma max_payload_fits_u32 n : 0 <= n <= MAX_PAYLOAD_LEN -> 0 <= n < 256 ^ Z.of_nat 4.
Proof. unfold MAX_PAYLOAD_LEN. intros. change (256 ^ Z.of_nat 4) with 4294967296. lia. Qed.

(** ** Properties *)

(** C30: the decoder inverts the encoder: a frame that the encoder accepts is read back with the
    same kind, sequence number and payload. *)
Theorem decode_encode_roundtrip kind seq payload buf
  (Hseq : is_u64 seq) (Henc : encode_binary_frame kind seq payload = Ok buf) :
  decode_binary_frame buf = Some (Ok (mkBinaryFrame kind seq payload)).
Proof.
  unfold encode_binary_frame in Henc. destruct (_ <? _) eqn:E; [done|]. bool_props.
  match type of Henc with Ok ?b = _ => assert (buf = b) as -> by congruence end.
  pose proof (max_payload_fits_u32 (len payload) ltac:(pose proof (len_nonneg payload); lia)).
  rewrite decode_split by (try apply length_to_be_bytes; reflexivity).
  rewrite (from_to_be_bytes 4) by done.
  rewrite (from_to_be_bytes 8)
    by (unfold is_u64, u64_max in Hseq; change (256 ^ Z.of_nat 8) with 18446744073709551616; lia).
  rewrite bool_decide_eq_false_2 by (by intros []). rewrite from_as_u8, (Z.eqb_refl (len payload)).
  rewrite (proj2 (Z.ltb_ge _ _)) by done. reflexivity.
Qed.

Lemma decode_encode_roundtrip_witness :
  decode_binary_frame (BINARY_MAGIC_V1 ++ map byte_of [1; 0; 0; 0; 0; 0; 0; 0; 0; 0; 1; 2; 0; 0; 0; 1; 255])
  = Some (Ok (mkBinaryFrame Output 258 [byte_of 255])).
Proof.
  apply (decode_encode_roundtrip Output 258 [byte_of 255]); [vm_compute; split; congruence|reflexivity].
Defined.

(** The wire form is canonical: whatever the decoder accepts is exactly what the encoder
    produces for the frame it returned, so no two buffers decode to the same frame. *)
Theorem encode_decode_canonical buf f
  (Hdec : decode_binary_frame buf = Some (Ok f)) :
  encode_binary_frame (bf_kind f) (bf_seq f) (bf_payload f) = Ok buf /\ is_u64 (bf_seq f).
Proof.
  destruct (Z.lt_ge_cases (len buf) BINARY_HEADER_LEN) as [Hs|Hs].
  { by rewrite decode_short in Hdec. }
  apply header_split in Hs as (m & k & fl & r & sb & lb & p & -> & Hm & Hr & Hsb & Hlb).
  rewrite decode_split in Hdec by done. injection Hdec as Hdec.
  split_cases. match goal with H : from_u8 _ = Some _ |- _ => apply as_from_u8 in H as -> end.
  cbn.
  match goal with H : ~ (m ≠ _) |- _ => apply dec_stable in H as -> end.
  rewrite (byte_zero fl), (reserved_zero r) by done.
  split.
  - unfold encode_binary_frame. rewrite (proj2 (Z.ltb_ge _ _)) by lia. f_equal.
    repeat f_equal.
    + rewrite <- (to_from_be_bytes sb) at 2. by rewrite Hsb.
    + replace (len p) with (from_be_bytes lb) by done.
      rewrite <- (to_from_be_bytes lb) at 2. by rewrite Hlb.
  - pose proof (from_be_bytes_range sb) as Hrange. unfold len in Hrange. rewrite Hsb in Hrange.
    change (256 ^ Z.of_nat 8) with 18446744073709551616 in Hrange.
    unfold is_u64, u64_max. lia.
Qed.

Lemma encode_decode_canonical_witness :
  encode_binary_frame Input 0 [byte_of 97]
  = Ok (BINARY_MAGIC_V1 ++ map byte_of [2; 0; 0; 0; 0; 0; 0; 0; 0; 0; 0; 0; 0; 0; 0; 1; 97])
  /\ is_u64 0.
Proof.
  apply (encode_decode_canonical
           (BINARY_MAGIC_V1 ++ map byte_of [2; 0; 0; 0; 0; 0; 0; 0; 0; 0; 0; 0; 0; 0; 0; 1; 97])
           (mkBinaryFrame Input 0 [byte_of 97])). reflexivity.
Defined.

(** The decoder never panics, whatever the peer sends: every byte slice it indexes is in
    range and a value is returned. *)
Theorem decode_never_panics buf : is_Some (decode_binary_frame buf).
Proof.
  destruct (Z.lt_ge_cases (len buf) BINARY_HEADER_LEN) as [Hs|Hs].
  { by rewrite decode_short. }
  apply header_split in Hs as (m & k & fl & r & sb & lb & p & -> & Hm & Hr & Hsb & Hlb).
  by rewrite decode_split.
Qed.

(** A well-headed frame that claims more than 1 MiB is refused as too large whatever follows
    the header, and an accepted payload is never longer than 1 MiB: the claimed length is checked
    before the payload is looked at. *)
Theorem decode_caps_payload kind lenb payload seqb
  (Hs : length seqb = 8%nat) (Hl : length lenb = 4%nat) :
  let buf := BINARY_MAGIC_V1 ++ [kind] ++ [byte_of 0] ++ [byte_of 0; byte_of 0]
             ++ seqb ++ lenb ++ payload in
  (MAX_PAYLOAD_LEN < from_be_bytes lenb ->
     decode_binary_frame buf = Some (Err PayloadTooLarge))
  /\ (forall f, decode_binary_frame buf = Some (Ok f) -> len (bf_payload f) <= MAX_PAYLOAD_LEN).
Proof.
  cbv zeta. rewrite decode_split by done.
  rewrite bool_decide_eq_false_2 by (by intros []). cbn [negb orb].
  change (negb (byte_val (byte_of 0) =? 0) || negb (from_be_bytes [byte_of 0; byte_of 0] =? 0))
    with false. cbv iota. split.
  - intros H. by rewrite (proj2 (Z.ltb_lt _ _)).
  - intros f H. injection H as H. split_cases. cbn. lia.
Qed.

Lemma decode_caps_payload_witness :
  let buf := BINARY_MAGIC_V1 ++ [byte_of 1] ++ [byte_of 0] ++ [byte_of 0; byte_of 0]
             ++ to_be_bytes 8 1 ++ to_be_bytes 4 u32_max ++ [] in
  (MAX_PAYLOAD_LEN < from_be_bytes (to_be_bytes 4 u32_max) ->
     decode_binary_frame buf = Some (Err PayloadTooLarge))
  /\ (forall f, decode_binary_frame buf = Some (Ok f) -> len (bf_payload f) <= MAX_PAYLOAD_LEN).
Proof.
  apply (decode_caps_payload (byte_of 1) (to_be_bytes 4 u32_max) [] (to_be_bytes 8 1)); reflexivity.
Defined.

(** A frame whose flags byte or reserved field is not zero is refused with [NonZeroReserved],
    although the table of the wire format says that readers ignore these fields. *)
Theorem decode_rejects_reserved kind flags reserved rest
  (Hr : length reserved = 2%nat) (Hlen : 12 <= len rest)
  (Hnz : byte_val flags <> 0 \/ from_be_bytes reserved <> 0) :
  decode_binary_frame (BINARY_MAGIC_V1 ++ [kind] ++ [flags] ++ reserved ++ rest)
  = Some (Err NonZeroReserved).
Proof.
  rewrite <- (take_drop 8 rest), <- (take_drop 4 (drop 8 rest)).
  unfold len in Hlen. rewrite decode_split; try done.
  - rewrite bool_decide_eq_false_2 by (by intros []).
    destruct Hnz as [H|H]; rewrite (proj2 (Z.eqb_neq _ _) H); [done|by rewrite orb_true_r].
  - rewrite length_take. lia.
  - rewrite length_take, length_drop. lia.
Qed.

Lemma decode_rejects_reserved_witness :
  decode_binary_frame
    (BINARY_MAGIC_V1 ++ [byte_of 1] ++ [byte_of 128] ++ [byte_of 0; byte_of 0]
     ++ to_be_bytes 8 1 ++ to_be_bytes 4 0)
  = Some (Err NonZeroReserved).
Proof.
  apply (decode_rejects_reserved (byte_of 1) (byte_of 128) [byte_of 0; byte_of 0]
           (to_be_bytes 8 1 ++ to_be_bytes 4 0)); [reflexivity|vm_compute; congruence|].
  left. vm_compute. congruence.
Defined.
