(* ===== verification/Throttle.v ===== *)
(** * The login throttler

    Models [crates/relayterm-auth/src/throttle.rs]: failed logins are counted per normalised
    identifier in a sliding window, and a key that reaches the threshold is refused for the block
    duration.  Each method takes the mutex for its whole body, so a method is one transition of
    the map.  Instants and durations ([chrono::DateTime], [chrono::Duration]) are nanoseconds. *)

From S2P Require Import Prelude.

Definition nanos_per_second : Z := 1000000000.

(** [Duration::minutes] and [Duration::num_seconds], which truncates towards zero. *)
Definition duration_minutes (m : Z) : Z := m * 60 * nanos_per_second.
Definition num_seconds (d : Z) : Z := Z.quot d nanos_per_second.

Definition MAX_TRACKED_KEYS : Z := 10000.

(** [LoginThrottleConfig] *)
Record LoginThrottleConfig := mkThrottleConfig {
  max_failures : Z;
  window : Z;
  block : Z
}.

(** [LoginThrottleConfig::V1_DEFAULT] *)
Definition V1_DEFAULT : LoginThrottleConfig :=
  mkThrottleConfig 5 (duration_minutes 15) (duration_minutes 15).

(** [ThrottleDecision] *)
Inductive ThrottleDecision := Allowed | Throttled (retry_after_seconds : Z).

(** [AttemptState] *)
Record AttemptState := mkAttempt {
  failures : list Z;
  blocked_until : option Z
}.

#[export] Instance ThrottleDecision_eq_dec : EqDecision ThrottleDecision.
Proof. solve_decision. Defined.
#[export] Instance AttemptState_eq_dec : EqDecision AttemptState.
Proof. solve_decision. Defined.

Module AttemptStateImpl.

(** [AttemptState::new] *)
Definition new : AttemptState := mkAttempt [] None.

(** [AttemptState::prune_window] *)
Definition prune_window (s : AttemptState) (now window : Z) : AttemptState :=
  let cutoff := now - window in
  mkAttempt (filter (fun t => cutoff < t) (failures s)) (blocked_until s).

(** [AttemptState::is_blocked] *)
Definition is_blocked (s : AttemptState) (now : Z) : bool :=
  match blocked_until s with Some until => now <? until | None => false end.

(** [AttemptState::is_idle] *)
Definition is_idle (s : AttemptState) (now window : Z) : bool :=
  if is_blocked s now then false
  else
    let cutoff := now - window in
    negb (existsb (fun t => cutoff <? t) (failures s)).

End AttemptStateImpl.
Import AttemptStateImpl.

Module LoginThrottler.

(** [struct LoginThrottler] *)
Record t := mk { config : LoginThrottleConfig; inner : gmap rstr AttemptState }.

(** [LoginThrottler::new] *)
Definition new (config : LoginThrottleConfig) : t := mk config ∅.

(** [HashMap::retain] with [!state.is_idle(now, window)] *)
Definition retain_live (window now : Z) (m : gmap rstr AttemptState) : gmap rstr AttemptState :=
  filter (fun kv => is_idle kv.2 now window = false) m.

Definition map_len (m : gmap rstr AttemptState) : Z := Z.of_nat (size m).

(** [LoginThrottler::check] *)
Definition check (th : t) (key : rstr) (now : Z) : ThrottleDecision :=
  match inner th !! key with
  | None => Allowed
  | Some state =>
      match blocked_until state with
      | Some until =>
          if now <? until then Throttled (Z.max (num_seconds (until - now)) 1) else Allowed
      | None => Allowed
      end
  end.

(** The tail of [record_failure], on the entry of the key. *)
Definition note_failure (cfg : LoginThrottleConfig) (state : AttemptState) (now : Z)
  : AttemptState :=
  let state := prune_window state now (window cfg) in
  let fs := failures state in
  let fs := if len fs <? saturating_add (max_failures cfg) 1 then fs ++ [now] else fs in
  let until :=
    if max_failures cfg <=? len fs then
      let new_until := now + block cfg in
      Some (match blocked_until state with
            | Some prev => if new_until <? prev then prev else new_until
            | None => new_until
            end)
    else blocked_until state in
  mkAttempt fs until.

(** [LoginThrottler::record_failure] *)
Definition record_failure (th : t) (key : rstr) (now : Z) : t :=
  let cfg := config th in
  let m := inner th in
  let m := if MAX_TRACKED_KEYS <=? map_len m then retain_live (window cfg) now m else m in
  match m !! key with
  | Some state => mk cfg (<[key := note_failure cfg state now]> m)
  | None =>
      if MAX_TRACKED_KEYS <=? map_len m then mk cfg m
      else mk cfg (<[key := note_failure cfg AttemptStateImpl.new now]> m)
  end.

(** [LoginThrottler::record_success] *)
Definition record_success (th : t) (key : rstr) : t := mk (config th) (delete key (inner th)).

(** [LoginThrottler::cleanup] *)
Definition cleanup (th : t) (now : Z) : t :=
  mk (config th) (retain_live (window (config th)) now (inner th)).

(** [LoginThrottler::tracked_keys] *)
Definition tracked_keys (th : t) : Z := map_len (inner th).

End LoginThrottler.
Import LoginThrottler.

(** [normalize_login_identifier] *)
Definition normalize_login_identifier (raw : rstr) : rstr := to_ascii_lowercase (trim raw).

(** ** The throttler as a state machine *)

(** The calls the routes make. *)
Inductive throttle_op :=
| RecordFailure (key : rstr) (now : Z)
| RecordSuccess (key : rstr)
| Cleanup (now : Z).

Definition throttle_step (th : t) (o : throttle_op) : t :=
  match o with
  | RecordFailure key now => record_failure th key now
  | RecordSuccess key => record_success th key
  | Cleanup now => cleanup th now
  end.

Definition throttle_run (th : t) (os : list throttle_op) : t := foldl throttle_step th os.

(** The size invariants the module documentation promises. *)
Definition entry_bounded (cfg : LoginThrottleConfig) (s : AttemptState) : Prop :=
  len (failures s) <= max_failures cfg + 1.

Definition throttler_bounded (th : t) : Prop :=
  map_len (inner th) <= MAX_TRACKED_KEYS
  /\ map_Forall (fun _ => entry_bounded (config th)) (inner th).

(** ** Lemmas *)

Lemma len_filter_le {A} (P : A -> Prop) `{!forall x, Decision (P x)} (l : list A) :
  len (filter P l) <= len l.
Proof. unfold len. pose proof (length_filter P l). lia. Qed.

Lemma retain_live_lookup w now m k s :
  retain_live w now m !! k = Some s <-> m !! k = Some s /\ is_idle s now w = false.
Proof. unfold retain_live. by rewrite map_lookup_filter_Some. Qed.

Lemma retain_live_size w now m : map_len (retain_live w now m) <= map_len m.
Proof.
  unfold map_len, retain_live. apply inj_le, map_subseteq_size, map_filter_subseteq.
Qed.

Lemma is_blocked_not_idle s now w : is_blocked s now = true -> is_idle s now w = false.
Proof. unfold is_idle. by intros ->. Qed.

Lemma is_blocked_later s now now' :
  now <= now' -> is_blocked s now' = true -> is_blocked s now = true.
Proof. unfold is_blocked. intros ? H. case_match; [|done]. bool_props. apply Z.ltb_lt. lia. Qed.

Lemma check_unblocked th k now :
  check th k now = Allowed
  <-> forall s, inner th !! k = Some s -> is_blocked s now = false.
Proof.
  unfold check, is_blocked. destruct (inner th !! k) as [s|]; [|naive_solver].
  split.
  - intros H s' [= <-]. by repeat case_match.
  - intros H. specialize (H s eq_refl). repeat case_match; congruence.
Qed.

(** Cleaning up never changes a decision about the present or the future. *)
Lemma check_retain cfg w m k now now' :
  now <= now' ->
  check (mk cfg (retain_live w now m)) k now' = check (mk cfg m) k now'.
Proof.
  intros Hle. unfold check. cbn [inner].
  destruct (m !! k) as [s|] eqn:Em.
  - destruct (is_idle s now w) eqn:Ei.
    + assert (retain_live w now m !! k = None) as ->.
      { apply eq_None_not_Some. intros [s' [Hs Hi]%retain_live_lookup]. congruence. }
      destruct (blocked_until s) as [u|] eqn:Eb; [|done].
      destruct (now' <? u) eqn:E; [|done].
      assert (is_blocked s now = true) as Hb.
      { apply (is_blocked_later s now now' Hle). unfold is_blocked. by rewrite Eb. }
      by rewrite (is_blocked_not_idle _ _ w Hb) in Ei.
    + by rewrite (proj2 (retain_live_lookup w now m k s) (conj Em Ei)).
  - assert (retain_live w now m !! k = None) as ->; [|done].
    apply eq_None_not_Some. intros [s' [Hs Hi]%retain_live_lookup]. congruence.
Qed.

Lemma prune_length s now w : len (failures (prune_window s now w)) <= len (failures s).
Proof. apply len_filter_le. Qed.

Lemma note_failure_bounded cfg s now :
  max_failures cfg + 1 <= usize_max ->
  entry_bounded cfg s -> entry_bounded cfg (note_failure cfg s now).
Proof.
  unfold entry_bounded, note_failure. intros Hm Hs. cbn [failures].
  rewrite saturating_add_small by done.
  pose proof (prune_length s now (window cfg)).
  case_match; bool_props; [|lia]. rewrite len_app. change (len [now]) with 1. lia.
Qed.

(** A block is started or extended, never shortened. *)
Lemma note_failure_until cfg s now u :
  blocked_until s = Some u ->
  exists u', blocked_until (note_failure cfg s now) = Some u' /\ u <= u'.
Proof.
  intros Hu. unfold note_failure. cbn [blocked_until prune_window]. rewrite Hu.
  destruct (max_failures cfg <=? _); [|by exists u].
  destruct (now + block cfg <? u) eqn:E; bool_props; (eexists; split; [reflexivity|lia]).
Qed.

Lemma inner_record_failure th k now s :
  inner th !! k = Some s ->
  (MAX_TRACKED_KEYS <= map_len (inner th) -> is_idle s now (window (config th)) = false) ->
  inner (record_failure th k now) !! k = Some (note_failure (config th) s now).
Proof.
  intros Hs Hidle. unfold record_failure. destruct (_ <=? _) eqn:E; bool_props.
  - rewrite (proj2 (retain_live_lookup _ _ _ _ s)) by auto. cbn. apply lookup_insert_eq.
  - rewrite Hs. cbn. apply lookup_insert_eq.
Qed.

(** The bounds as an invariant of the map, and how the two updates keep it. *)
Lemma retain_bounded cfg w now m :
  throttler_bounded (mk cfg m) -> throttler_bounded (mk cfg (retain_live w now m)).
Proof.
  intros [Hsz Hall]. split; cbn [inner config] in *.
  - pose proof (retain_live_size w now m). lia.
  - intros k s [Hs _]%retain_live_lookup. by apply (Hall k).
Qed.

Lemma insert_bounded cfg m k s :
  throttler_bounded (mk cfg m) -> entry_bounded cfg s ->
  is_Some (m !! k) \/ map_len m < MAX_TRACKED_KEYS ->
  throttler_bounded (mk cfg (<[k := s]> m)).
Proof.
  intros [Hsz Hall] Hs Hroom. split; cbn [inner config] in *.
  - unfold map_len in *. rewrite map_size_insert.
    destruct Hroom as [[s' ->]|Hlt]; [done|].
    destruct (m !! k); [done|]. rewrite Nat2Z.inj_succ. lia.
  - by apply map_Forall_insert_2.
Qed.

Lemma throttler_step_bounded th o :
  0 <= max_failures (config th) < usize_max -> throttler_bounded th ->
  throttler_bounded (throttle_step th o) /\ config (throttle_step th o) = config th.
Proof.
  intros Hm Hb. destruct th as [cfg m]. cbn [config] in *.
  destruct o as [key now|key|now]; cbn [throttle_step].
  - split; [|unfold record_failure; repeat case_match; done].
    unfold record_failure. cbn [config inner].
    assert (Hb' : throttler_bounded (mk cfg (if MAX_TRACKED_KEYS <=? map_len m
                                             then retain_live (window cfg) now m else m))).
    { case_match; [by apply retain_bounded|done]. }
    revert Hb'. generalize (if MAX_TRACKED_KEYS <=? map_len m
                            then retain_live (window cfg) now m else m). intros m' Hb'.
    destruct (m' !! key) as [s|] eqn:Ek.
    + apply insert_bounded; [done|apply note_failure_bounded; [lia|apply (proj2 Hb' key s Ek)]|eauto].
    + case_match; [done|]. bool_props. apply insert_bounded; [done| |by right].
      apply note_failure_bounded; [lia|]. unfold entry_bounded. change (len (failures AttemptStateImpl.new)) with 0. lia.
  - split; [|done]. destruct Hb as [Hsz Hall]. unfold record_success. split; cbn [inner config] in *.
    + unfold map_len in *.
      pose proof (map_subseteq_size _ _ (delete_subseteq (K := rstr) m key)). lia.
    + by apply map_Forall_delete.
  - split; [by apply retain_bounded|done].
Qed.

(** ** Properties *)

(** From an empty throttler, whatever calls are made, at most [MAX_TRACKED_KEYS] keys are
    tracked and every key stores at most [max_failures + 1] failure times. *)
Theorem throttler_memory_bound cfg os
  (Hcfg : 0 <= max_failures cfg <= u32_max) :
  throttler_bounded (throttle_run (new cfg) os)
  /\ config (throttle_run (new cfg) os) = cfg.
Proof.
  unfold throttle_run.
  assert (H0 : throttler_bounded (new cfg) /\ config (new cfg) = cfg).
  { split; [|done]. split; [done|]. apply map_Forall_empty. }
  revert H0. generalize (new cfg). induction os as [|o os IH]; intros th [Hb Hc]; [done|].
  destruct (throttler_step_bounded th o) as [Hb' Hc']; [|done|].
  - rewrite Hc. unfold usize_max, u64_max, u32_max in *. lia.
  - cbn. apply IH. split; [done|congruence].
Qed.

Lemma throttler_memory_bound_witness :
  throttler_bounded (throttle_run (new V1_DEFAULT) [RecordFailure (lit "a@b.c") 7; Cleanup 9])
  /\ config (throttle_run (new V1_DEFAULT) [RecordFailure (lit "a@b.c") 7; Cleanup 9]) = V1_DEFAULT.
Proof.
  apply (throttler_memory_bound V1_DEFAULT). vm_compute. split; congruence.
Defined.

(** The times of the failures of [key] in a trace, and the traces that neither forget [key] nor
    look past [now]. *)
Fixpoint failure_times (key : rstr) (os : list throttle_op) : list Z :=
  match os with
  | [] => []
  | RecordFailure k t :: os => if decide (k = key) then t :: failure_times key os
                               else failure_times key os
  | _ :: os => failure_times key os
  end.

Definition op_until (key : rstr) (now : Z) (o : throttle_op) : Prop :=
  match o with
  | RecordFailure _ t => t <= now
  | RecordSuccess k => k <> key
  | Cleanup t => t <= now
  end.

(** The entry of a key after [ts] failures inside one window: blocked from the last of them on as
    soon as there are [max_failures]. *)
Definition burst_entry (cfg : LoginThrottleConfig) (ts : list Z) : AttemptState :=
  mkAttempt ts
    (if len ts <? max_failures cfg then None
     else Some (default 0 (last ts) + block cfg)).

Lemma failure_times_app key os os' :
  failure_times key (os ++ os') = failure_times key os ++ failure_times key os'.
Proof. induction os as [|[k t|k|t] os IH]; cbn; try done. by case_decide; rewrite IH. Qed.

Lemma burst_not_idle cfg ts t now w :
  t <= now -> Forall (fun u => now - w < u) ts -> ts <> [] ->
  is_idle (burst_entry cfg ts) t w = false.
Proof.
  intros Ht Hall Hne. unfold is_idle. case_match; [done|].
  apply negb_false_iff, existsb_exists. destruct ts as [|u ts]; [done|].
  exists u. split; [by left|]. apply Forall_cons in Hall as [Hu _]. apply Z.ltb_lt. lia.
Qed.

Lemma note_failure_burst cfg ts t now :
  t <= now -> Forall (fun u => now - window cfg < u) ts ->
  len ts < max_failures cfg < usize_max ->
  note_failure cfg (burst_entry cfg ts) t = burst_entry cfg (ts ++ [t]).
Proof.
  intros Ht Hall Hlt. unfold note_failure, burst_entry. cbn [prune_window failures blocked_until].
  rewrite list_filter_all by (eapply Forall_impl; [exact Hall|]; cbn; lia).
  rewrite saturating_add_small by lia. rewrite !(proj2 (Z.ltb_lt (len ts) _)) by lia.
  rewrite last_snoc, len_app. change (len [t]) with 1. cbn [default from_option id]. f_equal.
  destruct (Z.leb_spec (max_failures cfg) (len ts + 1)), (Z.ltb_spec (len ts + 1) (max_failures cfg));
    try lia; done.
Qed.

(** Operations on other keys and clean-ups keep the entry of a key inside its window. *)
Lemma other_op_keeps th key o ts now :
  op_until key now o -> failure_times key [o] = [] ->
  Forall (fun u => now - window (config th) < u) ts -> ts <> [] ->
  inner th !! key = Some (burst_entry (config th) ts) ->
  inner (throttle_step th o) !! key = Some (burst_entry (config th) ts).
Proof.
  intros Hop Hft Hall Hne Hk.
  assert (Hret : forall t, t <= now -> retain_live (window (config th)) t (inner th) !! key
                                   = Some (burst_entry (config th) ts)).
  { intros t Ht. apply retain_live_lookup. split; [done|]. by eapply burst_not_idle. }
  destruct o as [k t|k|t]; cbn in *.
  - case_decide as Hd; [done|]. unfold record_failure.
    repeat case_match; cbn [inner]; rewrite ?lookup_insert_ne by done; auto.
  - by rewrite lookup_delete_ne.
  - by apply Hret.
Qed.

Lemma config_throttle_step th o : config (throttle_step th o) = config th.
Proof. destruct o; cbn; [unfold record_failure; repeat case_match; done|done|done]. Qed.

Lemma burst_run_from th key os ts now :
  max_failures (config th) < usize_max ->
  Forall (op_until key now) os ->
  Forall (fun u => now - window (config th) < u) (ts ++ failure_times key os) -> ts <> [] ->
  len (ts ++ failure_times key os) <= max_failures (config th) ->
  inner th !! key = Some (burst_entry (config th) ts) ->
  inner (throttle_run th os) !! key
  = Some (burst_entry (config th) (ts ++ failure_times key os)).
Proof.
  intros Hm. revert th ts Hm. induction os as [|o os IH]; intros th ts Hm Hops Hall Hne Hlen Hk.
  { cbn. by rewrite app_nil_r. }
  apply Forall_cons in Hops as [Ho Hops]. cbn [throttle_run foldl].
  change (o :: os) with ([o] ++ os) in *. rewrite failure_times_app in *.
  rewrite <- (config_throttle_step th o).
  destruct (failure_times key [o]) as [|t [|]] eqn:Eo.
  - apply IH; rewrite ?config_throttle_step; try done.
    eapply other_op_keeps; try done. by apply Forall_app in Hall as [? _].
  - rewrite app_assoc in *. apply IH; rewrite ?config_throttle_step; try done;
      [by destruct ts|].
    destruct o as [k t'|k|t']; cbn in Eo; try done. case_decide; [|done]. simplify_eq.
    apply Forall_app in Hall as [[Hts Ht]%Forall_app _].
    rewrite !len_app in Hlen. change (len [t]) with 1 in Hlen.
    pose proof (len_nonneg (failure_times key os)).
    cbn [throttle_step]. rewrite (inner_record_failure _ _ _ _ Hk).
    + f_equal. eapply note_failure_burst; [exact Ho|exact Hts|lia].
    + intros _. by eapply burst_not_idle.
  - exfalso. destruct o as [k t'|k|t']; cbn in Eo; try done. case_decide; done.
Qed.

Lemma burst_run th key t1 os now :
  max_failures (config th) < usize_max ->
  inner th !! key = None -> map_len (inner th) < MAX_TRACKED_KEYS ->
  Forall (op_until key now) (RecordFailure key t1 :: os) ->
  Forall (fun u => now - window (config th) < u) (failure_times key (RecordFailure key t1 :: os)) ->
  len (failure_times key (RecordFailure key t1 :: os)) <= max_failures (config th) ->
  inner (throttle_run th (RecordFailure key t1 :: os)) !! key
  = Some (burst_entry (config th) (failure_times key (RecordFailure key t1 :: os))).
Proof.
  intros Hm Hnone Hroom [H1 Hops]%Forall_cons Hall Hlen.
  cbn [failure_times] in *. rewrite decide_True in * by done.
  cbn [throttle_run foldl throttle_step].
  rewrite len_cons in Hlen. pose proof (len_nonneg (failure_times key os)).
  set (th1 := record_failure th key t1).
  assert (Hc : config th1 = config th) by apply (config_throttle_step th (RecordFailure key t1)).
  rewrite <- Hc. apply (burst_run_from th1 key os [t1] now); rewrite ?Hc; try done.
  - cbn [app]. rewrite len_cons. lia.
  - unfold th1, record_failure. cbv zeta. rewrite (proj2 (Z.leb_gt _ _) Hroom). cbv iota.
    rewrite Hnone, (proj2 (Z.leb_gt _ _) Hroom). cbn [inner].
    rewrite lookup_insert_eq. f_equal.
    assert (AttemptStateImpl.new = burst_entry (config th) []) as ->.
    { unfold burst_entry. by rewrite (proj2 (Z.ltb_lt _ _)) by (rewrite len_nil; lia). }
    apply (note_failure_burst _ [] _ now); [done|by apply Forall_nil|rewrite len_nil; lia].
Qed.


Definition sample_throttle_trace : list throttle_op :=
  [RecordFailure (lit "eve") 1; RecordFailure (lit "bob") 4; Cleanup 5].


(** Throttle state is per key: a failure, a success or a clean-up that happens by [now] and is
    not about [key] leaves every later decision about [key] as it was, also when the map is full
    and entries are evicted. *)
Theorem throttle_isolation th o key now now'
  (Hop : op_until key now o) (Hother : failure_times key [o] = []) (Hle : now <= now') :
  check (throttle_step th o) key now' = check th key now'.
Proof.
  destruct th as [cfg m]. destruct o as [k t|k|t]; cbn in Hop, Hother.
  - case_decide as Hne; [done|]. cbn [throttle_step]. unfold record_failure. cbn [config inner].
    assert (Hm : check (mk cfg (if MAX_TRACKED_KEYS <=? map_len m
                       then retain_live (window cfg) t m else m)) key now' = check (mk cfg m) key now').
    { case_match; [apply check_retain; lia|done]. }
    rewrite <- Hm. revert Hm. generalize (if MAX_TRACKED_KEYS <=? map_len m
                       then retain_live (window cfg) t m else m). intros m' _.
    repeat case_match; try done; unfold check; cbn [inner]; by rewrite lookup_insert_ne.
  - unfold check. cbn [throttle_step record_success inner]. by rewrite lookup_delete_ne.
  - apply check_retain. lia.
Qed.

Lemma throttle_isolation_witness :
  check (throttle_step (new V1_DEFAULT) (RecordFailure (lit "eve") 3)) (lit "bob") 4
  = check (new V1_DEFAULT) (lit "bob") 4.
Proof.
  apply (throttle_isolation (new V1_DEFAULT) (RecordFailure (lit "eve") 3) (lit "bob") 3 4);
    [vm_compute; congruence|reflexivity|lia].
Defined.

(** A block is never shortened: a key that is blocked until [u] and fails again is blocked
    until [u] at least, and only a success lifts the block at once. *)
Theorem throttle_never_shortens th key now s u
  (Hk : inner th !! key = Some s) (Hu : blocked_until s = Some u) (Hnow : now < u) :
  (forall t, t < u -> exists r, check (record_failure th key now) key t = Throttled r)
  /\ check (record_success th key) key now = Allowed.
Proof.
  split.
  - intros t Ht. assert (Hb : is_blocked s now = true).
    { unfold is_blocked. rewrite Hu. by apply Z.ltb_lt. }
    unfold check. rewrite (inner_record_failure th key now s Hk)
      by (intros _; by apply is_blocked_not_idle).
    destruct (note_failure_until (config th) s now u Hu) as (u' & -> & Hle).
    rewrite (proj2 (Z.ltb_lt _ _)) by lia. by eexists.
  - unfold check, record_success. cbn [inner]. by rewrite lookup_delete_eq.
Qed.

Lemma throttle_never_shortens_witness :
  let th := mk (mkThrottleConfig 2 100 50) {[ lit "bob" := mkAttempt [] (Some 90) ]} in
  (forall t, t < 90 -> exists r, check (record_failure th (lit "bob") 10) (lit "bob") t = Throttled r)
  /\ check (record_success th (lit "bob")) (lit "bob") 10 = Allowed.
Proof.
  apply (throttle_never_shortens
           (mk (mkThrottleConfig 2 100 50) {[ lit "bob" := mkAttempt [] (Some 90) ]})
           (lit "bob") 10 (mkAttempt [] (Some 90)) 90); [reflexivity|reflexivity|lia].
Defined.

(** [retry_after_seconds] is the remaining block truncated to whole seconds, so for a block
    that ends between two seconds it is smaller than what remains: a client that waits that long
    is still throttled. *)
Theorem retry_after_is_truncated th key now s u
  (Hk : inner th !! key = Some s) (Hu : blocked_until s = Some u)
  (Hone : nanos_per_second <= u - now)
  (Hfrac : (u - now) mod nanos_per_second <> 0) :
  exists r, check th key now = Throttled r
    /\ r * nanos_per_second < u - now
    /\ check th key (now + r * nanos_per_second) <> Allowed.
Proof.
  unfold nanos_per_second in *.
  pose proof (Z.div_mod (u - now) 1000000000 ltac:(lia)) as Hdm.
  pose proof (Z.mod_pos_bound (u - now) 1000000000 ltac:(lia)) as Hmb.
  assert (Hq : num_seconds (u - now) = (u - now) / 1000000000).
  { apply Z.quot_div_nonneg; unfold nanos_per_second; lia. }
  assert (1 <= (u - now) / 1000000000) by (apply Z.div_le_lower_bound; lia).
  exists ((u - now) / 1000000000). unfold check. rewrite Hk, Hu.
  rewrite (proj2 (Z.ltb_lt now u)) by lia.
  rewrite Hq, Z.max_l by lia. repeat split; [lia|].
  by rewrite (proj2 (Z.ltb_lt _ u)) by lia.
Qed.

Lemma retry_after_is_truncated_witness :
  let th := mk V1_DEFAULT {[ lit "bob" := mkAttempt [] (Some 1900000000) ]} in
  exists r, check th (lit "bob") 0 = Throttled r
    /\ r * nanos_per_second < 1900000000 - 0
    /\ check th (lit "bob") (0 + r * nanos_per_second) <> Allowed.
Proof.
  apply (retry_after_is_truncated
           (mk V1_DEFAULT {[ lit "bob" := mkAttempt [] (Some 1900000000) ]}) (lit "bob") 0
           (mkAttempt [] (Some 1900000000)) 1900000000);
    [reflexivity|reflexivity|vm_compute; congruence|vm_compute; congruence].
Defined.

(** *** Normalisation *)

Lemma lowercase_whitespace c : is_whitespace (char_to_ascii_lowercase c) = is_whitespace c.
Proof.
  unfold char_to_ascii_lowercase. destruct (_ && _) eqn:E; [|done]. bool_props.
  unfold is_whitespace.
  repeat match goal with |- context [?a <=? ?b] => destruct (Z.leb_spec a b) end; try lia;
  repeat match goal with |- context [?a =? ?b] => destruct (Z.eqb_spec a b) end; try lia; done.
Qed.

Lemma lowercase_trim_start s : trim_start (to_ascii_lowercase s) = to_ascii_lowercase (trim_start s).
Proof.
  induction s as [|c s IH]; cbn; [done|]. rewrite lowercase_whitespace. by case_match.
Qed.

Lemma lowercase_trim s : trim (to_ascii_lowercase s) = to_ascii_lowercase (trim s).
Proof.
  unfold trim. rewrite lowercase_trim_start.
  assert (Hrev : forall l, reverse (to_ascii_lowercase l) = to_ascii_lowercase (reverse l)).
  { intros l. symmetry. apply (fmap_reverse char_to_ascii_lowercase). }
  by rewrite Hrev, lowercase_trim_start, Hrev.
Qed.

Lemma lowercase_idemp s : to_ascii_lowercase (to_ascii_lowercase s) = to_ascii_lowercase s.
Proof.
  unfold to_ascii_lowercase. rewrite map_map. apply map_ext. intros c.
  unfold char_to_ascii_lowercase at 1. case_match; [|done]. bool_props.
  unfold char_to_ascii_lowercase in *. case_match; bool_props; lia.
Qed.

(** Identifiers that differ only in the case of ASCII letters and in surrounding whitespace
    share one throttle key, and a key is its own normal form. *)
Theorem normalize_canonical raw raw'
  (Heq : trim (to_ascii_lowercase raw) = trim (to_ascii_lowercase raw')) :
  normalize_login_identifier raw = normalize_login_identifier raw'
  /\ normalize_login_identifier (normalize_login_identifier raw) = normalize_login_identifier raw.
Proof.
  unfold normalize_login_identifier. rewrite !lowercase_trim in *. split; [done|].
  by rewrite lowercase_idemp, trim_idemp.
Qed.

Lemma normalize_canonical_witness :
  normalize_login_identifier (lit " Alice@Example.com")
  = normalize_login_identifier (lit "alice@example.COM  ")
  /\ normalize_login_identifier (normalize_login_identifier (lit " Alice@Example.com"))
     = normalize_login_identifier (lit " Alice@Example.com").
Proof.
  apply (normalize_canonical (lit " Alice@Example.com") (lit "alice@example.COM  ")).
  reflexivity.
Defined.
