(* ===== verification/Core.v ===== *)
(** * Domain types

    The records and enumerations of [crates/relayterm-core/src] that the session orchestrator
    works on, with their wire tags, and the error types of the repositories and of the PTY
    bridge.  Identifiers are UUIDs, seen as integers. *)

From S2P Require Import Prelude.

Abbreviation Uuid := Z.
Abbreviation UserId := Z.
Abbreviation ServerProfileId := Z.
Abbreviation TerminalSessionId := Z.
Abbreviation TerminalSessionAttachmentId := Z.
Abbreviation SessionEventId := Z.

(** The part of [serde_json::Value] that the audit payloads use.  A string that spells an identifier or an
    instant is kept as what it spells. *)
Inductive json :=
| JNull
| JBool (b : bool)
| JNum (n : Z)
| JStr (s : rstr)
| JUuid (u : Z)
| JTime (t : Z)
| JObj (fields : list (string * json)).

Definition json_opt {A} (f : A -> json) (o : option A) : json :=
  match o with Some a => f a | None => JNull end.

(** ** Session status *)

(** [TerminalSessionStatus] *)
Inductive TerminalSessionStatus := Starting | Active | Detached | Closed.

#[export] Instance TerminalSessionStatus_eq_dec : EqDecision TerminalSessionStatus.
Proof. solve_decision. Defined.

(** [TerminalSessionStatus::as_str] *)
Definition status_as_str (s : TerminalSessionStatus) : string :=
  match s with
  | Starting => "starting"
  | Active => "active"
  | Detached => "detached"
  | Closed => "closed"
  end.

(** [TerminalSessionStatus::from_str_tag] *)
Definition status_from_str_tag (value : string) : option TerminalSessionStatus :=
  if decide (value = "starting"%string) then Some Starting
  else if decide (value = "active"%string) then Some Active
  else if decide (value = "detached"%string) then Some Detached
  else if decide (value = "closed"%string) then Some Closed
  else None.

(** ** Lifecycle events *)

(** [SessionEventKind] *)
Inductive SessionEventKind :=
| EvCreated | EvAttached | EvDetached | EvReattached | EvResized
| EvReplayStarted | EvReplayCompleted | EvClosed.

#[export] Instance SessionEventKind_eq_dec : EqDecision SessionEventKind.
Proof. solve_decision. Defined.

(** [SessionEventKind::as_str] *)
Definition event_as_str (k : SessionEventKind) : string :=
  match k with
  | EvCreated => "created"
  | EvAttached => "attached"
  | EvDetached => "detached"
  | EvReattached => "reattached"
  | EvResized => "resized"
  | EvReplayStarted => "replay_started"
  | EvReplayCompleted => "replay_completed"
  | EvClosed => "closed"
  end.

(** [SessionEventKind::from_str_tag] *)
Definition event_from_str_tag (value : string) : option SessionEventKind :=
  if decide (value = "created"%string) then Some EvCreated
  else if decide (value = "attached"%string) then Some EvAttached
  else if decide (value = "detached"%string) then Some EvDetached
  else if decide (value = "reattached"%string) then Some EvReattached
  else if decide (value = "resized"%string) then Some EvResized
  else if decide (value = "replay_started"%string) then Some EvReplayStarted
  else if decide (value = "replay_completed"%string) then Some EvReplayCompleted
  else if decide (value = "closed"%string) then Some EvClosed
  else None.

(** ** Rows as domain values *)

(** [TerminalSession] *)
Record TerminalSession := mkSession {
  ts_id : TerminalSessionId;
  ts_owner_id : UserId;
  ts_server_profile_id : ServerProfileId;
  ts_status : TerminalSessionStatus;
  ts_cols : Z;
  ts_rows : Z;
  ts_created_at : Z;
  ts_last_seen_at : Z;
  ts_closed_at : option Z
}.

(** [TerminalSessionAttachment] *)
Record TerminalSessionAttachment := mkAttachment {
  ta_id : TerminalSessionAttachmentId;
  ta_session_id : TerminalSessionId;
  ta_attached_at : Z;
  ta_detached_at : option Z;
  ta_client_info : option rstr;
  ta_remote_addr : option rstr;
  ta_last_seen_seq : option Z
}.

(** [SessionEvent] *)
Record SessionEvent := mkEvent {
  se_id : SessionEventId;
  se_session_id : TerminalSessionId;
  se_kind : SessionEventKind;
  se_payload : json;
  se_recorded_at : Z
}.

(** [CreateTerminalSession], [CreateTerminalSessionAttachment] and [CreateSessionEvent] *)
Record CreateTerminalSession := mkCreateSession {
  cs_owner_id : UserId;
  cs_server_profile_id : ServerProfileId;
  cs_status : TerminalSessionStatus;
  cs_cols : Z;
  cs_rows : Z
}.

Record CreateTerminalSessionAttachment := mkCreateAttachment {
  ca_session_id : TerminalSessionId;
  ca_client_info : option rstr;
  ca_remote_addr : option rstr
}.

Record CreateSessionEvent := mkCreateEvent {
  ce_session_id : TerminalSessionId;
  ce_kind : SessionEventKind;
  ce_payload : json
}.

(** ** Errors *)

(** [RepositoryError] *)
Inductive RepositoryError :=
| RNotFound (entity : string)
| RConflict (entity : string) (constraint_ : string)
| RValidation (field : string) (message : string)
| RDatabase (message : string).

(** The bridge's [SshPtyError]; [Transport] wraps the SSH probe's error. *)
Inductive SshPtyError :=
| InvalidIdentity
| Transport (detail : string)
| HostKeyNotTrusted
| AuthenticationFailed
| PtyStartFailed
| BridgeClosed.

(** [ClosedReason] and [SshPtyEvent] *)
Inductive ClosedReason := RemoteEof | LocalClose | TransportError.

Inductive SshPtyEvent :=
| PtyOutput (bytes : list Byte.byte)
| PtyExit (status : Z)
| PtyClosed (reason : ClosedReason).

#[export] Instance RepositoryError_eq_dec : EqDecision RepositoryError.
Proof. solve_decision. Defined.
#[export] Instance SshPtyError_eq_dec : EqDecision SshPtyError.
Proof. solve_decision. Defined.
#[export] Instance ClosedReason_eq_dec : EqDecision ClosedReason.
Proof. solve_decision. Defined.

(** ** Tags parse back *)

Lemma status_tag_roundtrip s : status_from_str_tag (status_as_str s) = Some s.
Proof. by destruct s. Qed.

Lemma status_tag_parse v s : status_from_str_tag v = Some s -> v = status_as_str s.
Proof. unfold status_from_str_tag. intros H. by repeat case_decide; simplify_eq. Qed.

Lemma event_tag_roundtrip k : event_from_str_tag (event_as_str k) = Some k.
Proof. by destruct k. Qed.

Lemma event_tag_parse v k : event_from_str_tag v = Some k -> v = event_as_str k.
Proof. unfold event_from_str_tag. intros H. by repeat case_decide; simplify_eq. Qed.

(** ** Recording markers *)

(** [TerminalRecordingMarkerKind] *)
Inductive TerminalRecordingMarkerKind :=
| MkStarted | MkAttached | MkDetached | MkReattached | MkResized | MkClosed | MkReplayGap.

#[export] Instance TerminalRecordingMarkerKind_eq_dec : EqDecision TerminalRecordingMarkerKind.
Proof. solve_decision. Defined.

(** [TerminalRecordingMarkerKind::allows_seq_zero] *)
Definition allows_seq_zero (k : TerminalRecordingMarkerKind) : bool :=
  match k with MkStarted => true | _ => false end.
