(* ===== verification/SessionStore.v ===== *)
(** * The session repositories as an interface

    The orchestrator holds an [Arc<dyn TerminalSessionRepository>] and an
    [Arc<dyn SessionEventRepository>] (traits of [crates/relayterm-core/src/repository.rs]).
    [SessionStore] is these two traits as operations on an abstract database [DB], with what a
    client may observe of it (the rows and the event log); [SessionStoreLaws] is what the
    implementation promises.  An operation may fail at any time; a failure changes nothing that
    can be observed.  A [healthy] store answers every legitimate request. *)

From S2P Require Import Prelude Core.

(** The row updates of the two [UPDATE] statements. *)
Definition with_status (s : TerminalSession) (status : TerminalSessionStatus)
  (closed_at : option Z) (seen : Z) : TerminalSession :=
  mkSession (ts_id s) (ts_owner_id s) (ts_server_profile_id s) status (ts_cols s) (ts_rows s)
    (ts_created_at s) seen closed_at.

(** [COALESCE(old, new)] *)
Definition coalesce {A} (old new : option A) : option A :=
  match old with Some a => Some a | None => new end.

Definition with_detached (a : TerminalSessionAttachment) (at_ : Z) (seq : option Z)
  : TerminalSessionAttachment :=
  mkAttachment (ta_id a) (ta_session_id a) (ta_attached_at a)
    (coalesce (ta_detached_at a) (Some at_)) (ta_client_info a) (ta_remote_addr a)
    (coalesce (ta_last_seen_seq a) seq).

Class SessionStore (DB : Type) := {
  st_create : CreateTerminalSession -> DB -> result RepositoryError TerminalSession * DB;
  st_get : TerminalSessionId -> DB -> result RepositoryError (option TerminalSession) * DB;
  st_set_status : TerminalSessionId -> TerminalSessionStatus -> option Z -> DB ->
                  result RepositoryError unit * DB;
  st_create_attachment : CreateTerminalSessionAttachment -> DB ->
                  result RepositoryError TerminalSessionAttachment * DB;
  st_get_attachment : TerminalSessionAttachmentId -> DB ->
                  result RepositoryError (option TerminalSessionAttachment) * DB;
  st_mark_attachment_detached : TerminalSessionAttachmentId -> Z -> option Z -> DB ->
                  result RepositoryError unit * DB;
  st_create_event : CreateSessionEvent -> DB -> result RepositoryError SessionEvent * DB;
  (** what can be observed *)
  sv_sessions : DB -> gmap Z TerminalSession;
  sv_attachments : DB -> gmap Z TerminalSessionAttachment;
  sv_events : DB -> list SessionEvent;
  (** the schema's constraints hold, and the store will answer *)
  st_wf : DB -> Prop;
  st_healthy : DB -> Prop;
  st_admits : CreateTerminalSession -> DB -> Prop
}.

(** Two databases that no client can tell apart. *)
Definition store_eq `{SessionStore DB} (d d' : DB) : Prop :=
  sv_sessions d = sv_sessions d' /\ sv_attachments d = sv_attachments d'
  /\ sv_events d = sv_events d'.

#[export] Instance store_eq_equiv `{SessionStore DB} : Equivalence store_eq.
Proof.
  split.
  - done.
  - intros d d' (? & ? & ?). done.
  - intros d d' d'' (? & ? & ?) (? & ? & ?). repeat split; congruence.
Qed.

#[export] Instance sv_sessions_proper `{SessionStore DB} :
  Proper (store_eq ==> eq) (sv_sessions (DB := DB)).
Proof. by intros d d' (? & _ & _). Qed.
#[export] Instance sv_attachments_proper `{SessionStore DB} :
  Proper (store_eq ==> eq) (sv_attachments (DB := DB)).
Proof. by intros d d' (_ & ? & _). Qed.
#[export] Instance sv_events_proper `{SessionStore DB} :
  Proper (store_eq ==> eq) (sv_events (DB := DB)).
Proof. by intros d d' (_ & _ & ?). Qed.

(** The outcome of a fallible request: an error that changed nothing, or the effect [post]. *)
Definition outcome `{SessionStore DB} {A} (d : DB) (rd : result RepositoryError A * DB)
  (can : Prop) (post : A -> Prop) : Prop :=
  match rd.1 with
  | Err _ => store_eq d rd.2 /\ (st_healthy d -> ~ can)
  | Ok a => post a
  end /\ st_wf rd.2 /\ (st_healthy d -> st_healthy rd.2).

Class SessionStoreLaws (DB : Type) `{SessionStore DB} : Prop := {
  law_create c d : st_wf d -> let rd := st_create c d in
    outcome d rd (st_admits c d) (fun s =>
      sv_sessions d !! ts_id s = None
      /\ ts_owner_id s = cs_owner_id c /\ ts_server_profile_id s = cs_server_profile_id c
      /\ ts_status s = cs_status c /\ ts_cols s = cs_cols c /\ ts_rows s = cs_rows c
      /\ ts_closed_at s = None
      /\ sv_sessions rd.2 = <[ts_id s := s]> (sv_sessions d)
      /\ sv_attachments rd.2 = sv_attachments d /\ sv_events rd.2 = sv_events d);
  law_get id d : st_wf d -> let rd := st_get id d in
    outcome d rd True (fun o => o = sv_sessions d !! id /\ store_eq d rd.2);
  law_set_status id status closed d : st_wf d -> let rd := st_set_status id status closed d in
    outcome d rd (is_Some (sv_sessions d !! id)) (fun _ =>
      exists s seen, sv_sessions d !! id = Some s
      /\ sv_sessions rd.2 = <[id := with_status s status closed seen]> (sv_sessions d)
      /\ sv_attachments rd.2 = sv_attachments d /\ sv_events rd.2 = sv_events d);
  law_create_attachment c d : st_wf d -> let rd := st_create_attachment c d in
    outcome d rd (is_Some (sv_sessions d !! ca_session_id c)) (fun a =>
      sv_attachments d !! ta_id a = None
      /\ is_Some (sv_sessions d !! ca_session_id c)
      /\ ta_session_id a = ca_session_id c /\ ta_detached_at a = None
      /\ ta_client_info a = ca_client_info c /\ ta_remote_addr a = ca_remote_addr c
      /\ ta_last_seen_seq a = None
      /\ sv_attachments rd.2 = <[ta_id a := a]> (sv_attachments d)
      /\ sv_sessions rd.2 = sv_sessions d /\ sv_events rd.2 = sv_events d);
  law_get_attachment id d : st_wf d -> let rd := st_get_attachment id d in
    outcome d rd True (fun o => o = sv_attachments d !! id /\ store_eq d rd.2);
  law_mark_detached id at_ seq d : st_wf d -> let rd := st_mark_attachment_detached id at_ seq d in
    outcome d rd (is_Some (sv_attachments d !! id) /\ (forall n, seq = Some n -> 0 <= n)) (fun _ =>
      exists a, sv_attachments d !! id = Some a
      /\ sv_attachments rd.2 = <[id := with_detached a at_ seq]> (sv_attachments d)
      /\ sv_sessions rd.2 = sv_sessions d /\ sv_events rd.2 = sv_events d);
  law_create_event c d : st_wf d -> let rd := st_create_event c d in
    outcome d rd (is_Some (sv_sessions d !! ce_session_id c)) (fun e =>
      is_Some (sv_sessions d !! ce_session_id c)
      /\ se_session_id e = ce_session_id c /\ se_kind e = ce_kind c /\ se_payload e = ce_payload c
      /\ sv_events rd.2 = sv_events d ++ [e]
      /\ sv_sessions rd.2 = sv_sessions d /\ sv_attachments rd.2 = sv_attachments d);
  (** the primary key of a row is its identifier *)
  law_session_key d id s : st_wf d -> sv_sessions d !! id = Some s -> ts_id s = id;
  law_attachment_key d id a : st_wf d -> sv_attachments d !! id = Some a -> ta_id a = id
}.
