(* ===== verification/PgSession.v ===== *)
(** * The Postgres session repositories

    Models [crates/relayterm-db/src/repositories/terminal_session.rs] and
    [crates/relayterm-db/src/repositories/session_event.rs], the row conversions of
    [crates/relayterm-db/src/rows.rs] and the error mapping of [crates/relayterm-db/src/error.rs]
    over tables with the primary keys, foreign keys and CHECK constraints of the migrations.
    Every statement may fail with a driver error taken from a script ([faults]); [NOW()] reads
    [clock]; [Uuid::new_v4] is a counter, and a primary key that is taken is refused as Postgres
    refuses it.  The last part discharges the [SessionStore] interface. *)

From stdpp Require Import pretty.
From S2P Require Import Prelude Core SessionStore.

(** [TerminalSessionRow] *)
Record TerminalSessionRow := mkSessionRow {
  r_id : Uuid;
  r_owner_id : Uuid;
  r_server_profile_id : Uuid;
  r_status : string;
  r_cols : Z;
  r_rows : Z;
  r_created_at : Z;
  r_last_seen_at : Z;
  r_closed_at : option Z
}.

(** [SessionEventRow] *)
Record SessionEventRow := mkEventRow {
  er_id : Uuid;
  er_session_id : Uuid;
  er_kind : string;
  er_payload : json;
  er_recorded_at : Z
}.

(** The tables the session repositories touch.  An attachment row has the columns of the domain
    value ([TerminalSessionAttachmentRow::into_domain] copies them one by one). *)
Record PgDb := mkPgDb {
  t_users : gset Uuid;
  t_profiles : gset Uuid;
  t_sessions : gmap Uuid TerminalSessionRow;
  t_attachments : gmap Uuid TerminalSessionAttachment;
  t_events : list SessionEventRow;
  clock : Z;
  next_uuid : Uuid;
  faults : list (option RepositoryError)
}.

Definition ENTITY : string := "terminal_session".
Definition ATTACHMENT_ENTITY : string := "terminal_session_attachment".
Definition SESSION_EVENT_ENTITY : string := "session_event".

(** ** Driver errors *)

(** The outcomes of [sqlx::Error] that [map_sqlx_error] tells apart. *)
Inductive sqlx_error :=
| RowNotFound
| UniqueViolation (constraint_ : option string)
| ForeignKeyViolation (constraint_ : option string)
| OtherConstraint (constraint_ : option string)
| OtherSqlx (text : string).

(** [map_sqlx_error] *)
Definition map_sqlx_error (entity : string) (err : sqlx_error) : RepositoryError :=
  match err with
  | RowNotFound => RNotFound entity
  | UniqueViolation c => RConflict entity (default "unique"%string c)
  | ForeignKeyViolation c => RConflict entity (default "foreign_key"%string c)
  | OtherConstraint c =>
      RDatabase (entity +:+ ": database constraint failed (" +:+ default "unknown"%string c +:+ ")")
  | OtherSqlx other => RDatabase (entity +:+ ": " +:+ other)
  end.

(** ** Row conversions *)

(** [u16::try_from(i32)] *)
Definition u16_try_from (z : Z) : option Z :=
  if (0 <=? z) && (z <=? u16_max) then Some z else None.

(** [TerminalSessionRow::try_into_domain] *)
Definition session_try_into_domain (r : TerminalSessionRow)
  : result RepositoryError TerminalSession :=
  let? status := ok_or (status_from_str_tag (r_status r))
    (RDatabase ("row integrity: terminal_session.status unknown (" +:+ r_status r +:+ ")")) in
  let? cols := ok_or (u16_try_from (r_cols r))
    (RDatabase ("row integrity: terminal_session.cols out of u16 range ("
                +:+ pretty (r_cols r) +:+ ")")) in
  let? rows := ok_or (u16_try_from (r_rows r))
    (RDatabase ("row integrity: terminal_session.rows out of u16 range ("
                +:+ pretty (r_rows r) +:+ ")")) in
  Ok (mkSession (r_id r) (r_owner_id r) (r_server_profile_id r) status cols rows
        (r_created_at r) (r_last_seen_at r) (r_closed_at r)).

(** [SessionEventRow::try_into_domain] *)
Definition event_try_into_domain (r : SessionEventRow) : result RepositoryError SessionEvent :=
  let? kind := ok_or (event_from_str_tag (er_kind r))
    (RDatabase ("row integrity: session_event.kind unknown (" +:+ er_kind r +:+ ")")) in
  Ok (mkEvent (er_id r) (er_session_id r) kind (er_payload r) (er_recorded_at r)).

(** ** Schema constraints *)

Definition dim_chk (z : Z) : bool := (1 <=? z) && (z <=? 4096).

Definition status_chk (s : string) : bool :=
  bool_decide (s ∈ ["starting"; "active"; "detached"; "closed"]%string).

Definition last_seen_seq_chk (o : option Z) : bool :=
  match o with Some n => 0 <=? n | None => true end.

(** The constraint an inserted session row violates, if any. *)
Definition session_violation (d : PgDb) (r : TerminalSessionRow) : option sqlx_error :=
  if negb (status_chk (r_status r)) then Some (OtherConstraint (Some "terminal_sessions_status_chk"))
  else if negb (dim_chk (r_cols r)) then Some (OtherConstraint (Some "terminal_sessions_cols_chk"))
  else if negb (dim_chk (r_rows r)) then Some (OtherConstraint (Some "terminal_sessions_rows_chk"))
  else if bool_decide (is_Some (t_sessions d !! r_id r)) then
    Some (UniqueViolation (Some "terminal_sessions_pkey"))
  else if negb (bool_decide (r_owner_id r ∈ t_users d)) then
    Some (ForeignKeyViolation (Some "terminal_sessions_owner_id_fkey"))
  else if negb (bool_decide (r_server_profile_id r ∈ t_profiles d)) then
    Some (ForeignKeyViolation (Some "terminal_sessions_server_profile_id_fkey"))
  else None.

(** ** Statements *)

Definition set_sessions (f : gmap Uuid TerminalSessionRow -> gmap Uuid TerminalSessionRow)
  (d : PgDb) : PgDb :=
  mkPgDb (t_users d) (t_profiles d) (f (t_sessions d)) (t_attachments d) (t_events d)
    (clock d) (next_uuid d) (faults d).

Definition set_attachments
  (f : gmap Uuid TerminalSessionAttachment -> gmap Uuid TerminalSessionAttachment)
  (d : PgDb) : PgDb :=
  mkPgDb (t_users d) (t_profiles d) (t_sessions d) (f (t_attachments d)) (t_events d)
    (clock d) (next_uuid d) (faults d).

Definition push_event (r : SessionEventRow) (d : PgDb) : PgDb :=
  mkPgDb (t_users d) (t_profiles d) (t_sessions d) (t_attachments d) (t_events d ++ [r])
    (clock d) (next_uuid d) (faults d).

(** [Uuid::new_v4] *)
Definition new_v4 (d : PgDb) : Uuid * PgDb :=
  (next_uuid d,
   mkPgDb (t_users d) (t_profiles d) (t_sessions d) (t_attachments d) (t_events d)
     (clock d) (next_uuid d + 1) (faults d)).

(** Take the next entry of the fault script. *)
Definition next_fault (d : PgDb) : option RepositoryError * PgDb :=
  match faults d with
  | [] => (None, d)
  | o :: rest =>
      (o, mkPgDb (t_users d) (t_profiles d) (t_sessions d) (t_attachments d) (t_events d)
            (clock d) (next_uuid d) rest)
  end.

(** Run a statement unless the driver fails. *)
Definition execute {A} (f : PgDb -> result RepositoryError A * PgDb) (d : PgDb)
  : result RepositoryError A * PgDb :=
  match next_fault d with
  | (Some e, d') => (Err e, d')
  | (None, d') => f d'
  end.

Module PgTerminalSessionRepository.

(** [create] *)
Definition create (input : CreateTerminalSession) (d : PgDb)
  : result RepositoryError TerminalSession * PgDb :=
  let '(id, d) := new_v4 d in
  execute (fun d =>
    let row := mkSessionRow id (cs_owner_id input) (cs_server_profile_id input)
                 (status_as_str (cs_status input)) (cs_cols input) (cs_rows input)
                 (clock d) (clock d) None in
    match session_violation d row with
    | Some v => (Err (map_sqlx_error ENTITY v), d)
    | None => (session_try_into_domain row, set_sessions <[id := row]> d)
    end) d.

(** [get] *)
Definition get (id : TerminalSessionId) (d : PgDb)
  : result RepositoryError (option TerminalSession) * PgDb :=
  execute (fun d =>
    (match t_sessions d !! id with
     | None => Ok None
     | Some row => let? s := session_try_into_domain row in Ok (Some s)
     end, d)) d.

(** [set_status] *)
Definition set_status (id : TerminalSessionId) (status : TerminalSessionStatus)
  (closed_at : option Z) (d : PgDb) : result RepositoryError unit * PgDb :=
  execute (fun d =>
    match t_sessions d !! id with
    | None => (Err (RNotFound ENTITY), d)
    | Some r =>
        (Ok tt,
         set_sessions <[id := mkSessionRow (r_id r) (r_owner_id r) (r_server_profile_id r)
                                (status_as_str status) (r_cols r) (r_rows r) (r_created_at r)
                                (clock d) closed_at]> d)
    end) d.

(** [create_attachment] *)
Definition create_attachment (input : CreateTerminalSessionAttachment) (d : PgDb)
  : result RepositoryError TerminalSessionAttachment * PgDb :=
  let '(id, d) := new_v4 d in
  execute (fun d =>
    let row := mkAttachment id (ca_session_id input) (clock d) None (ca_client_info input)
                 (ca_remote_addr input) None in
    if bool_decide (is_Some (t_attachments d !! id)) then
      (Err (map_sqlx_error ATTACHMENT_ENTITY
              (UniqueViolation (Some "terminal_session_attachments_pkey"%string))), d)
    else if negb (bool_decide (is_Some (t_sessions d !! ca_session_id input))) then
      (Err (map_sqlx_error ATTACHMENT_ENTITY
              (ForeignKeyViolation (Some "terminal_session_attachments_session_id_fkey"%string))), d)
    else (Ok row, set_attachments <[id := row]> d)) d.

(** [get_attachment] *)
Definition get_attachment (id : TerminalSessionAttachmentId) (d : PgDb)
  : result RepositoryError (option TerminalSessionAttachment) * PgDb :=
  execute (fun d => (Ok (t_attachments d !! id), d)) d.

(** [mark_attachment_detached] *)
Definition mark_attachment_detached (id : TerminalSessionAttachmentId) (detached_at : Z)
  (last_seen_seq : option Z) (d : PgDb) : result RepositoryError unit * PgDb :=
  execute (fun d =>
    match t_attachments d !! id with
    | None => (Err (RNotFound ATTACHMENT_ENTITY), d)
    | Some a =>
        let a' := with_detached a detached_at last_seen_seq in
        if last_seen_seq_chk (ta_last_seen_seq a') then (Ok tt, set_attachments <[id := a']> d)
        else (Err (map_sqlx_error ATTACHMENT_ENTITY (OtherConstraint (Some "tsa_last_seen_seq_chk"%string))), d)
    end) d.

End PgTerminalSessionRepository.

Module PgSessionEventRepository.

(** [create] *)
Definition create (input : CreateSessionEvent) (d : PgDb)
  : result RepositoryError SessionEvent * PgDb :=
  let '(id, d) := new_v4 d in
  execute (fun d =>
    let row := mkEventRow id (ce_session_id input) (event_as_str (ce_kind input))
                 (ce_payload input) (clock d) in
    if bool_decide (id ∈ map er_id (t_events d)) then
      (Err (map_sqlx_error SESSION_EVENT_ENTITY (UniqueViolation (Some "session_events_pkey"%string))), d)
    else if negb (bool_decide (is_Some (t_sessions d !! ce_session_id input))) then
      (Err (map_sqlx_error SESSION_EVENT_ENTITY
              (ForeignKeyViolation (Some "session_events_session_id_fkey"%string))), d)
    else (event_try_into_domain row, push_event row d)) d.

End PgSessionEventRepository.

(** ** Discharging the interface *)

Definition session_of_row (r : TerminalSessionRow) : option TerminalSession :=
  match session_try_into_domain r with Ok s => Some s | Err _ => None end.

Definition event_of_row (r : SessionEventRow) : option SessionEvent :=
  match event_try_into_domain r with Ok e => Some e | Err _ => None end.

Definition session_row_ok (r : TerminalSessionRow) : Prop :=
  status_chk (r_status r) = true /\ dim_chk (r_cols r) = true /\ dim_chk (r_rows r) = true.

(** The schema's constraints. *)
Record pg_wf (d : PgDb) : Prop := {
  wf_sessions : map_Forall (fun id r => r_id r = id /\ session_row_ok r) (t_sessions d);
  wf_attachments : map_Forall (fun id a => ta_id a = id) (t_attachments d)
}.

(** No driver failure is due, and every identifier in use is one the generator has passed. *)
Record pg_healthy (d : PgDb) : Prop := {
  healthy_faults : Forall (fun o => o = None) (faults d);
  healthy_sessions : map_Forall (fun id _ => id < next_uuid d) (t_sessions d);
  healthy_attachments :
    map_Forall (fun id a => id < next_uuid d /\ last_seen_seq_chk (ta_last_seen_seq a) = true)
      (t_attachments d);
  healthy_events : Forall (fun r => er_id r < next_uuid d) (t_events d)
}.

Definition pg_admits (c : CreateTerminalSession) (d : PgDb) : Prop :=
  cs_owner_id c ∈ t_users d /\ cs_server_profile_id c ∈ t_profiles d
  /\ dim_chk (cs_cols c) = true /\ dim_chk (cs_rows c) = true.

#[export] Instance pg_session_store : SessionStore PgDb := {|
  st_create := PgTerminalSessionRepository.create;
  st_get := PgTerminalSessionRepository.get;
  st_set_status := PgTerminalSessionRepository.set_status;
  st_create_attachment := PgTerminalSessionRepository.create_attachment;
  st_get_attachment := PgTerminalSessionRepository.get_attachment;
  st_mark_attachment_detached := PgTerminalSessionRepository.mark_attachment_detached;
  st_create_event := PgSessionEventRepository.create;
  sv_sessions d := omap session_of_row (t_sessions d);
  sv_attachments := t_attachments;
  sv_events d := omap event_of_row (t_events d);
  st_wf := pg_wf;
  st_healthy := pg_healthy;
  st_admits := pg_admits
|}.

(** Databases that differ at most in the identifier counter and the fault script. *)
Record same_tables (d d' : PgDb) : Prop := {
  st_same_users : t_users d = t_users d';
  st_same_profiles : t_profiles d = t_profiles d';
  st_same_sessions : t_sessions d = t_sessions d';
  st_same_attachments : t_attachments d = t_attachments d';
  st_same_events : t_events d = t_events d'
}.

Lemma same_tables_store_eq d d' : same_tables d d' -> store_eq d d'.
Proof. intros [_ _ H1 H2 H3]. unfold store_eq. cbn. by rewrite H1, H2, H3. Qed.

Lemma same_tables_wf d d' : same_tables d d' -> pg_wf d -> pg_wf d'.
Proof. intros [_ _ H1 H2 H3] [? ?]. split; by rewrite <- ?H1, <- ?H2. Qed.

(** Running a statement: the driver fails and nothing changes, or the statement runs. *)
Lemma execute_cases {A} (f : PgDb -> result RepositoryError A * PgDb) d :
  exists d', same_tables d d' /\ next_uuid d' = next_uuid d
    /\ (pg_healthy d -> pg_healthy d')
    /\ ((exists e, execute f d = (Err e, d') /\ ~ pg_healthy d) \/ execute f d = f d').
Proof.
  unfold execute, next_fault. destruct (faults d) as [|o rest] eqn:E.
  - exists d. split; [by split|]. split; [done|]. split; [done|]. by right.
  - eexists. split; [|split; [|split; [|destruct o; [left|right; reflexivity]]]].
    + by split.
    + done.
    + intros [Hf H1 H2 H3]. rewrite E in Hf. apply Forall_cons in Hf as [_ Hf].
      split; cbn; [exact Hf|exact H1|exact H2|exact H3].
    + eexists. split; [reflexivity|]. intros [Hf _ _ _]. rewrite E in Hf.
      apply Forall_cons in Hf as [? _]. done.
Qed.

Lemma new_v4_same d id d' : new_v4 d = (id, d') ->
  same_tables d d' /\ id = next_uuid d /\ next_uuid d' = next_uuid d + 1
  /\ (pg_healthy d -> pg_healthy d').
Proof.
  unfold new_v4. intros [= <- <-]. split; [by split|]. split; [done|]. split; [done|].
  intros Hh. split; cbn.
  - by apply healthy_faults.
  - eapply map_Forall_impl; [by apply healthy_sessions|]. cbn. lia.
  - eapply map_Forall_impl; [by apply healthy_attachments|]. cbn. intros ? ? []. split; [lia|done].
  - eapply Forall_impl; [by apply healthy_events|]. cbn. lia.
Qed.

(** The CHECK constraints make the stored row readable. *)
Lemma session_row_readable r : session_row_ok r ->
  exists status, r_status r = status_as_str status
    /\ session_try_into_domain r
       = Ok (mkSession (r_id r) (r_owner_id r) (r_server_profile_id r) status (r_cols r) (r_rows r)
               (r_created_at r) (r_last_seen_at r) (r_closed_at r)).
Proof.
  intros (Hs & Hc & Hr). unfold status_chk in Hs. bool_props.
  assert (exists status, r_status r = status_as_str status) as [status Est].
  { repeat (apply elem_of_cons in Hs as [Hs|Hs]); [exists Starting|exists Active|exists Detached|
      exists Closed|by apply elem_of_nil in Hs]; done. }
  exists status. split; [done|]. unfold session_try_into_domain, u16_try_from, u16_max, dim_chk in *.
  bool_props. rewrite Est, status_tag_roundtrip. cbn [ok_or result_bind].
  rewrite (proj2 (andb_true_iff _ _)) by (split; apply Z.leb_le; lia). cbn [ok_or result_bind].
  by rewrite (proj2 (andb_true_iff _ _)) by (split; apply Z.leb_le; lia).
Qed.

Lemma session_view d id r : pg_wf d -> t_sessions d !! id = Some r ->
  exists s, session_try_into_domain r = Ok s /\ sv_sessions d !! id = Some s /\ ts_id s = id.
Proof.
  intros [Hwf _] Hr. destruct (Hwf _ _ Hr) as [Hid Hok].
  destruct (session_row_readable r Hok) as (status & _ & Hd).
  eexists. split; [exact Hd|]. split; [|done].
  cbn. rewrite lookup_omap, Hr. cbn. unfold session_of_row. by rewrite Hd.
Qed.

Lemma session_view_None d id : t_sessions d !! id = None -> sv_sessions d !! id = None.
Proof. intros H. cbn. by rewrite lookup_omap, H. Qed.

Lemma session_view_is_Some d id : pg_wf d ->
  is_Some (sv_sessions d !! id) <-> is_Some (t_sessions d !! id).
Proof.
  intros Hwf. split.
  - intros H. destruct (t_sessions d !! id) eqn:E; [eauto|].
    rewrite session_view_None in H by done. by destruct H.
  - intros [r Hr]. destruct (session_view d id r Hwf Hr) as (s & _ & ? & _). eauto.
Qed.

(** Inserting a readable row inserts its domain value in the view. *)
Lemma session_view_insert d id r s : session_try_into_domain r = Ok s ->
  sv_sessions (set_sessions <[id := r]> d) = <[id := s]> (sv_sessions d).
Proof.
  intros Hd. cbn. rewrite (omap_insert_Some _ _ _ _ s); [done|].
  unfold session_of_row. by rewrite Hd.
Qed.

(** A refused or failed statement. *)
Lemma outcome_err {A} d e d' (can : Prop) (post : A -> Prop) :
  pg_wf d -> same_tables d d' -> (pg_healthy d -> pg_healthy d') -> (pg_healthy d -> ~ can) ->
  outcome d (Err e, d') can post.
Proof.
  intros Hwf Hs Hh Hcan. unfold outcome. cbn [fst snd].
  split; [split; [by apply same_tables_store_eq|exact Hcan]|].
  split; [by apply (same_tables_wf d)|exact Hh].
Qed.

(** Enter a statement: the driver's failure is discharged by [outcome_err]. *)
Ltac enter_statement :=
  match goal with |- context [execute ?f ?d] =>
    let d' := fresh "d'" in let Hsame := fresh "Hsame" in let Hnext := fresh "Hnext" in
    let Hh := fresh "Hh" in let e := fresh "e" in let Hbad := fresh "Hbad" in
    let Hex := fresh "Hex" in
    destruct (execute_cases f d) as (d' & Hsame & Hnext & Hh & [(e & Hex & Hbad)|Hex]);
    rewrite Hex; clear Hex
  end.

Lemma same_tables_trans d d' d'' : same_tables d d' -> same_tables d' d'' -> same_tables d d''.
Proof. intros [] []. split; congruence. Qed.

Lemma pg_law_get id d : pg_wf d ->
  outcome d (PgTerminalSessionRepository.get id d) True
    (fun o => o = sv_sessions d !! id /\ store_eq d (PgTerminalSessionRepository.get id d).2).
Proof.
  intros Hwf. unfold PgTerminalSessionRepository.get. enter_statement.
  { by apply outcome_err. }
  pose proof (same_tables_wf _ _ Hsame Hwf) as Hwf'.
  destruct (t_sessions d' !! id) as [r|] eqn:Er; rewrite <- (st_same_sessions _ _ Hsame) in Er.
  - destruct (session_view d id r Hwf Er) as (s & Hd & Hv & _). rewrite Hd. cbn [result_bind].
    split; [|done]. cbn [fst snd]. rewrite Hv. split; [done|by apply same_tables_store_eq].
  - split; [|done]. cbn [fst snd]. rewrite session_view_None by done.
    split; [done|by apply same_tables_store_eq].
Qed.

Lemma pg_law_get_attachment id d : pg_wf d ->
  outcome d (PgTerminalSessionRepository.get_attachment id d) True
    (fun o => o = sv_attachments d !! id
              /\ store_eq d (PgTerminalSessionRepository.get_attachment id d).2).
Proof.
  intros Hwf. unfold PgTerminalSessionRepository.get_attachment. enter_statement.
  { by apply outcome_err. }
  pose proof (same_tables_wf _ _ Hsame Hwf) as Hwf'.
  split; [|done]. cbn [fst snd]. rewrite <- (st_same_attachments _ _ Hsame).
  split; [done|by apply same_tables_store_eq].
Qed.

Lemma pg_law_set_status id status closed d : pg_wf d ->
  let rd := PgTerminalSessionRepository.set_status id status closed d in
  outcome d rd (is_Some (sv_sessions d !! id)) (fun _ =>
      exists s seen, sv_sessions d !! id = Some s
      /\ sv_sessions rd.2 = <[id := with_status s status closed seen]> (sv_sessions d)
      /\ sv_attachments rd.2 = sv_attachments d /\ sv_events rd.2 = sv_events d).
Proof.
  intros Hwf. cbv zeta. unfold PgTerminalSessionRepository.set_status. enter_statement.
  { by apply outcome_err. }
  pose proof (same_tables_wf _ _ Hsame Hwf) as Hwf'.
  destruct (t_sessions d' !! id) as [r|] eqn:Er.
  2:{ apply outcome_err; try done. intros _ Hsome.
      rewrite (same_tables_store_eq _ _ Hsame) in Hsome.
      rewrite session_view_None in Hsome by done. by destruct Hsome. }
  destruct (wf_sessions _ Hwf' id r Er) as [Hid Hok].
  destruct (session_row_readable r Hok) as (st & _ & Hd).
  destruct (session_view d' id r Hwf' Er) as (s & Hds & Hv & _). rewrite Hd in Hds.
  injection Hds as <-. destruct Hok as (Hs1 & Hs2 & Hs3).
  set (r' := mkSessionRow _ _ _ _ _ _ _ _ _).
  assert (Hok' : session_row_ok r').
  { split; [|by split]. cbn. by destruct status. }
  destruct (session_row_readable r' Hok') as (st' & Hst' & Hd').
  assert (st' = status) as ->.
  { cbn in Hst'. apply (f_equal status_from_str_tag) in Hst'.
    rewrite !status_tag_roundtrip in Hst'. congruence. }
  split; [|split].
  - cbn [fst snd]. do 2 eexists. split; [by rewrite (same_tables_store_eq _ _ Hsame)|].
    rewrite (session_view_insert _ _ _ _ Hd'), (same_tables_store_eq _ _ Hsame).
    repeat split. 
  - destruct Hwf' as [H1 H2]. split; [|exact H2]. cbn. by apply map_Forall_insert_2.
  - intros Hhd. destruct (Hh Hhd) as [H1 H2 H3 H4]. split; try done. cbn.
    apply map_Forall_insert_2; [apply (H2 _ _ Er)|exact H2].
Qed.

(** Enter a statement that was preceded by [Uuid::new_v4]. *)
Ltac enter_insert :=
  match goal with |- context [new_v4 ?d] =>
    let id := fresh "id" in let d1 := fresh "d1" in let Hnew := fresh "Hnew" in
    destruct (new_v4 d) as [id d1] eqn:Hnew;
    let Hsame1 := fresh "Hsame1" in let Hid := fresh "Hid" in let Hup := fresh "Hup" in
    let Hh1 := fresh "Hh1" in
    destruct (new_v4_same d id d1 Hnew) as (Hsame1 & Hid & Hup & Hh1); clear Hnew
  end; cbv zeta; enter_statement.

Lemma pg_law_create c d : pg_wf d ->
  let rd := PgTerminalSessionRepository.create c d in
  outcome d rd (pg_admits c d) (fun s =>
      sv_sessions d !! ts_id s = None
      /\ ts_owner_id s = cs_owner_id c /\ ts_server_profile_id s = cs_server_profile_id c
      /\ ts_status s = cs_status c /\ ts_cols s = cs_cols c /\ ts_rows s = cs_rows c
      /\ ts_closed_at s = None
      /\ sv_sessions rd.2 = <[ts_id s := s]> (sv_sessions d)
      /\ sv_attachments rd.2 = sv_attachments d /\ sv_events rd.2 = sv_events d).
Proof.
  intros Hwf. cbv zeta. unfold PgTerminalSessionRepository.create. enter_insert.
  { apply outcome_err; [done|by eapply same_tables_trans|auto|]. intros Hd. exfalso. auto. }
  pose proof (same_tables_trans _ _ _ Hsame1 Hsame) as Hsame2.
  pose proof (same_tables_wf _ _ Hsame2 Hwf) as Hwf'.
  set (row := mkSessionRow _ _ _ _ _ _ _ _ _).
  destruct (session_violation d' row) as [v|] eqn:Ev.
  - apply outcome_err; [done|done|auto|]. intros Hd (Hu & Hp & Hc & Hr).
    unfold session_violation in Ev.
    rewrite (st_same_users _ _ Hsame2) in Hu. rewrite (st_same_profiles _ _ Hsame2) in Hp.
    cbn [row r_status r_cols r_rows r_id r_owner_id r_server_profile_id] in Ev.
    rewrite Hc, Hr in Ev. replace (status_chk _) with true in Ev by (by destruct (cs_status c)).
    cbn [negb] in Ev. rewrite (bool_decide_eq_false_2 (is_Some _)) in Ev.
    2:{ intros [r Hrow]. rewrite <- (st_same_sessions _ _ Hsame2) in Hrow.
        pose proof (healthy_sessions _ Hd _ _ Hrow) as Hlt. cbn beta in Hlt. lia. }
    by rewrite !bool_decide_eq_true_2 in Ev by done.
  - assert (Hok : session_row_ok row /\ t_sessions d' !! id = None).
    { unfold session_violation in Ev. repeat (case_match; [done|]). bool_props.
      split; [by split|]. by apply eq_None_not_Some. }
    destruct Hok as [Hok Hfresh].
    destruct (session_row_readable row Hok) as (st & Hst & Hd). rewrite Hd.
    assert (st = cs_status c) as ->.
    { apply (f_equal status_from_str_tag) in Hst. cbn in Hst.
      rewrite !status_tag_roundtrip in Hst. congruence. }
    split; [|split]; cbn [fst snd].
    + cbn [ts_id]. rewrite (same_tables_store_eq _ _ Hsame2).
      rewrite session_view_None by done. rewrite (session_view_insert _ _ _ _ Hd).
      repeat split; cbn; by rewrite ?(st_same_attachments _ _ Hsame2), ?(st_same_events _ _ Hsame2).
    + destruct Hwf' as [H1 H2]. split; [|exact H2]. cbn. by apply map_Forall_insert_2.
    + intros Hhd. destruct (Hh (Hh1 Hhd)) as [H1 H2 H3 H4]. split; try done. cbn.
      apply map_Forall_insert_2; [lia|exact H2].
Qed.

Lemma pg_law_create_attachment c d : pg_wf d ->
  let rd := PgTerminalSessionRepository.create_attachment c d in
  outcome d rd (is_Some (sv_sessions d !! ca_session_id c)) (fun a =>
      sv_attachments d !! ta_id a = None
      /\ is_Some (sv_sessions d !! ca_session_id c)
      /\ ta_session_id a = ca_session_id c /\ ta_detached_at a = None
      /\ ta_client_info a = ca_client_info c /\ ta_remote_addr a = ca_remote_addr c
      /\ ta_last_seen_seq a = None
      /\ sv_attachments rd.2 = <[ta_id a := a]> (sv_attachments d)
      /\ sv_sessions rd.2 = sv_sessions d /\ sv_events rd.2 = sv_events d).
Proof.
  intros Hwf. cbv zeta. unfold PgTerminalSessionRepository.create_attachment. enter_insert.
  { apply outcome_err; [done|by eapply same_tables_trans|auto|]. intros Hd. exfalso. auto. }
  pose proof (same_tables_trans _ _ _ Hsame1 Hsame) as Hsame2.
  pose proof (same_tables_wf _ _ Hsame2 Hwf) as Hwf'.
  destruct (bool_decide _) eqn:Epk; bool_props.
  { apply outcome_err; [done|done|auto|]. intros Hd _. destruct Epk as [a Ha].
    rewrite <- (st_same_attachments _ _ Hsame2) in Ha.
    destruct (healthy_attachments _ Hd _ _ Ha) as [Hlt _]. lia. }
  destruct (negb _) eqn:Efk; bool_props.
  { apply outcome_err; [done|done|auto|]. intros _ Hsome. apply Efk.
    rewrite (same_tables_store_eq _ _ Hsame2) in Hsome. by apply session_view_is_Some in Hsome. }
  split; [|split]; cbn [fst snd].
  - cbn [ta_id]. cbn [sv_attachments pg_session_store].
    rewrite (st_same_attachments _ _ Hsame2), (same_tables_store_eq _ _ Hsame2).
    repeat split; try done; [by apply eq_None_not_Some|by apply session_view_is_Some].
  - destruct Hwf' as [H1 H2]. split; [exact H1|]. cbn. by apply map_Forall_insert_2.
  - intros Hhd. destruct (Hh (Hh1 Hhd)) as [H1 H2 H3 H4]. split; try done. cbn.
    apply map_Forall_insert_2; [split; [lia|done]|exact H3].
Qed.

Lemma pg_law_mark_detached id at_ seq d : pg_wf d ->
  let rd := PgTerminalSessionRepository.mark_attachment_detached id at_ seq d in
  outcome d rd (is_Some (sv_attachments d !! id) /\ (forall n, seq = Some n -> 0 <= n)) (fun _ =>
      exists a, sv_attachments d !! id = Some a
      /\ sv_attachments rd.2 = <[id := with_detached a at_ seq]> (sv_attachments d)
      /\ sv_sessions rd.2 = sv_sessions d /\ sv_events rd.2 = sv_events d).
Proof.
  intros Hwf. cbv zeta. unfold PgTerminalSessionRepository.mark_attachment_detached.
  enter_statement. { by apply outcome_err. }
  pose proof (same_tables_wf _ _ Hsame Hwf) as Hwf'.
  destruct (t_attachments d' !! id) as [a|] eqn:Ea.
  2:{ apply outcome_err; try done. intros _ [[b Hb] _]. cbn in Hb.
      rewrite (st_same_attachments _ _ Hsame) in Hb. congruence. }
  destruct (last_seen_seq_chk _) eqn:Echk.
  - split; [|split]; cbn [fst snd].
    + exists a. cbn [sv_attachments pg_session_store].
      rewrite (st_same_attachments _ _ Hsame), (same_tables_store_eq _ _ Hsame). done.
    + destruct Hwf' as [H1 H2]. split; [exact H1|]. cbn. apply map_Forall_insert_2; [|done].
      apply (H2 _ _ Ea).
    + intros Hhd. destruct (Hh Hhd) as [H1 H2 H3 H4]. split; try done. cbn.
      apply map_Forall_insert_2; [|exact H3]. split; [apply (H3 _ _ Ea)|done].
  - apply outcome_err; try done. intros Hhd [_ Hseq]. destruct (Hh Hhd) as [_ _ H3 _].
    destruct (H3 _ _ Ea) as [_ Hold]. unfold with_detached, coalesce in Echk.
    cbn [ta_last_seen_seq] in Echk. destruct (ta_last_seen_seq a); [congruence|].
    destruct seq as [n|]; [|done]. cbn in Echk. specialize (Hseq n eq_refl).
    apply Z.leb_gt in Echk. lia.
Qed.

Lemma pg_law_create_event c d : pg_wf d ->
  let rd := PgSessionEventRepository.create c d in
  outcome d rd (is_Some (sv_sessions d !! ce_session_id c)) (fun e =>
      is_Some (sv_sessions d !! ce_session_id c)
      /\ se_session_id e = ce_session_id c /\ se_kind e = ce_kind c /\ se_payload e = ce_payload c
      /\ sv_events rd.2 = sv_events d ++ [e]
      /\ sv_sessions rd.2 = sv_sessions d /\ sv_attachments rd.2 = sv_attachments d).
Proof.
  intros Hwf. cbv zeta. unfold PgSessionEventRepository.create. enter_insert.
  { apply outcome_err; [done|by eapply same_tables_trans|auto|]. intros Hd. exfalso. auto. }
  pose proof (same_tables_trans _ _ _ Hsame1 Hsame) as Hsame2.
  pose proof (same_tables_wf _ _ Hsame2 Hwf) as Hwf'.
  destruct (bool_decide _) eqn:Epk; bool_props.
  { apply outcome_err; [done|done|auto|]. intros Hd _.
    rewrite <- (st_same_events _ _ Hsame2) in Epk.
    apply list_elem_of_In, in_map_iff in Epk as (r & Hr & Hin).
    pose proof (proj1 (Forall_forall _ _) (healthy_events _ Hd) r) as Hlt.
    specialize (Hlt (proj2 (list_elem_of_In _ _) Hin)). cbn beta in Hlt. lia. }
  destruct (negb _) eqn:Efk; bool_props.
  { apply outcome_err; [done|done|auto|]. intros _ Hsome. apply Efk.
    rewrite (same_tables_store_eq _ _ Hsame2) in Hsome. by apply session_view_is_Some in Hsome. }
  unfold event_try_into_domain. cbn [er_kind]. rewrite event_tag_roundtrip. cbn [ok_or result_bind].
  split; [|split]; cbn [fst snd].
  - rewrite (same_tables_store_eq _ _ Hsame2). repeat split; try done.
    + by apply session_view_is_Some.
    + cbn. rewrite omap_app. cbn.
      unfold event_of_row, event_try_into_domain. cbn [er_kind]. by rewrite event_tag_roundtrip.
  - by destruct Hwf'.
  - intros Hhd. destruct (Hh (Hh1 Hhd)) as [H1 H2 H3 H4]. split; try done. cbn.
    apply Forall_app. split; [exact H4|]. apply Forall_singleton. cbn. lia.
Qed.

#[export] Instance pg_laws : SessionStoreLaws PgDb.
Proof.
  split.
  - exact pg_law_create.
  - intros id d Hwf. apply (pg_law_get id d Hwf).
  - intros id status closed d Hwf. apply (pg_law_set_status id status closed d Hwf).
  - exact pg_law_create_attachment.
  - intros id d Hwf. apply (pg_law_get_attachment id d Hwf).
  - intros id at_ seq d Hwf. apply (pg_law_mark_detached id at_ seq d Hwf).
  - exact pg_law_create_event.
  - intros d id s Hwf Hs. cbn in Hs. rewrite lookup_omap in Hs.
    destruct (t_sessions d !! id) as [r|] eqn:Er; [|done].
    destruct (session_view d id r Hwf Er) as (s' & Hd & _ & Hid). cbn in Hs.
    unfold session_of_row in Hs. rewrite Hd in Hs. congruence.
  - intros d id a Hwf Ha. apply (wf_attachments _ Hwf _ _ Ha).
Qed.

(** C13: the Postgres repositories implement the session-store interface: every operation either
    fails with no observable change or has exactly the effect the orchestrator relies on, the
    schema's constraints are kept, and with a driver that answers every legitimate request
    succeeds. *)
Theorem pg_session_store_laws : SessionStoreLaws PgDb.
Proof. exact pg_laws. Qed.
