(* ===== verification/Prog.v ===== *)
(** * Asynchronous programs

    An [async fn] of the orchestrator is a sequence of atomic actions on shared state: a
    repository call, the critical section of a lock, an atomic counter, a read of the clock.
    Between two of them the task may be suspended and any other task may run, and a task may be
    dropped at any suspension point.  [prog] is such a program, [run] executes it alone, [pstep]
    interleaves any number of them, and [wp] is a rely-guarantee calculus whose soundness for
    every interleaving is the main lemma of this file. *)

From S2P Require Import Prelude.

Inductive prog (W : Type) (A : Type) : Type :=
| Ret (a : A)
| Atomic {X : Type} (f : W -> X * W) (k : X -> prog W A).
Arguments Ret {W A} _.
Arguments Atomic {W A X} _ _.

Fixpoint bind {W A B} (p : prog W A) (k : A -> prog W B) : prog W B :=
  match p with
  | Ret a => k a
  | Atomic f k' => Atomic f (fun x => bind (k' x) k)
  end.

Definition act {W A} (f : W -> A * W) : prog W A := Atomic f (fun a => Ret a).

(** The [?] operator. *)
Definition try_bind {W E A B} (p : prog W (result E A)) (k : A -> prog W (result E B))
  : prog W (result E B) :=
  bind p (fun r => match r with Ok a => k a | Err e => Ret (Err e) end).

Notation "'do!' x '<-' p ; k" := (bind p (fun x => k))
  (at level 10, x binder, p at level 100, k at level 200) : rust_scope.
Notation "'do?' x '<-' p ; k" := (try_bind p (fun x => k))
  (at level 10, x binder, p at level 100, k at level 200) : rust_scope.

(** Execution without interference. *)
Fixpoint run {W A} (p : prog W A) (w : W) : A * W :=
  match p with
  | Ret a => (a, w)
  | Atomic f k => let '(x, w') := f w in run (k x) w'
  end.

Lemma run_bind {W A B} (p : prog W A) (k : A -> prog W B) w :
  run (bind p k) w = let '(a, w') := run p w in run (k a) w'.
Proof.
  revert w. induction p as [a|X f k' IH]; intros w; [done|].
  cbn. destruct (f w) as [x w']. apply IH.
Qed.

Lemma run_try {W E A B} (p : prog W (result E A)) (k : A -> prog W (result E B)) w :
  run (try_bind p k) w =
  match run p w with
  | (Ok a, w') => run (k a) w'
  | (Err e, w') => (Err e, w')
  end.
Proof. unfold try_bind. rewrite run_bind. by destruct (run p w) as [[] ?]. Qed.

Lemma run_act {W A} (f : W -> A * W) w : run (act f) w = f w.
Proof. cbn. by destruct (f w). Qed.

(** A program on a component of a larger state. *)
Fixpoint embed {W V A} (get : V -> W) (set : W -> V -> V) (p : prog W A) : prog V A :=
  match p with
  | Ret a => Ret a
  | Atomic f k => Atomic (fun v => let '(x, w) := f (get v) in (x, set w v)) (fun x => embed get set (k x))
  end.

Lemma run_embed {W V A} (get : V -> W) (set : W -> V -> V) (p : prog W A) v :
  (forall w v, get (set w v) = w) -> (forall v, set (get v) v = v) -> (forall w w' v, set w (set w' v) = set w v) ->
  run (embed get set p) v = ((run p (get v)).1, set (run p (get v)).2 v).
Proof.
  intros Hgs Hsg Hss. revert v. induction p as [a|X f k IH]; intros v; cbn; [by rewrite Hsg|].
  destruct (f (get v)) as [x w]. rewrite IH, Hgs, Hss. by destruct (run (k x) w).
Qed.

(** ** Interleaving *)

Record pool (W : Type) := mkPool { p_world : W; p_threads : list (prog W unit) }.
Arguments mkPool {W} _ _.
Arguments p_world {W} _.
Arguments p_threads {W} _.

(** One step of the scheduler: a task performs its next action, a task that may start in the
    current state starts, or a task ends or is cancelled. *)
Inductive pstep {W} (starts : W -> W -> prog W unit -> Prop) : pool W -> pool W -> Prop :=
| pstep_action X (f : W -> X * W) k w l1 l2 :
    pstep starts (mkPool w (l1 ++ Atomic f k :: l2)) (mkPool (f w).2 (l1 ++ k (f w).1 :: l2))
| pstep_start w w' l p :
    starts w w' p -> pstep starts (mkPool w l) (mkPool w' (l ++ [p]))
| pstep_drop w l1 p l2 :
    pstep starts (mkPool w (l1 ++ p :: l2)) (mkPool w (l1 ++ l2)).

Definition reachable {W} (starts : W -> W -> prog W unit -> Prop) (w0 : W) (c : pool W) : Prop :=
  rtc (pstep starts) (mkPool w0 []) c.

(** A task that is scheduled without interruption runs as if alone. *)
Lemma pstep_run {W} (starts : W -> W -> prog W unit -> Prop) (p : prog W unit) w l1 l2 :
  rtc (pstep starts) (mkPool w (l1 ++ p :: l2)) (mkPool (run p w).2 (l1 ++ Ret (run p w).1 :: l2)).
Proof.
  revert w. induction p as [a|X f k IH]; intros w; [done|]. cbn.
  eapply rtc_l; [apply pstep_action|]. destruct (f w) as [x w']. apply IH.
Qed.

(** The first [n] actions of a task that is not interrupted. *)
Fixpoint advance {W} (n : nat) (p : prog W unit) (w : W) : prog W unit * W :=
  match n, p with
  | S n, Atomic f k => advance n (k (f w).1) (f w).2
  | _, _ => (p, w)
  end.

Lemma pstep_advance {W} (starts : W -> W -> prog W unit -> Prop) n (p : prog W unit) w l1 l2 :
  rtc (pstep starts) (mkPool w (l1 ++ p :: l2)) (mkPool (advance n p w).2 (l1 ++ (advance n p w).1 :: l2)).
Proof.
  revert p w. induction n as [|n IH]; intros p w; [done|]. destruct p as [a|X f k]; [done|].
  cbn [advance]. eapply rtc_l; [apply pstep_action|]. apply IH.
Qed.

(** One task is interrupted after [n] actions by another one that runs to its end. *)
Lemma reachable_interrupted {W} (starts : W -> W -> prog W unit -> Prop) w p q n :
  (forall w, starts w w p) -> (forall w, starts w w q) ->
  reachable starts w (mkPool (run (advance n p w).1 (run q (advance n p w).2).2).2 [Ret tt; Ret tt]).
Proof.
  intros Hp Hq. unfold reachable. pose proof (pstep_advance starts n p w [] []) as H1.
  destruct (advance n p w) as [p1 w1]. cbn [fst snd app] in *.
  pose proof (pstep_run starts q w1 [p1] []) as H2. destruct (run q w1) as [[] w2]. cbn [fst snd app] in *.
  pose proof (pstep_run starts p1 w2 [] [Ret tt]) as H3. destruct (run p1 w2) as [[] w3]. cbn [fst snd app] in *.
  eapply rtc_l; [apply (pstep_start starts w w [] p), Hp|]. etransitivity; [exact H1|].
  eapply rtc_l; [apply (pstep_start starts w1 w1 [p1] q), Hq|]. etransitivity; [exact H2|exact H3].
Qed.

(** A task is interrupted after [n] actions by one that runs to its end and by one that performs [m]
    actions; it ends, and then so does the last. *)
Lemma reachable_overtaken {W} (starts : W -> W -> prog W unit -> Prop) w p q r n m w1 w2 w3 p1 r1 :
  (forall w, starts w w p) -> (forall w, starts w w q) -> (forall w, starts w w r) ->
  advance n p w = (p1, w1) -> (run q w1).2 = w2 -> advance m r w2 = (r1, w3) ->
  reachable starts w (mkPool (run p1 w3).2 [Ret tt; Ret tt; r1])
  /\ rtc (pstep starts) (mkPool (run p1 w3).2 [Ret tt; Ret tt; r1])
         (mkPool (run r1 (run p1 w3).2).2 [Ret tt; Ret tt; Ret tt]).
Proof.
  intros Hp Hq Hr E1 E2 E3. split.
  - unfold reachable. pose proof (pstep_advance starts n p w [] []) as H1. rewrite E1 in H1.
    pose proof (pstep_run starts q w1 [p1] []) as H2. destruct (run q w1) as [[] ?]. cbn [snd] in E2. subst.
    pose proof (pstep_advance starts m r w2 [p1; Ret tt] []) as H3. rewrite E3 in H3.
    pose proof (pstep_run starts p1 w3 [] [Ret tt; r1]) as H4. destruct (run p1 w3) as [[] w4]. cbn [fst snd app] in *.
    eapply rtc_l; [apply (pstep_start starts w w [] p), Hp|]. etransitivity; [exact H1|].
    eapply rtc_l; [apply (pstep_start starts w1 w1 [p1] q), Hq|]. etransitivity; [exact H2|].
    eapply rtc_l; [apply (pstep_start starts w2 w2 [p1; Ret tt] r), Hr|]. etransitivity; [exact H3|exact H4].
  - pose proof (pstep_run starts r1 (run p1 w3).2 [Ret tt; Ret tt] []) as H.
    destruct (run r1 (run p1 w3).2) as [[] w5]. exact H.
Qed.

(** ** Rely-guarantee *)

Section rely_guarantee.
Context {W : Type} (I : W -> Prop) (G : W -> W -> Prop) `{!PreOrder G}.

(** [wp p w0 Q]: from any state that the other tasks can lead to from [w0], every action of [p]
    keeps the invariant and the guarantee, and [p] returns with [Q]. *)
Fixpoint wp {A} (p : prog W A) (w0 : W) (Q : A -> W -> Prop) : Prop :=
  match p with
  | Ret a => Q a w0
  | Atomic f k =>
      forall w, I w -> G w0 w -> I (f w).2 /\ G w (f w).2 /\ wp (k (f w).1) (f w).2 Q
  end.

Lemma wp_mono {A} (p : prog W A) w0 (Q Q' : A -> W -> Prop) :
  (forall a w, Q a w -> Q' a w) -> wp p w0 Q -> wp p w0 Q'.
Proof.
  intros HQ. revert w0. induction p as [a|X f k IH]; intros w0; cbn; [apply HQ|].
  intros H w Hw HG. destruct (H w Hw HG) as (? & ? & ?). auto.
Qed.

Lemma wp_bind {A B} (p : prog W A) (k : A -> prog W B) w0 Q :
  wp p w0 (fun a w => wp (k a) w Q) -> wp (bind p k) w0 Q.
Proof.
  revert w0. induction p as [a|X f k' IH]; intros w0; cbn; [done|].
  intros H w Hw HG. destruct (H w Hw HG) as (? & ? & ?). auto.
Qed.

Lemma wp_try {E A B} (p : prog W (result E A)) (k : A -> prog W (result E B)) w0 Q :
  wp p w0 (fun r w => match r with Ok a => wp (k a) w Q | Err e => Q (Err e) w end) ->
  wp (try_bind p k) w0 Q.
Proof. intros H. apply wp_bind. eapply wp_mono; [|exact H]. by intros []. Qed.

Lemma wp_act {A} (f : W -> A * W) w0 (Q : A -> W -> Prop) :
  (forall w, I w -> G w0 w -> I (f w).2 /\ G w (f w).2 /\ Q (f w).1 (f w).2) ->
  wp (act f) w0 Q.
Proof. done. Qed.

(** Whatever happens while a task runs, the guarantee relates its start to its end. *)
Lemma wp_guar {A} (p : prog W A) w0 Q : wp p w0 Q -> wp p w0 (fun a w => Q a w /\ G w0 w).
Proof.
  assert (Hgen : forall w1 w0, G w1 w0 -> wp p w0 Q -> wp p w0 (fun a w => Q a w /\ G w1 w)).
  { induction p as [a|X f k IH]; intros w1 w2 HG; cbn; [done|]. intros H w Hw HG2.
    destruct (H w Hw HG2) as (H1 & H2 & H3). split; [done|]. split; [done|].
    apply IH; [|done]. transitivity w2; [done|]. by transitivity w. }
  by apply Hgen.
Qed.

(** What a task has established survives the actions of the others. *)
Lemma wp_later {A} (p : prog W A) w0 w1 :
  G w0 w1 -> wp p w0 (fun _ _ => True) -> wp p w1 (fun _ _ => True).
Proof.
  destruct p as [a|X f k]; cbn; [done|]. intros HG H w Hw HG'.
  apply H; [done|]. by transitivity w1.
Qed.

Lemma wp_run {A} (p : prog W A) w Q :
  wp p w Q -> I w -> I (run p w).2 /\ G w (run p w).2 /\ Q (run p w).1 (run p w).2.
Proof.
  assert (Hgen : forall w0, wp p w0 Q -> forall w, I w -> w0 = w ->
            I (run p w).2 /\ G w (run p w).2 /\ Q (run p w).1 (run p w).2).
  { induction p as [a|X f k IH]; intros w0 H w1 Hw Heq; subst; cbn in *.
    - repeat split; try done.
    - destruct (H w1 Hw ltac:(done)) as (HI & HG & Hwp). destruct (f w1) as [x w'] eqn:Ef.
      cbn in *. destruct (IH x _ Hwp w' HI eq_refl) as (? & ? & ?).
      repeat split; try done. by transitivity w'. }
  intros H Hw. by apply (Hgen w).
Qed.

(** Soundness: if every task that can start is safe, the invariant holds in every state of every
    interleaving, and the guarantee relates the initial state to it. *)
Lemma pool_sound (starts : W -> W -> prog W unit -> Prop) w0 c :
  (forall w w' p, starts w w' p -> I w -> I w' /\ G w w' /\ wp p w' (fun _ _ => True)) ->
  I w0 -> reachable starts w0 c ->
  I (p_world c) /\ G w0 (p_world c)
  /\ Forall (fun p => wp p (p_world c) (fun _ _ => True)) (p_threads c).
Proof.
  intros Hstart HI0 Hreach. revert c Hreach. apply rtc_ind_r.
  { repeat split; [done|done|by constructor]. }
  intros c c' _ Hstep (HI & HG & Hall).
  assert (Hlater : forall w w' (l : list (prog W unit)), G w w' -> Forall (fun p => wp p w (fun _ _ => True)) l ->
            Forall (fun p => wp p w' (fun _ _ => True)) l).
  { intros w w' l Hww Hl. eapply Forall_impl; [exact Hl|]. intros p. by apply wp_later. }
  destruct Hstep as [X f k w l1 l2|w w' l p Hs|w l1 p l2]; cbn [p_world p_threads] in *.
  - apply Forall_app in Hall as [H1 [Hp H2]%Forall_cons].
    destruct (Hp w HI ltac:(done)) as (HI' & HG' & Hk).
    split; [done|]. split; [by transitivity w|].
    apply Forall_app. split; [by apply (Hlater w)|]. apply Forall_cons. split; [exact Hk|].
    by apply (Hlater w).
  - destruct (Hstart w w' p Hs HI) as (HI' & HG' & Hp).
    split; [done|]. split; [by transitivity w|].
    apply Forall_app. split; [by apply (Hlater w)|by apply Forall_singleton].
  - split; [done|]. split; [done|].
    apply Forall_app in Hall as [H1 [_ H2]%Forall_cons]. by apply Forall_app.
Qed.

End rely_guarantee.

(** ** One task among others

    [interfered R p w a w']: started in [w], [p] returns [a] in [w'], where before each of its actions
    the others may have changed the state as [R] allows. *)

Fixpoint interfered {W A} (R : W -> W -> Prop) (p : prog W A) (w : W) (b : A) (w' : W) : Prop :=
  match p with
  | Ret a => b = a /\ w' = w
  | Atomic f k => exists w1, R w w1 /\ interfered R (k (f w1).1) (f w1).2 b w'
  end.

Section interfered.
Context {W : Type} (R : W -> W -> Prop).

Lemma interfered_bind {A B} (p : prog W A) (k : A -> prog W B) w b w' :
  interfered R (bind p k) w b w' <-> exists a w1, interfered R p w a w1 /\ interfered R (k a) w1 b w'.
Proof.
  revert w. induction p as [a|X f k' IH]; intros w; cbn.
  - split; [by intros H; exists a, w|by intros (? & ? & [-> ->] & H)].
  - setoid_rewrite IH. split.
    + intros (w1 & HR & a & w2 & H1 & H2). by exists a, w2; split; [exists w1|].
    + intros (a & w2 & (w1 & HR & H1) & H2). exists w1. split; [done|]. by exists a, w2.
Qed.

Lemma interfered_act {A} (f : W -> A * W) w b w' :
  interfered R (act f) w b w' <-> exists w1, R w w1 /\ b = (f w1).1 /\ w' = (f w1).2.
Proof. done. Qed.

(** Running alone is one such execution. *)
Lemma interfered_run {A} `{!Reflexive R} (p : prog W A) w : interfered R p w (run p w).1 (run p w).2.
Proof.
  revert w. induction p as [a|X f k IH]; intros w; [done|]. cbn. exists w. split; [reflexivity|].
  destruct (f w) as [x w'] eqn:E. cbn. apply IH.
Qed.

(** The others may act first. *)
Lemma interfered_later {A X} `{!Transitive R} (f : W -> X * W) (k : X -> prog W A) w0 w b w' :
  R w0 w -> interfered R (Atomic f k) w b w' -> interfered R (Atomic f k) w0 b w'.
Proof. intros HR (w1 & H1 & H2). exists w1. split; [by transitivity w|done]. Qed.

End interfered.

(** A relation that every single action of a program satisfies, whatever state it finds. *)
Fixpoint all_acts {W A} (P : W -> W -> Prop) (p : prog W A) : Prop :=
  match p with
  | Ret _ => True
  | Atomic f k => (forall w, P w (f w).2) /\ forall x, all_acts P (k x)
  end.

Lemma all_acts_bind {W A B} (P : W -> W -> Prop) (p : prog W A) (k : A -> prog W B) :
  all_acts P p -> (forall a, all_acts P (k a)) -> all_acts P (bind p k).
Proof. induction p as [a|X f k' IH]; cbn; [by intros _ H|]. intros [H1 H2] Hk. split; [done|]. auto. Qed.

Lemma all_acts_try {W E A B} (P : W -> W -> Prop) (p : prog W (result E A)) (k : A -> prog W (result E B)) :
  all_acts P p -> (forall a, all_acts P (k a)) -> all_acts P (try_bind p k).
Proof. intros Hp Hk. apply all_acts_bind; [done|]. intros []; [apply Hk|done]. Qed.

(** A relation that every action of a program satisfies when it runs alone from [w]. *)
Fixpoint stepwise {W A} (P : W -> W -> Prop) (p : prog W A) (w : W) : Prop :=
  match p with
  | Ret _ => True
  | Atomic f k => P w (f w).2 /\ stepwise P (k (f w).1) (f w).2
  end.

Lemma stepwise_run {W A} (P : W -> W -> Prop) `{!PreOrder P} (p : prog W A) w : stepwise P p w -> P w (run p w).2.
Proof.
  revert w. induction p as [a|X f k IH]; intros w; cbn; [done|]. intros [H1 H2%IH].
  destruct (f w) as [x w1]. by transitivity w1.
Qed.

Lemma all_acts_impl {W A} (P Q : W -> W -> Prop) (p : prog W A) :
  (forall w w', P w w' -> Q w w') -> all_acts P p -> all_acts Q p.
Proof. intros HPQ. induction p as [a|X f k IH]; cbn; [done|]. intros [H1 H2]. split; [by intros w; apply HPQ|]. auto. Qed.

(** An action on a component. *)
Lemma all_acts_embed {W V A} (P : W -> W -> Prop) (Q : V -> V -> Prop) (get : V -> W) (set : W -> V -> V)
  (p : prog W A) :
  (forall v w, P (get v) w -> Q v (set w v)) -> all_acts P p -> all_acts Q (embed get set p).
Proof.
  intros HPQ. induction p as [a|X f k IH]; cbn; [done|]. intros [H1 H2]. split; [|by intros x; apply IH].
  intros v. specialize (H1 (get v)). destruct (f (get v)) as [x w]. by apply HPQ.
Qed.

(** A program whose every action keeps the invariant and the guarantee is safe among others. *)
Lemma all_acts_wp {W A} (I : W -> Prop) (G : W -> W -> Prop) (p : prog W A) w0 :
  all_acts (fun w w' => I w -> I w' /\ G w w') p -> wp I G p w0 (fun _ _ => True).
Proof.
  revert w0. induction p as [a|X f k IH]; intros w0; cbn; [done|]. intros [H1 H2] w Hw _.
  destruct (H1 w Hw) as [HI HG]. split; [done|]. split; [done|]. by apply IH.
Qed.
