(* ===== verification/Manager.v ===== *)
(** * The terminal session orchestrator

    Models [crates/relayterm-terminal/src/manager.rs]: [TerminalSessionManager], the single owner
    of the lifecycle of terminal sessions.  A [World] is everything the manager's tasks share:
    the database behind the repositories, the two registries behind their locks, the objects
    behind [Arc]s (replay buffers, sequence counters, broadcast channels, named by their address
    so that two holders of an [Arc] see the same object), the spawned tasks, the clock, the PTY
    bridges and the recording writers.  Each [async fn] is a [prog] whose atomic actions are the
    repository calls and critical sections of the source, in its order. *)

From stdpp Require Import pretty.
From S2P Require Import Prelude Core Replay SessionStore Prog.

(** ** Interfaces of the components the manager calls *)

(** [trait SshPtyHandle] of [crates/relayterm-ssh/src/pty.rs]: the calls on the handle at an
    address, against the state of the bridges. *)
Class PtyBridge (B : Type) := {
  pty_write_input : nat -> list Byte.byte -> B -> result SshPtyError unit * B;
  pty_resize : nat -> Z -> Z -> B -> result SshPtyError unit * B;
  pty_close : nat -> B -> B
}.

(** The enabled [RecordingWriter] of [crates/relayterm-terminal/src/recording.rs]. *)
Class RecordingSink (R : Type) := {
  rec_writer_for : TerminalSessionId -> R -> nat * R;
  rec_output : nat -> Z -> list Byte.byte -> R -> R;
  rec_marker : nat -> TerminalRecordingMarkerKind -> Z -> json -> R -> R;
  rec_shutdown : nat -> Z -> R -> R
}.

(** ** Constants *)

Definition MIN_DIM : Z := 1.
Definition MAX_DIM : Z := 4096.

Definition STUB_PTY_NOT_IMPLEMENTED_MESSAGE : string :=
  "session metadata created; PTY startup is not implemented yet".
Definition STUB_PTY_NOT_IMPLEMENTED_ATTACH_MESSAGE : string :=
  "attached to RelayTerm session placeholder; PTY streaming is not implemented yet".
Definition LIVE_PTY_ATTACH_MESSAGE : string :=
  "attached to live RelayTerm session; replay across reconnects is not yet implemented".

Definition nanos (seconds : Z) : Z := seconds * 1000000000.
Definition DETACHED_LIVE_PTY_TTL : Z := nanos 30.
Definition DEFAULT_MAX_LIVE_PTY_PER_USER : Z := 8.
Definition DEFAULT_MAX_STARTING_PER_USER : Z := 4.
Definition DEFAULT_MAX_LIVE_PTY_PER_DEPLOYMENT : Z := 64.

(** ** Runtime data *)

(** [RuntimeSessionStatus] *)
Inductive RuntimeSessionStatus := RtStarting | RtLive | RtEnded.

#[export] Instance RuntimeSessionStatus_eq_dec : EqDecision RuntimeSessionStatus.
Proof. solve_decision. Defined.

(** [TerminalSessionRuntime] *)
Record TerminalSessionRuntime := mkRuntime {
  rt_id : TerminalSessionId;
  rt_owner_id : UserId;
  rt_server_profile_id : ServerProfileId;
  rt_status : RuntimeSessionStatus;
  rt_created_at : Z;
  rt_cols : Z;
  rt_rows : Z
}.

(** [DetachInfo] and [DetachClose]; the handle is the address of the TTL task. *)
Record DetachInfo := mkDetachInfo { di_detached_at : Z; di_expires_at : Z }.
Record DetachClose := mkDetachClose { dc_info : DetachInfo; dc_handle : nat }.

(** [LiveRuntime] *)
Record LiveRuntime := mkLive {
  lr_handle : nat;
  lr_output_tx : nat;
  lr_replay : nat;
  lr_forwarder : option nat;
  lr_driver : option nat;
  lr_detach_close : option DetachClose;
  lr_recording : option nat;
  lr_last_seq : nat
}.

(** [RuntimeEntry] *)
Record RuntimeEntry := mkEntry {
  re_snapshot : TerminalSessionRuntime;
  re_live : option LiveRuntime;
  re_next_seq : nat
}.

(** [AttachmentRuntime] *)
Record AttachmentRuntime := mkAttachmentRuntime {
  ar_id : TerminalSessionAttachmentId;
  ar_session_id : TerminalSessionId;
  ar_owner_id : UserId;
  ar_attached_at : Z;
  ar_client_info : option rstr;
  ar_remote_addr : option rstr
}.

(** [LiveRuntimeView] *)
Record LiveRuntimeView := mkView { lv_handle : nat; lv_output_tx : nat; lv_replay : nat }.

(** What [forward_pty_output] captures. *)
Record ForwarderArgs := mkForwarder {
  fw_output_tx : nat;
  fw_next_seq : nat;
  fw_replay : nat;
  fw_session_id : TerminalSessionId;
  fw_owner_id : UserId;
  fw_recording : option nat;
  fw_last_seq : nat
}.

(** The tasks the manager spawns or is handed. *)
Inductive Task :=
| TForward (args : ForwarderArgs)
| TDetachClose (session_id : TerminalSessionId) (owner_id : UserId)
| TDriver.

(** [TerminalSessionManagerError] *)
Inductive TerminalSessionManagerError :=
| InvalidDimensions (field message : string)
| NotFound
| SessionClosed
| PtyNotLive
| PtyStart (e : SshPtyError)
| Repository (e : RepositoryError).

#[export] Instance TerminalSessionManagerError_eq_dec : EqDecision TerminalSessionManagerError.
Proof. solve_decision. Defined.

(** Requests and outcomes *)
Record CreateTerminalSessionRequest := mkCreateReq {
  cr_owner_id : UserId;
  cr_server_profile_id : ServerProfileId;
  cr_cols : Z;
  cr_rows : Z
}.
Record CreateTerminalSessionOutcome := mkCreateOut {
  co_session : TerminalSession; co_message : string; co_pty_live : bool }.
Record CloseTerminalSessionOutcome := mkCloseOut {
  cl_session : TerminalSession; cl_already_closed : bool }.
Record AttachSessionRequest := mkAttachReq {
  aq_owner_id : UserId;
  aq_session_id : TerminalSessionId;
  aq_client_info : option rstr;
  aq_remote_addr : option rstr
}.
Record AttachSessionOutcome := mkAttachOut {
  ao_session : TerminalSession;
  ao_attachment : TerminalSessionAttachment;
  ao_message : string;
  ao_live : option LiveRuntimeView
}.
Record DetachSessionOutcome := mkDetachSessionOut {
  do_session : TerminalSession;
  do_attachment : TerminalSessionAttachment;
  do_already_detached : bool
}.
Record DetachOutcome := mkDetachOut {
  dt_detach : DetachSessionOutcome;
  dt_detached_pending_close : option DetachInfo
}.
Record ResizeSessionOutcome := mkResizeOut { rz_session : TerminalSession; rz_cols : Z; rz_rows : Z }.

(** The handle and driver of [SshPtyStart]; its [output_rx] is the list of events that the
    forwarder receives. *)
Record SshPtyStart := mkPtyStart { ps_handle : nat; ps_driver : option nat }.

(** The manager's configuration (the fields the builder methods set). *)
Record ManagerConfig := mkManagerConfig {
  mc_detach_ttl : Z;
  mc_max_live_pty_per_user : Z;
  mc_max_starting_per_user : Z;
  mc_max_live_pty_per_deployment : Z;
  mc_recording : bool
}.

(** [TerminalSessionManager::new] *)
Definition default_manager_config : ManagerConfig :=
  mkManagerConfig DETACHED_LIVE_PTY_TTL DEFAULT_MAX_LIVE_PTY_PER_USER
    DEFAULT_MAX_STARTING_PER_USER DEFAULT_MAX_LIVE_PTY_PER_DEPLOYMENT false.

(** [validate_dim] *)
Definition validate_dim (field : string) (value : Z) : result TerminalSessionManagerError unit :=
  if (MIN_DIM <=? value) && (value <=? MAX_DIM) then Ok tt
  else Err (InvalidDimensions field ("expected 1..=4096, got " +:+ pretty value)).

(** [chrono::Duration::from_std], which refuses more than [i64::MAX] milliseconds. *)
Definition duration_from_std (d : Z) : option Z :=
  if d <=? i64_max * 1000000 then Some d else None.

(** ** Shared state *)

Record World (DB B R : Type) := mkWorld {
  w_db : DB;
  w_runtimes : gmap Z RuntimeEntry;
  w_attachments : gmap Z AttachmentRuntime;
  w_counters : gmap nat Z;
  w_buffers : gmap nat ReplayBuffer.t;
  w_channels : gmap nat (list OutputFrame);
  w_tasks : gmap nat Task;
  w_next : nat;
  w_now : Z;
  w_pty : B;
  w_rec : R
}.
Arguments mkWorld {DB B R}.
Arguments w_db {DB B R}.
Arguments w_runtimes {DB B R}.
Arguments w_attachments {DB B R}.
Arguments w_counters {DB B R}.
Arguments w_buffers {DB B R}.
Arguments w_channels {DB B R}.
Arguments w_tasks {DB B R}.
Arguments w_next {DB B R}.
Arguments w_now {DB B R}.
Arguments w_pty {DB B R}.
Arguments w_rec {DB B R}.

Section updates.
Context {DB B R : Type}.
Implicit Types w : World DB B R.

Definition set_db (d : DB) w : World DB B R :=
  mkWorld d (w_runtimes w) (w_attachments w) (w_counters w) (w_buffers w) (w_channels w)
    (w_tasks w) (w_next w) (w_now w) (w_pty w) (w_rec w).
Definition upd_runtimes (f : gmap Z RuntimeEntry -> gmap Z RuntimeEntry) w : World DB B R :=
  mkWorld (w_db w) (f (w_runtimes w)) (w_attachments w) (w_counters w) (w_buffers w)
    (w_channels w) (w_tasks w) (w_next w) (w_now w) (w_pty w) (w_rec w).
Definition upd_attachments (f : gmap Z AttachmentRuntime -> gmap Z AttachmentRuntime) w
  : World DB B R :=
  mkWorld (w_db w) (w_runtimes w) (f (w_attachments w)) (w_counters w) (w_buffers w)
    (w_channels w) (w_tasks w) (w_next w) (w_now w) (w_pty w) (w_rec w).
Definition upd_counters (f : gmap nat Z -> gmap nat Z) w : World DB B R :=
  mkWorld (w_db w) (w_runtimes w) (w_attachments w) (f (w_counters w)) (w_buffers w)
    (w_channels w) (w_tasks w) (w_next w) (w_now w) (w_pty w) (w_rec w).
Definition upd_buffers (f : gmap nat ReplayBuffer.t -> gmap nat ReplayBuffer.t) w
  : World DB B R :=
  mkWorld (w_db w) (w_runtimes w) (w_attachments w) (w_counters w) (f (w_buffers w))
    (w_channels w) (w_tasks w) (w_next w) (w_now w) (w_pty w) (w_rec w).
Definition upd_channels (f : gmap nat (list OutputFrame) -> gmap nat (list OutputFrame)) w
  : World DB B R :=
  mkWorld (w_db w) (w_runtimes w) (w_attachments w) (w_counters w) (w_buffers w)
    (f (w_channels w)) (w_tasks w) (w_next w) (w_now w) (w_pty w) (w_rec w).
Definition upd_tasks (f : gmap nat Task -> gmap nat Task) w : World DB B R :=
  mkWorld (w_db w) (w_runtimes w) (w_attachments w) (w_counters w) (w_buffers w)
    (w_channels w) (f (w_tasks w)) (w_next w) (w_now w) (w_pty w) (w_rec w).
Definition set_now (t : Z) w : World DB B R :=
  mkWorld (w_db w) (w_runtimes w) (w_attachments w) (w_counters w) (w_buffers w)
    (w_channels w) (w_tasks w) (w_next w) t (w_pty w) (w_rec w).
Definition set_pty (b : B) w : World DB B R :=
  mkWorld (w_db w) (w_runtimes w) (w_attachments w) (w_counters w) (w_buffers w)
    (w_channels w) (w_tasks w) (w_next w) (w_now w) b (w_rec w).
Definition set_rec (r : R) w : World DB B R :=
  mkWorld (w_db w) (w_runtimes w) (w_attachments w) (w_counters w) (w_buffers w)
    (w_channels w) (w_tasks w) (w_next w) (w_now w) (w_pty w) r.

(** A fresh address. *)
Definition fresh w : nat * World DB B R :=
  (w_next w,
   mkWorld (w_db w) (w_runtimes w) (w_attachments w) (w_counters w) (w_buffers w)
     (w_channels w) (w_tasks w) (S (w_next w)) (w_now w) (w_pty w) (w_rec w)).

(** [Arc::new(AtomicU64::new(v))] *)
Definition new_counter (v : Z) w : nat * World DB B R :=
  let '(a, w) := fresh w in (a, upd_counters <[a := v]> w).

Definition load (c : nat) w : Z := default 0 (w_counters w !! c).

(** [tokio::spawn] and [JoinHandle::abort] *)
Definition spawn (t : Task) w : nat * World DB B R :=
  let '(a, w) := fresh w in (a, upd_tasks <[a := t]> w).

Definition abort (h : option nat) w : World DB B R :=
  match h with Some a => upd_tasks (delete a) w | None => w end.

(** [impl Drop for LiveRuntime] *)
Definition drop_live (l : option LiveRuntime) w : World DB B R :=
  match l with
  | None => w
  | Some l => abort (dc_handle <$> lr_detach_close l) (abort (lr_driver l) (abort (lr_forwarder l) w))
  end.

End updates.

(** ** The manager *)

Module TerminalSessionManager.
Section manager.
Context {DB B R : Type} `{!SessionStore DB, !PtyBridge B, !RecordingSink R}.
Context (cfg : ManagerConfig).
Abbreviation world := (World DB B R).
Abbreviation io A := (prog (World DB B R) (result TerminalSessionManagerError A)).
Implicit Types w : World DB B R.

(** A repository call; [?] converts its error with [From<RepositoryError>]. *)
Definition repo {A} (f : DB -> result RepositoryError A * DB) : io A :=
  act (fun w => let '(r, d) := f (w_db w) in (map_err Repository r, set_db d w)).

(** [Utc::now()] *)
Definition utc_now : prog world Z := act (fun w => (w_now w, w)).

Definition pure_act (f : world -> world) : prog world unit := act (fun w => (tt, f w)).

(** [.get(id).await?.filter(|s| s.owner_id == owner_id).ok_or(NotFound)?] *)
Definition get_owned (id : TerminalSessionId) (owner_id : UserId) : io TerminalSession :=
  do? o <- repo (st_get id);
  Ret (ok_or (o ≫= fun s => if decide (ts_owner_id s = owner_id) then Some s else None) NotFound).

(** The writer calls, no-ops on a disabled writer. *)
Definition record_output (wr : option nat) (seq : Z) (bytes : list Byte.byte) w : world :=
  match wr with Some r => set_rec (rec_output r seq bytes (w_rec w)) w | None => w end.
Definition record_marker (wr : option nat) (kind : TerminalRecordingMarkerKind) (seq : Z)
  (payload : json) w : world :=
  match wr with Some r => set_rec (rec_marker r kind seq payload (w_rec w)) w | None => w end.
Definition record_shutdown (wr : option nat) (last_seq : Z) w : world :=
  match wr with Some r => set_rec (rec_shutdown r last_seq (w_rec w)) w | None => w end.

(** *** Creation *)

(** Insert the [Starting] placeholder with a fresh sequence counter at 1. *)
Definition register_starting (session : TerminalSession) w : unit * world :=
  let '(c, w) := new_counter 1 w in
  let entry := mkEntry
    (mkRuntime (ts_id session) (ts_owner_id session) (ts_server_profile_id session) RtStarting
       (ts_created_at session) (ts_cols session) (ts_rows session)) None c in
  (tt, upd_runtimes <[ts_id session := entry]> w).

(** [create_session] *)
Definition create_session (req : CreateTerminalSessionRequest) : io CreateTerminalSessionOutcome :=
  do? _ <- Ret (validate_dim "cols" (cr_cols req));
  do? _ <- Ret (validate_dim "rows" (cr_rows req));
  do? session <- repo (st_create (mkCreateSession (cr_owner_id req) (cr_server_profile_id req)
                                    Starting (cr_cols req) (cr_rows req)));
  do? _ <- repo (st_create_event (mkCreateEvent (ts_id session) EvCreated
      (JObj [("cols"%string, JNum (ts_cols session)); ("rows"%string, JNum (ts_rows session));
             ("stub"%string, JBool true)])));
  do! _ <- act (register_starting session);
  Ret (Ok (mkCreateOut session STUB_PTY_NOT_IMPLEMENTED_MESSAGE false)).

(** *** Binding a PTY *)

(** [broadcast::channel] and the shared replay buffer *)
Definition new_fanout w : (nat * nat) * world :=
  let '(ch, w) := fresh w in
  let w := upd_channels <[ch := []]> w in
  let '(buf, w) := fresh w in
  ((ch, buf), upd_buffers <[buf := ReplayBuffer.new replay_config_default]> w).

Definition next_seq_of (id : TerminalSessionId) w : option nat * world :=
  (re_next_seq <$> w_runtimes w !! id, w).

Definition spawn_writer (id : TerminalSessionId) w : option nat * world :=
  if mc_recording cfg then let '(r, s) := rec_writer_for id (w_rec w) in (Some r, set_rec s w)
  else (None, w).

Definition set_rt_status (s : RuntimeSessionStatus) (rt : TerminalSessionRuntime)
  : TerminalSessionRuntime :=
  mkRuntime (rt_id rt) (rt_owner_id rt) (rt_server_profile_id rt) s (rt_created_at rt)
    (rt_cols rt) (rt_rows rt).

(** Install a candidate under the write lock; [false] when the entry is gone.  A runtime that is
    replaced is dropped. *)
Definition install_live (id : TerminalSessionId) (candidate : LiveRuntime) w : bool * world :=
  match w_runtimes w !! id with
  | Some e =>
      (true, drop_live (re_live e)
               (upd_runtimes <[id := mkEntry (set_rt_status RtLive (re_snapshot e)) (Some candidate)
                                       (re_next_seq e)]> w))
  | None => (false, w)
  end.

(** [start_live_pty] *)
Definition start_live_pty (owner_id : UserId) (session_id : TerminalSessionId) (start : SshPtyStart)
  : io TerminalSession :=
  do? session <- get_owned session_id owner_id;
  if decide (ts_status session = Closed) then Ret (Err SessionClosed)
  else
    do! fanout <- act new_fanout;
    do! onext <- act (next_seq_of session_id);
    do? next_seq <- Ret (ok_or onext NotFound);
    do! last_seq <- act (new_counter 0);
    do! recording_writer <- act (spawn_writer session_id);
    do! forwarder <- act (spawn (TForward (mkForwarder fanout.1 next_seq fanout.2 session_id owner_id
                                             recording_writer last_seq)));
    do? _ <- repo (st_set_status session_id Active None);
    do? updated <- get_owned session_id owner_id;
    let candidate := mkLive (ps_handle start) fanout.1 fanout.2 (Some forwarder)
                       (ps_driver start) None recording_writer last_seq in
    do! installed <- act (install_live session_id candidate);
    if (installed : bool) then Ret (Ok updated)
    else
      do! _ <- pure_act (drop_live (Some candidate));
      do! _ <- pure_act (fun w => set_pty (pty_close (ps_handle start) (w_pty w)) w);
      Ret (Err NotFound).

(** *** Teardown *)

(** Drop the live runtime of an entry and mark it [Ended]. *)
Definition end_entry (id : TerminalSessionId) w : world :=
  match w_runtimes w !! id with
  | Some e => drop_live (re_live e)
                (upd_runtimes <[id := mkEntry (set_rt_status RtEnded (re_snapshot e)) None
                                        (re_next_seq e)]> w)
  | None => w
  end.

(** [attachments.retain(|_, a| a.session_id != id)] *)
Definition drop_attachments (id : TerminalSessionId) w : world :=
  upd_attachments (filter (fun kv => ar_session_id kv.2 <> id)) w.

Definition remove_runtime (id : TerminalSessionId) w : option RuntimeEntry * world :=
  (w_runtimes w !! id, upd_runtimes (delete id) w).

(** [record_pty_start_failed] *)
Definition record_pty_start_failed (owner_id : UserId) (session_id : TerminalSessionId)
  (category : rstr) : io unit :=
  do! _ <- pure_act (end_entry session_id);
  do? session <- get_owned session_id owner_id;
  if decide (ts_status session = Closed) then Ret (Ok tt)
  else
    do! now <- utc_now;
    do? _ <- repo (st_set_status session_id Closed (Some now));
    do! _ <- repo (st_create_event (mkCreateEvent session_id EvClosed
        (JObj [("reason"%string, JStr (lit "ssh_start_failed")); ("category"%string, JStr category)])));
    do! _ <- pure_act (drop_attachments session_id);
    do! e <- act (remove_runtime session_id);
    do! _ <- pure_act (drop_live (e ≫= re_live));
    Ret (Ok tt).

(** [shutdown_runtime].  The bounded wait for the forwarder takes its handle, so the drop of the
    runtime no longer aborts it. *)
Definition shutdown_runtime (entry : RuntimeEntry) : prog world unit :=
  match re_live entry with
  | None => Ret tt
  | Some live =>
      do! _ <- pure_act (fun w => set_pty (pty_close (lr_handle live) (w_pty w)) w);
      do! _ <- pure_act (fun w => w);
      do! last_seq <- act (fun w => (load (lr_last_seq live) w, w));
      do! _ <- pure_act (record_shutdown (lr_recording live) last_seq);
      pure_act (drop_live (Some (mkLive (lr_handle live) (lr_output_tx live) (lr_replay live) None
        (lr_driver live) (lr_detach_close live) (lr_recording live) (lr_last_seq live))))
  end.

Definition shutdown_removed (e : option RuntimeEntry) : prog world unit :=
  match e with Some e => shutdown_runtime e | None => Ret tt end.

(** [close_session] *)
Definition close_session (id : TerminalSessionId) (owner_id : UserId)
  : io CloseTerminalSessionOutcome :=
  do? session <- get_owned id owner_id;
  if decide (ts_status session = Closed) then
    do! stale <- act (remove_runtime id);
    do! _ <- shutdown_removed stale;
    Ret (Ok (mkCloseOut session true))
  else
    do! now <- utc_now;
    do? _ <- repo (st_set_status id Closed (Some now));
    do? _ <- repo (st_create_event (mkCreateEvent id EvClosed
        (JObj [("reason"%string, JStr (lit "client_requested"))])));
    do? updated <- get_owned id owner_id;
    do! removed <- act (remove_runtime id);
    do! _ <- shutdown_removed removed;
    do! _ <- pure_act (drop_attachments id);
    Ret (Ok (mkCloseOut updated false)).

(** *** Attach *)

Definition set_detach_close (d : option DetachClose) (l : LiveRuntime) : LiveRuntime :=
  mkLive (lr_handle l) (lr_output_tx l) (lr_replay l) (lr_forwarder l) (lr_driver l) d
    (lr_recording l) (lr_last_seq l).

(** [cancel_pending_close] *)
Definition cancel_pending_close (id : TerminalSessionId) w : bool * world :=
  match w_runtimes w !! id with
  | Some (mkEntry snap (Some live) next) =>
      match lr_detach_close live with
      | Some d =>
          (true, abort (Some (dc_handle d))
                   (upd_runtimes <[id := mkEntry snap (Some (set_detach_close None live)) next]> w))
      | None => (false, w)
      end
  | _ => (false, w)
  end.

(** [runtime_view] *)
Definition runtime_view (id : TerminalSessionId) w : option LiveRuntimeView :=
  (fun l => mkView (lr_handle l) (lr_output_tx l) (lr_replay l)) <$> (w_runtimes w !! id ≫= re_live).

Definition json_str_opt (o : option rstr) : json := json_opt JStr o.

(** [attach_session] *)
Definition attach_session (req : AttachSessionRequest) : io AttachSessionOutcome :=
  do? session <- get_owned (aq_session_id req) (aq_owner_id req);
  if decide (ts_status session = Closed) then Ret (Err SessionClosed)
  else
    do! was_detached_pending_close <- act (cancel_pending_close (ts_id session));
    do? attachment <- repo (st_create_attachment (mkCreateAttachment (ts_id session)
                              (aq_client_info req) (aq_remote_addr req)));
    do! live_view <- act (fun w => (runtime_view (ts_id session) w, w));
    let live := bool_decide (is_Some live_view) in
    do? _ <- repo (st_create_event (mkCreateEvent (ts_id session) EvAttached
        (JObj [("attachment_id"%string, JUuid (ta_id attachment));
               ("client_info"%string, json_str_opt (aq_client_info req));
               ("remote_addr"%string, json_str_opt (aq_remote_addr req));
               ("stub"%string, JBool (negb live)); ("live"%string, JBool live)])));
    do? _ <- (if (was_detached_pending_close : bool) then
                do? _ <- repo (st_set_status (ts_id session) Active None);
                do! _ <- repo (st_create_event (mkCreateEvent (ts_id session) EvReattached
                    (JObj [("attachment_id"%string, JUuid (ta_id attachment))])));
                Ret (Ok tt)
              else Ret (Ok tt));
    do! _ <- pure_act (upd_attachments <[ta_id attachment :=
        mkAttachmentRuntime (ta_id attachment) (ts_id session) (ts_owner_id session)
          (ta_attached_at attachment) (aq_client_info req) (aq_remote_addr req)]>);
    Ret (Ok (mkAttachOut session attachment
      (if live then LIVE_PTY_ATTACH_MESSAGE else STUB_PTY_NOT_IMPLEMENTED_ATTACH_MESSAGE) live_view)).

(** *** Input and replay *)

(** [live_handle_for] and [maybe_live_handle_for] *)
Definition maybe_live_handle_for (owner_id : UserId) (id : TerminalSessionId) w
  : result TerminalSessionManagerError (option nat) :=
  match w_runtimes w !! id with
  | Some e => if decide (rt_owner_id (re_snapshot e) = owner_id) then Ok (lr_handle <$> re_live e)
              else Err NotFound
  | None => Err NotFound
  end.

Definition live_handle_for (owner_id : UserId) (id : TerminalSessionId) w
  : result TerminalSessionManagerError nat :=
  match maybe_live_handle_for owner_id id w with
  | Ok (Some h) => Ok h
  | Ok None => Err PtyNotLive
  | Err e => Err e
  end.

(** [write_pty_input] *)
Definition write_pty_input (owner_id : UserId) (id : TerminalSessionId) (bytes : list Byte.byte)
  : io unit :=
  do? handle <- act (fun w => (live_handle_for owner_id id w, w));
  do! r <- act (fun w => let '(r, b) := pty_write_input handle bytes (w_pty w) in (r, set_pty b w));
  Ret (match r with
       | Ok _ => Ok tt
       | Err BridgeClosed => Err PtyNotLive
       | Err e => Err (PtyStart e)
       end).

(** [apply_pty_resize] *)
Definition apply_pty_resize (owner_id : UserId) (id : TerminalSessionId) (cols rows : Z) : io bool :=
  do? handle <- act (fun w => (maybe_live_handle_for owner_id id w, w));
  match handle with
  | None => Ret (Ok false)
  | Some handle =>
      do! r <- act (fun w => let '(r, b) := pty_resize handle cols rows (w_pty w) in (r, set_pty b w));
      Ret (match r with
           | Ok _ => Ok true
           | Err BridgeClosed => Ok false
           | Err e => Err (PtyStart e)
           end)
  end.

(** [replay_since] *)
Definition replay_since (id : TerminalSessionId) (last_seen_seq : option Z) w
  : option (result ReplayWindowLost ReplayRange) :=
  view ← runtime_view id w;
  buf ← w_buffers w !! lv_replay view;
  Some (ReplayBuffer.replay_since buf last_seen_seq).

(** *** Detach *)

Definition get_session_attachment (id : TerminalSessionAttachmentId) (session_id : TerminalSessionId)
  : io TerminalSessionAttachment :=
  do? o <- repo (st_get_attachment id);
  Ret (ok_or (o ≫= fun a => if decide (ta_session_id a = session_id) then Some a else None) NotFound).

(** [detach_session] *)
Definition detach_session (owner_id : UserId) (session_id : TerminalSessionId)
  (attachment_id : TerminalSessionAttachmentId) (last_seen_seq : option Z)
  : io DetachSessionOutcome :=
  do? session <- get_owned session_id owner_id;
  do? attachment <- get_session_attachment attachment_id (ts_id session);
  if decide (is_Some (ta_detached_at attachment)) then
    do! _ <- pure_act (upd_attachments (delete attachment_id));
    Ret (Ok (mkDetachSessionOut session attachment true))
  else
    do! now <- utc_now;
    do? _ <- repo (st_mark_attachment_detached attachment_id now last_seen_seq);
    do? _ <- repo (st_create_event (mkCreateEvent (ts_id session) EvDetached
        (JObj [("attachment_id"%string, JUuid attachment_id);
               ("last_seen_seq"%string, json_opt JNum last_seen_seq)])));
    do? updated <- get_session_attachment attachment_id (ts_id session);
    do! _ <- pure_act (upd_attachments (delete attachment_id));
    Ret (Ok (mkDetachSessionOut session updated false)).

(** The final critical section of [schedule_detach_close]. *)
Definition install_detach_close (id : TerminalSessionId) (info : DetachInfo) (handle : nat) w
  : option DetachInfo * world :=
  match w_runtimes w !! id with
  | Some (mkEntry snap (Some live) next) =>
      match lr_detach_close live with
      | Some existing => (Some (dc_info existing), abort (Some handle) w)
      | None =>
          (Some info,
           upd_runtimes <[id := mkEntry snap
             (Some (set_detach_close (Some (mkDetachClose info handle)) live)) next]> w)
      end
  | _ => (None, abort (Some handle) w)
  end.

(** [schedule_detach_close] *)
Definition schedule_detach_close (session_id : TerminalSessionId) (owner_id : UserId)
  : prog world (option DetachInfo) :=
  do! _ <- repo (st_set_status session_id Detached None);
  do! now <- utc_now;
  let info := mkDetachInfo now (now + default 0 (duration_from_std (mc_detach_ttl cfg))) in
  do! handle <- act (spawn (TDetachClose session_id owner_id));
  act (install_detach_close session_id info handle).

(** [detach_attachment] *)
Definition detach_attachment (owner_id : UserId) (session_id : TerminalSessionId)
  (attachment_id : TerminalSessionAttachmentId) (last_seen_seq : option Z) : io DetachOutcome :=
  do? detach <- detach_session owner_id session_id attachment_id last_seen_seq;
  do! should_schedule <-
    (if do_already_detached detach then Ret false
     else
       do! any_remaining <- act (fun w =>
         (bool_decide (map_Exists (fun _ a => ar_session_id a = session_id) (w_attachments w)), w));
       do! has_live <- act (fun w => (bool_decide (is_Some (w_runtimes w !! session_id ≫= re_live)), w));
       Ret (negb any_remaining && has_live));
  do! pending <- (if (should_schedule : bool) then schedule_detach_close session_id owner_id
                  else Ret None);
  Ret (Ok (mkDetachOut detach pending)).

(** [expire_detach_close] *)
Definition expire_detach_close (session_id : TerminalSessionId) (owner_id : UserId)
  : prog world unit :=
  do! still_pending <- act (fun w =>
    (bool_decide (is_Some ((w_runtimes w !! session_id ≫= re_live) ≫= lr_detach_close)), w));
  if (still_pending : bool) then do! _ <- close_session session_id owner_id; Ret tt
  else Ret tt.

(** [detach_state] *)
Definition detach_state (id : TerminalSessionId) w : option DetachInfo :=
  dc_info <$> ((w_runtimes w !! id ≫= re_live) ≫= lr_detach_close).

(** *** Resize *)

Definition set_rt_dims (cols rows : Z) (rt : TerminalSessionRuntime) : TerminalSessionRuntime :=
  mkRuntime (rt_id rt) (rt_owner_id rt) (rt_server_profile_id rt) (rt_status rt) (rt_created_at rt)
    cols rows.

Definition resize_entry (id : TerminalSessionId) (cols rows : Z) w
  : option (option nat * Z) * world :=
  match w_runtimes w !! id with
  | Some e =>
      ((fun live => (lr_recording live, load (lr_last_seq live) w)) <$> re_live e,
       upd_runtimes <[id := mkEntry (set_rt_dims cols rows (re_snapshot e)) (re_live e)
                              (re_next_seq e)]> w)
  | None => (None, w)
  end.

(** [resize_session] *)
Definition resize_session (owner_id : UserId) (session_id : TerminalSessionId) (cols rows : Z)
  : io ResizeSessionOutcome :=
  do? _ <- Ret (validate_dim "cols" cols);
  do? _ <- Ret (validate_dim "rows" rows);
  do? session <- get_owned session_id owner_id;
  if decide (ts_status session = Closed) then Ret (Err SessionClosed)
  else
    let payload := JObj [("cols"%string, JNum cols); ("rows"%string, JNum rows)] in
    do! target <- act (resize_entry (ts_id session) cols rows);
    do! _ <- (match target with
              | Some (writer, latest) =>
                  pure_act (record_marker writer MkResized (Z.max latest 1) payload)
              | None => Ret tt
              end);
    do? _ <- repo (st_create_event (mkCreateEvent (ts_id session) EvResized payload));
    Ret (Ok (mkResizeOut session cols rows)).

(** *** Output *)

(** [fetch_add(1)] *)
Definition fetch_add_one (c : nat) w : Z * world :=
  let v := load c w in (v, upd_counters <[c := wrapping_add64 v 1]> w).

Definition push_frame (buf : nat) (frame : OutputFrame) w : world :=
  upd_buffers (alter (fun b => ReplayBuffer.push b frame) buf) w.

Definition send_frame (ch : nat) (frame : OutputFrame) w : world :=
  upd_channels (alter (fun l => l ++ [frame]) ch) w.

Definition reason_str (r : option ClosedReason) : rstr :=
  match r with
  | Some RemoteEof => lit "remote_eof"
  | Some TransportError => lit "transport_error"
  | Some LocalClose | None => lit "local_close"
  end.

(** The tail of [forward_pty_output], after the bridge is gone. *)
Definition pty_teardown (args : ForwarderArgs) (closed_reason : option ClosedReason)
  : prog world unit :=
  do! r <- repo (st_get (fw_session_id args));
  match r with
  | Ok (Some session) =>
      if decide (ts_owner_id session = fw_owner_id args /\ ts_status session <> Closed) then
        do! now <- utc_now;
        do! _ <- repo (st_set_status (fw_session_id args) Closed (Some now));
        do! _ <- repo (st_create_event (mkCreateEvent (fw_session_id args) EvClosed
            (JObj [("reason"%string, JStr (lit "pty_teardown"));
                   ("category"%string, JStr (reason_str closed_reason))])));
        Ret tt
      else Ret tt
  | Ok None => Ret tt
  | Err _ => Ret tt
  end.

(** One [SshPtyEvent::Output]: stamp, replay ring, broadcast, recording. *)
Definition forward_output (args : ForwarderArgs) (bytes : list Byte.byte) : prog world unit :=
  do! seq <- act (fetch_add_one (fw_next_seq args));
  let frame := mkFrame seq bytes in
  do! _ <- pure_act (push_frame (fw_replay args) frame);
  do! _ <- pure_act (send_frame (fw_output_tx args) frame);
  do! _ <- pure_act (upd_counters <[fw_last_seq args := seq]>);
  pure_act (record_output (fw_recording args) seq bytes).

(** [forward_pty_output], on the events its channel delivers before it closes. *)
Fixpoint forward_pty_output (args : ForwarderArgs) (evts : list SshPtyEvent)
  (closed_reason : option ClosedReason) : prog world unit :=
  match evts with
  | [] => pty_teardown args closed_reason
  | PtyOutput bytes :: evts =>
      do! _ <- forward_output args bytes; forward_pty_output args evts closed_reason
  | PtyExit _ :: evts => forward_pty_output args evts closed_reason
  | PtyClosed reason :: evts => forward_pty_output args evts (Some reason)
  end.

(** *** Quotas *)

(** [count_live_pty_for_user], [count_starting_for_user] and [count_live_pty_total] *)
Definition count_live_pty_for_user (owner_id : UserId) w : nat :=
  size (filter (fun kv => rt_owner_id (re_snapshot kv.2) = owner_id /\ is_Some (re_live kv.2))
          (w_runtimes w)).
Definition count_starting_for_user (owner_id : UserId) w : nat :=
  size (filter (fun kv => rt_owner_id (re_snapshot kv.2) = owner_id /\ re_live kv.2 = None
                          /\ rt_status (re_snapshot kv.2) = RtStarting) (w_runtimes w)).
Definition count_live_pty_total w : nat :=
  size (filter (fun kv => is_Some (re_live kv.2)) (w_runtimes w)).

(** [runtime], [attachment], [runtime_count] and [attachment_count] *)
Definition runtime (id : TerminalSessionId) w : option TerminalSessionRuntime :=
  re_snapshot <$> w_runtimes w !! id.
Definition attachment (id : TerminalSessionAttachmentId) w : option AttachmentRuntime :=
  w_attachments w !! id.
Definition runtime_count w : nat := size (w_runtimes w).
Definition attachment_count w : nat := size (w_attachments w).

End manager.
End TerminalSessionManager.
