(* ===== verification/ManagerInv.v ===== *)
(** * Safety of the orchestrator under every interleaving

    The invariant of the shared state and the guarantee every task gives the others (rows are
    never deleted, owners never change, the first detach of an attachment is final, the event log
    only grows), and the proof that every action of every handler, of the forwarder and of the
    detach timer keeps both.  By the soundness of the rely-guarantee rule they hold in every state
    of every interleaving, with tasks cancelled at any point and repositories failing at any
    call. *)

From S2P Require Import Prelude Core Replay SessionStore Prog Manager.
Import TerminalSessionManager.

Definition dim_ok (z : Z) : Prop := 1 <= z <= 4096.

(** A stored session: dimensions in range, and a closing time exactly when it is closed. *)
Record session_ok (s : TerminalSession) : Prop := {
  so_cols : dim_ok (ts_cols s);
  so_rows : dim_ok (ts_rows s);
  so_closed : ts_status s = Closed <-> is_Some (ts_closed_at s)
}.

(** What never changes of a session row, and of an attachment row once it is set. *)
Record session_grows (s s' : TerminalSession) : Prop := {
  sg_id : ts_id s = ts_id s';
  sg_owner : ts_owner_id s = ts_owner_id s';
  sg_profile : ts_server_profile_id s = ts_server_profile_id s';
  sg_cols : ts_cols s = ts_cols s';
  sg_rows : ts_rows s = ts_rows s';
  sg_created : ts_created_at s = ts_created_at s'
}.

Record attachment_grows (a a' : TerminalSessionAttachment) : Prop := {
  ag_id : ta_id a = ta_id a';
  ag_session : ta_session_id a = ta_session_id a';
  ag_attached : ta_attached_at a = ta_attached_at a';
  ag_client : ta_client_info a = ta_client_info a';
  ag_addr : ta_remote_addr a = ta_remote_addr a';
  ag_detached : is_Some (ta_detached_at a) -> ta_detached_at a' = ta_detached_at a;
  ag_seq : is_Some (ta_last_seen_seq a) -> ta_last_seen_seq a' = ta_last_seen_seq a
}.

#[export] Instance session_grows_preorder : PreOrder session_grows.
Proof. split; [by intros s|]. intros s1 s2 s3 [] []. split; congruence. Qed.

#[export] Instance attachment_grows_preorder : PreOrder attachment_grows.
Proof.
  split; [by intros a|]. intros a1 a2 a3 [] [].
  split; try congruence; intros Hs; [rewrite ag_detached1|rewrite ag_seq1]; auto;
    [by rewrite ag_detached0|by rewrite ag_seq0].
Qed.

(** A map whose entries persist and grow. *)
Definition map_grows {A} (grows : A -> A -> Prop) (m m' : gmap Z A) : Prop :=
  forall k a, m !! k = Some a -> exists a', m' !! k = Some a' /\ grows a a'.

#[export] Instance map_grows_preorder {A} (grows : A -> A -> Prop) `{!PreOrder grows} :
  PreOrder (map_grows grows).
Proof.
  split; [by intros m k a; exists a|]. intros m1 m2 m3 H1 H2 k a Ha.
  destruct (H1 k a Ha) as (b & Hb & ?). destruct (H2 k b Hb) as (c & Hc & ?).
  exists c. split; [done|]. by transitivity b.
Qed.

Lemma map_grows_insert_new {A} (grows : A -> A -> Prop) `{!PreOrder grows} m k a :
  m !! k = None -> map_grows grows m (<[k := a]> m).
Proof.
  intros Hn k' a' Ha'. exists a'. split; [|done]. rewrite lookup_insert_ne; congruence.
Qed.

Lemma map_grows_insert {A} (grows : A -> A -> Prop) `{!PreOrder grows} m k a b :
  m !! k = Some a -> grows a b -> map_grows grows m (<[k := b]> m).
Proof.
  intros Ha Hg k' a' Ha'. destruct (decide (k = k')) as [<-|Hne].
  - exists b. rewrite lookup_insert_eq. split; congruence.
  - exists a'. by rewrite lookup_insert_ne.
Qed.

Section safety.
Context {DB B R : Type} `{!SessionStore DB, !SessionStoreLaws DB, !PtyBridge B, !RecordingSink R}.
Context (cfg : ManagerConfig).
Implicit Types w : World DB B R.

Abbreviation sessions w := (sv_sessions (w_db w)).
Abbreviation attachments w := (sv_attachments (w_db w)).
Abbreviation events w := (sv_events (w_db w)).

(** The registry entry [e] of session [id], against the rows. *)
Record entry_ok (rows : gmap Z TerminalSession) (id : Z) (e : RuntimeEntry) : Prop := {
  eo_id : rt_id (re_snapshot e) = id;
  eo_live : is_Some (re_live e) <-> rt_status (re_snapshot e) = RtLive;
  eo_row : exists s, rows !! id = Some s /\ ts_owner_id s = rt_owner_id (re_snapshot e)
                     /\ ts_server_profile_id s = rt_server_profile_id (re_snapshot e);
  eo_cols : dim_ok (rt_cols (re_snapshot e));
  eo_rows : dim_ok (rt_rows (re_snapshot e))
}.

(** The registered attachment [a], against the rows. *)
Record attached_ok (rows : gmap Z TerminalSession) (atts : gmap Z TerminalSessionAttachment)
  (id : Z) (a : AttachmentRuntime) : Prop := {
  ao_key : ar_id a = id;
  ao_owner : exists s, rows !! ar_session_id a = Some s /\ ts_owner_id s = ar_owner_id a;
  ao_row : exists t, atts !! id = Some t /\ ta_session_id t = ar_session_id a
}.

Record inv w : Prop := {
  inv_wf : st_wf (w_db w);
  inv_sessions : map_Forall (fun _ => session_ok) (sessions w);
  inv_fk : map_Forall (fun _ a => is_Some (sessions w !! ta_session_id a)) (attachments w);
  inv_events : Forall (fun e => is_Some (sessions w !! se_session_id e)) (events w);
  inv_runtimes : map_Forall (entry_ok (sessions w)) (w_runtimes w);
  inv_attached : map_Forall (attached_ok (sessions w) (attachments w)) (w_attachments w);
  inv_buffers : map_Forall (fun _ b => ReplayBuffer.config b = replay_config_default
                  /\ ReplayBuffer.frame_count b <= max_frames replay_config_default) (w_buffers w)
}.

Record guar w w' : Prop := {
  g_sessions : map_grows session_grows (sessions w) (sessions w');
  g_attachments : map_grows attachment_grows (attachments w) (attachments w');
  g_events : events w `prefix_of` events w';
  g_now : w_now w <= w_now w'
}.

#[export] Instance guar_preorder : PreOrder guar.
Proof.
  split; [by intros w|]. intros w1 w2 w3 [] [].
  split; [by transitivity (sessions w2)|by transitivity (attachments w2)
         |by transitivity (events w2)|lia].
Qed.

(** *** Steps that leave the database alone *)

Lemma guar_same_db w w' : w_db w' = w_db w -> w_now w' = w_now w -> guar w w'.
Proof. intros Hd Hn. split; rewrite ?Hd; try done. lia. Qed.

Lemma inv_registry w w' :
  w_db w' = w_db w -> inv w ->
  map_Forall (entry_ok (sessions w)) (w_runtimes w') ->
  map_Forall (attached_ok (sessions w) (attachments w)) (w_attachments w') ->
  w_buffers w' = w_buffers w -> inv w'.
Proof. intros Hd [] Hr Ha Hb. split; rewrite ?Hd, ?Hb; done. Qed.

(** Registry entries and attachments stay right when the rows grow. *)
Lemma entry_ok_grows rows rows' id e :
  map_grows session_grows rows rows' -> entry_ok rows id e -> entry_ok rows' id e.
Proof.
  intros Hg [? ? (s & Hs & Ho & Hp) ? ?]. split; try done.
  destruct (Hg _ _ Hs) as (s' & Hs' & []). exists s'. repeat split; congruence.
Qed.

Lemma attached_ok_grows rows rows' atts atts' id a :
  map_grows session_grows rows rows' -> map_grows attachment_grows atts atts' ->
  attached_ok rows atts id a -> attached_ok rows' atts' id a.
Proof.
  intros Hg Hga [? (s & Hs & Ho) (t & Ht & Hts)]. split; [done| |].
  - destruct (Hg _ _ Hs) as (s' & Hs' & []). exists s'. split; congruence.
  - destruct (Hga _ _ Ht) as (t' & Ht' & []). exists t'. split; congruence.
Qed.

(** A database step that grows the rows keeps the invariant if the new rows are right. *)
Lemma inv_db_step w d' :
  inv w -> st_wf d' ->
  map_grows session_grows (sessions w) (sv_sessions d') ->
  map_grows attachment_grows (attachments w) (sv_attachments d') ->
  map_Forall (fun _ => session_ok) (sv_sessions d') ->
  map_Forall (fun _ a => is_Some (sv_sessions d' !! ta_session_id a)) (sv_attachments d') ->
  Forall (fun e => is_Some (sv_sessions d' !! se_session_id e)) (sv_events d') ->
  inv (set_db d' w).
Proof.
  intros [] Hwf Hg Hga Hs Hfk Hev. split; try done; cbn.
  - eapply map_Forall_impl; [exact inv_runtimes0|]. intros id e. by apply entry_ok_grows.
  - eapply map_Forall_impl; [exact inv_attached0|]. intros id a. by apply attached_ok_grows.
Qed.

Lemma is_Some_grows {A} (grows : A -> A -> Prop) m m' k :
  map_grows grows m m' -> is_Some (m !! k) -> is_Some (m' !! k).
Proof. intros Hg [a Ha]. destruct (Hg _ _ Ha) as (a' & -> & _). eauto. Qed.

Lemma inv_store_eq w d' :
  inv w -> st_wf d' -> store_eq (w_db w) d' -> inv (set_db d' w) /\ guar w (set_db d' w).
Proof.
  intros Hw Hwf (Hs & Ha & He). split.
  - apply inv_db_step; rewrite <- ?Hs, <- ?Ha, <- ?He; try done; apply Hw.
  - split; cbn; by rewrite <- ?Hs, <- ?Ha, <- ?He.
Qed.

(** *** Repository calls

    [Q] must hold of every result in every state the other tasks can be in. *)

Abbreviation WP p w0 Q := (wp inv guar p w0 Q).

Lemma wp_repo {A} (f : DB -> result RepositoryError A * DB) w0 Q :
  (forall w, inv w -> guar w0 w ->
     let rd := f (w_db w) in
     match rd.1 with
     | Err e => store_eq (w_db w) rd.2 /\ st_wf rd.2 /\ Q (Err (Repository e)) (set_db rd.2 w)
     | Ok a => inv (set_db rd.2 w) /\ guar w (set_db rd.2 w) /\ Q (Ok a) (set_db rd.2 w)
     end) ->
  WP (repo f) w0 Q.
Proof.
  intros H. apply wp_act. intros w Hw Hg. specialize (H w Hw Hg). cbv zeta in H.
  destruct (f (w_db w)) as [[a|e] d']; cbn [fst snd map_err] in *; [done|].
  destruct H as (Heq & Hwf & HQ). destruct (inv_store_eq w d' Hw Hwf Heq). done.
Qed.

Lemma wp_st_get id w0 (Q : result TerminalSessionManagerError (option TerminalSession) -> World DB B R -> Prop) :
  (forall w e, guar w0 w -> Q (Err e) w) ->
  (forall w, inv w -> guar w0 w -> Q (Ok (sessions w !! id)) w) ->
  WP (repo (st_get id)) w0 Q.
Proof.
  intros Herr Hok. apply wp_repo. intros w Hw Hg. cbv zeta.
  pose proof (law_get id (w_db w) (inv_wf w Hw)) as [Hl [Hwf _]].
  destruct (st_get id (w_db w)) as [[o|e] d']; cbn [fst snd] in *.
  - destruct Hl as [-> Heq]. destruct (inv_store_eq w d' Hw Hwf Heq) as [HI HG].
    split; [done|]. split; [done|]. destruct Heq as (Hs & _). rewrite Hs.
    apply (Hok (set_db d' w) HI). by transitivity w.
  - destruct Hl as [Heq _]. split; [done|]. split; [done|]. apply Herr.
    transitivity w; [done|]. by apply inv_store_eq.
Qed.

Lemma wp_st_get_attachment id w0 (Q : result TerminalSessionManagerError (option TerminalSessionAttachment) -> World DB B R -> Prop) :
  (forall w e, guar w0 w -> Q (Err e) w) ->
  (forall w, inv w -> guar w0 w -> Q (Ok (attachments w !! id)) w) ->
  WP (repo (st_get_attachment id)) w0 Q.
Proof.
  intros Herr Hok. apply wp_repo. intros w Hw Hg. cbv zeta.
  pose proof (law_get_attachment id (w_db w) (inv_wf w Hw)) as [Hl [Hwf _]].
  destruct (st_get_attachment id (w_db w)) as [[o|e] d']; cbn [fst snd] in *.
  - destruct Hl as [-> Heq]. destruct (inv_store_eq w d' Hw Hwf Heq) as [HI HG].
    split; [done|]. split; [done|]. destruct Heq as (_ & Ha & _). rewrite Ha.
    apply (Hok (set_db d' w) HI). by transitivity w.
  - destruct Hl as [Heq _]. split; [done|]. split; [done|]. apply Herr.
    transitivity w; [done|]. by apply inv_store_eq.
Qed.

Lemma wp_st_set_status id status closed w0 (Q : result TerminalSessionManagerError unit -> World DB B R -> Prop) :
  (status = Closed <-> is_Some closed) ->
  (forall w r, guar w0 w -> Q r w) ->
  WP (repo (st_set_status id status closed)) w0 Q.
Proof.
  intros Hclosed HQ. apply wp_repo. intros w Hw Hg. cbv zeta.
  pose proof (law_set_status id status closed (w_db w) (inv_wf w Hw)) as [Hl [Hwf _]].
  destruct (st_set_status id status closed (w_db w)) as [[[]|e] d']; cbn [fst snd] in *.
  2:{ destruct Hl as [Heq _]. split; [done|]. split; [done|]. apply HQ.
      transitivity w; [done|]. by apply inv_store_eq. }
  destruct Hl as (s & seen & Hs & Hs' & Ha' & He').
  assert (Hgr : map_grows session_grows (sessions w) (sv_sessions d')).
  { rewrite Hs'. apply (map_grows_insert session_grows _ _ s); [done|by split]. }
  assert (Hgd : guar w (set_db d' w)).
  { split; cbn; by rewrite ?Ha', ?He'. }
  split; [|split; [done|apply HQ; by transitivity w]].
  apply inv_db_step; try done; rewrite ?Ha', ?He'; try done.
  - rewrite Hs'. apply map_Forall_insert_2; [|apply Hw].
    pose proof (inv_sessions w Hw _ _ Hs) as []. by split.
  - eapply map_Forall_impl; [apply (inv_fk w Hw)|]. intros k a. by apply (is_Some_grows session_grows).
  - eapply Forall_impl; [apply (inv_events w Hw)|]. intros e. by apply (is_Some_grows session_grows).
Qed.

Lemma wp_st_create_event c w0 (Q : result TerminalSessionManagerError SessionEvent -> World DB B R -> Prop) :
  (forall w r, guar w0 w -> Q r w) ->
  WP (repo (st_create_event c)) w0 Q.
Proof.
  intros HQ. apply wp_repo. intros w Hw Hg. cbv zeta.
  pose proof (law_create_event c (w_db w) (inv_wf w Hw)) as [Hl [Hwf _]].
  destruct (st_create_event c (w_db w)) as [[ev|e] d']; cbn [fst snd] in *.
  2:{ destruct Hl as [Heq _]. split; [done|]. split; [done|]. apply HQ.
      transitivity w; [done|]. by apply inv_store_eq. }
  destruct Hl as (Hex & Hsid & _ & _ & He' & Hs' & Ha').
  assert (Hgd : guar w (set_db d' w)).
  { split; cbn; rewrite ?Hs', ?Ha', ?He'; try done. by apply prefix_app_r. }
  split; [|split; [done|apply HQ; by transitivity w]].
  apply inv_db_step; try done; rewrite ?Hs', ?Ha', ?He'; try done; try apply Hw.
  apply Forall_app. split; [apply Hw|]. apply Forall_singleton. by rewrite Hsid.
Qed.

Lemma wp_st_create c w0 (Q : result TerminalSessionManagerError TerminalSession -> World DB B R -> Prop) :
  dim_ok (cs_cols c) -> dim_ok (cs_rows c) -> cs_status c <> Closed ->
  (forall w e, guar w0 w -> Q (Err e) w) ->
  (forall w s, inv w -> guar w0 w -> sessions w !! ts_id s = Some s -> Q (Ok s) w) ->
  WP (repo (st_create c)) w0 Q.
Proof.
  intros Hc Hr Hst Herr Hok. apply wp_repo. intros w Hw Hg. cbv zeta.
  pose proof (law_create c (w_db w) (inv_wf w Hw)) as [Hl [Hwf _]].
  destruct (st_create c (w_db w)) as [[s|e] d']; cbn [fst snd] in *.
  2:{ destruct Hl as [Heq _]. split; [done|]. split; [done|]. apply Herr.
      transitivity w; [done|]. by apply inv_store_eq. }
  destruct Hl as (Hnew & Ho & Hp & Hs & Hcols & Hrows & Hcl & Hs' & Ha' & He').
  assert (Hgr : map_grows session_grows (sessions w) (sv_sessions d')).
  { rewrite Hs'. by apply map_grows_insert_new; [apply _|]. }
  assert (Hgd : guar w (set_db d' w)).
  { split; cbn; by rewrite ?Ha', ?He'. }
  assert (Hinv : inv (set_db d' w)).
  { apply inv_db_step; try done; rewrite ?Ha', ?He'; try done.
    - rewrite Hs'. apply map_Forall_insert_2; [|apply Hw].
      split; [by rewrite Hcols|by rewrite Hrows|]. rewrite Hs, Hcl. split; [done|by intros []].
    - eapply map_Forall_impl; [apply (inv_fk w Hw)|]. intros k a. by apply (is_Some_grows session_grows).
    - eapply Forall_impl; [apply (inv_events w Hw)|]. intros e. by apply (is_Some_grows session_grows). }
  split; [done|]. split; [done|]. apply Hok; [done|by transitivity w|].
  cbn. rewrite Hs'. apply lookup_insert_eq.
Qed.

Lemma wp_st_create_attachment c w0 (Q : result TerminalSessionManagerError TerminalSessionAttachment -> World DB B R -> Prop) :
  (forall w e, guar w0 w -> Q (Err e) w) ->
  (forall w a, inv w -> guar w0 w -> attachments w !! ta_id a = Some a ->
     ta_session_id a = ca_session_id c -> Q (Ok a) w) ->
  WP (repo (st_create_attachment c)) w0 Q.
Proof.
  intros Herr Hok. apply wp_repo. intros w Hw Hg. cbv zeta.
  pose proof (law_create_attachment c (w_db w) (inv_wf w Hw)) as [Hl [Hwf _]].
  destruct (st_create_attachment c (w_db w)) as [[a|e] d']; cbn [fst snd] in *.
  2:{ destruct Hl as [Heq _]. split; [done|]. split; [done|]. apply Herr.
      transitivity w; [done|]. by apply inv_store_eq. }
  destruct Hl as (Hnew & Hex & Hsid & _ & _ & _ & _ & Ha' & Hs' & He').
  assert (Hgr : map_grows attachment_grows (attachments w) (sv_attachments d')).
  { rewrite Ha'. by apply map_grows_insert_new; [apply _|]. }
  assert (Hgd : guar w (set_db d' w)).
  { split; cbn; by rewrite ?Hs', ?He'. }
  assert (Hinv : inv (set_db d' w)).
  { apply inv_db_step; try done; rewrite ?Hs', ?He'; try done; try apply Hw.
    rewrite Ha'. apply map_Forall_insert_2; [by rewrite Hsid|apply Hw]. }
  split; [done|]. split; [done|]. apply Hok; [done|by transitivity w| |done].
  cbn. rewrite Ha'. apply lookup_insert_eq.
Qed.

Lemma with_detached_grows a t seq : attachment_grows a (with_detached a t seq).
Proof.
  split; try done; cbn; unfold coalesce; intros [x Hx]; by rewrite Hx.
Qed.

Lemma wp_st_mark_detached id t seq w0 (Q : result TerminalSessionManagerError unit -> World DB B R -> Prop) :
  (forall w r, guar w0 w -> Q r w) ->
  WP (repo (st_mark_attachment_detached id t seq)) w0 Q.
Proof.
  intros HQ. apply wp_repo. intros w Hw Hg. cbv zeta.
  pose proof (law_mark_detached id t seq (w_db w) (inv_wf w Hw)) as [Hl [Hwf _]].
  destruct (st_mark_attachment_detached id t seq (w_db w)) as [[[]|e] d']; cbn [fst snd] in *.
  2:{ destruct Hl as [Heq _]. split; [done|]. split; [done|]. apply HQ.
      transitivity w; [done|]. by apply inv_store_eq. }
  destruct Hl as (a & Ha & Ha' & Hs' & He').
  assert (Hgr : map_grows attachment_grows (attachments w) (sv_attachments d')).
  { rewrite Ha'. apply (map_grows_insert attachment_grows _ _ a); [done|apply with_detached_grows]. }
  assert (Hgd : guar w (set_db d' w)).
  { split; cbn; by rewrite ?Hs', ?He'. }
  split; [|split; [done|apply HQ; by transitivity w]].
  apply inv_db_step; try done; rewrite ?Hs', ?He'; try done; try apply Hw.
  rewrite Ha'. apply map_Forall_insert_2; [|apply Hw]. apply (inv_fk w Hw _ _ Ha).
Qed.

(** *** Registry and heap actions

    Actions that neither touch the database nor the clock keep the guarantee; they keep the
    invariant if the registries and the buffers they leave are right. *)

Definition quiet (f : World DB B R -> World DB B R) : Prop :=
  forall w, inv w -> w_db (f w) = w_db w /\ w_now (f w) = w_now w /\ inv (f w).

Lemma wp_quiet {A} (f : World DB B R -> A * World DB B R) w0 Q :
  (forall w, inv w -> guar w0 w ->
     w_db (f w).2 = w_db w /\ w_now (f w).2 = w_now w /\ inv (f w).2
     /\ (guar w0 (f w).2 -> Q (f w).1 (f w).2)) ->
  WP (act f) w0 Q.
Proof.
  intros H. apply wp_act. intros w Hw Hg. destruct (H w Hw Hg) as (Hd & Hn & HI & HQ).
  assert (guar w (f w).2) by (by apply guar_same_db).
  split; [done|]. split; [done|]. apply HQ. by transitivity w.
Qed.

Lemma wp_pure_act f w0 (Q : unit -> World DB B R -> Prop) :
  quiet f -> (forall w, guar w0 w -> Q tt w) -> WP (pure_act f) w0 Q.
Proof.
  intros Hf HQ. apply wp_quiet. intros w Hw Hg. destruct (Hf w Hw) as (? & ? & ?).
  split_and!; try done. cbn. auto.
Qed.

Lemma wp_read {A} (f : World DB B R -> A) w0 (Q : A -> World DB B R -> Prop) :
  (forall w, inv w -> guar w0 w -> Q (f w) w) -> WP (act (fun w => (f w, w))) w0 Q.
Proof. intros HQ. apply wp_quiet. intros w Hw Hg. split_and!; try done. cbn. auto. Qed.

(** Worlds that agree on everything the invariant looks at. *)
Lemma inv_frame w w' :
  w_db w' = w_db w -> w_runtimes w' = w_runtimes w -> w_attachments w' = w_attachments w ->
  w_buffers w' = w_buffers w -> inv w -> inv w'.
Proof.
  intros Hd Hr Ha Hb Hw. eapply inv_registry; try done; [rewrite Hr|rewrite Ha]; apply Hw.
Qed.

Lemma quiet_frame f :
  (forall w, w_db (f w) = w_db w /\ w_now (f w) = w_now w /\ w_runtimes (f w) = w_runtimes w
             /\ w_attachments (f w) = w_attachments w /\ w_buffers (f w) = w_buffers w) -> quiet f.
Proof.
  intros H w Hw. destruct (H w) as (Hd & Hn & Hr & Ha & Hb). split_and!; try done. by eapply inv_frame.
Qed.

Lemma quiet_comp f g : quiet f -> quiet g -> quiet (fun w => f (g w)).
Proof.
  intros Hf Hg w Hw. destruct (Hg w Hw) as (? & ? & HI). destruct (Hf _ HI) as (? & ? & ?).
  split_and!; congruence || done.
Qed.

Lemma quiet_abort h : quiet (abort h).
Proof. apply quiet_frame. intros w. by destruct h. Qed.

Lemma quiet_drop_live l : quiet (drop_live l).
Proof. apply quiet_frame. intros w. destruct l as [[? ? ? [] [] [] ? ?]|]; done. Qed.

(** Updating one registry entry with a right one. *)
Lemma inv_insert_runtime w k e :
  inv w -> entry_ok (sessions w) k e -> inv (upd_runtimes <[k := e]> w).
Proof.
  intros Hw He. apply (inv_registry w); [done|done| |apply (inv_attached w Hw)|done].
  cbn. apply map_Forall_insert_2; [done|apply Hw].
Qed.

Lemma quiet_delete_runtime id : quiet (upd_runtimes (delete id)).
Proof.
  intros w Hw. split_and!; try done.
  apply (inv_registry w); [done|done| |apply (inv_attached w Hw)|done].
  cbn. apply map_Forall_delete, Hw.
Qed.

Lemma quiet_drop_attachments id : quiet (drop_attachments id).
Proof.
  intros w Hw. split_and!; try done.
  apply (inv_registry w); [done|done|apply (inv_runtimes w Hw)| |done].
  cbn. intros k a [Ha _]%map_lookup_filter_Some. apply (inv_attached w Hw _ _ Ha).
Qed.

Lemma quiet_delete_attachment id : quiet (upd_attachments (delete id)).
Proof.
  intros w Hw. split_and!; try done.
  apply (inv_registry w); [done|done|apply (inv_runtimes w Hw)| |done].
  cbn. apply map_Forall_delete, Hw.
Qed.

Lemma quiet_push_frame buf frame : quiet (push_frame buf frame).
Proof.
  intros w Hw. split_and!; try done. destruct Hw. split; try done. cbn.
  intros k b. rewrite lookup_alter. case_decide as Hk; [|apply inv_buffers0].
  subst k. intros Hb. destruct (w_buffers w !! buf) as [b0|] eqn:E0; [|done].
  injection Hb as <-. destruct (inv_buffers0 _ _ E0) as [Hc Hn].
  destruct (push_frame_count b0 frame) as [Hn' Hc']. rewrite Hc in Hn'.
  split; [congruence|]. exact Hn'.
Qed.

Lemma inv_new_fanout w : inv w ->
  w_db (new_fanout w).2 = w_db w /\ w_now (new_fanout w).2 = w_now w /\ inv (new_fanout w).2.
Proof.
  intros Hw. split_and!; try done. destruct Hw. split; try done. cbn.
  apply map_Forall_insert_2; [|done]. split; [done|]. vm_compute. congruence.
Qed.

(** Changing the live runtime and the status of an entry together. *)
Lemma entry_ok_live rows id e live s :
  entry_ok rows id e -> (is_Some live <-> s = RtLive) ->
  entry_ok rows id (mkEntry (set_rt_status s (re_snapshot e)) live (re_next_seq e)).
Proof. intros [] Hs. split; done. Qed.

Lemma entry_ok_swap rows id snap live live' next :
  entry_ok rows id (mkEntry snap (Some live) next) ->
  entry_ok rows id (mkEntry snap (Some live') next).
Proof. intros [? Hl ? ? ?]. split; try done. cbn in *. rewrite <- Hl. split; eauto. Qed.

Lemma quiet_end_entry id : quiet (end_entry id).
Proof.
  intros w Hw. unfold end_entry. destruct (w_runtimes w !! id) as [e|] eqn:E; [|done].
  match goal with |- context [drop_live ?l ?u] =>
    destruct (quiet_drop_live l u) as (Hd & Hn & HI) end; [|by rewrite Hd, Hn].
  apply inv_insert_runtime; [done|].
  apply entry_ok_live; [apply (inv_runtimes w Hw _ _ E)|]. split; [by intros []|done].
Qed.

Lemma inv_install_live id l w : inv w ->
  w_db (install_live id l w).2 = w_db w /\ w_now (install_live id l w).2 = w_now w
  /\ inv (install_live id l w).2.
Proof.
  intros Hw. unfold install_live. destruct (w_runtimes w !! id) as [e|] eqn:E; [|done]. cbn [snd].
  match goal with |- context [drop_live ?l ?u] =>
    destruct (quiet_drop_live l u) as (Hd & Hn & HI) end; [|by rewrite Hd, Hn].
  apply inv_insert_runtime; [done|].
  apply entry_ok_live; [apply (inv_runtimes w Hw _ _ E)|]. split; eauto.
Qed.

Lemma inv_cancel_pending_close id w : inv w ->
  w_db (cancel_pending_close id w).2 = w_db w /\ w_now (cancel_pending_close id w).2 = w_now w
  /\ inv (cancel_pending_close id w).2.
Proof.
  intros Hw. unfold cancel_pending_close.
  destruct (w_runtimes w !! id) as [[snap [live|] next]|] eqn:E; try done.
  destruct (lr_detach_close live) as [d|]; [|done]. cbn [snd].
  match goal with |- context [abort ?l ?u] =>
    destruct (quiet_abort l u) as (Hd & Hn & HI) end; [|by rewrite Hd, Hn].
  apply inv_insert_runtime; [done|]. eapply entry_ok_swap, (inv_runtimes w Hw _ _ E).
Qed.

Lemma inv_install_detach_close id info h w : inv w ->
  w_db (install_detach_close id info h w).2 = w_db w
  /\ w_now (install_detach_close id info h w).2 = w_now w
  /\ inv (install_detach_close id info h w).2.
Proof.
  intros Hw. unfold install_detach_close.
  destruct (w_runtimes w !! id) as [[snap [live|] next]|] eqn:E; try (by apply quiet_abort).
  destruct (lr_detach_close live) as [d|]; [by apply quiet_abort|]. cbn [snd].
  split_and!; try done.
  apply inv_insert_runtime; [done|]. eapply entry_ok_swap, (inv_runtimes w Hw _ _ E).
Qed.

Lemma inv_resize_entry id cols rows w : inv w -> dim_ok cols -> dim_ok rows ->
  w_db (resize_entry id cols rows w).2 = w_db w
  /\ w_now (resize_entry id cols rows w).2 = w_now w /\ inv (resize_entry id cols rows w).2.
Proof.
  intros Hw Hc Hr. unfold resize_entry. destruct (w_runtimes w !! id) as [e|] eqn:E; [|done].
  cbn [snd]. split_and!; try done. apply inv_insert_runtime; [done|].
  destruct (inv_runtimes w Hw _ _ E). split; done.
Qed.

Lemma inv_register_starting s w :
  inv w -> (exists s', sessions w !! ts_id s = Some s' /\ session_grows s s') ->
  dim_ok (ts_cols s) -> dim_ok (ts_rows s) ->
  w_db (register_starting s w).2 = w_db w /\ w_now (register_starting s w).2 = w_now w
  /\ inv (register_starting s w).2.
Proof.
  intros Hw Hs Hc Hr. unfold register_starting, new_counter, fresh. cbn [snd].
  split_and!; try done. apply inv_insert_runtime; [by apply (inv_frame w)|].
  split; try done; cbn; [split; [by intros []|done]|].
  destruct Hs as (s' & Hs & []). exists s'. split_and!; congruence.
Qed.

(** *** The handlers *)

Lemma wp_get_owned id owner w0 (Q : result TerminalSessionManagerError TerminalSession -> World DB B R -> Prop) :
  (forall w e, guar w0 w -> Q (Err e) w) ->
  (forall w s, inv w -> guar w0 w -> sessions w !! id = Some s -> ts_owner_id s = owner ->
     ts_id s = id -> Q (Ok s) w) ->
  WP (get_owned id owner) w0 Q.
Proof.
  intros Herr Hok. apply wp_try, wp_st_get; [done|]. intros w Hw Hg. cbn.
  destruct (sessions w !! id) as [s|] eqn:E; cbn; [|by apply Herr].
  case_decide as Ho; cbn; [|by apply Herr]. apply Hok; try done.
  by apply (law_session_key (w_db w)); [apply Hw|].
Qed.

Lemma wp_get_session_attachment id sid w0 (Q : result TerminalSessionManagerError TerminalSessionAttachment -> World DB B R -> Prop) :
  (forall w r, guar w0 w -> Q r w) -> WP (get_session_attachment id sid) w0 Q.
Proof.
  intros HQ. apply wp_try, wp_st_get_attachment; [auto|]. intros w Hw Hg. by apply HQ.
Qed.

Lemma wp_utc_now w0 (Q : Z -> World DB B R -> Prop) :
  (forall w t, guar w0 w -> Q t w) -> WP utc_now w0 Q.
Proof. intros HQ. apply wp_read. auto. Qed.

Lemma wp_spawn t w0 (Q : nat -> World DB B R -> Prop) :
  (forall w h, guar w0 w -> Q h w) -> WP (act (spawn t)) w0 Q.
Proof.
  intros HQ. apply wp_quiet. intros w Hw Hg. split_and!; try done; [by apply (inv_frame w)|].
  by apply HQ.
Qed.

Lemma wp_new_counter v w0 (Q : nat -> World DB B R -> Prop) :
  (forall w h, guar w0 w -> Q h w) -> WP (act (new_counter v)) w0 Q.
Proof.
  intros HQ. apply wp_quiet. intros w Hw Hg. split_and!; try done; [by apply (inv_frame w)|].
  by apply HQ.
Qed.

Lemma wp_remove_runtime id w0 (Q : option RuntimeEntry -> World DB B R -> Prop) :
  (forall w e, guar w0 w -> Q e w) -> WP (act (remove_runtime id)) w0 Q.
Proof.
  intros HQ. apply wp_quiet. intros w Hw Hg. destruct (quiet_delete_runtime id w Hw) as (? & ? & ?).
  split_and!; try done. by apply HQ.
Qed.

(** Calls on the bridge and on the recording writer touch nothing the invariant reads. *)
Lemma quiet_set_pty (g : World DB B R -> B) : quiet (fun w => set_pty (g w) w).
Proof. by apply quiet_frame. Qed.

Lemma quiet_record_output wr seq bytes : quiet (record_output wr seq bytes).
Proof. apply quiet_frame. intros w. by destruct wr. Qed.

Lemma quiet_record_marker wr k seq pl : quiet (record_marker wr k seq pl).
Proof. apply quiet_frame. intros w. by destruct wr. Qed.

Lemma quiet_record_shutdown wr seq : quiet (record_shutdown wr seq).
Proof. apply quiet_frame. intros w. by destruct wr. Qed.

Lemma quiet_send_frame ch f : quiet (send_frame ch f).
Proof. by apply quiet_frame. Qed.

Lemma quiet_id : quiet (fun w => w).
Proof. by apply quiet_frame. Qed.

Lemma quiet_upd_counters g : quiet (upd_counters g).
Proof. by apply quiet_frame. Qed.

#[local] Hint Resolve quiet_set_pty quiet_record_output quiet_record_marker quiet_record_shutdown
  quiet_send_frame quiet_id quiet_upd_counters quiet_push_frame quiet_drop_live quiet_end_entry
  quiet_drop_attachments quiet_delete_attachment : relay.

(** Chain the guarantees collected along a handler. *)
Ltac guar_trans :=
  solve [repeat first [eassumption | (etransitivity; [eassumption|])]].

Lemma wp_shutdown_removed e w0 (Q : unit -> World DB B R -> Prop) :
  (forall w, guar w0 w -> Q tt w) -> WP (shutdown_removed e) w0 Q.
Proof.
  intros HQ. destruct e as [e|]; [|by apply HQ]. cbn [shutdown_removed]. unfold shutdown_runtime.
  destruct (re_live e) as [live|]; [|by apply HQ].
  apply wp_bind, wp_pure_act; [auto with relay|]. intros w1 H1.
  apply wp_bind, wp_pure_act; [auto with relay|]. intros w2 H2.
  apply wp_bind, wp_read. intros w3 _ H3.
  apply wp_bind, wp_pure_act; [auto with relay|]. intros w4 H4.
  apply wp_pure_act; [auto with relay|]. intros w5 H5. apply HQ. guar_trans.
Qed.

(** One step of a handler whose result nothing depends on. *)
Ltac wp_step :=
  match goal with
  | |- wp _ _ (Ret _) _ _ => exact Logic.I
  | |- wp _ _ (try_bind (Ret _) _) _ _ => unfold try_bind at 1; cbn [bind ok_or]
  | |- wp _ _ (bind (Ret _) _) _ _ => cbn [bind]
  | |- wp _ _ (try_bind (try_bind _ _) _) _ _ => apply wp_try
  | |- wp _ _ (try_bind (bind _ _) _) _ _ => apply wp_try
  | |- wp _ _ (try_bind (repo (st_set_status _ _ _)) _) _ _ =>
      apply wp_try, wp_st_set_status; [split; by eauto|intros ? [?|?] ?]
  | |- wp _ _ (try_bind (repo (st_create_event _)) _) _ _ =>
      apply wp_try, wp_st_create_event; intros ? [?|?] ?
  | |- wp _ _ (try_bind (repo (st_mark_attachment_detached _ _ _)) _) _ _ =>
      apply wp_try, wp_st_mark_detached; intros ? [?|?] ?
  | |- wp _ _ (try_bind (get_session_attachment _ _) _) _ _ =>
      apply wp_try, wp_get_session_attachment; intros ? [?|?] ?
  | |- wp _ _ (try_bind (get_owned _ _) _) _ _ =>
      apply wp_try, wp_get_owned; [intros ? ? ?|intros ? ? ? ? ? ? ?]
  | |- wp _ _ (try_bind (act (fun w => (_, w))) _) _ _ =>
      apply wp_try, wp_read; intros ? ? ?
  | |- wp _ _ (bind (repo (st_set_status _ _ _)) _) _ _ =>
      apply wp_bind, wp_st_set_status; [split; by eauto|intros ? ? ?]
  | |- wp _ _ (bind (repo (st_create_event _)) _) _ _ =>
      apply wp_bind, wp_st_create_event; intros ? ? ?
  | |- wp _ _ (bind utc_now _) _ _ => apply wp_bind, wp_utc_now; intros ? ? ?
  | |- wp _ _ (bind (pure_act _) _) _ _ =>
      apply wp_bind, wp_pure_act; [by auto with relay|intros ? ?]
  | |- wp _ _ (pure_act _) _ _ => apply wp_pure_act; [by auto with relay|done]
  | |- wp _ _ (bind (act (remove_runtime _)) _) _ _ =>
      apply wp_bind, wp_remove_runtime; intros ? ? ?
  | |- wp _ _ (bind (shutdown_removed _) _) _ _ =>
      apply wp_bind, wp_shutdown_removed; intros ? ?
  | |- wp _ _ (bind (act (spawn _)) _) _ _ => apply wp_bind, wp_spawn; intros ? ? ?
  | |- wp _ _ (bind (act (new_counter _)) _) _ _ => apply wp_bind, wp_new_counter; intros ? ? ?
  | |- wp _ _ (bind (act (fun w => (_, w))) _) _ _ => apply wp_bind, wp_read; intros ? ? ?
  | |- wp _ _ (if decide _ then _ else _) _ _ => case_decide
  | |- wp _ _ (if ?b then _ else _) _ _ => destruct b
  end.

Abbreviation safe_prog p := (forall w0, WP p w0 (fun _ _ => True)).

Lemma validate_dim_ok f z : validate_dim f z = Ok tt -> dim_ok z.
Proof.
  unfold validate_dim, dim_ok, MIN_DIM, MAX_DIM. intros H. case_match; [|done]. bool_props. lia.
Qed.

Lemma safe_create_session req : safe_prog (create_session (DB := DB) (B := B) (R := R) req).
Proof.
  intros w0. unfold create_session. wp_step.
  destruct (validate_dim "cols" _) as [[]|] eqn:Ec; [|done]. apply validate_dim_ok in Ec. wp_step.
  destruct (validate_dim "rows" _) as [[]|] eqn:Er; [|done]. apply validate_dim_ok in Er.
  apply wp_try, wp_st_create; [done..|]. intros w1 s Hw1 Hg1 Hs.
  wp_step; [|done].
  apply wp_bind, wp_quiet. intros w2 Hw2 Hg2.
  pose proof (inv_sessions w1 Hw1 _ _ Hs) as [Hc Hr _].
  assert (guar w1 w2) as [Hgs _ _ _] by guar_trans.
  destruct (inv_register_starting s w2 Hw2 (Hgs _ _ Hs) Hc Hr) as (? & ? & ?). done.
Qed.

Lemma safe_close_session id owner : safe_prog (close_session (DB := DB) (B := B) (R := R) id owner).
Proof. intros w0. unfold close_session. repeat (wp_step; try done). Qed.

Lemma safe_record_pty_start_failed owner id c :
  safe_prog (record_pty_start_failed (DB := DB) (B := B) (R := R) owner id c).
Proof. intros w0. unfold record_pty_start_failed. repeat (wp_step; try done). Qed.

(** Sequencing programs that are safe from every state. *)
Lemma safe_bind {A C} (p : prog (World DB B R) A) (k : A -> prog (World DB B R) C) :
  safe_prog p -> (forall a, safe_prog (k a)) -> safe_prog (bind p k).
Proof.
  intros Hp Hk w0. apply wp_bind. eapply wp_mono; [|apply Hp]. intros a w _. apply Hk.
Qed.

Lemma safe_try {E A C} (p : prog (World DB B R) (result E A))
  (k : A -> prog (World DB B R) (result E C)) :
  safe_prog p -> (forall a, safe_prog (k a)) -> safe_prog (try_bind p k).
Proof. intros Hp Hk. apply safe_bind; [done|]. intros [a|e]; [apply Hk|done]. Qed.

Lemma safe_act {A} (f : World DB B R -> A * World DB B R) :
  (forall w, inv w -> w_db (f w).2 = w_db w /\ w_now (f w).2 = w_now w /\ inv (f w).2) ->
  safe_prog (act f).
Proof. intros Hf w0. apply wp_quiet. intros w Hw _. destruct (Hf w Hw) as (? & ? & ?). done. Qed.

Lemma safe_spawn_writer id :
  safe_prog (act (spawn_writer (DB := DB) (B := B) (R := R) cfg id)).
Proof.
  apply safe_act. intros w Hw. unfold spawn_writer. case_match; [|done].
  destruct (rec_writer_for id (w_rec w)). split_and!; try done. by apply (inv_frame w).
Qed.

Lemma safe_start_live_pty owner id start :
  safe_prog (start_live_pty (DB := DB) (B := B) (R := R) cfg owner id start).
Proof.
  intros w0. unfold start_live_pty. do 2 (wp_step; try done).
  apply safe_bind; [apply safe_act, inv_new_fanout|]. intros fanout.
  apply safe_bind; [by apply safe_act|]. intros [c|] w1; [|done]. do 2 wp_step.
  apply safe_bind; [apply safe_spawn_writer|]. intros wr ?. do 3 (wp_step; try done).
  apply safe_bind; [apply safe_act, inv_install_live|]. intros [] ?; [done|].
  repeat (wp_step; try done).
Qed.

(** Registering an attachment of a session whose rows are there. *)
Lemma inv_insert_attachment w k a :
  inv w -> attached_ok (sessions w) (attachments w) k a -> inv (upd_attachments <[k := a]> w).
Proof.
  intros Hw Ha. apply (inv_registry w); [done|done|apply (inv_runtimes w Hw)| |done].
  cbn. apply map_Forall_insert_2; [done|apply Hw].
Qed.

Lemma attached_ok_later w1 w2 w3 s a at_ ci ra :
  guar w1 w3 -> guar w2 w3 ->
  sessions w1 !! ts_id s = Some s -> attachments w2 !! ta_id a = Some a ->
  ta_session_id a = ts_id s ->
  attached_ok (sessions w3) (attachments w3) (ta_id a)
    (mkAttachmentRuntime (ta_id a) (ts_id s) (ts_owner_id s) at_ ci ra).
Proof.
  intros [Hgs _ _ _] [_ Hga _ _] Hs Ha Hsid. split; [done| |].
  - destruct (Hgs _ _ Hs) as (s' & Hs' & []). by exists s'.
  - destruct (Hga _ _ Ha) as (a' & Ha' & []). exists a'. split; [done|]. cbn. congruence.
Qed.

Lemma safe_attach_session req : safe_prog (attach_session (DB := DB) (B := B) (R := R) req).
Proof.
  intros w0. unfold attach_session.
  apply wp_try, wp_get_owned; [done|]. intros w1 s _ _ Hrow _ Hid. rewrite <- Hid in Hrow.
  wp_step; [done|]. apply wp_bind, wp_quiet. intros w2 Hw2 Hg2.
  destruct (inv_cancel_pending_close (ts_id s) w2 Hw2) as (? & ? & ?).
  split_and!; try done. generalize (cancel_pending_close (ts_id s) w2). intros [was w3] Hg3.
  apply wp_try, wp_st_create_attachment; [done|]. intros w4 a Hw4 Hg4 Ha Hsid.
  cbn [ca_session_id fst snd] in *.
  wp_step. wp_step; [|done].
  apply wp_try. apply (wp_mono _ _ _ _ (fun _ w' => guar w1 w' /\ guar w4 w')).
  { intros [[]|e] w8 [Hg8 Hg8']; [|done]. apply wp_bind, wp_quiet. intros w9 Hw9 Hg9.
    split_and!; try done. apply inv_insert_attachment; [done|].
    apply (attached_ok_later w1 w4); try done; by transitivity w8. }
  destruct was; [|cbn; split; guar_trans].
  wp_step; [|cbn; split; guar_trans]. wp_step. cbn; split; guar_trans.
Qed.

Lemma safe_bridge_call {A} (f : World DB B R -> A * B) :
  safe_prog (act (fun w => let '(r, b) := f w in (r, set_pty b w))).
Proof.
  apply safe_act. intros w Hw. destruct (f w) as [r b]. split_and!; try done. by apply (inv_frame w).
Qed.

Lemma safe_write_pty_input owner id bytes :
  safe_prog (write_pty_input (DB := DB) (B := B) (R := R) owner id bytes).
Proof.
  apply safe_try; [by apply safe_act|]. intros h.
  apply safe_bind; [apply (safe_bridge_call (fun w => pty_write_input h bytes (w_pty w)))|done].
Qed.

Lemma safe_apply_pty_resize owner id cols rows :
  safe_prog (apply_pty_resize (DB := DB) (B := B) (R := R) owner id cols rows).
Proof.
  apply safe_try; [by apply safe_act|]. intros [h|]; [|done].
  apply safe_bind; [apply (safe_bridge_call (fun w => pty_resize h cols rows (w_pty w)))|done].
Qed.

Lemma safe_detach_session owner id aid seq :
  safe_prog (detach_session (DB := DB) (B := B) (R := R) owner id aid seq).
Proof. intros w0. unfold detach_session. repeat (wp_step; try done). Qed.

Lemma safe_schedule_detach_close id owner :
  safe_prog (schedule_detach_close (DB := DB) (B := B) (R := R) cfg id owner).
Proof.
  intros w0. unfold schedule_detach_close. do 3 wp_step.
  apply safe_act. intros w' Hw'. by apply inv_install_detach_close.
Qed.

Lemma safe_detach_attachment owner id aid seq :
  safe_prog (detach_attachment (DB := DB) (B := B) (R := R) cfg owner id aid seq).
Proof.
  apply safe_try; [apply safe_detach_session|]. intros d.
  apply safe_bind.
  { destruct (do_already_detached d); [done|]. intros w0. repeat (wp_step; try done). }
  intros b. apply safe_bind; [|done]. destruct b; [apply safe_schedule_detach_close|done].
Qed.

Lemma safe_expire_detach_close id owner :
  safe_prog (expire_detach_close (DB := DB) (B := B) (R := R) id owner).
Proof.
  apply safe_bind; [by apply safe_act|]. intros []; [|done].
  by apply safe_bind; [apply safe_close_session|].
Qed.

Lemma safe_resize_session owner id cols rows :
  safe_prog (resize_session (DB := DB) (B := B) (R := R) owner id cols rows).
Proof.
  intros w0. unfold resize_session. wp_step.
  destruct (validate_dim "cols" _) as [[]|] eqn:Ec; [|done]. apply validate_dim_ok in Ec. wp_step.
  destruct (validate_dim "rows" _) as [[]|] eqn:Er; [|done]. apply validate_dim_ok in Er.
  do 2 (wp_step; try done).
  apply safe_bind; [apply safe_act; intros w' Hw'; by apply inv_resize_entry|].
  intros [[wr latest]|] w1; repeat (wp_step; try done).
Qed.

Lemma safe_pty_teardown args reason :
  safe_prog (pty_teardown (DB := DB) (B := B) (R := R) args reason).
Proof.
  intros w0. unfold pty_teardown. apply wp_bind, wp_st_get; [done|]. intros w1 _ _.
  destruct (sessions w1 !! _) as [s|]; [|done]. repeat (wp_step; try done).
Qed.

Lemma safe_forward_output args bytes :
  safe_prog (forward_output (DB := DB) (B := B) (R := R) args bytes).
Proof.
  apply safe_bind; [apply safe_act; intros w Hw; split_and!; try done; by apply (inv_frame w)|].
  intros seq w0. cbv zeta. repeat wp_step.
Qed.

Lemma safe_forward_pty_output args evts reason :
  safe_prog (forward_pty_output (DB := DB) (B := B) (R := R) args evts reason).
Proof.
  revert reason. induction evts as [|[bytes|code|r] evts IH]; intros reason;
    cbn [forward_pty_output]; try done; [apply safe_pty_teardown|].
  by apply safe_bind; [apply safe_forward_output|].
Qed.

(** *** The scheduler *)

(** A call of the manager's API. *)
Inductive Request :=
| ReqCreate (req : CreateTerminalSessionRequest)
| ReqStartPty (owner : UserId) (id : TerminalSessionId) (start : SshPtyStart)
| ReqStartFailed (owner : UserId) (id : TerminalSessionId) (category : rstr)
| ReqAttach (req : AttachSessionRequest)
| ReqDetach (owner : UserId) (id : TerminalSessionId) (aid : TerminalSessionAttachmentId)
    (last_seen_seq : option Z)
| ReqInput (owner : UserId) (id : TerminalSessionId) (bytes : list Byte.byte)
| ReqPtyResize (owner : UserId) (id : TerminalSessionId) (cols rows : Z)
| ReqResize (owner : UserId) (id : TerminalSessionId) (cols rows : Z)
| ReqClose (id : TerminalSessionId) (owner : UserId).

Definition ignore {W A} (p : prog W A) : prog W unit := bind p (fun _ => Ret tt).

(** The call, keeping of its answer only whether it succeeded. *)
Definition answer {W E A} (p : prog W (result E A)) : prog W (result E unit) :=
  try_bind p (fun _ => Ret (Ok tt)).

Definition respond (r : Request) : prog (World DB B R) (result TerminalSessionManagerError unit) :=
  match r with
  | ReqCreate req => answer (create_session req)
  | ReqStartPty owner id start => answer (start_live_pty cfg owner id start)
  | ReqStartFailed owner id c => answer (record_pty_start_failed owner id c)
  | ReqAttach req => answer (attach_session req)
  | ReqDetach owner id aid seq => answer (detach_attachment cfg owner id aid seq)
  | ReqInput owner id bytes => answer (write_pty_input owner id bytes)
  | ReqPtyResize owner id cols rows => answer (apply_pty_resize owner id cols rows)
  | ReqResize owner id cols rows => answer (resize_session owner id cols rows)
  | ReqClose id owner => answer (close_session id owner)
  end.

(** What may start: a request at any time; a spawned forwarder, with whatever its PTY will
    deliver; a spawned detach timer, at any time; and the environment, which moves the clock
    forward, changes the bridges at will, and may change anything of the database that no client
    sees (the next failures, the clock of the server, the next identifier). *)
Inductive starts : World DB B R -> World DB B R -> prog (World DB B R) unit -> Prop :=
| starts_request w r : starts w w (ignore (respond r))
| starts_forwarder w h args evts :
    w_tasks w !! h = Some (TForward args) ->
    starts w (upd_tasks (delete h) w) (forward_pty_output args evts None)
| starts_timer w h id owner :
    w_tasks w !! h = Some (TDetachClose id owner) ->
    starts w (upd_tasks (delete h) w) (expire_detach_close id owner)
| starts_environment w d t b :
    store_eq (w_db w) d -> st_wf d -> w_now w <= t ->
    starts w (set_pty b (set_now t (set_db d w))) (Ret tt).

Lemma safe_ignore {A} (p : prog (World DB B R) A) : safe_prog p -> safe_prog (ignore p).
Proof. intros Hp. by apply safe_bind. Qed.

Lemma safe_respond r : safe_prog (respond r).
Proof.
  destruct r; (apply safe_try; [|done]).
  - apply safe_create_session.
  - apply safe_start_live_pty.
  - apply safe_record_pty_start_failed.
  - apply safe_attach_session.
  - apply safe_detach_attachment.
  - apply safe_write_pty_input.
  - apply safe_apply_pty_resize.
  - apply safe_resize_session.
  - apply safe_close_session.
Qed.

Lemma safe_starts w w' p :
  starts w w' p -> inv w -> inv w' /\ guar w w' /\ WP p w' (fun _ _ => True).
Proof.
  intros Hs Hw. destruct Hs as [w r|w h args evts|w h id owner|w d t b Heq Hwf Ht].
  - split; [done|]. split; [done|apply safe_ignore, safe_respond].
  - split; [by apply (inv_frame w)|]. split; [by apply guar_same_db|apply safe_forward_pty_output].
  - split; [by apply (inv_frame w)|]. split; [by apply guar_same_db|apply safe_expire_detach_close].
  - destruct (inv_store_eq w d Hw Hwf Heq) as [HI [? ? ? _]].
    split; [by apply (inv_frame (set_db d w))|]. by split; [split|].
Qed.

(** The state at boot: a database and empty registries. *)
Definition boot (d : DB) (t : Z) (b : B) (r : R) : World DB B R :=
  mkWorld d empty empty empty empty empty empty 0 t b r.

Lemma inv_boot d t b r :
  st_wf d -> map_Forall (fun _ => session_ok) (sv_sessions d) ->
  map_Forall (fun _ a => is_Some (sv_sessions d !! ta_session_id a)) (sv_attachments d) ->
  Forall (fun e => is_Some (sv_sessions d !! se_session_id e)) (sv_events d) ->
  inv (boot d t b r).
Proof. intros. split; try done; apply map_Forall_empty. Qed.

(** A task that runs alone leads to a reachable state. *)
Lemma reachable_run w0 w w' p :
  reachable starts w0 (mkPool w []) -> starts w w' p ->
  reachable starts w0 (mkPool (run p w').2 []).
Proof.
  intros Hr Hs. eapply rtc_r; [|apply (pstep_drop _ _ [] (Ret tt) [])].
  assert (Hp : reachable starts w0 (mkPool w' [p])) by (eapply rtc_r; [done|by apply (pstep_start _ w w' [])]).
  clear Hr Hs. revert w' Hp. induction p as [[]|X f k IH]; intros w' Hp; [done|].
  cbn. destruct (f w') as [x w''] eqn:Ef. apply IH.
  eapply rtc_r; [done|]. pose proof (pstep_action starts X f k w' [] []) as Hst.
  by rewrite Ef in Hst.
Qed.

(** C2: in every state that any interleaving of API calls, forwarders, detach timers and
    environment steps reaches, with tasks cancelled at any await and repositories failing at any
    call: stored dimensions are in range and a session has a closing time exactly when it is
    closed; every attachment, event, registry entry and registered attachment refers to a stored
    session, a registry entry and a registered attachment carry the owner of that session's row,
    and an entry is [Live] exactly when it holds a PTY; replay rings respect their frame cap.
    And since boot no row has been deleted, no owner, profile or dimension of a row changed, no
    detach time of an attachment been overwritten, and no event lost or reordered. *)
Theorem orchestrator_safety w0 c :
  inv w0 -> reachable starts w0 c -> inv (p_world c) /\ guar w0 (p_world c).
Proof.
  intros Hw Hr. destruct (pool_sound inv guar starts w0 c safe_starts Hw Hr) as (HI & HG & _).
  done.
Qed.

End safety.
