(* ===== verification/ManagerSpec.v ===== *)
(** * What each call of the orchestrator does

    The calls of [Manager.v] run without interference: who may do what, the effect of each call on
    the rows, on the event log and on the registries, the life of the detach window, and the path
    of output from the PTY to a client that reconnects. *)

From S2P Require Import Prelude Core Replay SessionStore Prog Manager ManagerInv.
Import TerminalSessionManager.

Section spec.
Context {DB B R : Type} `{!SessionStore DB, !SessionStoreLaws DB, !PtyBridge B, !RecordingSink R}.
Context (cfg : ManagerConfig).
Implicit Types w : World DB B R.

Abbreviation sessions w := (sv_sessions (w_db w)).
Abbreviation attachments w := (sv_attachments (w_db w)).
Abbreviation events w := (sv_events (w_db w)).

(** ** Running a call alone *)

(** [seq p w Q]: [p], run alone from [w], ends with [Q]. *)
Definition seq {A} (p : prog (World DB B R) A) w (Q : A -> World DB B R -> Prop) : Prop :=
  Q (run p w).1 (run p w).2.

Lemma seq_ret {A} (a : A) w (Q : A -> World DB B R -> Prop) : Q a w -> seq (Ret a) w Q.
Proof. done. Qed.

Lemma seq_bind {A C} (p : prog (World DB B R) A) (k : A -> prog _ C) w Q :
  seq p w (fun a w' => seq (k a) w' Q) -> seq (bind p k) w Q.
Proof. unfold seq. rewrite run_bind. by destruct (run p w). Qed.

Lemma seq_try {E A C} (p : prog (World DB B R) (result E A)) (k : A -> prog _ (result E C)) w
  (Q : result E C -> World DB B R -> Prop) :
  seq p w (fun r w' => match r with Ok a => seq (k a) w' Q | Err e => Q (Err e) w' end) ->
  seq (try_bind p k) w Q.
Proof. unfold seq. rewrite run_try. by destruct (run p w) as [[] ?]. Qed.

Lemma seq_act {A} (f : World DB B R -> A * World DB B R) w (Q : A -> World DB B R -> Prop) :
  Q (f w).1 (f w).2 -> seq (act f) w Q.
Proof. unfold seq. by rewrite run_act. Qed.

Lemma seq_mono {A} (p : prog (World DB B R) A) w (Q Q' : A -> World DB B R -> Prop) :
  (forall a w', Q a w' -> Q' a w') -> seq p w Q -> seq p w Q'.
Proof. intros H. apply H. Qed.

(** From [seq] to the equation of the run. *)
Lemma seq_exists1 {A X} (p : prog (World DB B R) A) w (f : X -> A) (P : X -> World DB B R -> Prop) :
  seq p w (fun r w' => exists x, r = f x /\ P x w') -> exists x w', run p w = (f x, w') /\ P x w'.
Proof. unfold seq. destruct (run p w) as [r w']. cbn [fst snd]. intros (x & -> & ?). by exists x, w'. Qed.

Lemma seq_exists2 {A X Y} (p : prog (World DB B R) A) w (f : X -> Y -> A)
  (P : X -> Y -> World DB B R -> Prop) :
  seq p w (fun r w' => exists x y, r = f x y /\ P x y w') ->
  exists x y w', run p w = (f x y, w') /\ P x y w'.
Proof. unfold seq. destruct (run p w) as [r w']. cbn [fst snd]. intros (x & y & -> & ?).
  by exists x, y, w'. Qed.

Lemma seq_repo {A} (f : DB -> result RepositoryError A * DB) w Q :
  Q (map_err Repository (f (w_db w)).1) (set_db (f (w_db w)).2 w) -> seq (repo f) w Q.
Proof. unfold seq, repo. rewrite run_act. by destruct (f (w_db w)). Qed.

(** A store that keeps the schema and answers every legitimate request. *)
Record up (d : DB) : Prop := { up_wf : st_wf d; up_healthy : st_healthy d }.

Lemma seq_get_up id w (Q : result TerminalSessionManagerError (option TerminalSession) -> World DB B R -> Prop) :
  up (w_db w) ->
  (forall d, up d -> store_eq (w_db w) d -> Q (Ok (sessions w !! id)) (set_db d w)) ->
  seq (repo (st_get id)) w Q.
Proof.
  intros [Hwf Hh] HQ. apply seq_repo. pose proof (law_get id (w_db w) Hwf) as (Hl & Hwf' & Hh').
  destruct (st_get id (w_db w)) as [[o|e] d]; cbn [fst snd map_err] in *.
  - destruct Hl as [-> ?]. apply HQ; [split|]; auto.
  - destruct Hl as [_ Hno]. by destruct (Hno Hh).
Qed.

(** ** Ownership *)

(** The owner and the session a request names.  [ReqCreate] names no session;
    [record_pty_start_failed] is a step of session start-up, not a client's request. *)
Definition targets (r : Request) : option (UserId * TerminalSessionId) :=
  match r with
  | ReqCreate _ | ReqStartFailed _ _ _ => None
  | ReqStartPty owner id _ | ReqDetach owner id _ _ | ReqInput owner id _
  | ReqPtyResize owner id _ _ | ReqResize owner id _ _ | ReqClose id owner => Some (owner, id)
  | ReqAttach req => Some (aq_owner_id req, aq_session_id req)
  end.

Definition owned (rows : gmap Z TerminalSession) (id : TerminalSessionId) (owner : UserId) : Prop :=
  exists s, rows !! id = Some s /\ ts_owner_id s = owner.

(** The call failed and nobody can see that it was made. *)
Definition denied w {A} (r : result TerminalSessionManagerError A) w' : Prop :=
  exists e d, r = Err e /\ w' = set_db d w /\ store_eq (w_db w) d
    /\ (st_healthy (w_db w) -> e = NotFound \/ exists f m, e = InvalidDimensions f m).

Lemma set_db_id w : set_db (w_db w) w = w.
Proof. by destruct w. Qed.

Lemma seq_get_owned_denied id owner w :
  st_wf (w_db w) -> ~ owned (sessions w) id owner ->
  seq (get_owned id owner) w (denied w).
Proof.
  intros Hwf Hno. apply seq_try, seq_repo. pose proof (law_get id (w_db w) Hwf) as (Hl & _ & _).
  destruct (st_get id (w_db w)) as [[o|e] d]; cbn [fst snd map_err] in *.
  - destruct Hl as [-> Heq]. apply seq_ret. exists NotFound, d. split_and!; [|done|done|auto].
    destruct (sessions w !! id) as [s|] eqn:Es; [|done]. cbn.
    case_decide as Ho; [|done]. exfalso. apply Hno. by exists s.
  - destruct Hl as [Heq Hh]. exists (Repository e), d. split_and!; try done.
    intros H. by destruct (Hh H).
Qed.

Lemma seq_try_denied {A C} (p : prog (World DB B R) (result TerminalSessionManagerError A))
  (k : A -> prog _ (result TerminalSessionManagerError C)) w :
  seq p w (denied w) -> seq (try_bind p k) w (denied w).
Proof.
  intros Hp. apply seq_try. eapply seq_mono; [|exact Hp].
  intros r w' (e & d & -> & -> & ? & ?). exists e, d. done.
Qed.

Lemma seq_pure_denied {A C} e (k : A -> prog _ (result TerminalSessionManagerError C)) w :
  e = NotFound \/ (exists f m, e = InvalidDimensions f m) ->
  seq (try_bind (Ret (Err e)) k) w (denied w).
Proof. intros He. exists e, (w_db w). split_and!; try done. by rewrite set_db_id. Qed.

Lemma seq_read_denied {A C} (f : World DB B R -> result TerminalSessionManagerError A)
  (k : A -> prog _ (result TerminalSessionManagerError C)) w :
  f w = Err NotFound -> seq (try_bind (act (fun w => (f w, w))) k) w (denied w).
Proof.
  intros Hf. apply seq_try_denied, seq_act. cbn [fst snd]. rewrite Hf.
  exists NotFound, (w_db w). split_and!; try done; [by rewrite set_db_id|auto].
Qed.

Lemma registry_denied owner id w :
  inv w -> ~ owned (sessions w) id owner -> maybe_live_handle_for owner id w = Err NotFound.
Proof.
  intros Hw Hno. unfold maybe_live_handle_for.
  destruct (w_runtimes w !! id) as [e|] eqn:E; [|done]. case_decide as Ho; [|done].
  exfalso. apply Hno. destruct (inv_runtimes w Hw _ _ E) as [_ _ (s & Hs & Hso & _) _ _].
  exists s. split; congruence.
Qed.

(** C3: a request by someone who does not own the session it names fails, and fails without a
    trace: no row, no event, no registry entry, no attachment, no replay ring, no sequence
    counter, no task and no PTY is changed.  With a database that answers, the error is
    [NotFound], the one a session that does not exist gives (or the complaint about the
    dimensions, which are checked first). *)
Theorem foreign_request_denied (r : Request) owner id w :
  inv w -> targets r = Some (owner, id) -> ~ owned (sessions w) id owner ->
  exists e d, run (respond cfg r) w = (Err e, set_db d w) /\ store_eq (w_db w) d
    /\ (st_healthy (w_db w) -> e = NotFound \/ exists f m, e = InvalidDimensions f m).
Proof.
  intros Hw Ht Hno. pose proof (seq_get_owned_denied id owner w (inv_wf w Hw) Hno) as Hget.
  assert (Hd : seq (respond cfg r) w (denied w)).
  { destruct r as [| | |req| | | | |]; simplify_eq/=; apply seq_try_denied;
      try (by apply seq_try_denied); try (by do 2 apply seq_try_denied).
    - apply seq_read_denied. unfold live_handle_for. by rewrite registry_denied.
    - apply seq_read_denied. by apply registry_denied.
    - unfold resize_session, validate_dim.
      destruct (_ && _); [|apply seq_pure_denied; eauto]. apply seq_try, seq_ret.
      destruct (_ && _); [|apply seq_pure_denied; eauto]. apply seq_try, seq_ret.
      by apply seq_try_denied. }
  unfold seq in Hd. destruct (run (respond cfg r) w) as [res w'].
  destruct Hd as (e & d & Hres & Hw' & Heq & Hh). cbn in *. subst. eauto.
Qed.

(** ** Repository calls of a store that answers *)

Lemma seq_get_owned_up id owner s w Q :
  up (w_db w) -> sessions w !! id = Some s -> ts_owner_id s = owner ->
  (forall d, up d -> store_eq (w_db w) d -> Q (Ok s) (set_db d w)) ->
  seq (get_owned id owner) w Q.
Proof.
  intros Hup Hs Ho HQ. apply seq_try, seq_get_up; [done|]. intros d Hd Heq. apply seq_ret.
  rewrite Hs. cbn. rewrite decide_True by done. by apply HQ.
Qed.

Lemma seq_set_status_up id s status closed w Q :
  up (w_db w) -> sessions w !! id = Some s ->
  (forall d seen, up d -> sv_attachments d = attachments w -> sv_events d = events w ->
     sv_sessions d = <[id := with_status s status closed seen]> (sessions w) ->
     Q (Ok tt) (set_db d w)) ->
  seq (repo (st_set_status id status closed)) w Q.
Proof.
  intros [Hwf Hh] Hs HQ. apply seq_repo.
  pose proof (law_set_status id status closed (w_db w) Hwf) as (Hl & Hwf' & Hh').
  destruct (st_set_status id status closed (w_db w)) as [[[]|e] d]; cbn [fst snd map_err] in *.
  - destruct Hl as (s' & seen & Hs' & H1 & H2 & H3). simplify_eq.
    apply (HQ d seen); [split| | |]; auto.
  - destruct Hl as [_ Hno]. exfalso. apply Hno; [done|]. by exists s.
Qed.

(** The event that a request appends. *)
Definition event_of (c : CreateSessionEvent) (e : SessionEvent) : Prop :=
  se_session_id e = ce_session_id c /\ se_kind e = ce_kind c /\ se_payload e = ce_payload c.

Lemma seq_create_event_up c s w Q :
  up (w_db w) -> sessions w !! ce_session_id c = Some s ->
  (forall d e, up d -> sv_attachments d = attachments w -> sv_sessions d = sessions w ->
     sv_events d = events w ++ [e] -> event_of c e -> Q (Ok e) (set_db d w)) ->
  seq (repo (st_create_event c)) w Q.
Proof.
  intros [Hwf Hh] Hs HQ. apply seq_repo.
  pose proof (law_create_event c (w_db w) Hwf) as (Hl & Hwf' & Hh').
  destruct (st_create_event c (w_db w)) as [[ev|e] d]; cbn [fst snd map_err] in *.
  - destruct Hl as (_ & ? & ? & ? & ? & ? & ?). apply (HQ d ev); try done; split; auto.
  - destruct Hl as [_ Hno]. exfalso. apply Hno; [done|]. by exists s.
Qed.

Lemma seq_create_attachment_up c s w Q :
  up (w_db w) -> sessions w !! ca_session_id c = Some s ->
  (forall d a, up d -> attachments w !! ta_id a = None -> ta_session_id a = ca_session_id c ->
     ta_detached_at a = None -> ta_client_info a = ca_client_info c ->
     ta_remote_addr a = ca_remote_addr c -> ta_last_seen_seq a = None ->
     sv_attachments d = <[ta_id a := a]> (attachments w) -> sv_sessions d = sessions w ->
     sv_events d = events w -> Q (Ok a) (set_db d w)) ->
  seq (repo (st_create_attachment c)) w Q.
Proof.
  intros [Hwf Hh] Hs HQ. apply seq_repo.
  pose proof (law_create_attachment c (w_db w) Hwf) as (Hl & Hwf' & Hh').
  destruct (st_create_attachment c (w_db w)) as [[a|e] d]; cbn [fst snd map_err] in *.
  - destruct Hl as (? & _ & ? & ? & ? & ? & ? & ? & ? & ?). apply (HQ d a); try done; split; auto.
  - destruct Hl as [_ Hno]. exfalso. apply Hno; [done|]. by exists s.
Qed.

Lemma seq_get_session_attachment_up id sid a w Q :
  up (w_db w) -> attachments w !! id = Some a -> ta_session_id a = sid ->
  (forall d, up d -> store_eq (w_db w) d -> Q (Ok a) (set_db d w)) ->
  seq (get_session_attachment id sid) w Q.
Proof.
  intros [Hwf Hh] Ha Hsid HQ. apply seq_try, seq_repo.
  pose proof (law_get_attachment id (w_db w) Hwf) as (Hl & Hwf' & Hh').
  destruct (st_get_attachment id (w_db w)) as [[o|e] d]; cbn [fst snd map_err] in *.
  - destruct Hl as [-> Heq]. apply seq_ret. rewrite Ha. cbn. rewrite decide_True by done.
    apply HQ; [split|]; auto.
  - destruct Hl as [_ Hno]. by destruct (Hno Hh).
Qed.

Lemma seq_mark_detached_up id t seq_ a w Q :
  up (w_db w) -> attachments w !! id = Some a -> (forall n, seq_ = Some n -> 0 <= n) ->
  (forall d, up d -> sv_attachments d = <[id := with_detached a t seq_]> (attachments w) ->
     sv_sessions d = sessions w -> sv_events d = events w -> Q (Ok tt) (set_db d w)) ->
  seq (repo (st_mark_attachment_detached id t seq_)) w Q.
Proof.
  intros [Hwf Hh] Ha Hseq HQ. apply seq_repo.
  pose proof (law_mark_detached id t seq_ (w_db w) Hwf) as (Hl & Hwf' & Hh').
  destruct (st_mark_attachment_detached id t seq_ (w_db w)) as [[[]|e] d]; cbn [fst snd map_err] in *.
  - destruct Hl as (a' & Ha' & ? & ? & ?). simplify_eq. apply (HQ d); try done; split; auto.
  - destruct Hl as [_ Hno]. exfalso. apply Hno; [done|]. split; [by exists a|done].
Qed.

(** ** Closing *)

(** The world after the removed entry [e] is shut down: its PTY closed, its recording flushed at
    the last sequence number, its driver and its detach timer cancelled. *)
Definition shut (e : option RuntimeEntry) w : World DB B R :=
  match e ≫= re_live with
  | None => w
  | Some l =>
      abort (dc_handle <$> lr_detach_close l) (abort (lr_driver l)
        (record_shutdown (lr_recording l) (load (lr_last_seq l) w)
           (set_pty (pty_close (lr_handle l) (w_pty w)) w)))
  end.

Lemma seq_shutdown_removed e w (Q : unit -> World DB B R -> Prop) :
  Q tt (shut e w) -> seq (shutdown_removed e) w Q.
Proof. unfold shut. by destruct e as [[snap [l|] next]|]. Qed.

(** What shutting down an entry leaves alone. *)
Lemma shut_frame e w :
  w_db (shut e w) = w_db w /\ w_runtimes (shut e w) = w_runtimes w
  /\ w_attachments (shut e w) = w_attachments w /\ w_now (shut e w) = w_now w.
Proof.
  unfold shut. destruct (e ≫= re_live) as [[? ? ? ? [?|] [[? ?]|] [?|] ?]|]; done.
Qed.

Definition close_event (id : TerminalSessionId) : CreateSessionEvent :=
  mkCreateEvent id EvClosed (JObj [("reason"%string, JStr (lit "client_requested"))]).

Lemma seq_close_open id owner s w Q :
  up (w_db w) -> sessions w !! id = Some s -> ts_owner_id s = owner -> ts_status s <> Closed ->
  (forall d seen e, up d ->
     let row := with_status s Closed (Some (w_now w)) seen in
     sv_sessions d = <[id := row]> (sessions w) -> sv_attachments d = attachments w ->
     sv_events d = events w ++ [e] -> event_of (close_event id) e ->
     Q (Ok (mkCloseOut row false))
       (drop_attachments id (shut (w_runtimes w !! id) (upd_runtimes (delete id) (set_db d w))))) ->
  seq (close_session id owner) w Q.
Proof.
  intros Hup Hs Ho Hopen HQ.
  apply seq_try. apply (seq_get_owned_up id owner s); [done..|]. intros d1 Hd1 (E1 & E1' & E1'').
  rewrite decide_False by done. apply seq_bind, seq_act, seq_try. cbn [fst snd].
  apply (seq_set_status_up id s); [done|cbn; congruence|]. intros d2 seen Hd2 Ha2 He2 Hs2.
  apply seq_try. cbn [w_db set_db w_now] in *.
  apply (seq_create_event_up _ (with_status s Closed (Some (w_now w)) seen));
    [done|cbn; rewrite Hs2; apply lookup_insert_eq|]. intros d3 e Hd3 Ha3 Hs3 He3 Hev.
  apply seq_try. apply (seq_get_owned_up id owner (with_status s Closed (Some (w_now w)) seen));
    [done|cbn in *; rewrite Hs3, Hs2; apply lookup_insert_eq|done|].
  intros d4 Hd4 (E4 & E4' & E4''). apply seq_bind, seq_act, seq_bind, seq_shutdown_removed.
  apply seq_bind, seq_act, seq_ret. cbn [fst snd w_db set_db] in *.
  apply (HQ d4 seen e Hd4); congruence || done.
Qed.

Lemma seq_close_closed id owner s w Q :
  up (w_db w) -> sessions w !! id = Some s -> ts_owner_id s = owner -> ts_status s = Closed ->
  (forall d, up d -> store_eq (w_db w) d ->
     Q (Ok (mkCloseOut s true)) (shut (w_runtimes w !! id) (upd_runtimes (delete id) (set_db d w)))) ->
  seq (close_session id owner) w Q.
Proof.
  intros Hup Hs Ho Hc HQ.
  apply seq_try. apply (seq_get_owned_up id owner s); [done..|]. intros d Hd Heq.
  rewrite decide_True by done. apply seq_bind, seq_act, seq_bind, seq_shutdown_removed, seq_ret.
  by apply HQ.
Qed.

(** The tasks of a runtime that no longer run. *)
Lemma shut_tasks e l w : e ≫= re_live = Some l ->
  w_pty (shut e w) = pty_close (lr_handle l) (w_pty w)
  /\ (forall h, lr_driver l = Some h -> w_tasks (shut e w) !! h = None)
  /\ (forall c, lr_detach_close l = Some c -> w_tasks (shut e w) !! dc_handle c = None).
Proof.
  intros He. unfold shut. rewrite He.
  destruct l as [? ? ? ? [?|] [[? ?]|] [?|] ?]; cbn; split_and!; intros; simplify_eq/=; try done;
    by (rewrite ?lookup_delete_eq || (rewrite lookup_delete; case_decide; by rewrite ?lookup_delete_eq)).
Qed.

Lemma shut_none e w : e ≫= re_live = None -> shut e w = w.
Proof. intros He. unfold shut. by rewrite He. Qed.

(** C14: the owner closes an open session, with a database that answers: the row becomes
    [Closed] with the current time and nothing else of it changes, exactly one [Closed] event is
    appended, the registry entry and the registered attachments of the session (and of no other)
    are gone, and if a PTY was bound its channel is closed and its driver and detach timer are
    cancelled. *)
Theorem close_session_effect id owner s w :
  up (w_db w) -> sessions w !! id = Some s -> ts_owner_id s = owner -> ts_status s <> Closed ->
  exists seen e w',
    let row := with_status s Closed (Some (w_now w)) seen in
    run (close_session id owner) w = (Ok (mkCloseOut row false), w')
    /\ sessions w' = <[id := row]> (sessions w) /\ attachments w' = attachments w
    /\ events w' = events w ++ [e] /\ event_of (close_event id) e
    /\ w_runtimes w' = delete id (w_runtimes w)
    /\ w_attachments w' = filter (fun kv => ar_session_id kv.2 <> id) (w_attachments w)
    /\ (forall l, w_runtimes w !! id ≫= re_live = Some l ->
          w_pty w' = pty_close (lr_handle l) (w_pty w)
          /\ (forall h, lr_driver l = Some h -> w_tasks w' !! h = None)
          /\ (forall c, lr_detach_close l = Some c -> w_tasks w' !! dc_handle c = None)).
Proof.
  intros Hup Hs Ho Hopen.
  cbv zeta. apply seq_exists2. apply (seq_close_open id owner s); [done..|].
  intros d seen e Hd row Es Ea Ee Hev. exists seen, e. split; [done|].
  destruct (shut_frame (w_runtimes w !! id) (upd_runtimes (delete id) (set_db d w))) as (F1 & F2 & F3 & _).
  cbn. rewrite F1, F2, F3. split_and!; try done.
  intros l Hl. by apply (shut_tasks _ l (upd_runtimes (delete id) (set_db d w))).
Qed.

(** Closing is idempotent: the owner's second close answers [already_closed] with the same
    row and changes neither rows nor events nor registries, and no PTY is closed twice. *)
Theorem close_session_idempotent id owner s w :
  up (w_db w) -> sessions w !! id = Some s -> ts_owner_id s = owner ->
  forall r1 w1, run (close_session id owner) w = (r1, w1) ->
  exists row w2, r1 = Ok (mkCloseOut row (bool_decide (ts_status s = Closed)))
    /\ run (close_session id owner) w1 = (Ok (mkCloseOut row true), w2)
    /\ store_eq (w_db w1) (w_db w2) /\ w_runtimes w2 = w_runtimes w1
    /\ w_attachments w2 = w_attachments w1 /\ w_pty w2 = w_pty w1 /\ w_tasks w2 = w_tasks w1.
Proof.
  intros Hup Hs Ho r1 w1 Hrun.
  assert (Hfirst : exists row, r1 = Ok (mkCloseOut row (bool_decide (ts_status s = Closed)))
    /\ sessions w1 !! id = Some row /\ ts_owner_id row = owner /\ ts_status row = Closed
    /\ up (w_db w1) /\ w_runtimes w1 !! id = None).
  { assert (Hq : seq (close_session id owner) w (fun r w' => exists row,
      r = Ok (mkCloseOut row (bool_decide (ts_status s = Closed)))
      /\ sessions w' !! id = Some row /\ ts_owner_id row = owner /\ ts_status row = Closed
      /\ up (w_db w') /\ w_runtimes w' !! id = None)).
    2:{ unfold seq in Hq. by rewrite Hrun in Hq. }
    destruct (decide (ts_status s = Closed)) as [Hc|Hc].
    - apply (seq_close_closed id owner s); [done..|]. intros d Hd Heq. exists s.
      destruct (shut_frame (w_runtimes w !! id) (upd_runtimes (delete id) (set_db d w))) as (F1 & F2 & _).
      rewrite F1, F2. cbn. rewrite bool_decide_true by done. split_and!; try done.
      + by destruct Heq as (<- & _).
      + apply lookup_delete_eq.
    - apply (seq_close_open id owner s); [done..|]. intros d seen e Hd row Es Ea Ee Hev. exists row.
      destruct (shut_frame (w_runtimes w !! id) (upd_runtimes (delete id) (set_db d w))) as (F1 & F2 & _).
      cbn. rewrite F1, F2. cbn. rewrite bool_decide_false by done. split_and!; try done.
      + rewrite Es. apply lookup_insert_eq.
      + apply lookup_delete_eq. }
  destruct Hfirst as (row & -> & Hrow & Hown & Hcl & Hup1 & Hgone).
  assert (Hsecond : seq (close_session id owner) w1 (fun r w2 =>
    r = Ok (mkCloseOut row true) /\ exists d, store_eq (w_db w1) d
    /\ w2 = upd_runtimes (delete id) (set_db d w1))).
  { apply (seq_close_closed id owner row); [done..|]. intros d Hd Heq. split; [done|].
    exists d. split; [done|]. rewrite Hgone. by rewrite shut_none. }
  unfold seq in Hsecond. destruct (run (close_session id owner) w1) as [r2 w2].
  destruct Hsecond as (Hr2 & d & Heq & Hw2). cbn [fst snd] in *. subst.
  exists row, (upd_runtimes (delete id) (set_db d w1)). split_and!; try done.
  cbn. by apply delete_id.
Qed.

(** ** Detaching *)

Definition detach_event (id : TerminalSessionId) (aid : TerminalSessionAttachmentId)
  (seq_ : option Z) : CreateSessionEvent :=
  mkCreateEvent id EvDetached (JObj [("attachment_id"%string, JUuid aid);
                                     ("last_seen_seq"%string, json_opt JNum seq_)]).

(** A client [aid] of session [id] that may detach. *)
Record attached_client id owner aid seq_ s a w : Prop := {
  ac_up : up (w_db w);
  ac_session : sessions w !! id = Some s;
  ac_owner : ts_owner_id s = owner;
  ac_id : ts_id s = id;
  ac_row : attachments w !! aid = Some a;
  ac_of : ta_session_id a = id;
  ac_seq : forall n, seq_ = Some n -> 0 <= n
}.

Lemma seq_detach_session_up id owner aid seq_ s a w Q :
  attached_client id owner aid seq_ s a w -> ta_detached_at a = None ->
  (forall d e, up d -> sv_sessions d = sessions w -> sv_events d = events w ++ [e] ->
     event_of (detach_event id aid seq_) e ->
     sv_attachments d = <[aid := with_detached a (w_now w) seq_]> (attachments w) ->
     Q (Ok (mkDetachSessionOut s (with_detached a (w_now w) seq_) false))
       (upd_attachments (delete aid) (set_db d w))) ->
  seq (detach_session owner id aid seq_) w Q.
Proof.
  intros [Hup Hs Ho Hid Ha Hof Hseq] Hnd HQ.
  apply seq_try. apply (seq_get_owned_up id owner s); [done..|]. intros d1 Hd1 (E1 & E1' & E1'').
  apply seq_try. apply (seq_get_session_attachment_up aid _ a); [done|cbn; congruence|congruence|].
  intros d2 Hd2 (E2 & E2' & E2''). cbn [w_db set_db] in *.
  rewrite decide_False by (rewrite Hnd; by intros []).
  apply seq_bind, seq_act, seq_try. cbn [fst snd].
  apply (seq_mark_detached_up _ _ _ a); [done|cbn; congruence|done|]. intros d3 Hd3 Ha3 Hs3 He3.
  apply seq_try. cbn [w_db set_db w_now] in *.
  apply (seq_create_event_up _ s); [done|cbn; congruence|]. intros d4 e Hd4 Ha4 Hs4 He4 Hev.
  cbn [w_db set_db w_now] in *.
  apply seq_try. apply (seq_get_session_attachment_up aid _ (with_detached a (w_now w) seq_));
    [done|cbn; rewrite Ha4, Ha3; apply lookup_insert_eq|cbn; congruence|].
  intros d5 Hd5 (E5 & E5' & E5''). cbn [w_db set_db] in *.
  apply seq_bind, seq_act, seq_ret. apply (HQ d5 e Hd5); try congruence.
  by rewrite Hid in Hev.
Qed.

Lemma seq_detach_again id owner aid seq_ s a w Q :
  attached_client id owner aid seq_ s a w -> is_Some (ta_detached_at a) ->
  (forall d, up d -> store_eq (w_db w) d ->
     Q (Ok (mkDetachSessionOut s a true)) (upd_attachments (delete aid) (set_db d w))) ->
  seq (detach_session owner id aid seq_) w Q.
Proof.
  intros [Hup Hs Ho Hid Ha Hof Hseq] Hd HQ.
  apply seq_try. apply (seq_get_owned_up id owner s); [done..|]. intros d1 Hd1 (E1 & E1' & E1'').
  apply seq_try. apply (seq_get_session_attachment_up aid _ a); [done|cbn; congruence|congruence|].
  intros d2 Hd2 (E2 & E2' & E2''). cbn [w_db set_db] in *.
  rewrite decide_True by done. apply seq_bind, seq_act, seq_ret. cbn [fst snd].
  apply (HQ d2 Hd2). split_and!; congruence.
Qed.

(** [remaining id aid w]: some client of [id] other than [aid] is registered. *)
Definition remaining (id : TerminalSessionId) (aid : TerminalSessionAttachmentId) w : bool :=
  bool_decide (map_Exists (fun _ a => ar_session_id a = id) (delete aid (w_attachments w))).

Definition live_of (id : TerminalSessionId) w : option LiveRuntime := w_runtimes w !! id ≫= re_live.

Lemma live_of_Some id w l : live_of id w = Some l ->
  exists snap next, w_runtimes w !! id = Some (mkEntry snap (Some l) next).
Proof.
  unfold live_of. destruct (w_runtimes w !! id) as [[snap l' next]|]; cbn; [|done].
  intros ->. eauto.
Qed.

Lemma seq_schedule_detach_close id owner s l w Q :
  up (w_db w) -> sessions w !! id = Some s -> live_of id w = Some l -> lr_detach_close l = None ->
  (forall d seen snap next, up d -> sv_attachments d = attachments w -> sv_events d = events w ->
     sv_sessions d = <[id := with_status s Detached None seen]> (sessions w) ->
     w_runtimes w !! id = Some (mkEntry snap (Some l) next) ->
     let info := mkDetachInfo (w_now w) (w_now w + default 0 (duration_from_std (mc_detach_ttl cfg))) in
     Q (Some info) (upd_runtimes <[id := mkEntry snap
         (Some (set_detach_close (Some (mkDetachClose info (w_next w))) l)) next]>
       (spawn (TDetachClose id owner) (set_db d w)).2)) ->
  seq (schedule_detach_close cfg id owner) w Q.
Proof.
  intros Hup Hs Hl Hnone HQ. destruct (live_of_Some id w l Hl) as (snap & next & He).
  apply seq_bind. apply (seq_set_status_up id s); [done..|]. intros d seen Hd Ha Hev Hss.
  apply seq_bind, seq_act, seq_bind, seq_act, seq_act. cbn [fst snd].
  unfold install_detach_close. cbn [w_runtimes spawn set_db upd_tasks fresh snd fst] in *.
  rewrite He, Hnone. cbn [fst snd]. by apply (HQ d seen snap next).
Qed.

Lemma seq_last_detach id owner aid seq_ s a l w Q :
  attached_client id owner aid seq_ s a w -> ta_detached_at a = None ->
  remaining id aid w = false -> live_of id w = Some l -> lr_detach_close l = None ->
  (forall w' info seen e,
     sessions w' = <[id := with_status s Detached None seen]> (sessions w) ->
     info = mkDetachInfo (w_now w) (w_now w + default 0 (duration_from_std (mc_detach_ttl cfg))) ->
     attachments w' = <[aid := with_detached a (w_now w) seq_]> (attachments w) ->
     events w' = events w ++ [e] /\ event_of (detach_event id aid seq_) e ->
     w_attachments w' = delete aid (w_attachments w) -> w_pty w' = w_pty w ->
     detach_state id w' = Some info ->
     (exists h, live_of id w' = Some (set_detach_close (Some (mkDetachClose info h)) l)
         /\ w_tasks w' !! h = Some (TDetachClose id owner)) ->
     Q (Ok (mkDetachOut (mkDetachSessionOut s (with_detached a (w_now w) seq_) false) (Some info))) w') ->
  seq (detach_attachment cfg owner id aid seq_) w Q.
Proof.
  intros Hc Hnd Hrem Hl Hnone HQ.
  apply seq_try. apply (seq_detach_session_up id owner aid seq_ s a); [done..|].
  intros d e Hd Es Ee Hev Ea. cbn [do_already_detached].
  apply seq_bind, seq_bind, seq_act, seq_bind, seq_act, seq_ret. cbn [fst snd].
  cbn [w_runtimes w_attachments upd_attachments set_db]. fold (remaining id aid w) (live_of id w).
  rewrite Hrem, Hl. rewrite bool_decide_true by eauto. cbn [negb andb].
  apply seq_bind. apply (seq_schedule_detach_close id owner s l);
    [done|cbn; rewrite Es; apply Hc|done|done|].
  intros d2 seen snap next Hd2 Ea2 Ee2 Es2 He info. apply seq_ret.
  cbn [w_db set_db upd_attachments] in *. cbn [w_db spawn upd_runtimes upd_tasks fresh snd].
  eapply (HQ _ info seen e); unfold detach_state, live_of; try done;
    cbn [w_db w_runtimes w_attachments w_tasks w_pty set_db upd_runtimes upd_tasks upd_attachments];
    rewrite ?lookup_insert_eq; try congruence; try done.
  - split; [congruence|done].
  - exists (w_next w). split; [done|]. apply lookup_insert_eq.
Qed.

(** The last client detaches from a session with a PTY and no pending close, with a database
    that answers: its attachment gets the detach time and the last sequence number it saw, the row
    becomes [Detached], exactly one [Detached] event is appended, the PTY stays, and a close is
    pending whose deadline is one TTL away and whose timer runs. *)
Theorem last_detach_opens_window id owner aid seq_ s a l w :
  attached_client id owner aid seq_ s a w -> ta_detached_at a = None ->
  remaining id aid w = false -> live_of id w = Some l -> lr_detach_close l = None ->
  exists seen e w',
    let info := mkDetachInfo (w_now w) (w_now w + default 0 (duration_from_std (mc_detach_ttl cfg))) in
    run (detach_attachment cfg owner id aid seq_) w =
      (Ok (mkDetachOut (mkDetachSessionOut s (with_detached a (w_now w) seq_) false) (Some info)), w')
    /\ sessions w' = <[id := with_status s Detached None seen]> (sessions w)
    /\ attachments w' = <[aid := with_detached a (w_now w) seq_]> (attachments w)
    /\ events w' = events w ++ [e] /\ event_of (detach_event id aid seq_) e
    /\ w_attachments w' = delete aid (w_attachments w) /\ w_pty w' = w_pty w
    /\ detach_state id w' = Some info
    /\ exists h, live_of id w' = Some (set_detach_close (Some (mkDetachClose info h)) l)
         /\ w_tasks w' !! h = Some (TDetachClose id owner).
Proof.
  intros Hc Hnd Hrem Hl Hnone. cbv zeta. apply seq_exists2.
  apply (seq_last_detach id owner aid seq_ s a l); [done..|].
  intros w' info seen e Es -> Ea [Ee Hev] Hat Hp Hst Hh. exists seen, e. done.
Qed.

(** A client that detaches while another client of the session stays registered leaves the
    session's row, its PTY and its pending close alone: only the attachment is marked and one
    [Detached] event appended. *)
Theorem detach_keeps_session_for_others id owner aid seq_ s a w :
  attached_client id owner aid seq_ s a w -> ta_detached_at a = None ->
  remaining id aid w = true ->
  exists e w',
    run (detach_attachment cfg owner id aid seq_) w =
      (Ok (mkDetachOut (mkDetachSessionOut s (with_detached a (w_now w) seq_) false) None), w')
    /\ sessions w' = sessions w
    /\ attachments w' = <[aid := with_detached a (w_now w) seq_]> (attachments w)
    /\ events w' = events w ++ [e] /\ event_of (detach_event id aid seq_) e
    /\ w_attachments w' = delete aid (w_attachments w)
    /\ w_runtimes w' = w_runtimes w /\ w_tasks w' = w_tasks w /\ w_pty w' = w_pty w.
Proof.
  intros Hc Hnd Hrem.
  apply seq_exists1.
  apply seq_try. apply (seq_detach_session_up id owner aid seq_ s a); [done..|].
  intros d e Hd Es Ee Hev Ea. cbn [do_already_detached].
  apply seq_bind, seq_bind, seq_act, seq_bind, seq_act, seq_ret. cbn [fst snd].
  cbn [w_runtimes w_attachments upd_attachments set_db]. fold (remaining id aid w).
  rewrite Hrem. cbn [negb andb]. apply seq_bind, seq_ret, seq_ret. by exists e.
Qed.

(** Detaching twice is detaching once: a second detach of the same attachment answers
    [already_detached] with the row of the first, overwrites neither its time nor its sequence
    number, appends no event and starts no timer. *)
Theorem detach_idempotent id owner aid seq_ s a w :
  attached_client id owner aid seq_ s a w -> is_Some (ta_detached_at a) ->
  exists d, run (detach_attachment cfg owner id aid seq_) w =
      (Ok (mkDetachOut (mkDetachSessionOut s a true) None), upd_attachments (delete aid) (set_db d w))
    /\ store_eq (w_db w) d.
Proof.
  intros Hc Hd.
  assert (H : seq (detach_attachment cfg owner id aid seq_) w (fun r w' =>
    exists d, r = Ok (mkDetachOut (mkDetachSessionOut s a true) None)
      /\ w' = upd_attachments (delete aid) (set_db d w) /\ store_eq (w_db w) d)).
  { apply seq_try. apply (seq_detach_again id owner aid seq_ s a); [done..|]. intros d Hd' Heq.
    cbn [do_already_detached]. apply seq_bind, seq_ret, seq_bind, seq_ret, seq_ret. by exists d. }
  unfold seq in H. destruct (run _ w) as [r w']. destruct H as (d & Hr & Hw' & Heq).
  cbn [fst snd] in *. subst. by exists d.
Qed.

(** ** Attaching *)

Definition attach_event (req : AttachSessionRequest) (aid : TerminalSessionAttachmentId) (live : bool)
  : CreateSessionEvent :=
  mkCreateEvent (aq_session_id req) EvAttached
    (JObj [("attachment_id"%string, JUuid aid);
           ("client_info"%string, json_str_opt (aq_client_info req));
           ("remote_addr"%string, json_str_opt (aq_remote_addr req));
           ("stub"%string, JBool (negb live)); ("live"%string, JBool live)]).

Definition reattach_event (id : TerminalSessionId) (aid : TerminalSessionAttachmentId)
  : CreateSessionEvent :=
  mkCreateEvent id EvReattached (JObj [("attachment_id"%string, JUuid aid)]).

(** The attachment row a request creates. *)
Definition attachment_of (req : AttachSessionRequest) (a : TerminalSessionAttachment) : Prop :=
  ta_session_id a = aq_session_id req /\ ta_detached_at a = None
  /\ ta_client_info a = aq_client_info req /\ ta_remote_addr a = aq_remote_addr req
  /\ ta_last_seen_seq a = None.

(** What is registered for it. *)
Definition registered (req : AttachSessionRequest) (a : TerminalSessionAttachment)
  : AttachmentRuntime :=
  mkAttachmentRuntime (ta_id a) (aq_session_id req) (aq_owner_id req) (ta_attached_at a)
    (aq_client_info req) (aq_remote_addr req).

Definition attach_out (s : TerminalSession) (a : TerminalSessionAttachment)
  (view : option LiveRuntimeView) : AttachSessionOutcome :=
  mkAttachOut s a (if bool_decide (is_Some view) then LIVE_PTY_ATTACH_MESSAGE
                   else STUB_PTY_NOT_IMPLEMENTED_ATTACH_MESSAGE) view.

(** A session [req] may attach to. *)
Record attachable (req : AttachSessionRequest) s w : Prop := {
  at_up : up (w_db w);
  at_session : sessions w !! aq_session_id req = Some s;
  at_owner : ts_owner_id s = aq_owner_id req;
  at_id : ts_id s = aq_session_id req;
  at_open : ts_status s <> Closed
}.

(** The part of [attach_session] both cases share: up to the choice on the pending close. *)
Lemma seq_attach_prefix req s was w1 w Q :
  attachable req s w -> (forall d, cancel_pending_close (ts_id s) (set_db d w) = (was, set_db d w1)) ->
  w_db w1 = w_db w -> w_attachments w1 = w_attachments w ->
  (forall d a e, up d -> attachments w !! ta_id a = None -> attachment_of req a ->
     sv_attachments d = <[ta_id a := a]> (attachments w) -> sv_sessions d = sessions w ->
     sv_events d = events w ++ [e] ->
     event_of (attach_event req (ta_id a) (bool_decide (is_Some (runtime_view (ts_id s) w1)))) e ->
     seq (if was : bool then
            do? _ <- repo (st_set_status (ts_id s) Active None);
            do! _ <- repo (st_create_event (reattach_event (ts_id s) (ta_id a)));
            Ret (Ok tt)
          else Ret (Ok tt)) (set_db d w1)
       (fun r w' => r = Ok tt /\
          Q (Ok (attach_out s a (runtime_view (ts_id s) w1)))
            (upd_attachments <[ta_id a := registered req a]> w'))) ->
  seq (attach_session req) w Q.
Proof.
  intros [Hup Hs Ho Hid Hopen] Hcancel Hdb Hatt HQ.
  apply seq_try. apply (seq_get_owned_up _ _ s); [done..|]. intros d1 Hd1 (E1 & E1' & E1'').
  rewrite decide_False by done. apply seq_bind, seq_act. rewrite Hcancel. cbn [fst snd].
  apply seq_try. apply (seq_create_attachment_up _ s); [done|cbn; congruence|].
  intros d2 a Hd2 Hnew ? ? ? ? ? Ea2 Es2 Ee2. cbn [w_db set_db ca_session_id] in *.
  apply seq_bind, seq_act, seq_try. cbn [fst snd].
  change (runtime_view (ts_id s) (set_db d2 (set_db d1 w1))) with (runtime_view (ts_id s) w1).
  apply (seq_create_event_up _ s); [done|cbn; congruence|].
  intros d3 e Hd3 Ea3 Es3 Ee3 Hev. cbn [w_db set_db] in *. rewrite Hid in Hev.
  apply seq_try. eapply seq_mono; [|apply (HQ d3 a e Hd3); try congruence].
  - intros r w' [-> HQ']. apply seq_bind, seq_act, seq_ret. cbn [fst snd].
    unfold registered, attach_out in HQ'. rewrite Hid in *. rewrite Ho. exact HQ'.
  - split_and!; congruence || done.
  - rewrite Hid. exact Hev.
Qed.

Lemma cancel_none id w : (forall l, live_of id w = Some l -> lr_detach_close l = None) ->
  cancel_pending_close id w = (false, w).
Proof.
  intros Hno. unfold cancel_pending_close, live_of in *.
  destruct (w_runtimes w !! id) as [[snap [l|] next]|]; try done. cbn in Hno.
  by rewrite (Hno l).
Qed.

(** The owner attaches to an open session that has no close pending: one attachment row is
    created, exactly one [Attached] event appended (saying whether a PTY is bound), the attachment
    registered under the owner, and neither the session's row nor its runtime changes. *)
Theorem attach_effect req s w :
  attachable req s w ->
  (forall l, live_of (aq_session_id req) w = Some l -> lr_detach_close l = None) ->
  exists a e w', let view := runtime_view (aq_session_id req) w in
    run (attach_session req) w = (Ok (attach_out s a view), w')
    /\ attachments w !! ta_id a = None /\ attachment_of req a
    /\ attachments w' = <[ta_id a := a]> (attachments w) /\ sessions w' = sessions w
    /\ events w' = events w ++ [e]
    /\ event_of (attach_event req (ta_id a) (bool_decide (is_Some view))) e
    /\ w_attachments w' = <[ta_id a := registered req a]> (w_attachments w)
    /\ w_runtimes w' = w_runtimes w /\ w_tasks w' = w_tasks w /\ w_pty w' = w_pty w.
Proof.
  intros Hat Hno. cbv zeta. apply seq_exists2.
  apply (seq_attach_prefix req s false w); [done| |done|done|].
  - intros d. apply cancel_none. intros l Hl. apply Hno. by rewrite <- (at_id req s w Hat).
  - intros d a e Hd Hnew Hof Ea Es Ee Hev. apply seq_ret. split; [done|].
    rewrite (at_id req s w Hat) in *. by exists a, e.
Qed.

(** What a reattach to a session whose close is pending leaves behind. *)
Record reattached req s l c a w w' : Prop := {
  ra_up : up (w_db w');
  ra_new : attachments w !! ta_id a = None;
  ra_of : attachment_of req a;
  ra_session : exists seen, sessions w' = <[aq_session_id req := with_status s Active None seen]> (sessions w);
  ra_attachment : attachments w' = <[ta_id a := a]> (attachments w);
  ra_events : exists e1 e2, events w' = events w ++ [e1; e2]
    /\ event_of (attach_event req (ta_id a) true) e1 /\ event_of (reattach_event (aq_session_id req) (ta_id a)) e2;
  ra_registered : w_attachments w' = <[ta_id a := registered req a]> (w_attachments w);
  ra_live : live_of (aq_session_id req) w' = Some (set_detach_close None l);
  ra_tasks : w_tasks w' = delete (dc_handle c) (w_tasks w);
  ra_pty : w_pty w' = w_pty w
}.

Lemma seq_reattach req s l c w Q :
  attachable req s w -> live_of (aq_session_id req) w = Some l -> lr_detach_close l = Some c ->
  (forall a w', reattached req s l c a w w' ->
     Q (Ok (attach_out s a (Some (mkView (lr_handle l) (lr_output_tx l) (lr_replay l))))) w') ->
  seq (attach_session req) w Q.
Proof.
  intros Hat Hl Hc HQ. destruct (live_of_Some _ w l Hl) as (snap & next & He).
  pose proof (at_id req s w Hat) as Hid.
  set (w1 := abort (Some (dc_handle c)) (upd_runtimes
    <[aq_session_id req := mkEntry snap (Some (set_detach_close None l)) next]> w)).
  assert (Hv : runtime_view (ts_id s) w1 = Some (mkView (lr_handle l) (lr_output_tx l) (lr_replay l))).
  { unfold runtime_view. cbn. rewrite Hid. by rewrite lookup_insert_eq. }
  apply (seq_attach_prefix req s true w1); [done| |done|done|].
  { intros d. unfold cancel_pending_close. cbn. by rewrite Hid, He, Hc. }
  rewrite Hv, Hid. intros d a e Hd Hnew Hof Ea Es Ee Hev.
  apply seq_try. apply (seq_set_status_up _ s); [done|cbn; rewrite Es; apply Hat|].
  intros d2 seen Hd2 Ea2 Ee2 Es2. cbn [w_db set_db] in *.
  apply seq_bind. apply (seq_create_event_up _ (with_status s Active None seen));
    [done|cbn; rewrite Es2; apply lookup_insert_eq|].
  intros d3 e2 Hd3 Ea3 Es3 Ee3 Hev2. cbn [w_db set_db] in *. apply seq_ret. split; [done|].
  apply HQ. split; cbn; try done; try congruence.
  - exists seen. congruence.
  - exists e, e2. split_and!; try done. rewrite Ee3, Ee2, Ee. by rewrite <- app_assoc.
  - unfold live_of. cbn. by rewrite lookup_insert_eq.
Qed.

(** A client that reattaches before the deadline rescues the session: the pending close is
    withdrawn and its timer cancelled, the row is [Active] again, an [Attached] and then a
    [Reattached] event are appended, the client is given the PTY's view; and a timer that was
    already past its sleep finds nothing pending and changes nothing. *)
Theorem reattach_rescues_session req s l c w :
  attachable req s w -> live_of (aq_session_id req) w = Some l -> lr_detach_close l = Some c ->
  exists a w', let id := aq_session_id req in
    run (attach_session req) w =
      (Ok (attach_out s a (Some (mkView (lr_handle l) (lr_output_tx l) (lr_replay l)))), w')
    /\ (exists seen, sessions w' = <[id := with_status s Active None seen]> (sessions w))
    /\ attachments w' = <[ta_id a := a]> (attachments w)
    /\ (exists e1 e2, events w' = events w ++ [e1; e2]
         /\ event_of (attach_event req (ta_id a) true) e1
         /\ event_of (reattach_event id (ta_id a)) e2)
    /\ w_attachments w' = <[ta_id a := registered req a]> (w_attachments w)
    /\ live_of id w' = Some (set_detach_close None l) /\ detach_state id w' = None
    /\ w_tasks w' = delete (dc_handle c) (w_tasks w) /\ w_pty w' = w_pty w
    /\ forall owner, run (expire_detach_close id owner) w' = (tt, w').
Proof.
  intros Hat Hl Hc. cbv zeta. apply seq_exists1. apply (seq_reattach req s l c w); [done..|].
  intros a w' [_ _ _ Hs Ha Hev Hreg Hlive Ht Hp]. exists a. split; [done|].
  assert (Hst : detach_state (aq_session_id req) w' = None).
  { unfold detach_state. fold (live_of (aq_session_id req) w'). by rewrite Hlive. }
  split_and!; try done. intros owner. unfold expire_detach_close. cbn. fold (live_of (aq_session_id req) w'). by rewrite Hlive.
Qed.

(** A window that nobody used ends at its deadline: the timer closes the session, with the
    effect of an explicit close by its owner. *)
Theorem ttl_expiry_closes id owner s l c w :
  up (w_db w) -> sessions w !! id = Some s -> ts_owner_id s = owner -> ts_status s <> Closed ->
  live_of id w = Some l -> lr_detach_close l = Some c ->
  exists seen e w', run (expire_detach_close id owner) w = (tt, w')
    /\ sessions w' = <[id := with_status s Closed (Some (w_now w)) seen]> (sessions w)
    /\ events w' = events w ++ [e] /\ event_of (close_event id) e
    /\ w_runtimes w' = delete id (w_runtimes w)
    /\ w_pty w' = pty_close (lr_handle l) (w_pty w) /\ w_tasks w' !! dc_handle c = None.
Proof.
  intros Hup Hs Ho Hopen Hl Hc. apply (seq_exists2 (expire_detach_close id owner) w (fun _ _ => tt)).
  apply seq_bind, seq_act. cbn [fst snd]. fold (live_of id w).
  rewrite bool_decide_true by (rewrite Hl; cbn; rewrite Hc; eauto). apply seq_bind. apply (seq_close_open id owner s); [done..|].
  intros d seen e Hd row Es Ea Ee Hev. apply seq_ret. exists seen, e. split; [done|].
  destruct (shut_frame (w_runtimes w !! id) (upd_runtimes (delete id) (set_db d w))) as (F1 & F2 & F3 & _).
  destruct (shut_tasks (w_runtimes w !! id) l (upd_runtimes (delete id) (set_db d w))) as (T1 & _ & T3); [done|].
  cbn. rewrite F1, F2, T1. split_and!; try done. by apply T3.
Qed.

(** ** Output *)

(** The chunks among the events of a PTY. *)
Definition outputs (evts : list SshPtyEvent) : list (list Byte.byte) :=
  omap (fun e => match e with PtyOutput b => Some b | _ => None end) evts.

(** Chunks numbered from [n]. *)
Fixpoint stamp (n : Z) (chunks : list (list Byte.byte)) : list OutputFrame :=
  match chunks with [] => [] | c :: chunks => mkFrame n c :: stamp (n + 1) chunks end.

Lemma len_stamp n chunks : len (stamp n chunks) = len chunks.
Proof. revert n. induction chunks as [|c cs IH]; intros n; [done|]. cbn [stamp]. by rewrite !len_cons, IH. Qed.

Lemma stamp_seqs n chunks : f_seq <$> stamp n chunks = seqZ n (len chunks).
Proof.
  revert n. induction chunks as [|c cs IH]; intros n; [done|]. cbn [stamp].
  rewrite len_cons, seqZ_cons by (pose proof (len_nonneg cs); lia). cbn. rewrite IH.
  do 2 f_equal; lia.
Qed.

(** The objects a forwarder writes: counter at [n], ring [b], channel [ch]. *)
Record fanout (args : ForwarderArgs) (n : Z) (b : ReplayBuffer.t) (ch : list OutputFrame) w : Prop := {
  fo_next : w_counters w !! fw_next_seq args = Some n;
  fo_ring : w_buffers w !! fw_replay args = Some b;
  fo_chan : w_channels w !! fw_output_tx args = Some ch;
  fo_distinct : fw_next_seq args <> fw_last_seq args
}.

Lemma seq_forward_output args bytes n b ch w Q :
  fanout args n b ch w -> 0 <= n < u64_max ->
  (forall w', w_runtimes w' = w_runtimes w ->
     w_counters w' !! fw_last_seq args = Some n ->
     fanout args (n + 1) (ReplayBuffer.push b (mkFrame n bytes)) (ch ++ [mkFrame n bytes]) w' ->
     Q tt w') ->
  seq (forward_output args bytes) w Q.
Proof.
  intros [Hn Hb Hc Hd] Hlt HQ. apply seq_bind, seq_act. unfold fetch_add_one, load. rewrite Hn.
  change (default 0 (Some n)) with n. rewrite wrapping_add64_small by lia. cbn [fst snd].
  apply seq_bind, seq_act, seq_bind, seq_act, seq_bind, seq_act, seq_act. cbn [fst snd].
  unfold record_output. destruct (fw_recording args);
    (apply HQ; [done|cbn; apply lookup_insert_eq|split; [| | |done]; cbn;
      [by rewrite lookup_insert_ne, lookup_insert_eq
      |by rewrite lookup_alter_eq, Hb|by rewrite lookup_alter_eq, Hc]]).
Qed.

Lemma seq_pty_teardown args reason w (Q : unit -> World DB B R -> Prop) :
  (forall d, Q tt (set_db d w)) -> seq (pty_teardown args reason) w Q.
Proof.
  intros HQ. apply seq_bind, seq_repo. destruct (st_get _ _) as [[[s|]|e] d]; cbn [map_err fst snd]; [|apply HQ..].
  case_decide; [|apply HQ]. apply seq_bind, seq_act, seq_bind, seq_repo, seq_bind, seq_repo, seq_ret.
  cbn [fst snd]. apply HQ.
Qed.

Lemma seq_forward_pty_output args evts reason n b ch w :
  fanout args n b ch w -> 0 < n -> n + len (outputs evts) <= u64_max ->
  seq (forward_pty_output args evts reason) w (fun _ w' =>
    let fs := stamp n (outputs evts) in
    w_runtimes w' = w_runtimes w
    /\ fanout args (n + len (outputs evts)) (ReplayBuffer.push_all b fs) (ch ++ fs) w').
Proof.
  revert reason n b ch w. induction evts as [|[bytes|code|r] evts IH];
    intros reason n b ch w Hf Hn Hmax; cbn [forward_pty_output]; try (by apply IH).
  - apply seq_pty_teardown. intros d. cbn. rewrite app_nil_r, len_nil, Z.add_0_r.
    split; [done|]. by destruct Hf.
  - change (outputs (PtyOutput bytes :: evts)) with (bytes :: outputs evts) in *.
    rewrite len_cons in *. pose proof (len_nonneg (outputs evts)).
    apply seq_bind. apply (seq_forward_output args bytes n b ch); [done|lia|].
    intros w1 Hr1 _ Hf1. eapply seq_mono; [|apply (IH reason (n + 1)); [exact Hf1|lia|lia]].
    intros _ w' [Hr' Hf']. split; [by rewrite Hr'|].
    rewrite <- app_assoc in Hf'. by replace (n + (1 + len (outputs evts)))
      with (n + 1 + len (outputs evts)) by lia.
Qed.

(** Output is stamped 1, 2, 3, ..., delivered to the broadcast channel in order and without
    gaps, and a client that saw the stream up to [k] and reconnects is sent exactly the rest of
    it; if the ring has already dropped frame [k + 1] the answer is the window-lost report
    instead, never a partial replay, and that cannot happen while the missed frames fit the
    ring's bounds. *)
Theorem reconnect_gap_free args evts id l w :
  fanout args 1 (ReplayBuffer.new replay_config_default) [] w ->
  live_of id w = Some l -> lr_replay l = fw_replay args ->
  1 + len (outputs evts) <= u64_max ->
  total_bytes (stamp 1 (outputs evts)) <= usize_max ->
  let fs := stamp 1 (outputs evts) in
  let w' := (run (forward_pty_output args evts None) w).2 in
  w_channels w' !! fw_output_tx args = Some fs
  /\ f_seq <$> fs = seqZ 1 (len (outputs evts))
  /\ forall k, 0 < k < len fs ->
       exists n, replay_since id (Some k) w' =
         Some (if Z.of_nat n <=? k then Ok (mkRange (drop (Z.to_nat k) fs) (len fs))
               else Err (mkWindowLost k (Some (Z.of_nat n + 1)) (len fs)))
         /\ (fits replay_config_default (drop (Z.to_nat k) fs) -> Z.of_nat n <= k).
Proof.
  intros Hf Hl Hrep Hmax Htot fs w'.
  assert (H : seq (forward_pty_output args evts None) w (fun _ w' => w_runtimes w' = w_runtimes w
    /\ fanout args (1 + len (outputs evts)) (ReplayBuffer.push_all (ReplayBuffer.new replay_config_default) fs)
         fs w')) by (apply (seq_forward_pty_output _ _ _ _ _ []); [done|lia|done]).
  unfold seq in H. fold w' in H. destruct H as [Hr [_ Hb Hc _]].
  split; [done|]. split; [apply stamp_seqs|]. intros k Hk.
  assert (Hnum : ReplaySpec.numbered fs) by (unfold ReplaySpec.numbered, fs; by rewrite stamp_seqs, len_stamp).
  assert (Hlen : len fs <= u64_max) by (unfold fs; rewrite len_stamp; lia).
  destruct (push_all_replay replay_config_default fs k Hnum Htot Hlen Hk) as (n & Habs & Hans).
  exists n. rewrite <- Hans. split.
  - unfold replay_since, runtime_view. rewrite Hr. fold (live_of id w). rewrite Hl. cbn.
    by rewrite Hrep, Hb.
  - intros Hfit. destruct (decide (Z.of_nat n <= k)) as [|Hgt]; [done|]. exfalso.
    apply (ReplaySpec.abs_tight _ _ Habs (Z.to_nat k)); [cbn; lia|].
    cbn. by destruct (push_all_suffix replay_config_default fs Htot) as (_ & _ & _ & -> & _).
Qed.

(** ** The end of the PTY *)

(** The forwarder's view of the rest of the world. *)
Definition untouched w w' : Prop :=
  w_db w' = w_db w /\ w_runtimes w' = w_runtimes w /\ w_attachments w' = w_attachments w
  /\ w_now w' = w_now w /\ w_pty w' = w_pty w.

Lemma seq_forward_output_untouched args bytes w :
  seq (forward_output args bytes) w (fun _ => untouched w).
Proof.
  apply seq_bind, seq_act, seq_bind, seq_act, seq_bind, seq_act, seq_bind, seq_act, seq_act.
  unfold record_output. by destruct (fw_recording args).
Qed.

Definition last_reason (evts : list SshPtyEvent) (reason : option ClosedReason) : option ClosedReason :=
  foldl (fun r e => match e with PtyClosed r' => Some r' | _ => r end) reason evts.

Lemma seq_forward_to_teardown args evts reason w Q :
  (forall w1, untouched w w1 -> seq (pty_teardown args (last_reason evts reason)) w1 Q) ->
  seq (forward_pty_output args evts reason) w Q.
Proof.
  revert reason w. induction evts as [|[bytes|code|r] evts IH]; intros reason w HQ;
    cbn [forward_pty_output]; try (by apply IH); [by apply HQ|].
  apply seq_bind. eapply seq_mono; [|apply seq_forward_output_untouched].
  intros _ w1 (U1 & U2 & U3 & U4 & U5). apply IH. intros w2 (V1 & V2 & V3 & V4 & V5).
  apply HQ. split_and!; congruence.
Qed.

Definition teardown_event (id : TerminalSessionId) (reason : option ClosedReason)
  : CreateSessionEvent :=
  mkCreateEvent id EvClosed (JObj [("reason"%string, JStr (lit "pty_teardown"));
                                   ("category"%string, JStr (reason_str reason))]).

Lemma seq_teardown_open args reason s w Q :
  let id := fw_session_id args in
  up (w_db w) -> sessions w !! id = Some s -> ts_owner_id s = fw_owner_id args ->
  ts_status s <> Closed ->
  (forall d seen e, up d -> sv_attachments d = attachments w -> sv_events d = events w ++ [e] ->
     event_of (teardown_event id reason) e ->
     sv_sessions d = <[id := with_status s Closed (Some (w_now w)) seen]> (sessions w) ->
     Q tt (set_db d w)) ->
  seq (pty_teardown args reason) w Q.
Proof.
  intros id Hup Hs Ho Hopen HQ. apply seq_bind, seq_get_up; [done|]. intros d1 Hd1 (E1 & E1' & E1'').
  fold id. rewrite Hs. rewrite decide_True by done. apply seq_bind, seq_act, seq_bind. cbn [fst snd].
  apply (seq_set_status_up id s); [done|cbn; congruence|]. intros d2 seen Hd2 Ea2 Ee2 Es2.
  cbn [w_db set_db w_now] in *. apply seq_bind.
  apply (seq_create_event_up _ (with_status s Closed (Some (w_now w)) seen));
    [done|cbn; rewrite Es2; apply lookup_insert_eq|]. intros d3 e Hd3 Ea3 Es3 Ee3 Hev.
  apply seq_ret. cbn [w_db set_db] in *. apply (HQ d3 seen e Hd3); congruence || done.
Qed.

Lemma seq_remote_exit args evts s w Q :
  let id := fw_session_id args in
  up (w_db w) -> sessions w !! id = Some s -> ts_owner_id s = fw_owner_id args ->
  ts_status s <> Closed ->
  (forall w' seen e, up (w_db w') -> attachments w' = attachments w -> events w' = events w ++ [e] ->
     event_of (teardown_event id (last_reason evts None)) e ->
     sessions w' = <[id := with_status s Closed (Some (w_now w)) seen]> (sessions w) ->
     w_runtimes w' = w_runtimes w -> w_attachments w' = w_attachments w -> w_now w' = w_now w ->
     w_pty w' = w_pty w -> Q tt w') ->
  seq (forward_pty_output args evts None) w Q.
Proof.
  intros id Hup Hs Ho Hopen HQ. apply seq_forward_to_teardown. intros w1 (U1 & U2 & U3 & U4 & U5).
  apply (seq_teardown_open args _ s); rewrite ?U1; try done.
  intros d seen e Hd Ea Ee Hev Es. rewrite U4 in Es. apply (HQ _ seen e);
    cbn [w_db w_runtimes w_attachments w_now w_pty set_db]; congruence || done.
Qed.

(** When the PTY ends, whatever it delivered last, the forwarder closes the session's row at
    the current time and appends exactly one [Closed] event naming the reason of the last
    [Closed] notice ([local_close] if there was none); the registries are left to
    [close_session]. *)
Theorem remote_exit_closes_session args evts s w :
  let id := fw_session_id args in
  up (w_db w) -> sessions w !! id = Some s -> ts_owner_id s = fw_owner_id args ->
  ts_status s <> Closed ->
  exists seen e w', run (forward_pty_output args evts None) w = (tt, w')
    /\ sessions w' = <[id := with_status s Closed (Some (w_now w)) seen]> (sessions w)
    /\ events w' = events w ++ [e]
    /\ event_of (teardown_event id (last_reason evts None)) e
    /\ attachments w' = attachments w
    /\ w_runtimes w' = w_runtimes w /\ w_attachments w' = w_attachments w.
Proof.
  intros id Hup Hs Ho Hopen. apply (seq_exists2 (forward_pty_output args evts None) w (fun _ _ => tt)).
  apply (seq_remote_exit args evts s); [done..|]. intros w' seen e ? ? ? ? ? ? ? ? ?.
  exists seen, e. done.
Qed.

(** C31: a closed session does not stay closed: when the remote shell ends while one client is
    attached, the forwarder closes the row, and the clean-up of that client's socket then writes
    [Detached] over it and erases the closing time, because [detach_attachment] takes the dead
    runtime for a live PTY and [schedule_detach_close] does not look at the row.  A close is
    pending again for a PTY that is gone. *)
Theorem detach_reopens_closed_session args evts id owner aid seq_ s a l w :
  attached_client id owner aid seq_ s a w -> ta_detached_at a = None -> ts_status s <> Closed ->
  remaining id aid w = false -> live_of id w = Some l -> lr_detach_close l = None ->
  fw_session_id args = id -> fw_owner_id args = owner ->
  let w1 := (run (forward_pty_output args evts None) w).2 in
  let w2 := (run (detach_attachment cfg owner id aid seq_) w1).2 in
  (exists s1, sessions w1 !! id = Some s1 /\ ts_status s1 = Closed /\ ts_closed_at s1 = Some (w_now w))
  /\ (exists s2, sessions w2 !! id = Some s2 /\ ts_status s2 = Detached /\ ts_closed_at s2 = None)
  /\ is_Some (detach_state id w2).
Proof.
  intros Hc Hnd Hopen Hrem Hl Hnone Hid Ho w1 w2.
  assert (H1 : seq (forward_pty_output args evts None) w (fun _ w1 => exists s1,
    attached_client id owner aid seq_ s1 a w1 /\ ts_status s1 = Closed
    /\ ts_closed_at s1 = Some (w_now w) /\ w_runtimes w1 = w_runtimes w
    /\ w_attachments w1 = w_attachments w)).
  { destruct Hc. apply (seq_remote_exit args evts s); rewrite ?Hid, ?Ho; try done.
    intros w' seen e Hup' Ea Ee Hev Es Hr Hat Hnow Hp.
    exists (with_status s Closed (Some (w_now w)) seen). split; [split|done]; try done; [|congruence].
    rewrite Es, <- Hid. apply lookup_insert_eq. }
  unfold seq in H1. fold w1 in H1. destruct H1 as (s1 & Hc1 & Hs1 & Hcl & Hr1 & Ha1).
  split; [exists s1; split; [apply Hc1|done]|].
  assert (H2 : seq (detach_attachment cfg owner id aid seq_) w1 (fun _ w2 =>
    (exists s2, sessions w2 !! id = Some s2 /\ ts_status s2 = Detached /\ ts_closed_at s2 = None)
    /\ is_Some (detach_state id w2))); [|exact H2].
  apply (seq_last_detach id owner aid seq_ s1 a l); try done.
  - unfold remaining. by rewrite Ha1.
  - unfold live_of. by rewrite Hr1.
  - intros w2' info seen e Es _ _ _ _ _ Hst _. split; [|by eauto].
    eexists. rewrite Es, lookup_insert_eq. done.
Qed.

End spec.
