(* ===== verification/Scenario.v ===== *)
(** * A concrete deployment

    The orchestrator over the Postgres repositories of [PgSession.v], with a loopback bridge in
    the place of SSH and a recording sink that keeps what it is handed.  One user, one session, one
    client: the states of this scenario are computed, and the theorems about the orchestrator are
    applied to them. *)

From S2P Require Import Prelude Core Replay SessionStore PgSession Prog Manager ManagerInv ManagerSpec.
Import TerminalSessionManager.

(** A bridge that remembers what was written and refuses a closed handle. *)
Record Loopback := mkLoopback {
  lb_written : list (nat * list Byte.byte);
  lb_size : list (nat * (Z * Z));
  lb_closed : list nat
}.

#[export] Instance loopback_bridge : PtyBridge Loopback := {|
  pty_write_input h bytes b :=
    if bool_decide (h ∈ lb_closed b) then (Err BridgeClosed, b)
    else (Ok tt, mkLoopback (lb_written b ++ [(h, bytes)]) (lb_size b) (lb_closed b));
  pty_resize h cols rows b :=
    if bool_decide (h ∈ lb_closed b) then (Err BridgeClosed, b)
    else (Ok tt, mkLoopback (lb_written b) (lb_size b ++ [(h, (cols, rows))]) (lb_closed b));
  pty_close h b := mkLoopback (lb_written b) (lb_size b) (lb_closed b ++ [h])
|}.

(** A recording sink that keeps the sequence numbers it was handed. *)
Definition SeqSink : Type := list (nat * Z).

#[export] Instance seq_sink : RecordingSink SeqSink := {|
  rec_writer_for id r := (length r, r);
  rec_output h seq _ r := r ++ [(h, seq)];
  rec_marker h _ seq _ r := r ++ [(h, seq)];
  rec_shutdown h seq r := r ++ [(h, seq)]
|}.

Abbreviation world := (World PgDb Loopback SeqSink).

Definition user : UserId := 1.
Definition stranger : UserId := 2.
Definition db0 : PgDb := mkPgDb {[ user; stranger ]} {[ 10 ]} empty empty [] 1000 100 [].
Definition w0 : world := boot db0 5000 (mkLoopback [] [] []) [].
Definition cfg : ManagerConfig := mkManagerConfig DETACHED_LIVE_PTY_TTL 8 4 64 true.

Definition create_req : CreateTerminalSessionRequest := mkCreateReq user 10 80 24.
Definition attach_req : AttachSessionRequest := mkAttachReq user 100 None None.
Definition pty : SshPtyStart := mkPtyStart 7 (Some 70%nat).

(** Created, bound to a PTY, attached, detached. *)
Definition w_created : world := (run (create_session create_req) w0).2.
Definition w_live : world := (run (start_live_pty cfg user 100 pty) w_created).2.
Definition w_attached : world := (run (attach_session attach_req) w_live).2.
Definition w_detached : world :=
  (run (detach_attachment cfg user 100 102 (Some 3)) w_attached).2.

(** Propositions about concrete states that evaluate to [true]. *)
Ltac by_compute := apply (bool_decide_unpack _); vm_compute; exact Logic.I.

Definition db_up (d : PgDb) : bool :=
  bool_decide (map_Forall (fun id r => r_id r = id) (t_sessions d))
  && bool_decide (map_Forall (fun _ r => status_chk (r_status r) && dim_chk (r_cols r)
                                         && dim_chk (r_rows r) = true) (t_sessions d))
  && bool_decide (map_Forall (fun id a => ta_id a = id) (t_attachments d))
  && bool_decide (faults d = [])
  && bool_decide (map_Forall (fun id _ => id < next_uuid d) (t_sessions d))
  && bool_decide (map_Forall (fun id a => id < next_uuid d
                     /\ last_seen_seq_chk (ta_last_seen_seq a) = true) (t_attachments d))
  && bool_decide (Forall (fun r => er_id r < next_uuid d) (t_events d)).

Lemma db_up_sound d : db_up d = true -> up d.
Proof.
  unfold db_up. intros H. bool_props. split; [split; [|done]|split; try done].
  - intros id r Hr. split; [auto|]. match goal with
    | Hall : map_Forall (fun _ r => _ && _ && _ = true) _ |- _ => specialize (Hall id r Hr) end.
    cbn beta in *. bool_props. by split.
  - by match goal with E : faults d = [] |- _ => rewrite E; constructor end.
Qed.

Lemma inv_w0 : inv w0.
Proof.
  apply inv_boot; [by apply (db_up_sound db0)| |apply map_Forall_empty|by constructor].
  cbn. rewrite omap_empty. apply map_Forall_empty.
Qed.

Lemma inv_run {A} (p : prog world A) w :
  (forall w0, wp inv guar p w0 (fun _ _ => True)) -> inv w -> inv (run p w).2.
Proof. intros Hp Hw. by destruct (wp_run inv guar p w _ (Hp w) Hw) as [? _]. Qed.

Lemma inv_w_attached : inv w_attached.
Proof.
  apply inv_run; [apply safe_attach_session|]. apply inv_run; [apply safe_start_live_pty|].
  apply inv_run; [apply safe_create_session|]. apply inv_w0.
Qed.

(** ** Safety *)

Lemma run_ignore_answer {E A} (p : prog world (result E A)) w :
  (run (ignore (answer p)) w).2 = (run p w).2.
Proof. unfold ignore, answer. rewrite run_bind, run_try. by destruct (run p w) as [[] ?]. Qed.

Lemma reachable_w_live : reachable (starts cfg) w0 (mkPool w_live []).
Proof.
  assert (H0 : reachable (starts cfg) w0 (mkPool w0 [])) by apply rtc_refl.
  pose proof (reachable_run cfg w0 w0 w0 _ H0 (starts_request cfg w0 (ReqCreate create_req))) as H1.
  pose proof (reachable_run cfg w0 _ _ _ H1 (starts_request cfg _ (ReqStartPty user 100 pty))) as H2.
  cbn [respond] in H1, H2. by rewrite !run_ignore_answer in H2.
Qed.

Lemma orchestrator_safety_witness :
  inv w_live /\ guar w0 w_live /\ live_of 100 w_live <> None.
Proof.
  destruct (orchestrator_safety cfg w0 (mkPool w_live []) inv_w0 reachable_w_live) as [H1 H2].
  split; [exact H1|]. split; [exact H2|]. vm_compute. discriminate.
Defined.

(** ** The calls *)

Definition s_active : TerminalSession := mkSession 100 user 10 Active 80 24 1000 1000 None.
Definition a_attached : TerminalSessionAttachment := mkAttachment 102 100 1000 None None None None.
Definition l_live : LiveRuntime := mkLive 7 1 2 (Some 4%nat) (Some 70%nat) None (Some 0%nat) 3.
Definition fw : ForwarderArgs := mkForwarder 1 0 2 100 user (Some 0%nat) 3.
Definition bytes_of (l : list Z) : list Byte.byte := map byte_of l.
Definition shell_output : list SshPtyEvent :=
  [PtyOutput (bytes_of [104; 105]); PtyOutput (bytes_of [10]); PtyOutput (bytes_of [36; 32]);
   PtyExit 0; PtyClosed RemoteEof].

Lemma client_attached : attached_client 100 user 102 (Some 3) s_active a_attached w_attached.
Proof.
  split; [by apply db_up_sound; vm_compute|by vm_compute..|].
  intros n [= <-]. lia.
Qed.

Lemma foreign_request_denied_witness :
  exists e d, run (respond cfg (ReqClose 100 stranger)) w_attached = (Err e, set_db d w_attached)
    /\ store_eq (w_db w_attached) d
    /\ (st_healthy (w_db w_attached) -> e = NotFound \/ exists f m, e = InvalidDimensions f m).
Proof.
  apply (foreign_request_denied cfg (ReqClose 100 stranger) stranger 100 w_attached inv_w_attached eq_refl).
  intros (s & Hs & Ho). vm_compute in Hs. injection Hs as <-. discriminate Ho.
Defined.

Lemma close_session_effect_witness :
  exists seen e w', let row := with_status s_active Closed (Some 5000) seen in
    run (close_session 100 user) w_attached = (Ok (mkCloseOut row false), w')
    /\ sv_events (w_db w') = sv_events (w_db w_attached) ++ [e]
    /\ lb_closed (w_pty w') = [7%nat].
Proof.
  destruct (close_session_effect 100 user s_active w_attached) as
    (seen & e & w' & Hrun & _ & _ & Hev & _ & _ & _ & Hl);
    [by apply db_up_sound; vm_compute|by vm_compute|done|done|].
  exists seen, e, w'. split; [exact Hrun|]. split; [exact Hev|].
  destruct (Hl l_live) as [-> _]; by vm_compute.
Defined.

Lemma close_session_idempotent_witness :
  exists row w2, run (close_session 100 user) (run (close_session 100 user) w_attached).2
    = (Ok (mkCloseOut row true), w2) /\ lb_closed (w_pty w2) = [7%nat].
Proof.
  destruct (close_session_idempotent 100 user s_active w_attached) with
    (r1 := (run (close_session 100 user) w_attached).1) (w1 := (run (close_session 100 user) w_attached).2)
    as (row & w2 & _ & Hrun & _ & _ & _ & Hp & _);
    [by apply db_up_sound; vm_compute|by vm_compute|done|apply surjective_pairing|].
  exists row, w2. split; [exact Hrun|]. rewrite Hp. by vm_compute.
Defined.

Lemma last_detach_opens_window_witness :
  exists info, detach_state 100 (run (detach_attachment cfg user 100 102 (Some 3)) w_attached).2 = Some info
    /\ di_expires_at info = 5000 + DETACHED_LIVE_PTY_TTL.
Proof.
  destruct (last_detach_opens_window cfg 100 user 102 (Some 3) s_active a_attached l_live w_attached
    client_attached) as (seen & e & w' & Hrun & _ & _ & _ & _ & _ & _ & Hst & _); [by vm_compute..|].
  rewrite Hrun. eexists. split; [exact Hst|by vm_compute].
Defined.

(** A second client, then the first leaves. *)
Definition w_two : world := (run (attach_session attach_req) w_attached).2.

Lemma detach_keeps_session_for_others_witness :
  w_runtimes (run (detach_attachment cfg user 100 102 (Some 3)) w_two).2 = w_runtimes w_two.
Proof.
  assert (Hc : attached_client 100 user 102 (Some 3) s_active a_attached w_two).
  { split; [by apply db_up_sound; vm_compute|by vm_compute..|]. intros n [= <-]. lia. }
  destruct (detach_keeps_session_for_others cfg 100 user 102 (Some 3) s_active a_attached w_two Hc)
    as (e & w' & Hrun & _ & _ & _ & _ & _ & Hr & _); [by vm_compute..|].
  rewrite Hrun. exact Hr.
Defined.

Definition s_detached : TerminalSession := mkSession 100 user 10 Detached 80 24 1000 1000 None.
Definition a_detached : TerminalSessionAttachment :=
  mkAttachment 102 100 1000 (Some 5000) None None (Some 3).

Lemma detach_idempotent_witness :
  exists d, (run (detach_attachment cfg user 100 102 (Some 9)) w_detached).1 =
      Ok (mkDetachOut (mkDetachSessionOut s_detached a_detached true) None)
    /\ store_eq (w_db w_detached) d.
Proof.
  assert (Hc : attached_client 100 user 102 (Some 9) s_detached a_detached w_detached).
  { split; [by apply db_up_sound; vm_compute|by vm_compute..|]. intros n [= <-]. lia. }
  destruct (detach_idempotent cfg 100 user 102 (Some 9) s_detached a_detached w_detached Hc)
    as (d & Hrun & Heq); [by eexists|].
  exists d. rewrite Hrun. split; [reflexivity|exact Heq].
Defined.

Lemma attach_effect_witness :
  exists a, (run (attach_session attach_req) w_live).1 =
    Ok (attach_out s_active a (Some (mkView 7 1 2))) /\ attachment_of attach_req a.
Proof.
  destruct (attach_effect attach_req s_active w_live) as (a & e & w' & Hrun & _ & Ha & _).
  - split; [by apply db_up_sound; vm_compute|by vm_compute..].
  - intros l Hl. vm_compute in Hl. injection Hl as <-. done.
  - exists a. rewrite Hrun. split; [reflexivity|exact Ha].
Defined.

Definition l_detached : LiveRuntime :=
  set_detach_close (Some (mkDetachClose (mkDetachInfo 5000 (5000 + DETACHED_LIVE_PTY_TTL)) 5)) l_live.

Lemma reattach_rescues_session_witness :
  exists w', (run (attach_session attach_req) w_detached).2 = w'
    /\ detach_state 100 w' = None /\ run (expire_detach_close 100 user) w' = (tt, w').
Proof.
  destruct (reattach_rescues_session attach_req s_detached l_detached
    (mkDetachClose (mkDetachInfo 5000 (5000 + DETACHED_LIVE_PTY_TTL)) 5) w_detached)
    as (a & w' & Hrun & _ & _ & _ & _ & _ & Hst & _ & _ & Hexp); [|by vm_compute..|].
  - split; [by apply db_up_sound; vm_compute|by vm_compute..].
  - exists w'. rewrite Hrun. split; [reflexivity|]. split; [exact Hst|apply Hexp].
Defined.

Lemma ttl_expiry_closes_witness :
  exists seen w', run (expire_detach_close 100 user) w_detached = (tt, w')
    /\ sv_sessions (w_db w') !! 100 = Some (with_status s_detached Closed (Some 5000) seen).
Proof.
  destruct (ttl_expiry_closes 100 user s_detached l_detached
    (mkDetachClose (mkDetachInfo 5000 (5000 + DETACHED_LIVE_PTY_TTL)) 5) w_detached)
    as (seen & e & w' & Hrun & Hs & _);
    [by apply db_up_sound; vm_compute|by vm_compute..|].
  exists seen, w'. split; [exact Hrun|]. rewrite Hs. apply lookup_insert_eq.
Defined.

Lemma reconnect_gap_free_witness :
  let w' := (run (forward_pty_output fw shell_output None) w_attached).2 in
  exists n : nat, replay_since 100 (Some 1) w' =
    Some (if Z.of_nat n <=? 1
          then Ok (mkRange [mkFrame 2 (bytes_of [10]); mkFrame 3 (bytes_of [36; 32])] 3)
          else Err (mkWindowLost 1 (Some (Z.of_nat n + 1)) 3)).
Proof.
  destruct (reconnect_gap_free fw shell_output 100 l_live w_attached) as (_ & _ & H);
    [split; by vm_compute|by vm_compute..|].
  destruct (H 1) as (n & Hn & _); [by vm_compute|]. exists n. exact Hn.
Defined.

Lemma remote_exit_closes_session_witness :
  exists seen w', run (forward_pty_output fw shell_output None) w_attached = (tt, w')
    /\ sv_sessions (w_db w') !! 100 = Some (with_status s_active Closed (Some 5000) seen).
Proof.
  destruct (remote_exit_closes_session fw shell_output s_active w_attached) as (seen & e & w' & Hrun & Hs & _);
    [by apply db_up_sound; vm_compute|by vm_compute..|].
  exists seen, w'. split; [exact Hrun|]. rewrite Hs. apply lookup_insert_eq.
Defined.

Lemma detach_reopens_closed_session_witness :
  let w1 := (run (forward_pty_output fw shell_output None) w_attached).2 in
  let w2 := (run (detach_attachment cfg user 100 102 (Some 3)) w1).2 in
  exists s2, sv_sessions (w_db w2) !! 100 = Some s2 /\ ts_status s2 = Detached.
Proof.
  destruct (detach_reopens_closed_session cfg fw shell_output 100 user 102 (Some 3) s_active a_attached
    l_live w_attached client_attached) as (_ & (s2 & Hs2 & Hd & _) & _); [by vm_compute..|].
  exists s2. split; [exact Hs2|exact Hd].
Defined.
