(* ===== verification/Recording.v ===== *)
(** * The recording writer

    Models [crates/relayterm-terminal/src/recording.rs]: the bounded queue between the forwarder
    and a writer task, the tracker of frames that were dropped for recording, and the task that
    batches frames into chunk rows and brackets what was lost with [replay_gap] markers.  The
    producer side ([EnabledHandle]) and the task are one system whose steps are interleaved: a
    call of the handle, the task taking its next command, another session writing to the same
    tables.  The repository is the interface [RecordingStore]; an append may fail. *)

From S2P Require Import Prelude Core.

(** ** Rows *)

(** [CreateTerminalRecordingChunk]; encryption and compression have the single value [None]. *)
Record CreateTerminalRecordingChunk := mkChunk {
  ch_session : TerminalSessionId;
  ch_seq_start : Z;
  ch_seq_end : Z;
  ch_byte_len : Z;
  ch_payload : list Byte.byte
}.

(** [CreateTerminalRecordingMarker] *)
Record CreateTerminalRecordingMarker := mkMarker {
  mk_session : TerminalSessionId;
  mk_kind : TerminalRecordingMarkerKind;
  mk_seq : Z;
  mk_payload : json
}.

(** A persisted row of a session's recording. *)
Inductive RecordingRow :=
| RowChunk (c : CreateTerminalRecordingChunk)
| RowMarker (m : CreateTerminalRecordingMarker).

Definition is_object (j : json) : bool := match j with JObj _ => true | _ => false end.

(** [trait TerminalRecordingRepository], as far as the writer uses it, with the rows of a session
    in the order they were inserted. *)
Class RecordingStore (D : Type) := {
  rs_append_chunk : CreateTerminalRecordingChunk -> D -> result RepositoryError unit * D;
  rs_append_marker : CreateTerminalRecordingMarker -> D -> result RepositoryError unit * D;
  rs_rows : TerminalSessionId -> D -> list RecordingRow
}.

(** What an append does: it fails and changes nothing, or adds its row to its session. *)
Definition appended `{RecordingStore D} (d : D) (rd : result RepositoryError unit * D)
  (session : TerminalSessionId) (row : RecordingRow) : Prop :=
  forall s, rs_rows s rd.2 =
    match rd.1 with
    | Ok _ => rs_rows s d ++ (if decide (s = session) then [row] else [])
    | Err _ => rs_rows s d
    end.

Class RecordingStoreLaws (D : Type) `{RecordingStore D} : Prop := {
  law_append_chunk c d : appended d (rs_append_chunk c d) (ch_session c) (RowChunk c);
  law_append_marker m d : appended d (rs_append_marker m d) (mk_session m) (RowMarker m)
}.

(** ** Configuration and commands *)

Definition QUEUE_CAPACITY : Z := 256.

(** [RecordingWriterConfig] *)
Record RecordingWriterConfig := mkWriterConfig {
  chunk_target_bytes : Z;
  chunk_hard_cap_bytes : Z
}.

(** [RecordingWriterConfig::DEFAULT] *)
Definition writer_config_default : RecordingWriterConfig := mkWriterConfig (64 * 1024) (2 * 1024 * 1024).

(** [replay_gap_reason] *)
Definition WRITER_OVERFLOW : string := "writer_overflow".
Definition WRITER_ERROR : string := "writer_error".
Definition FRAME_OVERSIZED : string := "frame_oversized".

(** [PendingGap] *)
Record PendingGap := mkGap { from_seq : Z; to_seq : Z; reason : string }.

(** [WriterCommand] *)
Inductive WriterCommand :=
| CmdOutput (seq : Z) (data : list Byte.byte) (gap_before : option PendingGap)
| CmdMarker (kind : TerminalRecordingMarkerKind) (seq : Z) (payload : json)
| CmdShutdown (last_seq : Z).

(** [ChunkBatch] *)
Record ChunkBatch := mkBatch { seq_start : Z; seq_end : Z; payload : list Byte.byte }.

(** ** Gap tracking *)

(** [merge_gaps] *)
Definition merge_gaps (a b : PendingGap) : PendingGap :=
  mkGap (Z.min (from_seq a) (from_seq b)) (Z.max (to_seq a) (to_seq b)) (reason a).

(** [extend_gap] *)
Definition extend_gap (slot : option PendingGap) (seq : Z) (reason_ : string) : option PendingGap :=
  Some (match slot with
        | Some existing => mkGap (Z.min (from_seq existing) seq) (Z.max (to_seq existing) seq) (reason existing)
        | None => mkGap seq seq reason_
        end).

(** [restore_gap] *)
Definition restore_gap (slot : option PendingGap) (gap : PendingGap) : option PendingGap :=
  Some (match slot with Some existing => merge_gaps existing gap | None => gap end).

(** ** The producer's handle *)

(** [EnabledHandle] with the channel's buffer; [h_closed] when the receiver is gone. *)
Record EnabledHandle := mkHandle {
  h_queue : list WriterCommand;
  h_closed : bool;
  h_gap : option PendingGap;
  h_hard_cap : Z
}.

Inductive TrySendError := Full | ChannelClosed.

(** [mpsc::Sender::try_send] *)
Definition try_send (h : EnabledHandle) (cmd : WriterCommand) : result TrySendError EnabledHandle :=
  if h_closed h then Err ChannelClosed
  else if QUEUE_CAPACITY <=? len (h_queue h) then Err Full
  else Ok (mkHandle (h_queue h ++ [cmd]) (h_closed h) (h_gap h) (h_hard_cap h)).

Definition set_gap (h : EnabledHandle) (g : option PendingGap) : EnabledHandle :=
  mkHandle (h_queue h) (h_closed h) g (h_hard_cap h).

(** [RecordingWriter::record_output] *)
Definition record_output (h : EnabledHandle) (seq : Z) (bytes : list Byte.byte) : EnabledHandle :=
  if h_hard_cap h <? len bytes then set_gap h (extend_gap (h_gap h) seq FRAME_OVERSIZED)
  else
    let gap_before := h_gap h in
    let h := set_gap h None in
    match try_send h (CmdOutput seq bytes gap_before) with
    | Ok h' => h'
    | Err Full =>
        let h := match gap_before with
                 | Some g => set_gap h (restore_gap (h_gap h) g)
                 | None => h
                 end in
        set_gap h (extend_gap (h_gap h) seq WRITER_OVERFLOW)
    | Err ChannelClosed => h
    end.

(** [RecordingWriter::record_marker] *)
Definition record_marker (h : EnabledHandle) (kind : TerminalRecordingMarkerKind) (seq : Z)
  (payload : json) : EnabledHandle :=
  if (seq =? 0) && negb (allows_seq_zero kind) then h
  else if i64_max <? seq then h
  else match try_send h (CmdMarker kind seq payload) with Ok h' => h' | Err _ => h end.

(** The send of [RecordingWriter::shutdown], which waits for a place in the queue. *)
Definition shutdown (h : EnabledHandle) (last_seq : Z) : EnabledHandle :=
  if h_closed h then h
  else mkHandle (h_queue h ++ [CmdShutdown (Z.min last_seq i64_max)]) (h_closed h) (h_gap h) (h_hard_cap h).

(** [RecordingWriter::enabled]: a fresh queue with the [started] marker in it. *)
Definition enabled (config : RecordingWriterConfig) : EnabledHandle :=
  let h := mkHandle [] false None (chunk_hard_cap_bytes config) in
  match try_send h (CmdMarker MkStarted 0 (JObj [])) with Ok h' => h' | Err _ => h end.

(** ** The writer task *)

Definition i32_max : Z := 2 ^ 31 - 1.

Section task.
Context {D : Type} `{!RecordingStore D}.
Context (session_id : TerminalSessionId).

(** [write_marker] *)
Definition write_marker (kind : TerminalRecordingMarkerKind) (seq : Z) (payload : json) (d : D) : D :=
  (rs_append_marker (mkMarker session_id kind seq payload) d).2.

Definition gap_payload (gap : PendingGap) : json :=
  JObj [("from_seq"%string, JNum (from_seq gap)); ("to_seq"%string, JNum (to_seq gap));
        ("reason"%string, JStr (lit (reason gap)))].

(** [write_replay_gap] *)
Definition write_replay_gap (gap : PendingGap) (d : D) : D :=
  if i64_max <? from_seq gap then d
  else if i64_max <? to_seq gap then d
  else write_marker MkReplayGap (Z.max (to_seq gap) 1) (gap_payload gap) d.

(** [flush_chunk] *)
Definition flush_chunk (batch : option ChunkBatch) (d : D) : D :=
  match batch with
  | None => d
  | Some b =>
      if len (payload b) =? 0 then d
      else if i32_max <? len (payload b) then d
      else if i64_max <? seq_start b then d
      else if i64_max <? seq_end b then d
      else
        match rs_append_chunk (mkChunk session_id (seq_start b) (seq_end b) (len (payload b)) (payload b)) d with
        | (Ok _, d') => d'
        | (Err _, d') => write_replay_gap (mkGap (seq_start b) (seq_end b) WRITER_ERROR) d'
        end
  end.

(** The local variables of [writer_task]; [Draining] is the inner loop after a [Shutdown]. *)
Inductive TaskPhase := Running | Draining (last_seq : Z) | Done.

Record TaskState := mkTask {
  tk_open : option ChunkBatch;
  tk_highest : Z;
  tk_phase : TaskPhase
}.

(** [ChunkBatch::would_overshoot_hard_cap] *)
Definition would_overshoot_hard_cap (b : ChunkBatch) (frame_len hard_cap : Z) : bool :=
  hard_cap <? saturating_add (len (payload b)) frame_len.

(** [ChunkBatch::append] *)
Definition batch_append (b : ChunkBatch) (seq : Z) (data : list Byte.byte) : ChunkBatch :=
  mkBatch (seq_start b) seq (payload b ++ data).

(** The [Output] arm, the same in the main loop and in the drain. *)
Definition on_output (cfg : RecordingWriterConfig) (seq : Z) (data : list Byte.byte)
  (gap_before : option PendingGap) (st : TaskState) (d : D) : TaskState * D :=
  let '(open, d) :=
    match gap_before with
    | Some gap => (None, write_replay_gap gap (flush_chunk (tk_open st) d))
    | None => (tk_open st, d)
    end in
  let highest := Z.max (tk_highest st) seq in
  if chunk_hard_cap_bytes cfg <? len data then
    let d := flush_chunk open d in
    (mkTask None highest (tk_phase st), write_replay_gap (mkGap seq seq FRAME_OVERSIZED) d)
  else
    let '(batch, d) :=
      match open with
      | Some b =>
          if would_overshoot_hard_cap b (len data) (chunk_hard_cap_bytes cfg)
          then (mkBatch seq seq data, flush_chunk (Some b) d)
          else (batch_append b seq data, d)
      | None => (mkBatch seq seq data, d)
      end in
    if chunk_target_bytes cfg <=? len (payload batch)
    then (mkTask None highest (tk_phase st), flush_chunk (Some batch) d)
    else (mkTask (Some batch) highest (tk_phase st), d).

(** The [Marker] arm of the main loop; the drain does not track [highest_seq_observed]. *)
Definition on_marker (kind : TerminalRecordingMarkerKind) (seq : Z) (pl : json)
  (st : TaskState) (d : D) : TaskState * D :=
  let d := write_marker kind seq pl (flush_chunk (tk_open st) d) in
  let highest :=
    match tk_phase st with
    | Running => if 0 <=? seq then Z.max (tk_highest st) seq else tk_highest st
    | _ => tk_highest st
    end in
  (mkTask None highest (tk_phase st), d).

(** The task takes one command. *)
Definition on_command (cfg : RecordingWriterConfig) (cmd : WriterCommand) (st : TaskState) (d : D)
  : TaskState * D :=
  match cmd with
  | CmdOutput seq data gap => on_output cfg seq data gap st d
  | CmdMarker kind seq pl => on_marker kind seq pl st d
  | CmdShutdown last =>
      match tk_phase st with
      | Running => (mkTask (tk_open st) (tk_highest st) (Draining last), d)
      | _ => (st, d)
      end
  end.

(** The drained task: trailing chunk, [closed] marker, return. *)
Definition finish (last_seq : Z) (st : TaskState) (d : D) : TaskState * D :=
  let d := flush_chunk (tk_open st) d in
  let close_seq := if 1 <=? last_seq then last_seq else 1 in
  (mkTask None (tk_highest st) Done,
   write_marker MkClosed close_seq (JObj [("reason"%string, JStr (lit "session_close"))]) d).

(** The task after every sender was dropped without a shutdown. *)
Definition finish_dropped (st : TaskState) (d : D) : TaskState * D :=
  let d := flush_chunk (tk_open st) d in
  (mkTask None (tk_highest st) Done,
   write_marker MkClosed (Z.min (Z.max (tk_highest st) 1) i64_max)
     (JObj [("reason"%string, JStr (lit "writer_dropped"))]) d).

End task.

(** ** The system *)

Record Recorder (D : Type) := mkRecorder {
  rc_handle : EnabledHandle;
  rc_task : TaskState;
  rc_store : D
}.
Arguments mkRecorder {D}.
Arguments rc_handle {D}.
Arguments rc_task {D}.
Arguments rc_store {D}.

(** One round of [writer_task]: take the next command, or leave the drain when the queue is
    empty.  When the task returns its receiver is dropped. *)
Definition task_round {D} `{!RecordingStore D} (session : TerminalSessionId)
  (cfg : RecordingWriterConfig) (r : Recorder D) : Recorder D :=
  let h := rc_handle r in
  match tk_phase (rc_task r), h_queue h with
  | Done, _ => r
  | _, cmd :: q =>
      let '(st, d) := on_command session cfg cmd (rc_task r) (rc_store r) in
      mkRecorder (mkHandle q (h_closed h) (h_gap h) (h_hard_cap h)) st d
  | Running, [] => r
  | Draining last, [] =>
      let '(st, d) := finish session last (rc_task r) (rc_store r) in
      mkRecorder (mkHandle [] true (h_gap h) (h_hard_cap h)) st d
  end.

Definition on_handle {D} (f : EnabledHandle -> EnabledHandle) (r : Recorder D) : Recorder D :=
  mkRecorder (f (rc_handle r)) (rc_task r) (rc_store r).

Definition recorder_start {D} (cfg : RecordingWriterConfig) (d : D) : Recorder D :=
  mkRecorder (enabled cfg) (mkTask None 0 Running) d.

(** ** Interleavings *)

Section accounting.
Context {D : Type} `{!RecordingStore D, !RecordingStoreLaws D}.
Context (session : TerminalSessionId) (cfg : RecordingWriterConfig).
(** The bytes the forwarder stamped with a sequence number. *)
Context (data_of : Z -> list Byte.byte).
(** States of the store in which [replay_gap] markers of the session are accepted; chunk writes
    may fail in them. *)
Context (good : D -> Prop).
Context (Hgood_chunk : forall c d, good d -> good (rs_append_chunk c d).2).
Context (Hgood_marker : forall m d, good d -> good (rs_append_marker m d).2).
Context (Hgaps : forall m d, good d -> mk_session m = session -> mk_kind m = MkReplayGap ->
  1 <= mk_seq m -> is_object (mk_payload m) = true -> exists d', rs_append_marker m d = (Ok tt, d')).

(** [rstep n r n' r']: a step of the system after [n] frames were handed to the writer.  The
    forwarder hands over frame [n + 1]; a marker is recorded; the shutdown is requested; the task
    makes a round; every sender is dropped; another session writes to the store. *)
Inductive rstep : Z -> Recorder D -> Z -> Recorder D -> Prop :=
| rs_output n r :
    tk_phase (rc_task r) <> Done ->
    rstep n r (n + 1) (on_handle (fun h => record_output h (n + 1) (data_of (n + 1))) r)
| rs_marker n r kind seq pl :
    kind <> MkReplayGap -> 0 <= seq ->
    rstep n r n (on_handle (fun h => record_marker h kind seq pl) r)
| rs_shutdown n r last :
    0 <= last -> rstep n r n (on_handle (fun h => shutdown h last) r)
| rs_round n r : rstep n r n (task_round session cfg r)
| rs_dropped n r st d :
    tk_phase (rc_task r) = Running -> h_queue (rc_handle r) = [] ->
    finish_dropped session (rc_task r) (rc_store r) = (st, d) ->
    rstep n r n (mkRecorder (mkHandle [] true (h_gap (rc_handle r)) (h_hard_cap (rc_handle r))) st d)
| rs_others n r d :
    rs_rows session d = rs_rows session (rc_store r) -> good d ->
    rstep n r n (mkRecorder (rc_handle r) (rc_task r) d).

Inductive recording (d0 : D) : Z -> Recorder D -> Prop :=
| recording_start : recording d0 0 (recorder_start cfg d0)
| recording_step n r n' r' : recording d0 n r -> rstep n r n' r' -> recording d0 n' r'.

(** ** What a row accounts for *)

Definition rangeZ (a b : Z) : list Z := seqZ a (b - a + 1).

Definition row_covers (row : RecordingRow) : list Z :=
  match row with
  | RowChunk c => rangeZ (ch_seq_start c) (ch_seq_end c)
  | RowMarker (mkMarker _ MkReplayGap _ (JObj ((_, JNum f) :: (_, JNum t) :: _))) => rangeZ f t
  | RowMarker _ => []
  end.

Definition rows_cover (rows : list RecordingRow) : list Z := rows ≫= row_covers.

(** A chunk is exactly the bytes of the frames it names, and the schema accepts it. *)
Definition chunk_exact (row : RecordingRow) : Prop :=
  match row with
  | RowChunk c =>
      1 <= ch_seq_start c <= ch_seq_end c
      /\ ch_payload c = rangeZ (ch_seq_start c) (ch_seq_end c) ≫= data_of
      /\ ch_byte_len c = len (ch_payload c)
      /\ 0 < ch_byte_len c <= chunk_hard_cap_bytes cfg
  | RowMarker m => mk_seq m >= 1 \/ (mk_kind m = MkStarted /\ mk_seq m = 0)
  end.

(** The frames in the open chunk, in a queued command, and in the pending gap. *)
Definition open_covers (o : option ChunkBatch) : list Z :=
  match o with Some b => rangeZ (seq_start b) (seq_end b) | None => [] end.
Definition gap_covers (g : option PendingGap) : list Z :=
  match g with Some g => rangeZ (from_seq g) (to_seq g) | None => [] end.
Definition cmd_covers (c : WriterCommand) : list Z :=
  match c with CmdOutput seq _ g => gap_covers g ++ [seq] | _ => [] end.

(** ** The invariant

    Frames [1..p] are in rows, [p+1..q] in the open chunk, [q+1..r] in the queue and [r+1..n] in
    the pending gap. *)

Definition batch_at (p q : Z) (b : ChunkBatch) : Prop :=
  seq_start b = p + 1 /\ seq_end b = q /\ p < q
  /\ payload b = rangeZ (p + 1) q ≫= data_of /\ 0 < len (payload b) <= chunk_hard_cap_bytes cfg.

Definition open_at (p q : Z) (o : option ChunkBatch) : Prop :=
  match o with Some b => batch_at p q b | None => q = p end.

Definition gap_at (r n : Z) (g : option PendingGap) : Prop :=
  match g with Some g => from_seq g = r + 1 /\ to_seq g = n /\ r < n | None => n = r end.

Fixpoint queue_at (q r : Z) (cmds : list WriterCommand) : Prop :=
  match cmds with
  | [] => r = q
  | CmdOutput seq data g :: cmds =>
      gap_at q (seq - 1) g /\ data = data_of seq /\ len data <= chunk_hard_cap_bytes cfg
      /\ queue_at seq r cmds
  | CmdMarker kind seq _ :: cmds =>
      kind <> MkReplayGap /\ (1 <= seq \/ (kind = MkStarted /\ seq = 0)) /\ queue_at q r cmds
  | CmdShutdown _ :: cmds => queue_at q r cmds
  end.

Definition rows_at (p : Z) (d : D) : Prop :=
  rows_cover (rs_rows session d) = rangeZ 1 p /\ Forall chunk_exact (rs_rows session d) /\ good d.

Record accounted (n : Z) (r : Recorder D) : Prop := {
  ac_cap : h_hard_cap (rc_handle r) = chunk_hard_cap_bytes cfg;
  ac_highest : 0 <= tk_highest (rc_task r);
  ac_done : tk_phase (rc_task r) = Done ->
    h_queue (rc_handle r) = [] /\ tk_open (rc_task r) = None;
  ac_open : h_closed (rc_handle r) = true <-> tk_phase (rc_task r) = Done;
  ac_chain : exists p q r', 0 <= p /\ p <= q /\ q <= r' /\ r' <= n
    /\ rows_at p (rc_store r)
    /\ open_at p q (tk_open (rc_task r))
    /\ queue_at q r' (h_queue (rc_handle r))
    /\ gap_at r' n (h_gap (rc_handle r))
}.

Lemma rangeZ_app a b c : a <= b + 1 -> b <= c -> rangeZ a b ++ rangeZ (b + 1) c = rangeZ a c.
Proof.
  intros H1 H2. unfold rangeZ. replace (b + 1) with (a + (b - a + 1)) at 1 by lia.
  rewrite <- seqZ_app by lia. f_equal. lia.
Qed.

Lemma rangeZ_single a : rangeZ a a = [a].
Proof. unfold rangeZ. replace (a - a + 1) with 1 by lia. rewrite seqZ_cons by lia. done. Qed.

Lemma rangeZ_nil a : rangeZ (a + 1) a = [].
Proof. unfold rangeZ. apply seqZ_nil. lia. Qed.

Lemma rows_at_snoc p q d d' row :
  rows_at p d -> rs_rows session d' = rs_rows session d ++ [row] -> good d' ->
  0 <= p <= q -> row_covers row = rangeZ (p + 1) q -> chunk_exact row ->
  rows_at q d'.
Proof.
  intros (Hc & Hf & _) Hd' Hg Hpq Hrow Hex. unfold rows_at. rewrite Hd'.
  split; [|split; [apply Forall_app; split; [done|by apply Forall_singleton]|done]].
  unfold rows_cover in *. rewrite bind_app. cbn. rewrite Hc, Hrow, app_nil_r.
  apply rangeZ_app; lia.
Qed.

Lemma rows_at_same p d d' :
  rows_at p d -> rs_rows session d' = rs_rows session d -> good d' -> rows_at p d'.
Proof. intros (Hc & Hf & _) Hd' Hg. unfold rows_at. by rewrite Hd'. Qed.

(** *** The writes of the task *)

Lemma write_marker_at p kind seq pl d :
  kind <> MkReplayGap -> 1 <= seq \/ (kind = MkStarted /\ seq = 0) -> 0 <= p ->
  rows_at p d -> rows_at p (write_marker session kind seq pl d).
Proof.
  intros Hk Hs Hp Hr. unfold write_marker. set (m := mkMarker _ _ _ _).
  pose proof (law_append_marker m d session) as Hl.
  pose proof (Hgood_marker m d (proj2 (proj2 Hr))) as Hg.
  destruct (rs_append_marker m d) as [[u|e] d']; cbn [fst snd] in *; [|by apply (rows_at_same p d)].
  rewrite decide_True in Hl by done. apply (rows_at_snoc p p d d' (RowMarker m)); [done|done|done|lia|..].
  - unfold rangeZ. rewrite seqZ_nil by lia. by destruct kind.
  - cbn. destruct Hs as [Hs|Hs]; [left; lia|by right].
Qed.

Lemma write_replay_gap_at p g d :
  0 <= p -> from_seq g = p + 1 -> from_seq g <= to_seq g <= i64_max ->
  rows_at p d -> rows_at (to_seq g) (write_replay_gap session g d).
Proof.
  intros Hp Hf Ht Hr. unfold write_replay_gap, write_marker.
  rewrite (proj2 (Z.ltb_ge i64_max (from_seq g))), (proj2 (Z.ltb_ge i64_max (to_seq g))) by lia.
  set (m := mkMarker session MkReplayGap _ _).
  destruct (Hgaps m d (proj2 (proj2 Hr)) eq_refl eq_refl) as [d' Hd']; [change (mk_seq m) with (Z.max (to_seq g) 1); lia|done|].
  pose proof (law_append_marker m d session) as Hl.
  pose proof (Hgood_marker m d (proj2 (proj2 Hr))) as Hg. rewrite Hd' in *. cbn [fst snd] in *.
  rewrite decide_True in Hl by done. apply (rows_at_snoc p _ d d' (RowMarker m)); [done|done|done|lia|..].
  - cbn. by rewrite Hf.
  - left. change (mk_seq m) with (Z.max (to_seq g) 1). lia.
Qed.

Lemma flush_chunk_at p q o d :
  0 <= p -> q <= i64_max -> chunk_hard_cap_bytes cfg <= i32_max ->
  open_at p q o -> rows_at p d ->
  rows_at q (flush_chunk session o d).
Proof.
  intros Hp Hq Hcap Ho Hr. destruct o as [b|]; cbn [open_at flush_chunk] in *; [|by subst].
  destruct Ho as (Hs & He & Hlt & Hpl & Hlen).
  rewrite (proj2 (Z.eqb_neq (len (payload b)) 0)) by lia.
  rewrite !(proj2 (Z.ltb_ge _ _)) by lia.
  set (c := mkChunk _ _ _ _ _). pose proof (law_append_chunk c d session) as Hl.
  pose proof (Hgood_chunk c d (proj2 (proj2 Hr))) as Hg.
  destruct (rs_append_chunk c d) as [[u|e] d'] eqn:Ec; cbn [fst snd] in *.
  - rewrite decide_True in Hl by done. apply (rows_at_snoc p q d d' (RowChunk c)); [done|done|done|lia|..].
    + cbn. by rewrite Hs, He.
    + cbn. rewrite Hs, He. split_and!; try lia; done.
  - rewrite <- He. apply (write_replay_gap_at p (mkGap (seq_start b) (seq_end b) WRITER_ERROR));
      cbn [from_seq to_seq]; [lia|lia|lia|by apply (rows_at_same p d)].
Qed.

(** *** One round of the task *)

Context (Htarget : chunk_hard_cap_bytes cfg <= i32_max).
Context (Hdata : forall n, 0 < len (data_of n)).

Lemma open_single p seq data :
  seq = p + 1 -> data = data_of seq -> len data <= chunk_hard_cap_bytes cfg ->
  batch_at p seq (mkBatch seq seq data).
Proof.
  intros -> -> Hlen. split_and!; cbn [seq_start seq_end payload]; try lia; [|apply Hdata].
  rewrite rangeZ_single. cbn. by rewrite app_nil_r.
Qed.

Lemma batch_append_at p q b data :
  0 <= p -> batch_at p q b -> data = data_of (q + 1) ->
  len (payload b) + len data <= chunk_hard_cap_bytes cfg ->
  batch_at p (q + 1) (batch_append b (q + 1) data).
Proof.
  intros Hp (Hs & He & Hlt & Hpl & Hlen) -> Hle.
  split_and!; cbn [batch_append seq_start seq_end payload]; try done; try lia.
  - rewrite Hpl, <- (rangeZ_app (p + 1) q (q + 1)) by lia. by rewrite rangeZ_single, bind_app, bind_singleton.
  - rewrite len_app. pose proof (len_nonneg (data_of (q + 1))). lia.
  - rewrite len_app. done.
Qed.

(** A gap in front of a frame: the open chunk is flushed and the gap bracketed. *)
Lemma gap_stage_at p q seq g o d :
  0 <= p <= q -> seq - 1 <= i64_max ->
  rows_at p d -> open_at p q o -> gap_at q (seq - 1) g ->
  exists p1 o1 d1,
    match g with
    | Some gap => (None, write_replay_gap session gap (flush_chunk session o d))
    | None => (o, d)
    end = (o1, d1)
    /\ 0 <= p1 <= seq - 1 /\ rows_at p1 d1 /\ open_at p1 (seq - 1) o1.
Proof.
  intros Hpq Hseq Hrows Hopen Hgap. destruct g as [g|]; cbn [gap_at] in Hgap.
  - destruct Hgap as (Hf & Ht & Hlt). exists (to_seq g). do 2 eexists.
    split; [done|]. split; [lia|]. split; [|by cbn]. apply (write_replay_gap_at q); [lia|lia|lia|].
    apply (flush_chunk_at p); try done; lia.
  - subst q. exists p, o, d. split; [done|]. split; [lia|]. by split.
Qed.

(** The frame joins the open chunk, or starts one when it would not fit. *)
Lemma batch_stage_at p seq data o d :
  0 <= p <= seq - 1 -> seq - 1 <= i64_max ->
  rows_at p d -> open_at p (seq - 1) o ->
  data = data_of seq -> len data <= chunk_hard_cap_bytes cfg ->
  exists p2 batch d2,
    match o with
    | Some b => if would_overshoot_hard_cap b (len data) (chunk_hard_cap_bytes cfg)
                then (mkBatch seq seq data, flush_chunk session (Some b) d)
                else (batch_append b seq data, d)
    | None => (mkBatch seq seq data, d)
    end = (batch, d2)
    /\ 0 <= p2 < seq /\ rows_at p2 d2 /\ batch_at p2 seq batch.
Proof.
  intros Hp Hseq Hrows Hopen Hd Hlen. destruct o as [b|].
  - destruct (would_overshoot_hard_cap _ _ _) eqn:Eo.
    + exists (seq - 1), (mkBatch seq seq data), (flush_chunk session (Some b) d).
      split; [done|]. split; [lia|]. split; [by apply (flush_chunk_at p); try lia|].
      apply open_single; [lia|done|done].
    + exists p, (batch_append b seq data), d. split; [done|]. split; [lia|]. split; [done|].
      unfold would_overshoot_hard_cap, saturating_add in Eo. bool_props.
      replace seq with (seq - 1 + 1) by lia. apply batch_append_at; [lia|done| |].
      * by replace (seq - 1 + 1) with seq by lia.
      * unfold i32_max, usize_max, u64_max in *. lia.
  - cbn in Hopen. exists p, (mkBatch seq seq data), d. split; [done|]. split; [lia|].
    split; [done|]. apply open_single; [lia|done|done].
Qed.

Lemma on_output_at p q seq data g st d st' d' :
  0 <= p <= q -> seq <= i64_max ->
  on_output session cfg seq data g st d = (st', d') ->
  rows_at p d -> open_at p q (tk_open st) ->
  gap_at q (seq - 1) g -> data = data_of seq -> len data <= chunk_hard_cap_bytes cfg ->
  tk_phase st' = tk_phase st /\ tk_highest st' = Z.max (tk_highest st) seq
  /\ exists p', 0 <= p' <= seq /\ rows_at p' d' /\ open_at p' seq (tk_open st').
Proof.
  intros Hpq Hseq Hon Hrows Hopen Hgap Hd Hlen. unfold on_output in Hon.
  destruct (gap_stage_at p q seq g (tk_open st) d) as (p1 & o1 & d1 & E1 & Hp1 & Hr1 & Ho1);
    [lia|lia|done..|]. rewrite E1 in Hon.
  rewrite (proj2 (Z.ltb_ge _ _)) in Hon by lia.
  destruct (batch_stage_at p1 seq data o1 d1) as (p2 & batch & d2 & E2 & Hp2 & Hr2 & Hb2);
    [lia|lia|done..|]. rewrite E2 in Hon.
  destruct (chunk_target_bytes cfg <=? _); simplify_eq; (split; [done|split; [done|]]).
  - exists seq. split; [lia|]. split; [|done].
    apply (flush_chunk_at p2 seq (Some batch)); try done; lia.
  - exists p2. split; [lia|]. by split.
Qed.

Lemma on_marker_at p q kind seq pl st d :
  0 <= p <= q -> q <= i64_max ->
  rows_at p d -> open_at p q (tk_open st) ->
  kind <> MkReplayGap -> (1 <= seq \/ (kind = MkStarted /\ seq = 0)) ->
  rows_at q (on_marker session kind seq pl st d).2.
Proof.
  intros Hpq Hq Hrows Hopen Hk Hs. cbn. apply write_marker_at; [done|done|lia|].
  by apply (flush_chunk_at p); try lia.
Qed.

(** *** The invariant is inductive *)

Lemma queue_at_app q r cmds c :
  queue_at q r cmds -> forall r', queue_at r r' [c] -> queue_at q r' (cmds ++ [c]).
Proof.
  revert q. induction cmds as [|c' cmds IH]; intros q Hq r' Hc; [cbn in Hq; by subst|].
  cbn [app queue_at] in *. destruct c'; naive_solver.
Qed.

Lemma queue_at_le q r cmds : queue_at q r cmds -> q <= r.
Proof.
  revert q. induction cmds as [|[seq data g|k seq pl|l] cmds IH]; intros q; cbn [queue_at]; [lia|..].
  - intros (Hg & _ & _ & Hq%IH). destruct g as [g|]; cbn in Hg; lia.
  - intros (_ & _ & Hq). by apply IH.
  - apply IH.
Qed.

Lemma extend_gap_at r n g why : gap_at r n g -> 0 <= r -> gap_at r (n + 1) (extend_gap g (n + 1) why).
Proof. destruct g as [g|]; cbn; intros; split_and!; lia. Qed.

Lemma accounted_output n r :
  accounted n r -> tk_phase (rc_task r) <> Done ->
  accounted (n + 1) (on_handle (fun h => record_output h (n + 1) (data_of (n + 1))) r).
Proof.
  intros [Hcap Hhi Hdone Hcl (p & q & r' & Hp & Hpq & Hqr & Hrn & Hrows & Hopen & Hq & Hg)] Hph.
  destruct r as [[queue closed gap cap] tk d]. cbn in *. subst cap.
  assert (closed = false) as -> by (destruct closed; [by destruct Hph; apply Hcl|done]).
  unfold on_handle, record_output, try_send, set_gap, restore_gap. cbn [h_hard_cap h_gap h_queue h_closed rc_handle].
  destruct (chunk_hard_cap_bytes cfg <? _) eqn:Ebig; bool_props.
  - split; try done. exists p, q, r'. split_and!; try done; [lia|]. by apply extend_gap_at; [|lia].
  - destruct (QUEUE_CAPACITY <=? len queue).
    + destruct gap as [g|]; (split; try done); exists p, q, r'; split_and!; try done; try lia;
        apply (extend_gap_at r' n (Some g)) || apply (extend_gap_at r' n None); done || lia.
    + split; try done; cbn [rc_task rc_handle h_queue h_closed].
      exists p, q, (n + 1). split_and!; try done; try lia.
      apply (queue_at_app _ r'); [done|]. cbn. replace (n + 1 - 1) with n by lia.
      by split_and!.
Qed.

Lemma accounted_marker n r kind seq pl :
  accounted n r -> kind <> MkReplayGap -> 0 <= seq ->
  accounted n (on_handle (fun h => record_marker h kind seq pl) r).
Proof.
  intros Ha Hk Hseq. unfold record_marker, on_handle. destruct r as [[queue closed gap cap] tk d]. cbn.
  destruct (_ && _) eqn:E0; [done|]. destruct (i64_max <? seq); [done|].
  unfold try_send. cbn. destruct closed eqn:Ecl; [done|]. destruct (_ <=? _); [done|].
  destruct Ha as [Hcap Hhi Hdone Hcl (p & q & r' & Hp & Hpq & Hqr & Hrn & Hrows & Hopen & Hq & Hg)].
  cbn in *. split; try done; cbn; [intros [= Hd%Hcl]|]; try done.
  exists p, q, r'. split_and!; try done. apply (queue_at_app _ r'); [done|]. cbn.
  split_and!; try done. destruct (decide (seq = 0)) as [->|]; [right|left; lia].
  by destruct kind.
Qed.

Lemma accounted_shutdown n r last :
  accounted n r -> accounted n (on_handle (fun h => shutdown h last) r).
Proof.
  intros Ha. unfold shutdown, on_handle. destruct r as [[queue closed gap cap] tk d]. cbn.
  destruct closed eqn:Ecl; [done|].
  destruct Ha as [Hcap Hhi Hdone Hcl (p & q & r' & Hp & Hpq & Hqr & Hrn & Hrows & Hopen & Hq & Hg)].
  cbn in *. split; try done; cbn; [intros [= Hd%Hcl]|]; try done.
  exists p, q, r'. split_and!; try done. by apply (queue_at_app _ r').
Qed.

(** The task handles the command at the head of the queue. *)
Lemma accounted_command n r cmd q0 st d :
  accounted n r -> n <= i64_max -> tk_phase (rc_task r) <> Done ->
  h_queue (rc_handle r) = cmd :: q0 ->
  on_command session cfg cmd (rc_task r) (rc_store r) = (st, d) ->
  accounted n (mkRecorder (mkHandle q0 (h_closed (rc_handle r)) (h_gap (rc_handle r))
                             (h_hard_cap (rc_handle r))) st d).
Proof.
  intros [Hcap Hhi Hdone Hcl (p & q & r' & Hp & Hpq & Hqr & Hrn & Hrows & Hopen & Hq & Hg)]
    Hn Hph Equeue Hon.
  rewrite Equeue in Hq. cbn [queue_at] in Hq. destruct cmd as [seq data g|kind seq pl|last]; cbn in Hon.
  - destruct Hq as (Hgq & Hd & Hlen & Hq). pose proof (queue_at_le _ _ _ Hq) as Hle.
    destruct (on_output_at p q seq data g (rc_task r) (rc_store r) st d) as
      (Hph' & Hhi' & p' & Hp' & Hr' & Ho'); [lia|lia|done..|].
    split; cbn [rc_handle rc_task rc_store h_hard_cap h_queue h_closed h_gap]; rewrite ?Hph'; try done; [lia|].
    exists p', seq, r'. split_and!; try done; lia.
  - destruct Hq as (Hk & Hs & Hq).
    assert (Hrows' : rows_at q d).
    { replace d with (on_marker session kind seq pl (rc_task r) (rc_store r)).2 by (by rewrite Hon).
      apply (on_marker_at p q); try done; lia. }
    unfold on_marker in Hon. injection Hon as <- _.
    split; cbn [rc_handle rc_task rc_store h_hard_cap h_queue h_closed h_gap tk_phase tk_open tk_highest]; try done.
    { destruct (tk_phase (rc_task r)); [destruct (0 <=? seq)|..]; lia. }
    exists q, q, r'. split_and!; try done; lia.
  - assert (tk_open st = tk_open (rc_task r) /\ tk_highest st = tk_highest (rc_task r) /\ d = rc_store r
      /\ tk_phase st <> Done) as (Eo & Eh & -> & Hph').
    { destruct (tk_phase (rc_task r)) eqn:E; simplify_eq/=; try done. by rewrite E. }
    split; cbn [rc_handle rc_task rc_store h_hard_cap h_queue h_closed h_gap]; rewrite ?Eh; try done.
    { split; [by intros ?%Hcl|done]. }
    exists p, q, r'. rewrite Eo. done.
Qed.

(** The end of the task: the trailing chunk and the [closed] marker. *)
Lemma finish_at p q st d seq pl :
  0 <= p <= q -> q <= i64_max -> rows_at p d -> open_at p q (tk_open st) -> 1 <= seq ->
  rows_at q (write_marker session MkClosed seq pl (flush_chunk session (tk_open st) d)).
Proof.
  intros Hpq Hq Hr Ho Hs. apply write_marker_at; [done|by left|lia|]. by apply (flush_chunk_at p); try lia.
Qed.

Lemma accounted_finish n r seq pl :
  accounted n r -> n <= i64_max -> h_queue (rc_handle r) = [] -> 1 <= seq ->
  accounted n (mkRecorder (mkHandle [] true (h_gap (rc_handle r)) (h_hard_cap (rc_handle r)))
    (mkTask None (tk_highest (rc_task r)) Done)
    (write_marker session MkClosed seq pl (flush_chunk session (tk_open (rc_task r)) (rc_store r)))).
Proof.
  intros [Hcap Hhi Hdone Hcl (p & q & r' & Hp & Hpq & Hqr & Hrn & Hrows & Hopen & Hq & Hg)] Hn Equeue Hs.
  rewrite Equeue in Hq. cbn in Hq. subst r'. split; try done.
  exists q, q, q. split_and!; try done; try lia. apply (finish_at p); try done; lia.
Qed.

Lemma accounted_round n r : accounted n r -> n <= i64_max -> accounted n (task_round session cfg r).
Proof.
  intros Ha Hn. unfold task_round.
  destruct (tk_phase (rc_task r)) as [|last|] eqn:Eph; [| |done];
    (destruct (h_queue (rc_handle r)) as [|cmd q0] eqn:Eq; [|
      destruct (on_command _ _ _ _ _) as [st d] eqn:Eon;
      apply (accounted_command n r cmd q0 st d); try done; by rewrite Eph]).
  - done.
  - apply accounted_finish; try done. destruct (1 <=? last) eqn:E; bool_props; lia.
Qed.

Lemma accounted_dropped n r st d :
  accounted n r -> n <= i64_max -> tk_phase (rc_task r) = Running -> h_queue (rc_handle r) = [] ->
  finish_dropped session (rc_task r) (rc_store r) = (st, d) ->
  accounted n (mkRecorder (mkHandle [] true (h_gap (rc_handle r)) (h_hard_cap (rc_handle r))) st d).
Proof.
  intros Ha Hn Hph Hq [= <- <-]. apply accounted_finish; try done.
  pose proof (ac_highest _ _ Ha). unfold i64_max. lia.
Qed.

Lemma recording_mono d0 n r n' r' : recording d0 n r -> rstep n r n' r' -> n <= n'.
Proof. intros _ Hs. destruct Hs; lia. Qed.

Lemma recording_accounted d0 n r :
  rs_rows session d0 = [] -> good d0 -> recording d0 n r -> n <= i64_max -> accounted n r.
Proof.
  intros H0 Hg0 Hrec. induction Hrec as [|n r n' r' Hrec IH Hstep]; intros Hn.
  - split; try done. exists 0, 0, 0. cbn [rc_store rc_task rc_handle recorder_start tk_open].
    unfold rows_at. rewrite H0. split_and!; try done. cbn. split_and!; try done. by right.
  - specialize (IH ltac:(pose proof (recording_mono _ _ _ _ _ Hrec Hstep); lia)).
    destruct Hstep as [n r Hph|n r k seq pl Hk Hs|n r last Hl|n r|n r st d Hph Hq Hf|n r d Hd Hg].
    + by apply accounted_output.
    + by apply accounted_marker.
    + by apply accounted_shutdown.
    + by apply accounted_round.
    + by apply accounted_dropped.
    + destruct IH as [? ? ? ? (p & q & r' & ? & ? & ? & ? & Hrows & ? & ? & ?)]. split; try done.
      exists p, q, r'. split_and!; try done. by apply (rows_at_same p (rc_store r)).
Qed.

Lemma queue_covers q r cmds : 0 <= q -> queue_at q r cmds -> cmds ≫= cmd_covers = rangeZ (q + 1) r.
Proof.
  revert q. induction cmds as [|[seq data g|k seq pl|l] cmds IH]; intros q H0; cbn [queue_at].
  - intros ->. by rewrite rangeZ_nil.
  - intros (Hg & _ & _ & Hq). pose proof (queue_at_le _ _ _ Hq). cbn.
    fold (mbind (M := list) cmd_covers cmds).
    assert (gap_covers g = rangeZ (q + 1) (seq - 1) /\ q <= seq - 1) as [-> Hle].
    { destruct g as [g|]; cbn in *; [split; [f_equal; lia|lia]|]. rewrite Hg. split; [by rewrite rangeZ_nil|lia]. }
    rewrite (IH seq) by (done || lia). rewrite <- rangeZ_single.
    rewrite <- app_assoc, rangeZ_app by lia. replace seq with (seq - 1 + 1) at 2 by lia.
    apply rangeZ_app; lia.
  - intros (_ & _ & Hq). by apply IH.
  - by apply IH.
Qed.

Lemma open_at_covers p q o : open_at p q o -> open_covers o = rangeZ (p + 1) q.
Proof.
  destruct o as [b|]; cbn; [intros (-> & -> & _); done|]. intros ->. by rewrite rangeZ_nil.
Qed.

Lemma gap_at_covers r n g : gap_at r n g -> gap_covers g = rangeZ (r + 1) n.
Proof.
  destruct g as [g|]; cbn; [intros (-> & -> & _); done|]. intros ->. by rewrite rangeZ_nil.
Qed.


(** A finished recording can end in silence.  When the writer task has returned, the rows
    cover the frames up to the pending gap and nothing after it: frames that were dropped last
    (the queue was full, or the frame too large, and no later frame was accepted) stay in the
    producer's gap tracker, which the shutdown does not flush, so no marker tells the reader that
    they are missing. *)
Theorem finished_recording_omits_trailing_gap d0 n r g :
  rs_rows session d0 = [] -> good d0 -> recording d0 n r -> n <= i64_max ->
  tk_phase (rc_task r) = Done -> h_gap (rc_handle r) = Some g ->
  rows_cover (rs_rows session (rc_store r)) = rangeZ 1 (from_seq g - 1)
  /\ from_seq g <= to_seq g /\ to_seq g = n.
Proof.
  intros H0 Hg0 Hrec Hn Hdone Hgap.
  destruct (recording_accounted d0 n r H0 Hg0 Hrec Hn) as
    [_ _ Hd _ (p & q & r' & Hp & Hpq & Hqr & Hrn & (Hcov & Hex & _) & Hopen & Hq & Hg)].
  destruct (Hd Hdone) as [Eq Eo]. rewrite Eq in Hq. rewrite Eo in Hopen. rewrite Hgap in Hg.
  cbn in *. destruct Hg as (Hf & Ht & Hlt). subst. split; [|lia]. rewrite Hcov. f_equal. lia.
Qed.

End accounting.
