(* ===== verification/PgRecording.v ===== *)
(** * The Postgres recording repository and the retention sweep

    Models [crates/relayterm-db/src/repositories/terminal_recording.rs] (appends, paged reads, the
    purge transaction, the eligibility listing, the metadata aggregate),
    [crates/relayterm-terminal/src/retention.rs] (one bounded sweep) and
    [crates/relayterm-terminal/src/retention_worker.rs] (one periodic tick under the advisory
    lock).  The two recording tables are one list of stored rows in the order of insertion; a
    statement may fail with a driver error, and a transaction that fails leaves the tables as they
    were when it began. *)

From stdpp Require Import pretty sorting.
From S2P Require Import Prelude Core SessionStore PgSession Recording.

(** ** Tables *)

Record StoredRow := mkStored { sr_id : Uuid; sr_row : RecordingRow; sr_created_at : Z }.

(** A row of [audit_events]. *)
Record AuditRow := mkAudit {
  au_id : Uuid;
  au_actor_id : option UserId;
  au_kind : string;
  au_payload : json;
  au_remote_addr : option rstr;
  au_recorded_at : Z
}.

Record PgRec := mkPgRec { pr_db : PgDb; pr_rows : list StoredRow; pr_audit : list AuditRow }.

Definition ENTITY_CHUNK : string := "terminal_recording_chunk".
Definition ENTITY_MARKER : string := "terminal_recording_marker".
Definition ENTITY_AUDIT : string := "audit_event".
Definition ENTITY_SESSION : string := "terminal_session".
Definition LIST_LIMIT_CEILING : Z := 1024.

Definition row_session (r : RecordingRow) : TerminalSessionId :=
  match r with RowChunk c => ch_session c | RowMarker m => mk_session m end.

Definition is_chunk (r : RecordingRow) : bool :=
  match r with RowChunk _ => true | RowMarker _ => false end.

Definition rows_of (id : TerminalSessionId) (d : PgRec) : list RecordingRow :=
  filter (fun r => row_session r = id) (map sr_row (pr_rows d)).

(** [TerminalRecordingMarkerKind::as_str] and [from_str_tag] *)
Definition marker_as_str (k : TerminalRecordingMarkerKind) : string :=
  match k with
  | MkStarted => "started"
  | MkAttached => "attached"
  | MkDetached => "detached"
  | MkReattached => "reattached"
  | MkResized => "resized"
  | MkClosed => "closed"
  | MkReplayGap => "replay_gap"
  end.

Definition marker_from_str_tag (v : string) : option TerminalRecordingMarkerKind :=
  if decide (v = "started") then Some MkStarted
  else if decide (v = "attached") then Some MkAttached
  else if decide (v = "detached") then Some MkDetached
  else if decide (v = "reattached") then Some MkReattached
  else if decide (v = "resized") then Some MkResized
  else if decide (v = "closed") then Some MkClosed
  else if decide (v = "replay_gap") then Some MkReplayGap
  else None.

(** ** Statements *)

Definition with_db (db : PgDb) (d : PgRec) : PgRec := mkPgRec db (pr_rows d) (pr_audit d).

(** A statement: the driver fails, or it runs. *)
Definition statement {A} (f : PgRec -> result RepositoryError A * PgRec) (d : PgRec)
  : result RepositoryError A * PgRec :=
  match next_fault (pr_db d) with
  | (Some e, db) => (Err e, with_db db d)
  | (None, db) => f (with_db db d)
  end.

Definition query {A} (f : PgRec -> A) : PgRec -> result RepositoryError A * PgRec :=
  statement (fun d => (Ok (f d), d)).

Definition exec (f : PgRec -> PgRec) : PgRec -> result RepositoryError unit * PgRec :=
  statement (fun d => (Ok tt, f d)).

(** Sequencing with [?]. *)
Definition then_ {A B} (p : PgRec -> result RepositoryError A * PgRec)
  (k : A -> PgRec -> result RepositoryError B * PgRec) (d : PgRec) : result RepositoryError B * PgRec :=
  match p d with (Ok a, d') => k a d' | (Err e, d') => (Err e, d') end.

Notation "'sql' x '<-' p ; k" := (then_ p (fun x => k))
  (at level 10, x binder, p at level 100, k at level 200) : rust_scope.

(** The tables a rolled-back transaction leaves. *)
Definition rollback (before d : PgRec) : PgRec :=
  mkPgRec (mkPgDb (t_users (pr_db before)) (t_profiles (pr_db before)) (t_sessions (pr_db before))
             (t_attachments (pr_db before)) (t_events (pr_db before)) (clock (pr_db before))
             (next_uuid (pr_db d)) (faults (pr_db d)))
    (pr_rows before) (pr_audit before).

(** [pool.begin()] ... [tx.commit()]; the body answers [(a, true)] to commit and [(a, false)] to
    drop the transaction. *)
Definition transaction {A} (body : PgRec -> result RepositoryError (A * bool) * PgRec) (d : PgRec)
  : result RepositoryError A * PgRec :=
  match statement (fun d => (Ok tt, d)) d with
  | (Err e, d1) => (Err e, d1)
  | (Ok _, d1) =>
      match body d1 with
      | (Err e, d2) => (Err e, rollback d1 d2)
      | (Ok (a, false), d2) => (Ok a, rollback d1 d2)
      | (Ok (a, true), d2) =>
          match statement (fun d => (Ok tt, d)) d2 with
          | (Ok _, d3) => (Ok a, d3)
          | (Err e, d3) => (Err e, rollback d1 d3)
          end
      end
  end.

Definition fresh_uuid (d : PgRec) : Uuid * PgRec :=
  let '(id, db) := new_v4 (pr_db d) in (id, with_db db d).

Definition add_row (r : StoredRow) (d : PgRec) : PgRec :=
  mkPgRec (pr_db d) (pr_rows d ++ [r]) (pr_audit d).

(** ** Schema constraints of the recording tables *)

Definition chunk_violation (d : PgRec) (c : CreateTerminalRecordingChunk) : option sqlx_error :=
  if ch_seq_start c <? 1 then Some (OtherConstraint (Some "terminal_recording_chunks_seq_start_chk"%string))
  else if ch_seq_end c <? ch_seq_start c then
    Some (OtherConstraint (Some "terminal_recording_chunks_seq_end_chk"%string))
  else if negb ((0 <? ch_byte_len c) && (ch_byte_len c <=? 2097152)) then
    Some (OtherConstraint (Some "terminal_recording_chunks_byte_len_chk"%string))
  else if negb (len (ch_payload c) =? ch_byte_len c) then
    Some (OtherConstraint (Some "terminal_recording_chunks_payload_len_chk"%string))
  else if existsb (fun r => match r with
            | RowChunk c' => ch_seq_start c' =? ch_seq_start c
            | RowMarker _ => false end) (rows_of (ch_session c) d) then
    Some (UniqueViolation (Some "terminal_recording_chunks_session_seq_start_uq"%string))
  else if negb (bool_decide (is_Some (t_sessions (pr_db d) !! ch_session c))) then
    Some (ForeignKeyViolation (Some "terminal_recording_chunks_terminal_session_id_fkey"%string))
  else None.

Definition marker_violation (d : PgRec) (m : CreateTerminalRecordingMarker) : option sqlx_error :=
  if mk_seq m <? 0 then Some (OtherConstraint (Some "terminal_recording_markers_seq_chk"%string))
  else if negb (bool_decide (mk_kind m = MkStarted) || (1 <=? mk_seq m)) then
    Some (OtherConstraint (Some "terminal_recording_markers_started_seq_chk"%string))
  else if negb (is_object (mk_payload m)) then
    Some (OtherConstraint (Some "terminal_recording_markers_payload_object_chk"%string))
  else if bool_decide (mk_kind m = MkClosed)
          && existsb (fun r => match r with
               | RowMarker m' => bool_decide (mk_kind m' = MkClosed) && (mk_seq m' =? mk_seq m)
               | RowChunk _ => false end) (rows_of (mk_session m) d) then
    Some (UniqueViolation (Some "terminal_recording_markers_session_closed_seq_uidx"%string))
  else if negb (bool_decide (is_Some (t_sessions (pr_db d) !! mk_session m))) then
    Some (ForeignKeyViolation (Some "terminal_recording_markers_terminal_session_id_fkey"%string))
  else None.

(** [ORDER BY f ASC] *)
Definition by_key {A} (f : A -> Z) : relation A := fun a b => f a <= f b.

#[export] Instance by_key_dec {A} (f : A -> Z) : RelDecision (by_key f).
Proof. intros a b. unfold by_key. apply _. Defined.

#[export] Instance by_key_total {A} (f : A -> Z) : Total (by_key f).
Proof. intros a b. unfold by_key. lia. Qed.

#[export] Instance by_key_trans {A} (f : A -> Z) : Transitive (by_key f).
Proof. intros a b c. unfold by_key. lia. Qed.

(** ** The repository *)

(** [PurgeRecordingForRetention] and [PurgedRecordingSummary] *)
Record PurgeRecordingForRetention := mkPurge {
  pg_session : TerminalSessionId;
  pg_retention_days : Z;
  pg_now : Z
}.
Record PurgedRecordingSummary := mkPurged {
  pu_session : TerminalSessionId;
  pu_chunk_count : Z;
  pu_marker_count : Z;
  pu_bytes_purged : Z;
  pu_closed_at : Z;
  pu_purged_at : Z
}.

(** [TerminalRecordingMetadata] *)
Record TerminalRecordingMetadata := mkMetadata {
  md_session : TerminalSessionId;
  md_chunk_count : Z;
  md_marker_count : Z;
  md_first_seq : option Z;
  md_last_seq : option Z;
  md_first_recorded_at : option Z;
  md_last_recorded_at : option Z
}.

(** [TerminalRecordingMetadata::has_recording] *)
Definition has_recording (m : TerminalRecordingMetadata) : bool :=
  (0 <? md_chunk_count m) || (0 <? md_marker_count m).

(** [TerminalRecordingPayloadEncryption] and [TerminalRecordingCompression], which have one variant each, and
    [TerminalRecordingChunk] and [TerminalRecordingMarker] *)
Inductive TerminalRecordingPayloadEncryption := EncryptionNone.
Inductive TerminalRecordingCompression := CompressionNone.
Definition encryption_as_str (e : TerminalRecordingPayloadEncryption) : string :=
  match e with EncryptionNone => "none" end.
Definition encryption_from_str_tag (v : string) : option TerminalRecordingPayloadEncryption :=
  if String.eqb v "none" then Some EncryptionNone else None.
Definition compression_as_str (c : TerminalRecordingCompression) : string :=
  match c with CompressionNone => "none" end.
Definition compression_from_str_tag (v : string) : option TerminalRecordingCompression :=
  if String.eqb v "none" then Some CompressionNone else None.

Record TerminalRecordingChunk := mkRecordingChunk {
  rc_id : Uuid; rc_session_id : TerminalSessionId; rc_seq_start : Z; rc_seq_end : Z; rc_byte_len : Z;
  rc_payload : list Byte.byte; rc_encryption : TerminalRecordingPayloadEncryption;
  rc_compression : TerminalRecordingCompression; rc_created_at : Z
}.
Record TerminalRecordingMarker := mkRecordingMarker {
  rm_id : Uuid; rm_session_id : TerminalSessionId; rm_kind : TerminalRecordingMarkerKind; rm_seq : Z;
  rm_payload : json; rm_created_at : Z
}.

(** The rows that a [SELECT] gives ([TerminalRecordingChunkRow], [TerminalRecordingMarkerRow]).  Every chunk
    is written with the one tag there is for each of the two columns. *)
Record TerminalRecordingChunkRow := mkChunkRow {
  cw_id : Uuid; cw_session_id : TerminalSessionId; cw_seq_start : Z; cw_seq_end : Z; cw_byte_len : Z;
  cw_payload : list Byte.byte; cw_encryption : string; cw_compression : string; cw_created_at : Z
}.
Record TerminalRecordingMarkerRow := mkMarkerRow {
  mw_id : Uuid; mw_session_id : TerminalSessionId; mw_kind : string; mw_seq : Z; mw_payload : json;
  mw_created_at : Z
}.

Definition chunk_row (s : StoredRow) : option TerminalRecordingChunkRow :=
  match sr_row s with
  | RowChunk c => Some (mkChunkRow (sr_id s) (ch_session c) (ch_seq_start c) (ch_seq_end c) (ch_byte_len c)
                         (ch_payload c) (encryption_as_str EncryptionNone) (compression_as_str CompressionNone)
                         (sr_created_at s))
  | RowMarker _ => None
  end.
Definition marker_row (s : StoredRow) : option TerminalRecordingMarkerRow :=
  match sr_row s with
  | RowMarker m => Some (mkMarkerRow (sr_id s) (mk_session m) (marker_as_str (mk_kind m)) (mk_seq m) (mk_payload m)
                          (sr_created_at s))
  | RowChunk _ => None
  end.

(** [WHERE terminal_session_id = $1] *)
Definition chunk_rows (id : TerminalSessionId) (d : PgRec) : list TerminalRecordingChunkRow :=
  filter (fun r => cw_session_id r = id) (omap chunk_row (pr_rows d)).
Definition marker_rows (id : TerminalSessionId) (d : PgRec) : list TerminalRecordingMarkerRow :=
  filter (fun r => mw_session_id r = id) (omap marker_row (pr_rows d)).

(** [TerminalRecordingChunkRow::try_into_domain] and [TerminalRecordingMarkerRow::try_into_domain] *)
Definition chunk_try_into_domain (r : TerminalRecordingChunkRow) : result RepositoryError TerminalRecordingChunk :=
  let? encryption := ok_or (encryption_from_str_tag (cw_encryption r))
    (RDatabase ("row integrity: terminal_recording_chunk.encryption unknown (" +:+ cw_encryption r +:+ ")")) in
  let? compression := ok_or (compression_from_str_tag (cw_compression r))
    (RDatabase ("row integrity: terminal_recording_chunk.compression unknown (" +:+ cw_compression r +:+ ")")) in
  Ok (mkRecordingChunk (cw_id r) (cw_session_id r) (cw_seq_start r) (cw_seq_end r) (cw_byte_len r) (cw_payload r)
        encryption compression (cw_created_at r)).
Definition marker_try_into_domain (r : TerminalRecordingMarkerRow) : result RepositoryError TerminalRecordingMarker :=
  let? kind := ok_or (marker_from_str_tag (mw_kind r))
    (RDatabase ("row integrity: terminal_recording_marker.kind unknown (" +:+ mw_kind r +:+ ")")) in
  Ok (mkRecordingMarker (mw_id r) (mw_session_id r) kind (mw_seq r) (mw_payload r) (mw_created_at r)).

(** [ORDER BY seq ASC, created_at ASC] *)
Definition marker_order (a b : TerminalRecordingMarkerRow) : Prop :=
  mw_seq a < mw_seq b \/ (mw_seq a = mw_seq b /\ mw_created_at a <= mw_created_at b).
#[export] Instance marker_order_dec : RelDecision marker_order.
Proof. intros a b. unfold marker_order. apply _. Defined.

Definition chunks_of (id : TerminalSessionId) (d : PgRec) : list CreateTerminalRecordingChunk :=
  omap (fun r => match r with RowChunk c => Some c | RowMarker _ => None end) (rows_of id d).
Definition markers_of (id : TerminalSessionId) (d : PgRec) : list CreateTerminalRecordingMarker :=
  omap (fun r => match r with RowMarker m => Some m | RowChunk _ => None end) (rows_of id d).
Definition total_byte_len (cs : list CreateTerminalRecordingChunk) : Z :=
  foldr (fun c n => ch_byte_len c + n) 0 cs.

(** [clamp_limit] *)
Definition clamp_limit (limit : Z) : Z := Z.max 1 (Z.min limit LIST_LIMIT_CEILING).

(** [min_opt] and [max_opt] *)
Definition min_opt (a b : option Z) : option Z :=
  match a, b with
  | Some x, Some y => Some (Z.min x y)
  | Some x, None | None, Some x => Some x
  | None, None => None
  end.
Definition max_opt (a b : option Z) : option Z :=
  match a, b with
  | Some x, Some y => Some (Z.max x y)
  | Some x, None | None, Some x => Some x
  | None, None => None
  end.
Definition minimum (l : list Z) : option Z := foldr (fun x o => min_opt (Some x) o) None l.
Definition maximum (l : list Z) : option Z := foldr (fun x o => max_opt (Some x) o) None l.

(** [make_interval(days => n)] in nanoseconds. *)
Definition days (n : Z) : Z := n * 86400 * 1000000000.

Definition i32_try_from_days (retention_days : Z) : result RepositoryError Z :=
  if retention_days <=? i32_max then Ok retention_days
  else Err (RValidation "retention_days" ("retention_days " +:+ pretty retention_days +:+ " exceeds i32::MAX")).

Module PgTerminalRecordingRepository.

(** [append_chunk]; the domain value it returns carries the columns of the row. *)
Definition append_chunk (input : CreateTerminalRecordingChunk) (d : PgRec)
  : result RepositoryError unit * PgRec :=
  let '(id, d) := fresh_uuid d in
  statement (fun d =>
    match chunk_violation d input with
    | Some v => (Err (map_sqlx_error ENTITY_CHUNK v), d)
    | None => (Ok tt, add_row (mkStored id (RowChunk input) (clock (pr_db d))) d)
    end) d.

(** [append_marker] *)
Definition append_marker (input : CreateTerminalRecordingMarker) (d : PgRec)
  : result RepositoryError unit * PgRec :=
  let '(id, d) := fresh_uuid d in
  statement (fun d =>
    match marker_violation d input with
    | Some v => (Err (map_sqlx_error ENTITY_MARKER v), d)
    | None => (Ok tt, add_row (mkStored id (RowMarker input) (clock (pr_db d))) d)
    end) d.

(** [list_chunks] *)
Definition list_chunks (id : TerminalSessionId) (from_seq limit : Z)
  : PgRec -> result RepositoryError (list TerminalRecordingChunk) * PgRec :=
  statement (fun d => (collect (map chunk_try_into_domain
    (take (Z.to_nat (clamp_limit limit))
      (merge_sort (by_key cw_seq_start) (filter (fun r => from_seq <= cw_seq_start r) (chunk_rows id d))))), d)).

(** [list_markers] *)
Definition list_markers (id : TerminalSessionId) (from_seq limit : Z)
  : PgRec -> result RepositoryError (list TerminalRecordingMarker) * PgRec :=
  statement (fun d => (collect (map marker_try_into_domain
    (take (Z.to_nat (clamp_limit limit))
      (merge_sort marker_order (filter (fun r => from_seq <= mw_seq r) (marker_rows id d))))), d)).

Definition purge_payload (input : PurgeRecordingForRetention) (chunk_count marker_count bytes closed_at : Z)
  : json :=
  JObj [("target_kind"%string, JStr (lit "terminal_session")); ("target_id"%string, JUuid (pg_session input));
        ("chunk_count"%string, JNum chunk_count); ("marker_count"%string, JNum marker_count);
        ("bytes_purged"%string, JNum bytes); ("retention_days"%string, JNum (pg_retention_days input));
        ("closed_at"%string, JTime closed_at); ("purged_at"%string, JTime (pg_now input));
        ("reason"%string, JStr (lit "retention_expired"))].

Definition delete_markers (id : TerminalSessionId) (d : PgRec) : PgRec :=
  mkPgRec (pr_db d) (filter (fun s => ~ (row_session (sr_row s) = id /\ is_chunk (sr_row s) = false)) (pr_rows d)) (pr_audit d).
Definition delete_chunks (id : TerminalSessionId) (d : PgRec) : PgRec :=
  mkPgRec (pr_db d) (filter (fun s => ~ (row_session (sr_row s) = id /\ is_chunk (sr_row s) = true)) (pr_rows d)) (pr_audit d).

(** [SELECT closed_at ... FOR UPDATE] *)
Definition expired_at (id : TerminalSessionId) (retention_days now : Z) (d : PgRec) : option Z :=
  r ← t_sessions (pr_db d) !! id;
  closed_at ← r_closed_at r;
  if closed_at + days retention_days <=? now then Some closed_at else None.

(** The body of the purge transaction. *)
Definition purge_body (input : PurgeRecordingForRetention)
  : PgRec -> result RepositoryError (option PurgedRecordingSummary * bool) * PgRec :=
  let id := pg_session input in
  sql closed <- query (expired_at id (pg_retention_days input) (pg_now input));
  match closed with
  | None => fun d => (Ok (None, false), d)
  | Some closed_at =>
      sql counts <- query (fun d => (len (chunks_of id d), total_byte_len (chunks_of id d)));
      sql marker_count <- query (fun d => len (markers_of id d));
      let '(chunk_count, bytes_purged) := counts in
      if (chunk_count =? 0) && (marker_count =? 0) then fun d => (Ok (None, false), d)
      else
        sql _ <- exec (delete_markers id);
        sql _ <- exec (delete_chunks id);
        sql _ <- (fun d =>
          let '(audit_id, d) := fresh_uuid d in
          exec (fun d => mkPgRec (pr_db d) (pr_rows d) (pr_audit d ++
            [mkAudit audit_id None "recording_purged"
               (purge_payload input chunk_count marker_count bytes_purged closed_at) None (pg_now input)])) d);
        fun d => (Ok (Some (mkPurged id chunk_count marker_count bytes_purged closed_at (pg_now input)), true), d)
  end.

(** [purge_for_retention] *)
Definition purge_for_retention (input : PurgeRecordingForRetention) (d : PgRec)
  : result RepositoryError (option PurgedRecordingSummary) * PgRec :=
  match i32_try_from_days (pg_retention_days input) with
  | Err e => (Err e, d)
  | Ok _ => transaction (purge_body input) d
  end.

Definition eligible (retention_days now : Z) (d : PgRec) : list (TerminalSessionId * Z) :=
  omap (fun '(id, _) => closed_at ← expired_at id retention_days now d;
                        if decide (rows_of id d = []) then None else Some (id, closed_at))
    (map_to_list (t_sessions (pr_db d))).

(** [list_eligible_for_retention] *)
Definition list_eligible_for_retention (retention_days now limit : Z) (d : PgRec)
  : result RepositoryError (list TerminalSessionId) * PgRec :=
  match i32_try_from_days retention_days with
  | Err e => (Err e, d)
  | Ok _ =>
      query (fun d => take (Z.to_nat (Z.max limit 1))
        (map fst (merge_sort (by_key snd) (eligible retention_days now d)))) d
  end.

(** [get_metadata] *)
Definition get_metadata (id : TerminalSessionId) : PgRec -> result RepositoryError TerminalRecordingMetadata * PgRec :=
  let at_ (p : RecordingRow -> bool) (d : PgRec) :=
    map sr_created_at (filter (fun s => row_session (sr_row s) = id /\ p (sr_row s) = true) (pr_rows d)) in
  sql chunks <- query (fun d => (len (chunks_of id d), minimum (map ch_seq_start (chunks_of id d)),
                                 maximum (map ch_seq_end (chunks_of id d)),
                                 minimum (at_ is_chunk d), maximum (at_ is_chunk d)));
  sql markers <- query (fun d => (len (markers_of id d), minimum (at_ (fun r => negb (is_chunk r)) d),
                                  maximum (at_ (fun r => negb (is_chunk r)) d)));
  let '(chunk_count, first_seq, last_seq, chunk_first_at, chunk_last_at) := chunks in
  let '(marker_count, marker_first_at, marker_last_at) := markers in
  fun d => (Ok (mkMetadata id chunk_count marker_count first_seq last_seq
                  (min_opt chunk_first_at marker_first_at) (max_opt chunk_last_at marker_last_at)), d).

End PgTerminalRecordingRepository.
Import PgTerminalRecordingRepository.

(** ** The sweep *)

(** The two calls of [trait TerminalRecordingRepository] that a sweep makes. *)
Class RetentionStore (D : Type) := {
  rt_list_eligible : Z -> Z -> Z -> D -> result RepositoryError (list TerminalSessionId) * D;
  rt_purge : PurgeRecordingForRetention -> D ->
             result RepositoryError (option PurgedRecordingSummary) * D
}.

#[export] Instance pg_retention_store : RetentionStore PgRec := {|
  rt_list_eligible := list_eligible_for_retention;
  rt_purge := purge_for_retention
|}.

(** [RecordingRetentionSweepSummary] *)
Record RecordingRetentionSweepSummary := mkSummary {
  sm_candidate_count : Z;
  sm_purged_sessions : Z;
  sm_chunks_purged : Z;
  sm_markers_purged : Z;
  sm_bytes_purged : Z;
  sm_errors : Z;
  sm_batch_truncated : bool
}.

Definition summary_default : RecordingRetentionSweepSummary := mkSummary 0 0 0 0 0 0 false.

(** [RecordingRetentionSweepSummary::is_empty] *)
Definition summary_is_empty (s : RecordingRetentionSweepSummary) : bool :=
  (sm_candidate_count s =? 0) && (sm_errors s =? 0).

Definition add_purged (s : RecordingRetentionSweepSummary) (p : PurgedRecordingSummary)
  : RecordingRetentionSweepSummary :=
  mkSummary (sm_candidate_count s) (sm_purged_sessions s + 1) (sm_chunks_purged s + pu_chunk_count p)
    (sm_markers_purged s + pu_marker_count p) (sm_bytes_purged s + pu_bytes_purged p)
    (sm_errors s) (sm_batch_truncated s).

Section sweep.
Context {D : Type} `{!RetentionStore D}.

(** The loop over the candidates; the first error stops it. *)
Fixpoint sweep_loop (retention_days now : Z) (ids : list TerminalSessionId)
  (summary : RecordingRetentionSweepSummary) (d : D) : RecordingRetentionSweepSummary * D :=
  match ids with
  | [] => (summary, d)
  | id :: ids =>
      match rt_purge (mkPurge id retention_days now) d with
      | (Ok (Some p), d) => sweep_loop retention_days now ids (add_purged summary p) d
      | (Ok None, d) => sweep_loop retention_days now ids summary d
      | (Err _, d) =>
          (mkSummary (sm_candidate_count summary) (sm_purged_sessions summary)
             (sm_chunks_purged summary) (sm_markers_purged summary) (sm_bytes_purged summary) 1 false, d)
      end
  end.

(** [run_recording_retention_sweep]; the cadence only labels log lines. *)
Definition run_recording_retention_sweep (retention_days batch_size now : Z) (d : D)
  : RecordingRetentionSweepSummary * D :=
  match rt_list_eligible retention_days now batch_size d with
  | (Err _, d) => (mkSummary 0 0 0 0 0 1 false, d)
  | (Ok candidates, d) =>
      let summary := mkSummary (len candidates) 0 0 0 0 0 (len candidates =? batch_size) in
      match candidates with
      | [] => (summary, d)
      | _ => sweep_loop retention_days now candidates summary d
      end
  end.

(** [RecordingRetentionTickOutcome] and [AdvisoryLockOutcome] *)
Inductive RecordingRetentionTickOutcome :=
| Ran (s : RecordingRetentionSweepSummary) | Skipped | LockError.
Inductive AdvisoryLockOutcome := LockAcquired | LockSkipped.

(** [PgRetentionAdvisoryLock::run_with_lock]: the answers of the pool, of [pg_try_advisory_lock]
    and of [pg_advisory_unlock]. *)
Record LockAnswers := mkLockAnswers {
  la_connection : bool;
  la_try_lock : option bool;
  la_unlock : bool
}.

Definition lock_error (stage : string) : RepositoryError :=
  RDatabase ("recording retention advisory lock " +:+ stage +:+ " failed").

Definition run_with_lock {A} (l : LockAnswers) (work : D -> A * D) (d : D)
  : result RepositoryError AdvisoryLockOutcome * option A * D :=
  if negb (la_connection l) then (Err (lock_error "acquire"), None, d)
  else match la_try_lock l with
  | None => (Err (lock_error "try_lock"), None, d)
  | Some false => (Ok LockSkipped, None, d)
  | Some true =>
      let '(a, d) := work d in
      (if la_unlock l then Ok LockAcquired else Err (lock_error "unlock"), Some a, d)
  end.

(** [run_one_periodic_tick] *)
Definition run_one_periodic_tick (lock : option LockAnswers) (retention_days batch_size now : Z) (d : D)
  : RecordingRetentionTickOutcome * D :=
  let sweep := run_recording_retention_sweep retention_days batch_size now in
  match lock with
  | Some l =>
      match run_with_lock l sweep d with
      | (Ok LockAcquired, s, d) => (Ran (default summary_default s), d)
      | (Ok LockSkipped, _, d) => (Skipped, d)
      | (Err _, _, d) => (LockError, d)
      end
  | None => let '(s, d) := sweep d in (Ran s, d)
  end.

End sweep.

(** [periodic_worker_config_if_enabled] and its configuration; the interval is in seconds. *)
Record RecordingRetentionPeriodicConfig := mkPeriodic {
  pc_retention_days : Z; pc_batch_size : Z; pc_interval : Z }.

Definition periodic_worker_config_if_enabled (cleanup_enabled periodic_sweep_enabled : bool)
  (sweep_interval_seconds retention_days batch_size : Z) : option RecordingRetentionPeriodicConfig :=
  if negb cleanup_enabled || negb periodic_sweep_enabled || (sweep_interval_seconds =? 0) then None
  else Some (mkPeriodic retention_days batch_size sweep_interval_seconds).

(** ** The appends implement the writer's interface *)

#[export] Instance pg_recording_store : RecordingStore PgRec := {|
  rs_append_chunk := append_chunk;
  rs_append_marker := append_marker;
  rs_rows := rows_of
|}.

(** A statement: the driver's failure leaves the tables alone, otherwise the statement runs on the
    same tables. *)
Lemma statement_cases {A} (f : PgRec -> result RepositoryError A * PgRec) d :
  exists db, t_sessions db = t_sessions (pr_db d) /\ next_uuid db = next_uuid (pr_db d)
    /\ (faults (pr_db d) = [] -> faults db = [])
    /\ ((exists e, faults (pr_db d) <> [] /\ statement f d = (Err e, with_db db d))
        \/ statement f d = f (with_db db d)).
Proof.
  unfold statement, next_fault. destruct (faults (pr_db d)) as [|[e|] rest] eqn:Ef.
  - exists (pr_db d). split_and!; try done. by right.
  - eexists. split; [|split; [|split; [|left; exists e; split; [done|reflexivity]]]]; done.
  - eexists. split; [|split; [|split; [|right; reflexivity]]]; done.
Qed.

Lemma rows_of_add s r d id t : rows_of s (add_row (mkStored id r t) d) =
  rows_of s d ++ (if decide (s = row_session r) then [r] else []).
Proof.
  unfold rows_of, add_row. cbn [pr_rows]. rewrite map_app, filter_app. f_equal. cbn [map sr_row].
  rewrite filter_cons, filter_nil. by repeat case_decide; subst.
Qed.

Lemma rows_of_with_db s db d : rows_of s (with_db db d) = rows_of s d.
Proof. done. Qed.

#[export] Instance pg_recording_laws : RecordingStoreLaws PgRec.
Proof.
  split; intros x d s; cbn; [unfold append_chunk|unfold append_marker];
    destruct (fresh_uuid d) as [id d1] eqn:Ef; unfold fresh_uuid, new_v4 in Ef; simplify_eq;
    match goal with |- context [statement ?f ?d0] =>
      destruct (statement_cases f d0) as (db & _ & _ & _ & [(e & _ & ->)| ->]) end; try done;
    case_match; cbn [fst snd]; try done; by rewrite rows_of_add.
Qed.

(** The Postgres recording repository implements the interface the writer relies on: an append
    that fails changes nothing, and one that succeeds adds exactly its row to its session. *)
Theorem pg_recording_store_laws : RecordingStoreLaws PgRec.
Proof. exact pg_recording_laws. Qed.

(** ** The purge transaction *)

(** The tables of two states agree. *)
Record same_recordings (d d' : PgRec) : Prop := {
  sm_sessions : t_sessions (pr_db d') = t_sessions (pr_db d);
  sm_rows : pr_rows d' = pr_rows d;
  sm_audit : pr_audit d' = pr_audit d
}.

#[export] Instance same_recordings_equiv : Equivalence same_recordings.
Proof.
  split.
  - done.
  - intros d d' []. by split.
  - intros d1 d2 d3 [] []. split; congruence.
Qed.

#[export] Instance rows_of_proper id : Proper (same_recordings ==> eq) (rows_of id).
Proof. intros d d' [_ E _]. unfold rows_of. by rewrite E. Qed.
#[export] Instance chunks_of_proper id : Proper (same_recordings ==> eq) (chunks_of id).
Proof. intros d d' E. unfold chunks_of. by rewrite E. Qed.
#[export] Instance markers_of_proper id : Proper (same_recordings ==> eq) (markers_of id).
Proof. intros d d' E. unfold markers_of. by rewrite E. Qed.
#[export] Instance expired_at_proper id n now : Proper (same_recordings ==> eq) (expired_at id n now).
Proof. intros d d' [E _ _]. unfold expired_at. by rewrite E. Qed.

(** [no_faults]: the driver answers every statement. *)
Definition no_faults (d : PgRec) : Prop := faults (pr_db d) = [].

Lemma query_cases {A} (f : PgRec -> A) d :
  exists d', same_recordings d d' /\ (no_faults d -> no_faults d')
    /\ ((exists e, ~ no_faults d /\ query f d = (Err e, d')) \/ query f d = (Ok (f d'), d')).
Proof.
  destruct (statement_cases (fun d => (Ok (f d), d)) d) as (db & Hs & _ & Hf & Hc).
  exists (with_db db d). split; [by split|]. split; [done|].
  destruct Hc as [(e & He & Hst)|Hst]; [left; exists e|right]; by split || done.
Qed.

Lemma exec_cases (f : PgRec -> PgRec) d :
  exists d', same_recordings d d' /\ (no_faults d -> no_faults d')
    /\ ((exists e, ~ no_faults d /\ exec f d = (Err e, d')) \/ exec f d = (Ok tt, f d')).
Proof.
  destruct (statement_cases (fun d => (Ok tt, f d)) d) as (db & Hs & _ & Hf & Hc).
  exists (with_db db d). split; [by split|]. split; [done|].
  destruct Hc as [(e & He & Hst)|Hst]; [left; exists e|right]; by split || done.
Qed.

(** The rows that remain when both deletes have run. *)
Lemma purged_rows id d :
  pr_rows (delete_chunks id (delete_markers id d)) =
  filter (fun s => row_session (sr_row s) <> id) (pr_rows d).
Proof.
  unfold delete_chunks, delete_markers. cbn [pr_rows]. rewrite list_filter_filter.
  apply list_filter_iff. intros s. destruct (is_chunk (sr_row s)); naive_solver.
Qed.

Definition purge_summary (input : PurgeRecordingForRetention) (closed_at : Z) (d : PgRec)
  : PurgedRecordingSummary :=
  let id := pg_session input in
  mkPurged id (len (chunks_of id d)) (len (markers_of id d)) (total_byte_len (chunks_of id d))
    closed_at (pg_now input).

Definition purge_audit (input : PurgeRecordingForRetention) (s : PurgedRecordingSummary) (aid : Uuid) : AuditRow :=
  mkAudit aid None "recording_purged"
    (purge_payload input (pu_chunk_count s) (pu_marker_count s) (pu_bytes_purged s) (pu_closed_at s))
    None (pg_now input).

(** What a committed purge did to the tables of [d]. *)
Record purged (input : PurgeRecordingForRetention) (s : PurgedRecordingSummary) (d d' : PgRec) : Prop := {
  pd_expired : expired_at (pg_session input) (pg_retention_days input) (pg_now input) d
               = Some (pu_closed_at s);
  pd_summary : s = purge_summary input (pu_closed_at s) d;
  pd_some : rows_of (pg_session input) d <> [];
  pd_sessions : t_sessions (pr_db d') = t_sessions (pr_db d);
  pd_rows : pr_rows d' = filter (fun s => row_session (sr_row s) <> pg_session input) (pr_rows d);
  pd_audit : exists aid, pr_audit d' = pr_audit d ++ [purge_audit input s aid]
}.

Lemma rows_of_counts id d :
  (len (chunks_of id d) =? 0) && (len (markers_of id d) =? 0) = bool_decide (rows_of id d = []).
Proof.
  assert (Hpos : forall A (l : list A), (1 + len l =? 0) = false)
    by (intros A l; apply Z.eqb_neq; pose proof (len_nonneg l); lia).
  unfold chunks_of, markers_of. destruct (rows_of id d) as [|[c|m] l]; [done|..]; cbn;
    by rewrite len_cons, Hpos, ?andb_false_r.
Qed.

Lemma purge_body_cases input d :
  match (purge_body input d).1 with
  | Err _ => ~ no_faults d
  | Ok (None, commit) => commit = false
      /\ (expired_at (pg_session input) (pg_retention_days input) (pg_now input) d = None
          \/ rows_of (pg_session input) d = [])
  | Ok (Some s, commit) => commit = true /\ purged input s d (purge_body input d).2
  end /\ (no_faults d -> no_faults (purge_body input d).2).
Proof.
  unfold purge_body, then_. set (id := pg_session input).
  destruct (query_cases (expired_at id (pg_retention_days input) (pg_now input)) d) as
    (d1 & E1 & F1 & [(e & Hf & ->)| ->]); [done|].
  rewrite <- (expired_at_proper id _ _ _ _ E1).
  destruct (expired_at id _ _ d) as [closed_at|] eqn:Ex; [|split; [split; [done|by left]|done]].
  destruct (query_cases (fun d => (len (chunks_of id d), total_byte_len (chunks_of id d))) d1) as
    (d2 & E2 & F2 & [(e & Hf & ->)| ->]); [split; [intros ?; tauto|tauto]|].
  rewrite <- (chunks_of_proper id _ _ E2), <- (chunks_of_proper id _ _ E1).
  destruct (query_cases (fun d => len (markers_of id d)) d2) as
    (d3 & E3 & F3 & [(e & Hf & ->)| ->]); [split; [intros ?; tauto|tauto]|].
  rewrite <- (markers_of_proper id _ _ E3), <- (markers_of_proper id _ _ E2),
    <- (markers_of_proper id _ _ E1), rows_of_counts.
  case_bool_decide as Hr; [split; [split; [done|by right]|tauto]|].
  destruct (exec_cases (delete_markers id) d3) as (d4 & E4 & F4 & [(e & Hf & ->)| ->]); [split; [intros ?; tauto|tauto]|].
  destruct (exec_cases (delete_chunks id) (delete_markers id d4)) as (d5 & E5 & F5 & [(e & Hf & ->)| ->]);
    [split; [intros ?; tauto|tauto]|].
  set (x := delete_chunks id d5).
  change (fresh_uuid x) with (next_uuid (pr_db x), with_db (new_v4 (pr_db x)).2 x). cbv beta iota.
  match goal with |- context [exec ?f (with_db ?db x)] =>
    destruct (exec_cases f (with_db db x)) as (d6 & E6 & F6 & [(e & Hf & ->)| ->]) end;
    [split; [intros ?; tauto|tauto]|].
  cbn [fst snd]. split; [split; [done|]|tauto].
  assert (same_recordings d d4) as E by (by transitivity d3; [transitivity d2; [transitivity d1|]|]).
  split; cbn [pu_closed_at].
  - done.
  - done.
  - done.
  - cbn. rewrite (sm_sessions _ _ E6). cbn. rewrite (sm_sessions _ _ E5). cbn. apply E.
  - cbn. rewrite (sm_rows _ _ E6). cbn. rewrite <- (sm_rows _ _ E), <- purged_rows.
    unfold delete_chunks. cbn. by rewrite (sm_rows _ _ E5).
  - eexists. cbn. rewrite (sm_audit _ _ E6). cbn. rewrite (sm_audit _ _ E5). cbn.
    rewrite (sm_audit _ _ E). reflexivity.
Qed.

Lemma rollback_same d1 d2 : same_recordings d1 (rollback d1 d2).
Proof. by split. Qed.

Lemma begin_cases d :
  exists d', same_recordings d d' /\ (no_faults d -> no_faults d')
    /\ ((exists e, ~ no_faults d /\ statement (fun d => (Ok tt, d)) d = (Err e, d'))
        \/ statement (fun d => (Ok tt, d)) d = (Ok tt, d')).
Proof. apply (exec_cases (fun d => d)). Qed.

Lemma purged_proper input s d1 d2 d d' :
  same_recordings d d1 -> same_recordings d2 d' -> purged input s d1 d2 -> purged input s d d'.
Proof.
  intros E1 E2 [H1 H2 H3 H4 H5 (aid & H6)]. split.
  - by rewrite E1.
  - rewrite H2. unfold purge_summary. cbn [pu_closed_at]. by rewrite E1.
  - by rewrite E1.
  - rewrite (sm_sessions _ _ E2), H4. apply E1.
  - rewrite (sm_rows _ _ E2), H5. by rewrite (sm_rows _ _ E1).
  - exists aid. rewrite (sm_audit _ _ E2), H6. by rewrite (sm_audit _ _ E1).
Qed.

Lemma purge_cases input d :
  let rd := purge_for_retention input d in
  match rd.1 with
  | Ok (Some s) => purged input s d rd.2
  | Ok None => same_recordings d rd.2
      /\ (expired_at (pg_session input) (pg_retention_days input) (pg_now input) d = None
          \/ rows_of (pg_session input) d = [])
  | Err _ => same_recordings d rd.2
      /\ (~ no_faults d \/ i32_max < pg_retention_days input)
  end /\ (no_faults d -> no_faults rd.2).
Proof.
  cbv zeta. unfold purge_for_retention, i32_try_from_days.
  destruct (pg_retention_days input <=? i32_max) eqn:Ei; bool_props;
    [|cbn; split; [split; [done|by right]|done]].
  unfold transaction. destruct (begin_cases d) as (d1 & E1 & F1 & [(e & Hf & ->)| ->]).
  { cbn. split; [split; [done|by left]|done]. }
  pose proof (purge_body_cases input d1) as [Hb Fb].
  destruct (purge_body input d1) as [[[[s|] commit]|e] d2]; cbn [fst snd] in *.
  - destruct Hb as [-> Hp]. destruct (begin_cases d2) as (d3 & E3 & F3 & [(e & Hf & ->)| ->]); cbn [fst snd].
    + split; [split|]; [transitivity d1; [done|apply rollback_same]|left; tauto|].
      intros H. exact (F3 (Fb (F1 H))).
    + split; [by apply (purged_proper input s d1 d2)|tauto].
  - destruct Hb as [-> Hn]. rewrite <- (expired_at_proper _ _ _ _ _ E1), <- (rows_of_proper _ _ _ E1) in Hn.
    cbn. split; [split; [transitivity d1; [done|apply rollback_same]|done]|].
    intros H. exact (Fb (F1 H)).
  - split; [split; [transitivity d1; [done|apply rollback_same]|left; tauto]|].
    intros H. exact (Fb (F1 H)).
Qed.

(** C15: a purge is all or nothing, whichever statement of its transaction fails.  If it reports a
    purge, the session was closed for longer than the retention period and had recorded rows; all
    of them, and no other session's, are gone; exactly one audit event was appended, with the
    counts and the byte total of what was deleted; the session's row is untouched.  In every
    other case (an error, a session that is open, unexpired, unknown or has nothing recorded)
    the tables are as they were. *)
Theorem purge_all_or_nothing input d :
  let rd := purge_for_retention input d in
  match rd.1 with
  | Ok (Some s) => purged input s d rd.2
  | Ok None | Err _ => same_recordings d rd.2
  end.
Proof.
  destruct (purge_cases input d) as [H _]. cbv zeta in *.
  destruct (purge_for_retention input d) as [[[s|]|e] d']; cbn [fst snd] in *; [done|tauto|tauto].
Qed.

(** ** A sweep over a driver that answers *)

Lemma expired_In id n now d c :
  expired_at id n now d = Some c -> rows_of id d <> [] -> (id, c) ∈ eligible n now d.
Proof.
  intros Hx Hr. unfold eligible. apply list_elem_of_omap.
  unfold expired_at in Hx. destruct (t_sessions (pr_db d) !! id) as [row|] eqn:Er; [|done].
  exists (id, row). split; [by apply elem_of_map_to_list|].
  cbn in Hx |- *. unfold expired_at. rewrite Er. cbn. rewrite Hx. cbn. by rewrite decide_False.
Qed.

Lemma eligible_In id n now d c :
  (id, c) ∈ eligible n now d -> expired_at id n now d = Some c /\ rows_of id d <> [].
Proof.
  intros ([id' row] & Hin & Hx)%list_elem_of_omap.
  destruct (expired_at id' n now d) as [c'|] eqn:Ex; [|done]. cbn in Hx. case_decide as Hd; [done|].
  simplify_eq. done.
Qed.

Lemma eligible_NoDup n now d : NoDup (map fst (eligible n now d)).
Proof.
  unfold eligible. pose proof (NoDup_fst_map_to_list (t_sessions (pr_db d))) as Hnd.
  induction (map_to_list (t_sessions (pr_db d))) as [|[id row] l IH]; [constructor|].
  cbn in Hnd |- *. apply NoDup_cons in Hnd as [Hni Hnd].
  destruct (_ ≫= _) as [[id' c]|] eqn:E; [|by apply IH].
  assert (id' = id) as ->.
  { destruct (expired_at id n now d); [|done]. cbn in E. by case_decide; simplify_eq. }
  cbn. apply NoDup_cons. split; [|by apply IH]. intros Hin. apply Hni.
  apply list_elem_of_In, in_map_iff in Hin as ([id2 c2] & <- & Hin%list_elem_of_In).
  apply list_elem_of_omap in Hin as ([id3 row3] & Hin3 & Hx).
  destruct (expired_at id3 n now d); [|done]. cbn in Hx. case_decide; simplify_eq.
  apply list_elem_of_In, in_map_iff. exists (id2, row3). split; [done|by apply list_elem_of_In].
Qed.

Lemma counts_sum id d : len (chunks_of id d) + len (markers_of id d) = len (rows_of id d).
Proof.
  unfold chunks_of, markers_of. induction (rows_of id d) as [|[c|m] l IH]; [done|..]; cbn;
    rewrite !len_cons; lia.
Qed.

Lemma rows_removed id (l : list StoredRow) :
  len (filter (fun s => row_session (sr_row s) <> id) l)
  + len (filter (fun r => row_session r = id) (map sr_row l)) = len l.
Proof.
  induction l as [|s l IH]; [done|]. cbn [map]. rewrite !filter_cons.
  repeat case_decide; rewrite !len_cons; try done; lia.
Qed.

Lemma rows_of_purged input s d d' id :
  purged input s d d' ->
  rows_of id d' = if decide (id = pg_session input) then [] else rows_of id d.
Proof.
  intros [_ _ _ _ Hr _]. unfold rows_of. rewrite Hr. generalize (pr_rows d). intros l.
  induction l as [|x l IH]; [by case_decide|]. rewrite filter_cons. cbn [map].
  rewrite filter_cons. repeat case_decide; cbn [map]; rewrite ?filter_cons; repeat case_decide;
    simplify_eq; try done; by rewrite IH.
Qed.

Lemma expired_purged input s d d' id n now :
  purged input s d d' -> expired_at id n now d' = expired_at id n now d.
Proof. intros [_ _ _ Hs _ _]. unfold expired_at. by rewrite Hs. Qed.

(** What a sweep did after it purged exactly the sessions [ids]. *)
Record swept (ids : list TerminalSessionId) (d d' : PgRec) : Prop := {
  sw_sessions : t_sessions (pr_db d') = t_sessions (pr_db d);
  sw_rows : forall id, rows_of id d' = if decide (id ∈ ids) then [] else rows_of id d;
  sw_audit : exists l, pr_audit d' = pr_audit d ++ l /\ len l = len ids
}.

Lemma swept_cons input s ids d d1 d2 :
  purged input s d d1 -> swept ids d1 d2 -> swept (pg_session input :: ids) d d2.
Proof.
  intros Hp [S1 S2 (l & S3 & S4)]. split.
  - rewrite S1. apply Hp.
  - intros id. rewrite S2, (rows_of_purged _ _ _ _ _ Hp).
    repeat case_decide; try done; exfalso; set_solver.
  - destruct (pd_audit _ _ _ _ Hp) as (aid & Ha). eexists. rewrite S3, Ha, <- app_assoc.
    split; [reflexivity|]. rewrite len_app, S4, !len_cons, len_nil. lia.
Qed.

Lemma swept_refl d d' : same_recordings d d' -> swept [] d d'.
Proof.
  intros E. split; [apply E|intros id; by rewrite (rows_of_proper id _ _ E)|]. exists []. by rewrite app_nil_r, (sm_audit _ _ E).
Qed.

Lemma swept_same ids d d1 d2 : same_recordings d d1 -> swept ids d1 d2 -> swept ids d d2.
Proof.
  intros E [S1 S2 (l & S3 & S4)]. split.
  - rewrite S1. apply E.
  - intros id. by rewrite S2, (rows_of_proper id _ _ E).
  - exists l. by rewrite <- (sm_audit _ _ E).
Qed.

(** The loop purges a list of candidates until the first error. *)
Lemma sweep_loop_cases n now ids s d :
  sm_errors s = 0 ->
  let sd := sweep_loop n now ids s d in
  exists done_, sublist done_ ids /\ swept done_ d sd.2
    /\ sm_candidate_count sd.1 = sm_candidate_count s
    /\ sm_purged_sessions sd.1 = sm_purged_sessions s + len done_
    /\ (sm_errors sd.1 = 0 /\ sm_batch_truncated sd.1 = sm_batch_truncated s
        \/ sm_errors sd.1 = 1 /\ sm_batch_truncated sd.1 = false).
Proof.
  revert s d. induction ids as [|id ids IH]; intros s d Hs; cbv zeta; cbn [sweep_loop].
  { exists []. cbn. split_and!; try done; [by apply swept_refl|rewrite len_nil; lia|by left]. }
  destruct (purge_cases (mkPurge id n now) d) as [Hp _]. cbv zeta in Hp. cbn [rt_purge pg_retention_store].
  destruct (purge_for_retention _ d) as [[[p|]|e] d1]; cbn [fst snd] in Hp.
  - destruct (IH (add_purged s p) d1 Hs) as (l & Hl & Hsw & Hc & Hn & He). exists (id :: l).
    split_and!; try done.
    + by constructor.
    + by apply (swept_cons (mkPurge id n now) p l d d1).
    + rewrite Hn, len_cons. cbn. lia.
  - destruct Hp as [E _]. destruct (IH s d1 Hs) as (l & Hl & Hsw & Hc & Hn & He). exists l.
    split_and!; try done; [by constructor|by apply (swept_same _ _ d1)].
  - destruct Hp as [E _]. exists []. cbn. split_and!; try done.
    + apply sublist_nil_l.
    + by apply swept_refl.
    + rewrite len_nil. lia.
    + by right.
Qed.

(** A sweep fails softly.  Whatever fails during it, the sessions' rows are untouched, every
    recording is either whole or completely gone, those that are gone belonged to sessions that
    were closed for longer than the retention period and are each in the audit log, the count of
    purged sessions is right, at most one error is reported, and with an error the report never
    asks for another round. *)
Theorem sweep_fails_softly n batch now d :
  let sd := run_recording_retention_sweep n batch now d in
  exists ids, swept ids d sd.2 /\ (forall id, id ∈ ids -> is_Some (expired_at id n now d))
    /\ sm_purged_sessions sd.1 = len ids
    /\ (sm_errors sd.1 = 0 \/ sm_errors sd.1 = 1 /\ sm_batch_truncated sd.1 = false).
Proof.
  cbv zeta. unfold run_recording_retention_sweep. cbn [rt_list_eligible pg_retention_store].
  unfold list_eligible_for_retention.
  destruct (i32_try_from_days n) as [z|e];
    [|exists []; split_and!; [by apply swept_refl|set_solver|done|by right]].
  match goal with |- context [query ?f d] =>
    destruct (query_cases f d) as (d1 & E1 & _ & [(e & _ & ->)| ->]) end.
  { exists []. split_and!; [by apply swept_refl|set_solver|done|by right]. }
  set (cands := take _ _).
  assert (Hel : forall id, id ∈ cands -> is_Some (expired_at id n now d)).
  { intros id Hin. unfold cands in Hin. apply elem_of_take in Hin as (i & Hi & _).
    apply list_elem_of_lookup_2 in Hi. apply list_elem_of_In, in_map_iff in Hi as ([id' c] & <- & Hin).
    apply list_elem_of_In in Hin. rewrite merge_sort_Permutation in Hin.
    apply eligible_In in Hin as [Hx _]. rewrite <- (expired_at_proper _ _ _ _ _ E1) in Hx. cbn. eauto. }
  destruct cands as [|c cs] eqn:Ec.
  { exists []. split_and!; [by apply swept_refl|set_solver|done|by left]. }
  destruct (sweep_loop_cases n now (c :: cs)
    (mkSummary (len (c :: cs)) 0 0 0 0 0 (len (c :: cs) =? batch)) d1 eq_refl)
    as (l & Hl & Hsw & Hc & Hn & He).
  exists l. split_and!; [by apply (swept_same _ _ d1)| |rewrite Hn; cbn; lia|tauto].
  intros id Hin. apply Hel. by apply (elem_of_sublist l (c :: cs)).
Qed.

(** With a driver that answers, every candidate that is still eligible is purged. *)
Lemma sweep_loop_complete n now ids s d :
  no_faults d -> n <= i32_max -> NoDup ids ->
  (forall id, id ∈ ids -> is_Some (expired_at id n now d) /\ rows_of id d <> []) ->
  let sd := sweep_loop n now ids s d in
  swept ids d sd.2 /\ no_faults sd.2 /\ sm_errors sd.1 = sm_errors s
  /\ sm_purged_sessions sd.1 = sm_purged_sessions s + len ids
  /\ sm_candidate_count sd.1 = sm_candidate_count s
  /\ sm_batch_truncated sd.1 = sm_batch_truncated s
  /\ sm_chunks_purged sd.1 + sm_markers_purged sd.1 + len (pr_rows sd.2)
     = sm_chunks_purged s + sm_markers_purged s + len (pr_rows d).
Proof.
  revert s d. induction ids as [|id ids IH]; intros s d Hf Hn Hnd Hel; cbv zeta; cbn [sweep_loop].
  { cbn. split_and!; try done; [by apply swept_refl|rewrite len_nil; lia]. }
  apply NoDup_cons in Hnd as [Hni Hnd].
  destruct (Hel id) as [[c Hx] Hr]; [left|].
  destruct (purge_cases (mkPurge id n now) d) as [Hp Hf1]. cbv zeta in *. cbn [rt_purge pg_retention_store].
  destruct (purge_for_retention _ d) as [[[p|]|e] d1]; cbn [fst snd pg_session pg_retention_days pg_now] in *.
  2: { exfalso. destruct Hp as [_ [?|?]]; congruence. }
  2: { exfalso. destruct Hp as [_ [Hb|?]]; [by apply Hb|lia]. }
  destruct (IH (add_purged s p) d1) as (Hsw & Hnf & He & Hc & Hcc & Ht & Hsum); [by apply Hf1|done|done|..].
  { intros id' Hin. rewrite (expired_purged _ _ _ _ _ _ _ Hp), (rows_of_purged _ _ _ _ _ Hp).
    cbn [pg_session]. rewrite decide_False by (intros ->; done). apply Hel. by right. }
  split_and!; try done.
  - by apply (swept_cons (mkPurge id n now) p ids d d1).
  - rewrite Hc, len_cons. cbn. lia.
  - rewrite Hsum. cbn [add_purged sm_chunks_purged sm_markers_purged].
    pose proof (pd_rows _ _ _ _ Hp) as Hrows. pose proof (pd_summary _ _ _ _ Hp) as Hps.
    cbn [pg_session] in Hrows. rewrite Hrows.
    pose proof (rows_removed id (pr_rows d)) as Hrm. pose proof (counts_sum id d) as Hcs.
    rewrite Hps. cbn [purge_summary pu_chunk_count pu_marker_count pg_session]. unfold rows_of in Hcs. lia.
Qed.

#[export] Instance eligible_proper n now : Proper (same_recordings ==> eq) (eligible n now).
Proof.
  intros d d' E. unfold eligible. rewrite (sm_sessions _ _ E). apply list_omap_ext, Forall_Forall2_diag, Forall_true.
  intros [id row]. by rewrite (expired_at_proper id n now _ _ E), (rows_of_proper id _ _ E).
Qed.

(** The candidates of a sweep. *)
Definition candidates (n now batch : Z) (d : PgRec) : list TerminalSessionId :=
  take (Z.to_nat (Z.max batch 1)) (map fst (merge_sort (by_key snd) (eligible n now d))).

Lemma candidates_perm n now d : map fst (merge_sort (by_key snd) (eligible n now d)) ≡ₚ map fst (eligible n now d).
Proof. apply Permutation_map, merge_sort_Permutation. Qed.

Lemma candidates_spec n now batch d : 1 <= batch ->
  NoDup (candidates n now batch d)
  /\ len (candidates n now batch d) = Z.min batch (len (eligible n now d))
  /\ (forall id, id ∈ candidates n now batch d -> is_Some (expired_at id n now d) /\ rows_of id d <> [])
  /\ (len (candidates n now batch d) <> batch -> forall id c, (id, c) ∈ eligible n now d ->
        id ∈ candidates n now batch d).
Proof.
  intros Hb. pose proof (candidates_perm n now d) as Hperm. unfold candidates.
  set (l := map fst (merge_sort _ _)) in *.
  assert (Hl : length l = length (eligible n now d)) by (by rewrite Hperm, length_map).
  split_and!.
  - apply (sublist_NoDup _ l); [|apply sublist_take]. rewrite Hperm. apply eligible_NoDup.
  - unfold len. rewrite length_take, Hl. lia.
  - intros id Hin. apply elem_of_take in Hin as (i & Hi%list_elem_of_lookup_2 & _).
    rewrite Hperm in Hi. apply list_elem_of_In, in_map_iff in Hi as ([id' c] & <- & Hin%list_elem_of_In).
    apply eligible_In in Hin as [Hx Hr]. cbn. eauto.
  - intros Hne id c Hin. rewrite take_ge by (unfold len in Hne; rewrite length_take in Hne; lia).
    rewrite Hperm. apply list_elem_of_In, in_map_iff. exists (id, c). split; [done|by apply list_elem_of_In].
Qed.

Lemma swept_drained n now ids d d' :
  swept ids d d' -> (forall id c, (id, c) ∈ eligible n now d -> id ∈ ids) -> eligible n now d' = [].
Proof.
  intros [Hs Hr _] Hall. destruct (eligible n now d') as [|[id c] l] eqn:E; [done|]. exfalso.
  assert (Hin : (id, c) ∈ eligible n now d') by (rewrite E; left).
  apply eligible_In in Hin as [Hx Hne]. rewrite Hr in Hne. case_decide as Hid; [done|].
  apply Hid, (Hall id c), expired_In; [|done]. unfold expired_at in *. by rewrite <- Hs.
Qed.

(** With a database that answers, a sweep purges exactly its candidates. *)
Lemma sweep_complete n batch now d :
  no_faults d -> n <= i32_max -> 1 <= batch ->
  let sd := run_recording_retention_sweep n batch now d in
  let cs := candidates n now batch d in
  swept cs d sd.2 /\ no_faults sd.2 /\ sm_errors sd.1 = 0 /\ sm_purged_sessions sd.1 = len cs
  /\ sm_candidate_count sd.1 = len cs /\ sm_batch_truncated sd.1 = (len cs =? batch)
  /\ sm_chunks_purged sd.1 + sm_markers_purged sd.1 + len (pr_rows sd.2) = len (pr_rows d).
Proof.
  intros Hf Hn Hb. cbv zeta. unfold run_recording_retention_sweep. cbn [rt_list_eligible pg_retention_store].
  unfold list_eligible_for_retention, i32_try_from_days. rewrite (proj2 (Z.leb_le _ _)) by lia.
  destruct (query_cases (candidates n now batch) d) as (d1 & E1 & F1 & [(e & Hnf & _)|Hq]); [done|].
  unfold candidates in Hq at 1. rewrite Hq. clear Hq.
  assert (candidates n now batch d1 = candidates n now batch d) as ->
    by (unfold candidates; by rewrite (eligible_proper n now _ _ E1)).
  destruct (candidates_spec n now batch d Hb) as (Hnd & Hlen & Hel & Hall).
  set (cs := candidates n now batch d) in *. set (s0 := mkSummary _ _ _ _ _ _ _).
  assert (match cs with [] => (s0, d1) | _ => sweep_loop n now cs s0 d1 end = sweep_loop n now cs s0 d1) as ->
    by (by destruct cs).
  destruct (sweep_loop_complete n now cs s0 d1) as (Hsw & Hf1 & He & Hp & Hc & Ht & Hsum); [by apply F1|done|done|..].
  { intros id Hin. rewrite <- (expired_at_proper id n now _ _ E1), <- (rows_of_proper id _ _ E1). by apply Hel. }
  rewrite He, Hp, Hc, Ht, Hsum. rewrite (sm_rows _ _ E1). cbn.
  split_and!; [by apply (swept_same _ _ d1)|done|done|lia|done|done|lia].
Qed.

(** With a database that answers, a sweep drains the backlog: it purges every eligible session
    up to the batch size, reports exactly that many, counts exactly the rows it deleted, and if
    it does not report a full batch then no session is eligible any more, so running it again
    does nothing. *)
Theorem sweep_drains_backlog n batch now d :
  no_faults d -> n <= i32_max -> 1 <= batch ->
  let sd := run_recording_retention_sweep n batch now d in
  sm_errors sd.1 = 0 /\ sm_purged_sessions sd.1 = Z.min batch (len (eligible n now d))
  /\ sm_candidate_count sd.1 = sm_purged_sessions sd.1
  /\ sm_chunks_purged sd.1 + sm_markers_purged sd.1 + len (pr_rows sd.2) = len (pr_rows d)
  /\ (sm_batch_truncated sd.1 = false -> eligible n now sd.2 = []).
Proof.
  intros Hf Hn Hb. cbv zeta.
  destruct (sweep_complete n batch now d Hf Hn Hb) as (Hsw & _ & He & Hp & Hc & Ht & Hsum).
  destruct (candidates_spec n now batch d Hb) as (_ & Hlen & _ & Hall).
  rewrite He, Hp, Hc, Ht, Hlen. split_and!; try done. intros Hne%Z.eqb_neq.
  apply (swept_drained n now (candidates n now batch d) d); [done|]. apply Hall. congruence.
Qed.

(** ** Several sweeps

    Whatever expired at an earlier time is purged before what expired later. *)

Lemma eligible_earlier n now0 now d id c :
  now0 <= now -> (id, c) ∈ eligible n now0 d -> (id, c) ∈ eligible n now d.
Proof.
  intros Hle [Hx Hr]%eligible_In. apply expired_In; [|done]. unfold expired_at in *.
  destruct (t_sessions (pr_db d) !! id) as [row|]; [|done]. cbn in *. destruct (r_closed_at row) as [c'|]; [|done].
  cbn in *. destruct (c' + days n <=? now0) eqn:E; [|done]. bool_props. injection Hx as ->.
  by rewrite (proj2 (Z.leb_le _ _)) by lia.
Qed.

Lemma eligible_before n now0 now d id c id' c' :
  (id, c) ∈ eligible n now0 d -> (id', c') ∈ eligible n now d -> c' <= c -> (id', c') ∈ eligible n now0 d.
Proof.
  intros [Hx _]%eligible_In [Hx' Hr']%eligible_In Hle. apply expired_In; [|done]. unfold expired_at in *.
  destruct (t_sessions (pr_db d) !! id) as [row|]; [|done]. destruct (t_sessions (pr_db d) !! id') as [row'|]; [|done].
  cbn in *. destruct (r_closed_at row) as [k|], (r_closed_at row') as [k'|]; try done. cbn in *.
  destruct (k + days n <=? now0) eqn:E; [|done]. destruct (k' + days n <=? now) eqn:E'; [|done]. simplify_eq. bool_props.
  by rewrite (proj2 (Z.leb_le _ _)) by lia.
Qed.

(** If a session that had expired at [now0] survives a sweep, the sweep spent its whole batch on sessions
    that had expired at [now0] too. *)
Lemma candidates_before n now0 now batch d id c :
  now0 <= now -> 1 <= batch -> (id, c) ∈ eligible n now0 d -> id ∉ candidates n now batch d ->
  len (candidates n now batch d) = batch
  /\ forall id', id' ∈ candidates n now batch d -> id' ∈ map fst (eligible n now0 d).
Proof.
  intros Hle Hb Hin Hni. destruct (candidates_spec n now batch d Hb) as (_ & _ & _ & Hall).
  pose proof (eligible_earlier n now0 now d id c Hle Hin) as Hin1. split.
  { destruct (decide (len (candidates n now batch d) = batch)) as [|Hne]; [done|].
    destruct Hni. by apply (Hall Hne id c). }
  unfold candidates in *. set (k := Z.to_nat (Z.max batch 1)) in *. set (S := merge_sort (by_key snd) (eligible n now d)) in *.
  intros id' Hid'. rewrite firstn_map in Hni, Hid'.
  apply list_elem_of_In, in_map_iff in Hid' as ([i c'] & <- & Ht%list_elem_of_In). cbn [fst].
  assert (Hd : (id, c) ∈ drop k S).
  { assert (HS : (id, c) ∈ S) by (unfold S; by rewrite merge_sort_Permutation).
    rewrite <- (take_drop k S) in HS. apply elem_of_app in HS as [HS|]; [|done].
    destruct Hni. apply list_elem_of_In, in_map_iff. exists (id, c). split; [done|by apply list_elem_of_In]. }
  assert (Hs : StronglySorted (by_key snd) (take k S ++ drop k S)).
  { rewrite take_drop. apply (StronglySorted_merge_sort _). }
  pose proof (StronglySorted_app_1_elem_of _ _ _ _ _ Hs Ht Hd) as Hc. unfold by_key in Hc. cbn in Hc.
  apply list_elem_of_In, in_map_iff. exists (i, c'). split; [done|]. apply list_elem_of_In.
  apply (eligible_before n now0 now d id c); [done| |done].
  assert (HS : (i, c') ∈ S) by (eapply elem_of_sublist; [exact Ht|apply sublist_take]).
  unfold S in HS. by rewrite merge_sort_Permutation in HS.
Qed.

Lemma eligible_swept n now ids d d' id c :
  swept ids d d' -> (id, c) ∈ eligible n now d' <-> (id, c) ∈ eligible n now d /\ id ∉ ids.
Proof.
  intros [Hs Hr _]. assert (He : expired_at id n now d' = expired_at id n now d) by (unfold expired_at; by rewrite Hs).
  split.
  - intros [Hx Hne]%eligible_In. rewrite Hr in Hne. case_decide as Hi; [done|].
    split; [apply expired_In; congruence|done].
  - intros [[Hx Hne]%eligible_In Hi]. apply expired_In; [congruence|]. rewrite Hr. by rewrite decide_False.
Qed.

(** A sweep reduces what had expired at an earlier time by its whole batch. *)
Lemma sweep_progress n now0 now batch d d' :
  now0 <= now -> 1 <= batch -> swept (candidates n now batch d) d d' ->
  len (eligible n now0 d') <= Z.max 0 (len (eligible n now0 d) - batch).
Proof.
  intros Hle Hb Hsw. destruct (eligible n now0 d') as [|[id c] rest] eqn:E; [rewrite len_nil; lia|]. rewrite <- E.
  assert (Hin : (id, c) ∈ eligible n now0 d') by (rewrite E; left).
  apply (eligible_swept n now0 _ _ _ _ _ Hsw) in Hin as [Hin Hni].
  destruct (candidates_before n now0 now batch d id c Hle Hb Hin Hni) as [Hlen Hsub].
  destruct (candidates_spec n now batch d Hb) as (Hnd & _ & _ & _).
  assert (Hincl : (length (map fst (eligible n now0 d') ++ candidates n now batch d) <= length (map fst (eligible n now0 d)))%nat).
  { apply NoDup_incl_length.
    - apply NoDup_ListNoDup, NoDup_app. split_and!; [apply eligible_NoDup| |done].
      intros x Hx. apply list_elem_of_In, in_map_iff in Hx as ([x' c'] & <- & Hx%list_elem_of_In).
      by apply (eligible_swept n now0 _ _ _ _ _ Hsw) in Hx as [_ ?].
    - intros x Hx. apply list_elem_of_In. apply list_elem_of_In in Hx. apply elem_of_app in Hx as [Hx|Hx]; [|by apply Hsub].
      apply list_elem_of_In, in_map_iff in Hx as ([x' c'] & <- & Hx%list_elem_of_In).
      apply (eligible_swept n now0 _ _ _ _ _ Hsw) in Hx as [Hx _].
      apply list_elem_of_In, in_map_iff. exists (x', c'). split; [done|by apply list_elem_of_In]. }
  rewrite length_app, !length_map in Hincl. unfold len in *. lia.
Qed.

(** ** A recording, step by step

    Session 100 of a small database; chunks of at least four and at most eight bytes; the third
    frame is too large to be recorded, and it is the last one. *)

Definition rec_db (closed_at : option Z) (rows : list StoredRow) : PgRec :=
  mkPgRec (mkPgDb {[ 1 ]} {[ 10 ]}
    {[ 100 := mkSessionRow 100 1 10 (if closed_at is Some _ then "closed" else "active") 80 24 1000 1000 closed_at ]}
    empty [] 1000 200 []) rows [].

Definition rec_cfg : RecordingWriterConfig := mkWriterConfig 4 8.
Definition rec_data (n : Z) : list Byte.byte := replicate (if n =? 3 then 9 else 3) (byte_of 65).
Definition rec_good (d : PgRec) : Prop := no_faults d /\ is_Some (t_sessions (pr_db d) !! 100).

Lemma statement_no_faults {A} (f : PgRec -> result RepositoryError A * PgRec) d :
  no_faults d -> statement f d = f d.
Proof.
  unfold no_faults, statement, next_fault. intros ->. by destruct d.
Qed.

Lemma rec_good_chunk c d : rec_good d -> rec_good (rs_append_chunk c d).2.
Proof.
  intros [Hf Hs]. cbn. unfold append_chunk. cbn. rewrite statement_no_faults by done. by case_match.
Qed.

Lemma rec_good_marker m d : rec_good d -> rec_good (rs_append_marker m d).2.
Proof.
  intros [Hf Hs]. cbn. unfold append_marker. cbn. rewrite statement_no_faults by done. by case_match.
Qed.

Lemma rec_good_gaps m d : rec_good d -> mk_session m = 100 -> mk_kind m = MkReplayGap ->
  1 <= mk_seq m -> is_object (mk_payload m) = true -> exists d', rs_append_marker m d = (Ok tt, d').
Proof.
  intros [Hf Hs] Hid Hk Hseq Ho. cbn. unfold append_marker. cbn. rewrite statement_no_faults by done.
  unfold marker_violation. rewrite (proj2 (Z.ltb_ge _ _)), Hk, (proj2 (Z.leb_le _ _)), Ho, Hid by lia.
  cbn. rewrite (bool_decide_eq_true_2 (is_Some _)) by done. eauto.
Qed.

Definition rec_round : Recorder PgRec -> Recorder PgRec := task_round 100 rec_cfg.
Definition rec_out (n : Z) : Recorder PgRec -> Recorder PgRec :=
  on_handle (fun h => record_output h (n + 1) (rec_data (n + 1))).

Definition rec_two : Recorder PgRec :=
  rec_out 1 (rec_round (rec_out 0 (rec_round (recorder_start rec_cfg (rec_db None []))))).
Definition rec_done : Recorder PgRec :=
  rec_round (rec_round (on_handle (fun h => shutdown h 3) (rec_out 2 (rec_round rec_two)))).

Lemma recording_two : recording 100 rec_cfg rec_data rec_good (rec_db None []) 2 rec_two.
Proof.
  eapply recording_step; [|apply (rs_output _ _ _ _ 1); by vm_compute].
  eapply recording_step; [|apply rs_round].
  eapply recording_step; [|apply (rs_output _ _ _ _ 0); by vm_compute].
  eapply recording_step; [|apply rs_round]. apply recording_start.
Qed.

Lemma recording_done : recording 100 rec_cfg rec_data rec_good (rec_db None []) 3 rec_done.
Proof.
  do 2 (eapply recording_step; [|apply rs_round]).
  eapply recording_step; [|by apply rs_shutdown].
  eapply recording_step; [|apply (rs_output _ _ _ _ 2); by vm_compute].
  eapply recording_step; [|apply rs_round]. apply recording_two.
Qed.

Lemma rec_data_pos n : 0 < len (rec_data n).
Proof. unfold rec_data. by destruct (n =? 3). Qed.


Lemma finished_recording_omits_trailing_gap_witness :
  rows_cover (rs_rows 100 (rc_store rec_done)) = rangeZ 1 (3 - 1)
  /\ h_gap (rc_handle rec_done) = Some (mkGap 3 3 FRAME_OVERSIZED).
Proof.
  split; [|by vm_compute].
  destruct (finished_recording_omits_trailing_gap 100 rec_cfg rec_data rec_good rec_good_chunk
    rec_good_marker rec_good_gaps ltac:(by vm_compute) rec_data_pos (rec_db None []) 3 rec_done
    (mkGap 3 3 FRAME_OVERSIZED)) as [H _]; [done|by split; [|eexists]|apply recording_done|by vm_compute..|exact H].
Defined.

(** One closed session with two recorded rows, a month after it closed. *)
Definition rec_old : PgRec := rec_db (Some 1000)
  [mkStored 150 (RowChunk (mkChunk 100 1 2 3 (rec_data 1))) 1000;
   mkStored 151 (RowMarker (mkMarker 100 MkClosed 2 (JObj []))) 1000].

Lemma sweep_drains_backlog_witness :
  let sd := run_recording_retention_sweep 30 10 (1000 + days 30) rec_old in
  sm_purged_sessions sd.1 = 1 /\ eligible 30 (1000 + days 30) sd.2 = [].
Proof.
  destruct (sweep_drains_backlog 30 10 (1000 + days 30) rec_old) as (_ & Hp & _ & _ & He);
    [done|by vm_compute|lia|].
  split; [exact Hp|]. apply He. by vm_compute.
Defined.
