(* ===== verification/Reconcile.v ===== *)
(** * Start-up reconciliation and the session listings

    Models the rest of [crates/relayterm-db/src/repositories/terminal_session.rs]
    ([list_for_user], [list_attachments], [reconcile_orphaned_on_startup]) and of
    [crates/relayterm-db/src/repositories/session_event.rs] ([list_for_session], [get]).  No live
    PTY survives the process, so at start-up every session that is not closed is closed in one
    transaction, with its event and, if it was recorded, its final marker. *)

From stdpp Require Import pretty sorting.
From S2P Require Import Prelude Core SessionStore PgSession Recording PgRecording.

(** ** Listings *)

(** [TerminalSessionRepository::list_for_user] *)
Definition list_for_user (owner_id : UserId) : PgDb -> result RepositoryError (list TerminalSession) * PgDb :=
  execute (fun d =>
    (collect (map session_try_into_domain
       (merge_sort (by_key (fun r => - r_created_at r))
          (filter (fun r => r_owner_id r = owner_id) (map snd (map_to_list (t_sessions d)))))), d)).

(** [TerminalSessionRepository::list_attachments] *)
Definition list_attachments (session_id : TerminalSessionId)
  : PgDb -> result RepositoryError (list TerminalSessionAttachment) * PgDb :=
  execute (fun d =>
    (Ok (merge_sort (by_key ta_attached_at)
       (filter (fun a => ta_session_id a = session_id) (map snd (map_to_list (t_attachments d))))), d)).

(** [SessionEventRepository::list_for_session]; rows of one instant are ordered by identifier. *)
Definition list_for_session (session_id : TerminalSessionId)
  : PgDb -> result RepositoryError (list SessionEvent) * PgDb :=
  execute (fun d =>
    (collect (map event_try_into_domain
       (merge_sort (by_key er_recorded_at) (merge_sort (by_key er_id)
          (filter (fun r => er_session_id r = session_id) (t_events d))))), d)).

(** [SessionEventRepository::get] *)
Definition event_get (id : SessionEventId) : PgDb -> result RepositoryError (option SessionEvent) * PgDb :=
  execute (fun d =>
    (match head (filter (fun r => er_id r = id) (t_events d)) with
     | None => Ok None
     | Some r => let? e := event_try_into_domain r in Ok (Some e)
     end, d)).

(** ** Reconciliation *)

Definition RECORDING_MARKER_ENTITY : string := "terminal_recording_marker".

(** [ReconciledTerminalSession] *)
Record ReconciledTerminalSession := mkReconciled {
  rn_session_id : TerminalSessionId;
  rn_previous_status : TerminalSessionStatus
}.

Definition map_db (f : PgDb -> PgDb) (d : PgRec) : PgRec := with_db (f (pr_db d)) d.

(** The row after the [UPDATE]. *)
Definition closed_row (at_ now : Z) (r : TerminalSessionRow) : TerminalSessionRow :=
  mkSessionRow (r_id r) (r_owner_id r) (r_server_profile_id r) "closed" (r_cols r) (r_rows r)
    (r_created_at r) now (Some at_).

Definition reconcile_payload (previous : TerminalSessionStatus) (at_ : Z) : json :=
  JObj [("reason"%string, JStr (lit "startup_reconciliation"));
        ("previous_status"%string, JStr (lit (status_as_str previous)));
        ("reconciled_at"%string, JTime at_)].

(** [INSERT INTO session_events], with the table's keys. *)
Definition insert_event (id : Uuid) (session_id : TerminalSessionId) (payload : json) (d : PgRec)
  : result RepositoryError unit * PgRec :=
  if bool_decide (id ∈ map er_id (t_events (pr_db d))) then
    (Err (map_sqlx_error SESSION_EVENT_ENTITY (UniqueViolation (Some "session_events_pkey"%string))), d)
  else if negb (bool_decide (is_Some (t_sessions (pr_db d) !! session_id))) then
    (Err (map_sqlx_error SESSION_EVENT_ENTITY
            (ForeignKeyViolation (Some "session_events_session_id_fkey"%string))), d)
  else (Ok tt, map_db (push_event (mkEventRow id session_id (event_as_str EvClosed) payload (clock (pr_db d)))) d).

(** [INSERT INTO terminal_recording_markers ... ON CONFLICT ... DO NOTHING] *)
Definition insert_closed_marker (id : Uuid) (m : CreateTerminalRecordingMarker) (d : PgRec)
  : result RepositoryError unit * PgRec :=
  if existsb (fun m' => bool_decide (mk_kind m' = MkClosed) && (mk_seq m' =? mk_seq m)) (markers_of (mk_session m) d)
  then (Ok tt, d)
  else match marker_violation d m with
  | Some v => (Err (map_sqlx_error RECORDING_MARKER_ENTITY v), d)
  | None => (Ok tt, add_row (mkStored id (RowMarker m) (clock (pr_db d))) d)
  end.

Definition new_uuid {A} (k : Uuid -> PgRec -> result RepositoryError A * PgRec) (d : PgRec)
  : result RepositoryError A * PgRec :=
  let '(id, d) := fresh_uuid d in k id d.

(** One iteration of the loop. *)
Definition reconcile_one (at_ : Z) (id : Uuid) (status_str : string)
  : PgRec -> result RepositoryError ReconciledTerminalSession * PgRec :=
  match status_from_str_tag status_str with
  | None => fun d => (Err (RValidation "status" ("unknown terminal session status `" +:+ status_str +:+ "`")), d)
  | Some previous_status =>
      sql _ <- exec (fun d => map_db (set_sessions (alter (closed_row at_ (clock (pr_db d))) id)) d);
      sql _ <- new_uuid (fun event_id =>
        statement (insert_event event_id id (reconcile_payload previous_status at_)));
      sql last_seq <- query (fun d => maximum (map ch_seq_end (chunks_of id d)));
      sql _ <- (match last_seq with
                | Some last_seq => new_uuid (fun marker_id => statement
                    (insert_closed_marker marker_id
                       (mkMarker id MkClosed last_seq (reconcile_payload previous_status at_))))
                | None => fun d => (Ok tt, d)
                end);
      fun d => (Ok (mkReconciled id previous_status), d)
  end.

Fixpoint reconcile_loop (at_ : Z) (candidates : list (Uuid * string))
  : PgRec -> result RepositoryError (list ReconciledTerminalSession) * PgRec :=
  match candidates with
  | [] => fun d => (Ok [], d)
  | (id, status_str) :: rest =>
      sql r <- reconcile_one at_ id status_str;
      sql rs <- reconcile_loop at_ rest;
      fun d => (Ok (r :: rs), d)
  end.

Definition orphan (r : TerminalSessionRow) : bool :=
  bool_decide (r_status r ∈ ["starting"; "active"; "detached"]%string).

(** [SELECT id, status ... ORDER BY id FOR UPDATE] *)
Definition orphans (d : PgRec) : list (Uuid * string) :=
  map (fun kv => (kv.1, r_status kv.2))
    (merge_sort (by_key fst) (filter (fun kv => orphan kv.2 = true) (map_to_list (t_sessions (pr_db d))))).

(** [TerminalSessionRepository::reconcile_orphaned_on_startup] *)
Definition reconcile_orphaned_on_startup (at_ : Z) (d : PgRec)
  : result RepositoryError (list ReconciledTerminalSession) * PgRec :=
  transaction (sql candidates <- query orphans;
               sql rs <- reconcile_loop at_ candidates;
               fun d => (Ok (rs, true), d)) d.

(** ** What a committed reconciliation did *)

(** Databases that differ at most in the fault script and the next identifier. *)
Record db_frame (d d' : PgRec) : Prop := {
  fr_sessions : t_sessions (pr_db d') = t_sessions (pr_db d);
  fr_attachments : t_attachments (pr_db d') = t_attachments (pr_db d);
  fr_events : t_events (pr_db d') = t_events (pr_db d);
  fr_clock : clock (pr_db d') = clock (pr_db d);
  fr_rows : pr_rows d' = pr_rows d;
  fr_audit : pr_audit d' = pr_audit d
}.

#[export] Instance db_frame_equiv : Equivalence db_frame.
Proof.
  split.
  - done.
  - intros d d' []. by split.
  - intros d1 d2 d3 [] []. split; congruence.
Qed.

Lemma db_frame_same d d' : db_frame d d' -> same_recordings d d'.
Proof. intros []. by split. Qed.

Lemma statement_frame {A} (f : PgRec -> result RepositoryError A * PgRec) d :
  exists d1, db_frame d d1 /\ (no_faults d -> no_faults d1)
    /\ ((exists e, ~ no_faults d /\ statement f d = (Err e, d1)) \/ statement f d = f d1).
Proof.
  unfold statement, next_fault, no_faults. destruct (faults (pr_db d)) as [|[e|] rest] eqn:E.
  - exists (with_db (pr_db d) d). split; [by split|]. split; [done|by right].
  - eexists. split; [|split; [|left; exists e; split; [done|reflexivity]]]; [by split|done].
  - eexists. split; [|split; [|right; reflexivity]]; [by split|done].
Qed.

Definition last_chunk_seq (id : TerminalSessionId) (d : PgRec) : option Z :=
  maximum (map ch_seq_end (chunks_of id d)).

Definition event_closes (at_ : Z) (r : ReconciledTerminalSession) (e : SessionEventRow) : Prop :=
  er_session_id e = rn_session_id r /\ er_kind e = event_as_str EvClosed
  /\ er_payload e = reconcile_payload (rn_previous_status r) at_.

Record closes (at_ : Z) (l : list ReconciledTerminalSession) (d d' : PgRec) : Prop := {
  cl_sessions : forall id, t_sessions (pr_db d') !! id =
    (fun r => if decide (id ∈ map rn_session_id l) then closed_row at_ (clock (pr_db d)) r else r)
      <$> t_sessions (pr_db d) !! id;
  cl_attachments : t_attachments (pr_db d') = t_attachments (pr_db d);
  cl_events : exists evs, t_events (pr_db d') = t_events (pr_db d) ++ evs
    /\ Forall2 (event_closes at_) l evs;
  cl_clock : clock (pr_db d') = clock (pr_db d);
  cl_audit : pr_audit d' = pr_audit d;
  cl_chunks : forall id, chunks_of id d' = chunks_of id d;
  cl_markers : forall id, markers_of id d `prefix_of` markers_of id d';
  cl_terminated : forall r s, r ∈ l -> last_chunk_seq (rn_session_id r) d = Some s ->
    exists m, m ∈ markers_of (rn_session_id r) d' /\ mk_kind m = MkClosed /\ mk_seq m = s
}.

Lemma closes_nil at_ d d' : db_frame d d' -> closes at_ [] d d'.
Proof.
  intros Hf. pose proof (db_frame_same _ _ Hf) as Hs. destruct Hf. split; try done.
  - intros id. rewrite fr_sessions0. by destruct (_ !! id).
  - exists []. by rewrite app_nil_r.
  - intros id. by rewrite (chunks_of_proper id _ _ Hs).
  - intros id. by rewrite (markers_of_proper id _ _ Hs).
  - intros r s Hin. by apply elem_of_nil in Hin.
Qed.

Lemma closes_cons at_ r l d d1 d2 :
  rn_session_id r ∉ map rn_session_id l ->
  closes at_ [r] d d1 -> closes at_ l d1 d2 -> closes at_ (r :: l) d d2.
Proof.
  intros Hni [A1 A2 (ev1 & A3 & A3') A4 A5 A6 A7 A8] [B1 B2 (ev2 & B3 & B3') B4 B5 B6 B7 B8].
  split.
  - intros id. rewrite B1, A1, A4. destruct (t_sessions (pr_db d) !! id); cbn; [|done]. f_equal.
    repeat case_decide; try done; set_solver.
  - congruence.
  - exists (ev1 ++ ev2). rewrite B3, A3, <- app_assoc. split; [done|].
    change (r :: l) with ([r] ++ l). by apply Forall2_app.
  - congruence.
  - congruence.
  - intros id. by rewrite B6.
  - intros id. by rewrite A7.
  - intros r' s [->|Hin]%elem_of_cons Hlast.
    + destruct (A8 r s) as (m & Hm & Hk); [set_solver|done|]. exists m. split; [|done].
      destruct (B7 (rn_session_id r)) as [k ->]. by apply elem_of_app; left.
    + apply (B8 r'); [done|]. unfold last_chunk_seq in *. by rewrite A6.
Qed.

Lemma closed_marker_present id s d :
  existsb (fun m' => bool_decide (mk_kind m' = MkClosed) && (mk_seq m' =? s)) (markers_of id d) = true ->
  exists m, m ∈ markers_of id d /\ mk_kind m = MkClosed /\ mk_seq m = s.
Proof.
  intros (m & Hin & Hb)%existsb_exists. bool_props. exists m. by split; [apply list_elem_of_In|].
Qed.

Lemma markers_of_add s m d id t : markers_of s (add_row (mkStored id (RowMarker m) t) d) =
  markers_of s d ++ (if decide (s = mk_session m) then [m] else []).
Proof. unfold markers_of. rewrite rows_of_add, omap_app. cbn [row_session]. by case_decide. Qed.

Lemma chunks_of_add_marker s m d id t :
  chunks_of s (add_row (mkStored id (RowMarker m) t) d) = chunks_of s d.
Proof.
  unfold chunks_of. rewrite rows_of_add, omap_app. cbn [row_session]. case_decide; cbn; by rewrite app_nil_r.
Qed.

(** Appending the final marker, or finding it there. *)
Lemma insert_closed_marker_cases id m d d' :
  mk_kind m = MkClosed -> insert_closed_marker id m d = (Ok tt, d') ->
  pr_db d' = pr_db d /\ pr_audit d' = pr_audit d
  /\ (forall s, chunks_of s d' = chunks_of s d)
  /\ (forall s, markers_of s d `prefix_of` markers_of s d')
  /\ exists m', m' ∈ markers_of (mk_session m) d' /\ mk_kind m' = MkClosed /\ mk_seq m' = mk_seq m.
Proof.
  unfold insert_closed_marker. intros Hk H. destruct (existsb _ _) eqn:Ex; simplify_eq.
  { split_and!; try done. by apply closed_marker_present. }
  destruct (marker_violation d m); simplify_eq. split_and!; try done.
  - intros s. apply chunks_of_add_marker.
  - intros s. rewrite markers_of_add. by apply prefix_app_r.
  - exists m. rewrite markers_of_add, decide_True by done. split; [|done]. set_solver.
Qed.

(** The [UPDATE] and the event of one session. *)
Record row_closed (at_ : Z) (id : Uuid) (prev : TerminalSessionStatus) (d d' : PgRec) : Prop := {
  rc_sessions : t_sessions (pr_db d') = alter (closed_row at_ (clock (pr_db d))) id (t_sessions (pr_db d));
  rc_attachments : t_attachments (pr_db d') = t_attachments (pr_db d);
  rc_events : exists e, t_events (pr_db d') = t_events (pr_db d) ++ [e]
    /\ event_closes at_ (mkReconciled id prev) e;
  rc_clock : clock (pr_db d') = clock (pr_db d);
  rc_rows : pr_rows d' = pr_rows d;
  rc_audit : pr_audit d' = pr_audit d
}.

Definition close_row (at_ : Z) (id : Uuid) (prev : TerminalSessionStatus)
  : PgRec -> result RepositoryError unit * PgRec :=
  sql _ <- exec (fun d => map_db (set_sessions (alter (closed_row at_ (clock (pr_db d))) id)) d);
  new_uuid (fun event_id => statement (insert_event event_id id (reconcile_payload prev at_))).

Lemma close_row_cases at_ id prev d d' :
  close_row at_ id prev d = (Ok tt, d') -> row_closed at_ id prev d d'.
Proof.
  unfold close_row, then_, exec, new_uuid. intros H.
  match type of H with context [statement ?f d] =>
    destruct (statement_frame f d) as (d1 & E1 & _ & [(e & _ & Hs)|Hs]) end; rewrite Hs in H; [done|].
  cbv beta iota in H. set (u1 := map_db _ d1) in H.
  change (fresh_uuid u1) with (next_uuid (pr_db u1), with_db (new_v4 (pr_db u1)).2 u1) in H. cbv beta iota in H.
  match type of H with statement ?f ?u = _ =>
    destruct (statement_frame f u) as (d2 & E2 & _ & [(e & _ & Hs2)|Hs2]) end; rewrite Hs2 in H; [done|].
  unfold insert_event in H. repeat (case_match; [done|]). simplify_eq.
  destruct E1 as [F1 F2 F3 F4 F5 F6], E2 as [G1 G2 G3 G4 G5 G6]. cbn in G1, G2, G3, G4, G5, G6.
  split; cbn; try congruence. eexists. split; [by rewrite G3, F3|done].
Qed.

Lemma reconcile_one_eq at_ id st d :
  reconcile_one at_ id st d =
  match status_from_str_tag st with
  | None => (Err (RValidation "status" ("unknown terminal session status `" +:+ st +:+ "`")), d)
  | Some prev =>
      then_ (close_row at_ id prev) (fun _ =>
      sql last_seq <- query (last_chunk_seq id);
      sql _ <- (match last_seq with
                | Some last_seq => new_uuid (fun marker_id => statement
                    (insert_closed_marker marker_id (mkMarker id MkClosed last_seq (reconcile_payload prev at_))))
                | None => fun d => (Ok tt, d)
                end);
      fun d => (Ok (mkReconciled id prev), d)) d
  end.
Proof.
  unfold reconcile_one, close_row, then_. destruct (status_from_str_tag st); [|done].
  destruct (exec _ d) as [[[]|] d1]; [|done]. by destruct (new_uuid _ d1) as [[[]|] d2].
Qed.

Lemma row_closed_closes at_ id prev d d1 d' :
  row_closed at_ id prev d d1 ->
  pr_audit d' = pr_audit d1 ->
  t_sessions (pr_db d') = t_sessions (pr_db d1) -> t_attachments (pr_db d') = t_attachments (pr_db d1) ->
  t_events (pr_db d') = t_events (pr_db d1) -> clock (pr_db d') = clock (pr_db d1) ->
  (forall s, chunks_of s d' = chunks_of s d1) ->
  (forall s, markers_of s d1 `prefix_of` markers_of s d') ->
  (forall s, last_chunk_seq id d = Some s ->
     exists m, m ∈ markers_of id d' /\ mk_kind m = MkClosed /\ mk_seq m = s) ->
  closes at_ [mkReconciled id prev] d d'.
Proof.
  intros [R1 R2 (e & R3 & R3') R4 R5 R6] H1 H2 H3 H4 H5 H6 H7 H8.
  split; cbn [map rn_session_id]; try congruence.
  - intros id'. rewrite H2, R1. destruct (decide (id' = id)) as [->|Hne].
    + rewrite lookup_alter_eq. destruct (_ !! id); [|done]. cbn. by rewrite decide_True by set_solver.
    + rewrite lookup_alter_ne by done. destruct (_ !! id'); [|done]. cbn. by rewrite decide_False by set_solver.
  - exists [e]. rewrite H4, R3. split; [done|]. by constructor; [|apply Forall2_nil].
  - intros s. rewrite H6. unfold chunks_of, rows_of. by rewrite R5.
  - intros s. rewrite <- (H7 s). unfold markers_of, rows_of. by rewrite R5.
  - intros r s Hin%list_elem_of_singleton. subst r. apply H8.
Qed.

Lemma closes_one at_ id st d r d' :
  reconcile_one at_ id st d = (Ok r, d') ->
  rn_session_id r = id /\ status_from_str_tag st = Some (rn_previous_status r) /\ closes at_ [r] d d'.
Proof.
  rewrite reconcile_one_eq. destruct (status_from_str_tag st) as [prev|]; [|done]. unfold then_.
  destruct (close_row at_ id prev d) as [[[]|] d1] eqn:Ec; [|done]. apply close_row_cases in Ec.
  assert (Hlast : last_chunk_seq id d1 = last_chunk_seq id d).
  { unfold last_chunk_seq, chunks_of, rows_of. by rewrite (rc_rows _ _ _ _ _ Ec). }
  destruct (statement_frame (fun d => (Ok (last_chunk_seq id d), d)) d1) as (d2 & E2 & _ & [(e & _ & Hq)|Hq]);
    unfold query; rewrite Hq; [done|]. cbv beta iota.
  pose proof (db_frame_same _ _ E2) as S2.
  assert (Hl2 : last_chunk_seq id d2 = last_chunk_seq id d).
  { rewrite <- Hlast. unfold last_chunk_seq. by rewrite (chunks_of_proper id _ _ S2). }
  rewrite Hl2. destruct (last_chunk_seq id d) as [s|] eqn:Es.
  2:{ intros H. simplify_eq. split_and!; try done. destruct E2.
      apply (row_closed_closes at_ id prev d d1); try done.
      - intros x. by rewrite (chunks_of_proper x _ _ S2).
      - intros x. by rewrite (markers_of_proper x _ _ S2).
      - intros s Hs. congruence. }
  unfold new_uuid.
  change (fresh_uuid d2) with (next_uuid (pr_db d2), with_db (new_v4 (pr_db d2)).2 d2). cbv beta iota.
  match goal with |- context [statement ?f ?u] =>
    destruct (statement_frame f u) as (d3 & E3 & _ & [(e & _ & ->)| ->]) end; [done|].
  destruct (insert_closed_marker _ _ d3) as [[[]|] d4] eqn:Em; [|done]. intros H. simplify_eq.
  apply insert_closed_marker_cases in Em as (M1 & M2 & M3 & M4 & M5); [|done].
  pose proof (db_frame_same _ _ E3) as S3. destruct E2 as [F1 F2 F3 F4 F5 F6], E3 as [G1 G2 G3 G4 G5 G6].
  cbn in G1, G2, G3, G4, G5, G6. split_and!; try done.
  apply (row_closed_closes at_ id prev d d1); rewrite ?M1; try congruence.
  - intros x. rewrite M3. unfold chunks_of, rows_of. by rewrite G5, F5.
  - intros x. rewrite <- (M4 x). unfold markers_of, rows_of. by rewrite G5, F5.
  - intros s' Hs'. rewrite Es in Hs'. simplify_eq. apply M5.
Qed.

Lemma closes_loop at_ cands d l d' :
  NoDup (map fst cands) -> reconcile_loop at_ cands d = (Ok l, d') ->
  map rn_session_id l = map fst cands
  /\ Forall2 (fun c r => status_from_str_tag c.2 = Some (rn_previous_status r)) cands l
  /\ closes at_ l d d'.
Proof.
  revert d l. induction cands as [|[id st] cands IH]; intros d l Hnd; cbn [reconcile_loop].
  { intros [= <- <-]. split_and!; [done|by constructor|by apply closes_nil]. }
  cbn in Hnd. apply NoDup_cons in Hnd as [Hni Hnd]. unfold then_.
  destruct (reconcile_one at_ id st d) as [[r|] d1] eqn:E1; [|done].
  destruct (reconcile_loop at_ cands d1) as [[rs|] d2] eqn:E2; [|done]. intros [= <- <-].
  apply closes_one in E1 as (Hid & Hst & Hc1). apply IH in E2 as (Hids & Hf & Hc2); [|done].
  split_and!; [cbn; congruence|by constructor|].
  apply (closes_cons at_ r rs d d1 d2); [|done|done]. by rewrite Hid, Hids.
Qed.

(** ** Properties *)

Lemma orphans_In id st d :
  (id, st) ∈ orphans d <-> exists r, t_sessions (pr_db d) !! id = Some r /\ r_status r = st /\ orphan r = true.
Proof.
  unfold orphans. rewrite list_elem_of_In, in_map_iff. split.
  - intros ([id' r] & [= <- <-] & Hin%list_elem_of_In). rewrite merge_sort_Permutation in Hin.
    apply list_elem_of_filter in Hin as [Ho Hin%elem_of_map_to_list]. by exists r.
  - intros (r & Hr & <- & Ho). exists (id, r). split; [done|]. apply list_elem_of_In.
    rewrite merge_sort_Permutation. apply list_elem_of_filter. split; [done|by apply elem_of_map_to_list].
Qed.

Lemma orphans_NoDup d : NoDup (map fst (orphans d)).
Proof.
  unfold orphans. rewrite map_map. cbn. change (fun x : Uuid * TerminalSessionRow => x.1) with (@fst Uuid TerminalSessionRow).
  rewrite merge_sort_Permutation.
  apply (sublist_NoDup _ (map fst (map_to_list (t_sessions (pr_db d))))); [apply NoDup_fst_map_to_list|].
  apply (fmap_sublist fst), sublist_filter.
Qed.

Lemma orphans_proper d d' : db_frame d d' -> orphans d' = orphans d.
Proof. intros []. unfold orphans. by rewrite fr_sessions0. Qed.

Lemma closes_frame at_ l d d1 d2 d3 :
  db_frame d d1 -> closes at_ l d1 d2 -> db_frame d2 d3 -> closes at_ l d d3.
Proof.
  intros E1 [C1 C2 (evs & C3 & C3') C4 C5 C6 C7 C8] E2.
  pose proof (db_frame_same _ _ E1) as S1. pose proof (db_frame_same _ _ E2) as S2.
  destruct E1 as [F1 F2 F3 F4 F5 F6], E2 as [G1 G2 G3 G4 G5 G6]. split; try congruence.
  - intros id. by rewrite G1, C1, F1, F4.
  - exists evs. by rewrite G3, C3, F3.
  - intros id. by rewrite <- (chunks_of_proper id _ _ S2), C6, (chunks_of_proper id _ _ S1).
  - intros id. by rewrite <- (markers_of_proper id _ _ S2), (markers_of_proper id _ _ S1).
  - intros r s Hr Hl. rewrite <- (markers_of_proper _ _ _ S2). apply C8; [done|].
    unfold last_chunk_seq in *. by rewrite <- (chunks_of_proper _ _ _ S1).
Qed.

(** ** A reconciliation that the driver does not interrupt succeeds *)

(** No statement fails, the identifiers in use are ones the generator has passed, and the chunks
    satisfy their CHECK constraints. *)
Record rec_healthy (d : PgRec) : Prop := {
  rh_faults : no_faults d;
  rh_events : Forall (fun e => er_id e < next_uuid (pr_db d)) (t_events (pr_db d));
  rh_chunks : forall id, Forall (fun c => 1 <= ch_seq_end c) (chunks_of id d)
}.

Lemma maximum_In l m : maximum l = Some m -> m ∈ l.
Proof.
  revert m. induction l as [|x l IH]; [done|]. intros m.
  change (max_opt (Some x) (maximum l) = Some m -> m ∈ x :: l).
  destruct (maximum l) as [y|] eqn:E; intros [= <-]; [|left].
  destruct (Z.max_spec x y) as [[_ ->]|[_ ->]]; [right; by apply IH|left].
Qed.

Lemma no_closed_marker id m d :
  existsb (fun m' => bool_decide (mk_kind m' = MkClosed) && (mk_seq m' =? m)) (markers_of id d) = false ->
  existsb (fun r => match r with
    | RowMarker m' => bool_decide (mk_kind m' = MkClosed) && (mk_seq m' =? m)
    | RowChunk _ => false end) (rows_of id d) = false.
Proof.
  unfold markers_of. induction (rows_of id d) as [|[c|m'] l IH]; cbn; [done|exact IH|].
  intros [-> H]%orb_false_iff. by apply IH.
Qed.

Lemma insert_closed_marker_ok u id s p d :
  1 <= s -> is_object p = true -> is_Some (t_sessions (pr_db d) !! id) ->
  (insert_closed_marker u (mkMarker id MkClosed s p) d).1 = Ok tt.
Proof.
  intros Hs Hp Hid. unfold insert_closed_marker. cbn [mk_session mk_seq].
  destruct (existsb _ (markers_of id d)) eqn:E; [done|]. apply no_closed_marker in E.
  unfold marker_violation. cbn [mk_seq mk_kind mk_payload mk_session].
  rewrite (proj2 (Z.ltb_ge s 0)), (proj2 (Z.leb_le 1 s)), orb_true_r, Hp, E by lia.
  rewrite andb_false_r, bool_decide_eq_true_2 by done. done.
Qed.

Lemma close_row_ok at_ id prev d :
  rec_healthy d -> is_Some (t_sessions (pr_db d) !! id) ->
  exists d', close_row at_ id prev d = (Ok tt, d') /\ rec_healthy d'
    /\ dom (t_sessions (pr_db d')) = dom (t_sessions (pr_db d)) /\ pr_rows d' = pr_rows d.
Proof.
  intros [Hf He Hc] [r Hr]. unfold close_row, then_, exec, new_uuid.
  rewrite statement_no_faults by done. cbn [fresh_uuid new_v4]. rewrite statement_no_faults by done.
  unfold insert_event. cbn [map_db with_db set_sessions pr_db t_events t_sessions].
  rewrite bool_decide_eq_false_2; [|intros (e & He' & Hin%list_elem_of_In)%list_elem_of_In%in_map_iff].
  2:{ rewrite Forall_forall in He. apply He in Hin. rewrite He' in Hin. cbn in Hin.
      by apply Z.lt_irrefl in Hin. }
  rewrite lookup_alter_eq, Hr, bool_decide_eq_true_2 by done. eexists. split; [reflexivity|].
  split; [split; [done| |done]|split; [|done]]; cbn.
  - apply Forall_app. split; [|repeat constructor; cbn; lia]. eapply Forall_impl; [exact He|]. cbn. lia.
  - apply dom_alter_L.
Qed.

Lemma reconcile_one_ok at_ id st d :
  rec_healthy d -> is_Some (t_sessions (pr_db d) !! id) -> is_Some (status_from_str_tag st) ->
  exists r d', reconcile_one at_ id st d = (Ok r, d') /\ rec_healthy d'
    /\ dom (t_sessions (pr_db d')) = dom (t_sessions (pr_db d)).
Proof.
  intros Hh Hid [prev Hst]. rewrite reconcile_one_eq, Hst. unfold then_.
  destruct (close_row_ok at_ id prev d Hh Hid) as (d1 & -> & Hh1 & Hd1 & _). unfold query.
  rewrite statement_no_faults by apply Hh1. destruct (last_chunk_seq id d1) as [s|] eqn:Es; [|eauto].
  assert (1 <= s).
  { apply maximum_In, list_elem_of_In, in_map_iff in Es as (c & <- & Hin%list_elem_of_In).
    pose proof (rh_chunks _ Hh1 id) as Hc. rewrite Forall_forall in Hc. by apply Hc. }
  unfold new_uuid. cbn [fresh_uuid new_v4]. destruct Hh1 as [Hf He Hc].
  rewrite statement_no_faults by done.
  destruct (insert_closed_marker _ _ _) as [r d2] eqn:Em.
  assert (Hok : r = Ok tt).
  { change r with (r, d2).1. rewrite <- Em. apply insert_closed_marker_ok; [done|done|].
    apply elem_of_dom. cbn. rewrite Hd1. by apply elem_of_dom. }
  rewrite Hok in *. apply insert_closed_marker_cases in Em as (M1 & M2 & M3 & _); [|done].
  eexists _, d2. split; [reflexivity|]. split; [split|by rewrite M1].
  - unfold no_faults. by rewrite M1.
  - rewrite M1. cbn. eapply Forall_impl; [exact He|]. cbn. lia.
  - intros x. rewrite M3. apply Hc.
Qed.

Lemma reconcile_loop_ok at_ cands d :
  rec_healthy d ->
  Forall (fun c => is_Some (t_sessions (pr_db d) !! c.1) /\ is_Some (status_from_str_tag c.2)) cands ->
  exists l d', reconcile_loop at_ cands d = (Ok l, d') /\ no_faults d'.
Proof.
  revert d. induction cands as [|[id st] cands IH]; intros d Hh Hc; cbn [reconcile_loop].
  { eexists _, d. split; [done|apply Hh]. }
  apply Forall_cons in Hc as [[Hid Hst] Hc]. unfold then_.
  destruct (reconcile_one_ok at_ id st d Hh Hid Hst) as (r & d1 & -> & Hh1 & Hd1).
  destruct (IH d1) as (l & d2 & -> & Hf); [done| |eauto].
  eapply Forall_impl; [exact Hc|]. intros c [H1 H2]. split; [|done].
  apply elem_of_dom. rewrite Hd1. by apply elem_of_dom.
Qed.

Lemma orphan_tag r : orphan r = true -> is_Some (status_from_str_tag (r_status r)).
Proof. unfold orphan. intros H%bool_decide_eq_true. set_unfold. destruct H as [->|[->|[->|[]]]]; by eexists. Qed.

Lemma reconcile_succeeds at_ d :
  rec_healthy d -> is_ok (reconcile_orphaned_on_startup at_ d).1 = true.
Proof.
  intros Hh. unfold reconcile_orphaned_on_startup, transaction, then_, query.
  rewrite !statement_no_faults by apply Hh.
  destruct (reconcile_loop_ok at_ (orphans d) d Hh) as (l & d' & -> & Hf).
  { apply Forall_forall. intros [id st] (r & Hr & <- & Ho)%orphans_In. split; [by eexists|by apply orphan_tag]. }
  by rewrite statement_no_faults.
Qed.

Lemma reconcile_cases at_ d :
  let rd := reconcile_orphaned_on_startup at_ d in
  match rd.1 with
  | Err _ => db_frame d rd.2
  | Ok l => map rn_session_id l = map fst (orphans d)
      /\ Forall2 (fun c r => status_from_str_tag c.2 = Some (rn_previous_status r)) (orphans d) l
      /\ closes at_ l d rd.2
  end.
Proof.
  cbv zeta. unfold reconcile_orphaned_on_startup, transaction.
  destruct (statement_frame (fun d => (Ok tt, d)) d) as (d1 & E1 & _ & [(e & _ & ->)| ->]); [done|].
  unfold then_. destruct (statement_frame (fun d => (Ok (orphans d), d)) d1) as (d2 & E2 & _ & [(e & _ & Hq)|Hq]);
    unfold query; rewrite Hq; [cbn [fst snd]; transitivity d1; [done|by split]|].
  pose proof (orphans_proper _ _ E1) as Ho1. pose proof (orphans_proper _ _ E2) as Ho2. rewrite Ho2, Ho1.
  destruct (reconcile_loop at_ (orphans d) d2) as [[l|e] d3] eqn:El; [|cbn [fst snd]; transitivity d1; [done|by split]].
  apply closes_loop in El as (Hids & Hst & Hc); [|apply orphans_NoDup].
  destruct (statement_frame (fun d => (Ok tt, d)) d3) as (d4 & E4 & _ & [(e & _ & ->)| ->]);
    [cbn [fst snd]; transitivity d1; [done|by split]|].
  split_and!; try done. apply (closes_frame at_ l d d2 d3 d4); [by transitivity d1|done|done].
Qed.

(** C16: start-up reconciliation closes every session that the crash left open, and only those.
    The transaction either fails and leaves every table as it was, or: the answer lists exactly
    the sessions that were starting, active or detached, with the status they had; each of them is
    closed at the given time, every other row is untouched; one [Closed] event per session, in
    that order, is appended with its previous status; no chunk is touched, no marker removed, and
    a session with recorded chunks ends in a [closed] marker at its last recorded frame.  With a
    driver that answers it succeeds. *)
Theorem reconcile_closes_exactly_orphans at_ d :
  let rd := reconcile_orphaned_on_startup at_ d in
  (rec_healthy d -> is_ok rd.1 = true)
  /\ match rd.1 with
  | Err _ => db_frame d rd.2
  | Ok l => (forall id, id ∈ map rn_session_id l <->
              exists r, t_sessions (pr_db d) !! id = Some r
                /\ r_status r ∈ ["starting"; "active"; "detached"]%string)
      /\ (forall r, r ∈ l -> exists row, t_sessions (pr_db d) !! rn_session_id r = Some row
            /\ status_from_str_tag (r_status row) = Some (rn_previous_status r))
      /\ closes at_ l d rd.2
  end.
Proof.
  pose proof (reconcile_cases at_ d) as H. cbv zeta in *. split; [apply reconcile_succeeds|].
  destruct (reconcile_orphaned_on_startup at_ d) as [[l|e] d']; cbn [fst snd] in *; [|done].
  destruct H as (Hids & Hst & Hc). split_and!; [| |done].
  - intros id. rewrite Hids, list_elem_of_In, in_map_iff. split.
    + intros ([id' st] & <- & Hin%list_elem_of_In). apply orphans_In in Hin as (r & Hr & _ & Ho%bool_decide_eq_true). by exists r.
    + intros (r & Hr & Ho). exists (id, r_status r). split; [done|]. apply list_elem_of_In, orphans_In.
      exists r. by rewrite <- (bool_decide_eq_true (_ ∈ _)) in Ho.
  - intros r Hr. apply list_elem_of_lookup in Hr as [i Hi].
    destruct (Forall2_lookup_r _ _ _ i r Hst Hi) as ([id st] & Hc' & Hprev).
    apply (f_equal (fun l => l !! i)) in Hids. rewrite !list_lookup_fmap, Hi, Hc' in Hids. injection Hids as Hids.
    apply list_elem_of_lookup_2, orphans_In in Hc' as (row & Hrow & <- & _). exists row. cbn in Hids.
    by rewrite Hids.
Qed.

(** What was reconciled has no orphans. *)
Lemma reconciled_no_orphans at_ d l d' :
  reconcile_orphaned_on_startup at_ d = (Ok l, d') -> orphans d' = [].
Proof.
  intros Hrun. pose proof (reconcile_cases at_ d) as H. cbv zeta in H. rewrite Hrun in H.
  destruct H as (Hids & _ & Hc). cbn [fst snd] in *.
  destruct (orphans d') as [|[id st] rest] eqn:E; [done|]. exfalso.
  assert (Hin : (id, st) ∈ orphans d') by (rewrite E; left).
  apply orphans_In in Hin as (r & Hr & _ & Ho). rewrite (cl_sessions _ _ _ _ Hc) in Hr.
  destruct (t_sessions (pr_db d) !! id) as [r0|] eqn:E0; [|done]. cbn in Hr. simplify_eq.
  case_decide as Hd; [by vm_compute in Ho|]. apply Hd. rewrite Hids.
  apply list_elem_of_In, in_map_iff. exists (id, r_status r0). split; [done|].
  apply list_elem_of_In, orphans_In. by exists r0.
Qed.

(** Reconciliation is idempotent: after a successful one, with a database that answers, running
    it again reports nothing and changes nothing. *)
Theorem reconcile_idempotent at_ at2 d l d' :
  reconcile_orphaned_on_startup at_ d = (Ok l, d') -> no_faults d' ->
  exists d'', reconcile_orphaned_on_startup at2 d' = (Ok [], d'') /\ db_frame d' d''.
Proof.
  intros Hrun Hf. pose proof (reconciled_no_orphans _ _ _ _ Hrun) as Hnone.
  unfold reconcile_orphaned_on_startup, transaction, then_, query.
  rewrite !statement_no_faults by done. rewrite Hnone. cbn. rewrite statement_no_faults by done.
  exists d'. done.
Qed.

(** Two open sessions, one of them recorded, and a closed one. *)
Definition crash_db : PgRec :=
  mkPgRec (mkPgDb {[ 1 ]} {[ 10 ]}
    (<[100 := mkSessionRow 100 1 10 "active" 80 24 1000 1000 None]>
    (<[101 := mkSessionRow 101 1 10 "starting" 80 24 1000 1000 None]>
    {[ 102 := mkSessionRow 102 1 10 "closed" 80 24 1000 1000 (Some 1500) ]}))
    empty [] 2000 200 [])
    [mkStored 150 (RowChunk (mkChunk 100 1 7 3 (rec_data 1))) 1000] [].

Lemma reconcile_idempotent_witness :
  exists d'', reconcile_orphaned_on_startup 3000 (reconcile_orphaned_on_startup 2500 crash_db).2 = (Ok [], d'').
Proof.
  destruct (reconcile_idempotent 2500 3000 crash_db
    [mkReconciled 100 Active; mkReconciled 101 Starting] (reconcile_orphaned_on_startup 2500 crash_db).2)
    as (d'' & H & _); [by vm_compute|by vm_compute|]. exists d''. exact H.
Defined.

Lemma reconcile_closes_exactly_orphans_witness :
  exists d', reconcile_orphaned_on_startup 2500 crash_db
             = (Ok [mkReconciled 100 Active; mkReconciled 101 Starting], d')
    /\ is_ok (reconcile_orphaned_on_startup 2500 crash_db).1 = true.
Proof.
  eexists. split; [by vm_compute|].
  destruct (reconcile_closes_exactly_orphans 2500 crash_db) as [H _]. apply H. split.
  - done.
  - constructor.
  - intros id. unfold chunks_of, rows_of. cbn. case_match; repeat constructor.
    cbn. lia.
Defined.
