(* ===== verification/AuthStore.v ===== *)
(** * Users, passwords, browser sessions and audit events

    Models [crates/relayterm-core/src/user.rs], [user_session.rs], [password_credential.rs] and
    [audit_event.rs], and the Postgres repositories that store them
    ([crates/relayterm-db/src/repositories/user.rs], [user_session.rs], [password_credential.rs],
    [audit_event.rs]) with the row conversions of [rows.rs] and the constraints of the migrations.
    Statements fail as the script of driver faults says; a failed statement changes no table.
    Postgres' [LOWER], on which the unique index of the email addresses is built, is a parameter. *)

From stdpp Require Import sorting.
From S2P Require Import Prelude Core PgSession.

Abbreviation UserSessionId := Z.
Abbreviation AuditEventId := Z.

(** [User] *)
Record User := mkUser {
  us_id : UserId;
  us_email : rstr;
  us_display_name : rstr;
  us_created_at : Z;
  us_last_login_at : option Z
}.

(** [UserSession] *)
Record UserSession := mkUserSession {
  se_id : UserSessionId;
  se_user_id : UserId;
  se_token_hash : list Byte.byte;
  se_created_at : Z;
  se_last_seen_at : Z;
  se_expires_at : Z;
  se_revoked_at : option Z;
  se_revoked_reason : option rstr
}.

(** [UserSession::is_expired_at], [is_revoked] and [is_active_at] *)
Definition is_expired_at (s : UserSession) (now : Z) : bool := se_expires_at s <=? now.
Definition is_revoked (s : UserSession) : bool := bool_decide (is_Some (se_revoked_at s)).
Definition is_active_at (s : UserSession) (now : Z) : bool :=
  negb (is_expired_at s now) && negb (is_revoked s).

(** [PasswordCredential] *)
Record PasswordCredential := mkPasswordCredential {
  pc_user_id : UserId;
  pc_password_hash : rstr;
  pc_password_changed_at : Z;
  pc_created_at : Z;
  pc_updated_at : Z
}.

(** ** Audit events *)

(** [AuditEventKind] *)
Inductive AuditEventKind :=
| LoginSucceeded | LoginFailed | LogoutSucceeded | FirstUserCreated | PasswordChanged
| SessionRevokedEv | SessionsRevoked | KeyVaultAccess | KeyVaultDecryptFailed
| HostKeyAccepted | HostKeyMismatch | HostKeyRevoked
| ServerProfileCreated | ServerProfileUpdated | ServerProfileDisabled | ServerProfileEnabled
| ServerProfileDeleted | SshIdentityCreated | SshIdentityDeleted
| SessionOpened | SessionClosedEv | RecordingPurged | OtherEv.

#[export] Instance AuditEventKind_eq_dec : EqDecision AuditEventKind.
Proof. solve_decision. Defined.

(** [AuditEventKind::as_str] *)
Definition audit_as_str (k : AuditEventKind) : string :=
  match k with
  | LoginSucceeded => "login_succeeded"
  | LoginFailed => "login_failed"
  | LogoutSucceeded => "logout_succeeded"
  | FirstUserCreated => "first_user_created"
  | PasswordChanged => "password_changed"
  | SessionRevokedEv => "session_revoked"
  | SessionsRevoked => "sessions_revoked"
  | KeyVaultAccess => "key_vault_access"
  | KeyVaultDecryptFailed => "key_vault_decrypt_failed"
  | HostKeyAccepted => "host_key_accepted"
  | HostKeyMismatch => "host_key_mismatch"
  | HostKeyRevoked => "host_key_revoked"
  | ServerProfileCreated => "server_profile_created"
  | ServerProfileUpdated => "server_profile_updated"
  | ServerProfileDisabled => "server_profile_disabled"
  | ServerProfileEnabled => "server_profile_enabled"
  | ServerProfileDeleted => "server_profile_deleted"
  | SshIdentityCreated => "ssh_identity_created"
  | SshIdentityDeleted => "ssh_identity_deleted"
  | SessionOpened => "session_opened"
  | SessionClosedEv => "session_closed"
  | RecordingPurged => "recording_purged"
  | OtherEv => "other"
  end.

Definition all_audit_kinds : list AuditEventKind :=
  [LoginSucceeded; LoginFailed; LogoutSucceeded; FirstUserCreated; PasswordChanged;
   SessionRevokedEv; SessionsRevoked; KeyVaultAccess; KeyVaultDecryptFailed;
   HostKeyAccepted; HostKeyMismatch; HostKeyRevoked; ServerProfileCreated; ServerProfileUpdated;
   ServerProfileDisabled; ServerProfileEnabled; ServerProfileDeleted; SshIdentityCreated;
   SshIdentityDeleted; SessionOpened; SessionClosedEv; RecordingPurged; OtherEv].

(** [AuditEventKind::from_str_tag]: its [match] lists the tags of [as_str], one arm per kind. *)
Definition audit_from_str_tag (value : string) : option AuditEventKind :=
  head (filter (fun k => audit_as_str k = value) all_audit_kinds).

(** [AuditEvent] *)
Record AuditEvent := mkAuditEvent {
  ae_id : AuditEventId;
  ae_actor_id : option UserId;
  ae_kind : AuditEventKind;
  ae_payload : json;
  ae_remote_addr : option rstr;
  ae_recorded_at : Z
}.

(** [AuditEventRow] *)
Record AuditEventRow := mkAuditRow {
  ar_row_id : Uuid;
  ar_actor_id : option Uuid;
  ar_kind : string;
  ar_payload : json;
  ar_remote : option rstr;
  ar_recorded_at : Z
}.

(** [AuditEventRow::try_into_domain] *)
Definition audit_try_into_domain (r : AuditEventRow) : result RepositoryError AuditEvent :=
  let? kind := ok_or (audit_from_str_tag (ar_kind r))
    (RDatabase ("row integrity: audit_event.kind unknown (" +:+ ar_kind r +:+ ")")) in
  Ok (mkAuditEvent (ar_row_id r) (ar_actor_id r) kind (ar_payload r) (ar_remote r)
        (ar_recorded_at r)).

(** The inputs of the repositories. *)
Record CreateUser := mkCreateUser { cu_email : rstr; cu_display_name : rstr }.
Record CreateUserSession := mkCreateUserSession {
  cus_user_id : UserId; cus_token_hash : list Byte.byte; cus_expires_at : Z }.
Record CreatePasswordCredential := mkCreatePassword {
  cp_user_id : UserId; cp_password_hash : rstr }.
Record CreateAuditEvent := mkCreateAudit {
  ca_actor_id : option UserId; ca_kind : AuditEventKind; ca_payload : json;
  ca_remote_addr : option rstr }.

(** ** The tables *)

Record AuthDb := mkAuthDb {
  a_users : gmap UserId User;
  a_passwords : gmap UserId PasswordCredential;
  a_sessions : gmap UserSessionId UserSession;
  a_audit : list AuditEventRow;
  a_clock : Z;
  a_next_uuid : Uuid;
  a_faults : list (option RepositoryError)
}.

Definition set_users (f : gmap UserId User -> gmap UserId User) (d : AuthDb) : AuthDb :=
  mkAuthDb (f (a_users d)) (a_passwords d) (a_sessions d) (a_audit d) (a_clock d) (a_next_uuid d)
    (a_faults d).
Definition set_passwords (f : gmap UserId PasswordCredential -> gmap UserId PasswordCredential)
  (d : AuthDb) : AuthDb :=
  mkAuthDb (a_users d) (f (a_passwords d)) (a_sessions d) (a_audit d) (a_clock d) (a_next_uuid d)
    (a_faults d).
Definition set_user_sessions (f : gmap UserSessionId UserSession -> gmap UserSessionId UserSession)
  (d : AuthDb) : AuthDb :=
  mkAuthDb (a_users d) (a_passwords d) (f (a_sessions d)) (a_audit d) (a_clock d) (a_next_uuid d)
    (a_faults d).
Definition push_audit (r : AuditEventRow) (d : AuthDb) : AuthDb :=
  mkAuthDb (a_users d) (a_passwords d) (a_sessions d) (a_audit d ++ [r]) (a_clock d)
    (a_next_uuid d) (a_faults d).

Definition auth_new_v4 (d : AuthDb) : Uuid * AuthDb :=
  (a_next_uuid d,
   mkAuthDb (a_users d) (a_passwords d) (a_sessions d) (a_audit d) (a_clock d)
     (a_next_uuid d + 1) (a_faults d)).

Definition auth_next_fault (d : AuthDb) : option RepositoryError * AuthDb :=
  match a_faults d with
  | [] => (None, d)
  | o :: rest =>
      (o, mkAuthDb (a_users d) (a_passwords d) (a_sessions d) (a_audit d) (a_clock d)
            (a_next_uuid d) rest)
  end.

(** One statement: the driver fails, or it runs. *)
Definition auth_execute {A} (f : AuthDb -> result RepositoryError A * AuthDb) (d : AuthDb)
  : result RepositoryError A * AuthDb :=
  match auth_next_fault d with
  | (Some e, d') => (Err e, d')
  | (None, d') => f d'
  end.

(** Code outside the repository that the authentication code calls: Postgres' [LOWER]. *)
Class PgLower := pg_lower : rstr -> rstr.

(** ** [PgUserRepository] *)

Definition USER_ENTITY : string := "user".

Module PgUserRepository.
Section repo.
Context {Lo : PgLower}.

(** [create] *)
Definition create (input : CreateUser) (d : AuthDb) : result RepositoryError User * AuthDb :=
  let '(id, d) := auth_new_v4 d in
  auth_execute (fun d =>
    let row := mkUser id (cu_email input) (cu_display_name input) (a_clock d) None in
    if bool_decide (is_Some (a_users d !! id)) then
      (Err (map_sqlx_error USER_ENTITY (UniqueViolation (Some "users_pkey"%string))), d)
    else if bool_decide (map_Exists (fun _ u => pg_lower (us_email u) = pg_lower (cu_email input)) (a_users d)) then
      (Err (map_sqlx_error USER_ENTITY (UniqueViolation (Some "users_email_key"%string))), d)
    else (Ok row, set_users <[id := row]> d)) d.

(** [get] *)
Definition get (id : UserId) : AuthDb -> result RepositoryError (option User) * AuthDb :=
  auth_execute (fun d => (Ok (a_users d !! id), d)).

(** [get_by_email] *)
Definition get_by_email (email : rstr) : AuthDb -> result RepositoryError (option User) * AuthDb :=
  auth_execute (fun d =>
    (Ok (head (filter (fun u => pg_lower (us_email u) = pg_lower email) (map_to_list (a_users d)).*2)), d)).

(** [touch_last_login] *)
Definition touch_last_login (id : UserId) (at_ : Z) : AuthDb -> result RepositoryError unit * AuthDb :=
  auth_execute (fun d =>
    match a_users d !! id with
    | None => (Err (RNotFound USER_ENTITY), d)
    | Some u => (Ok tt, set_users <[id := mkUser (us_id u) (us_email u) (us_display_name u)
                                            (us_created_at u) (Some at_)]> d)
    end).

End repo.
End PgUserRepository.

(** ** [PgPasswordCredentialRepository] *)

Definition PASSWORD_ENTITY : string := "user_password".

Module PgPasswordCredentialRepository.

(** [upsert_for_user] *)
Definition upsert_for_user (input : CreatePasswordCredential)
  : AuthDb -> result RepositoryError PasswordCredential * AuthDb :=
  auth_execute (fun d =>
    if negb (bool_decide (is_Some (a_users d !! cp_user_id input))) then
      (Err (map_sqlx_error PASSWORD_ENTITY (ForeignKeyViolation (Some "user_passwords_user_id_fkey"%string))), d)
    else
      let created_at := match a_passwords d !! cp_user_id input with
                        | Some c => pc_created_at c | None => a_clock d end in
      let row := mkPasswordCredential (cp_user_id input) (cp_password_hash input) (a_clock d)
                   created_at (a_clock d) in
      (Ok row, set_passwords <[cp_user_id input := row]> d)).

(** [get_for_user] *)
Definition get_for_user (user_id : UserId)
  : AuthDb -> result RepositoryError (option PasswordCredential) * AuthDb :=
  auth_execute (fun d => (Ok (a_passwords d !! user_id), d)).

(** [any_exists] *)
Definition any_exists : AuthDb -> result RepositoryError bool * AuthDb :=
  auth_execute (fun d => (Ok (negb (bool_decide (a_passwords d = ∅))), d)).

End PgPasswordCredentialRepository.

(** ** [PgUserSessionRepository] *)

Definition USER_SESSION_ENTITY : string := "user_session".

Definition with_last_seen (at_ : Z) (s : UserSession) : UserSession :=
  mkUserSession (se_id s) (se_user_id s) (se_token_hash s) (se_created_at s) at_ (se_expires_at s)
    (se_revoked_at s) (se_revoked_reason s).

(** The [CASE WHEN revoked_at IS NULL] of the updates: the first revocation is kept. *)
Definition revoked (at_ : Z) (reason : option rstr) (s : UserSession) : UserSession :=
  match se_revoked_at s with
  | Some _ => s
  | None => mkUserSession (se_id s) (se_user_id s) (se_token_hash s) (se_created_at s)
              (se_last_seen_at s) (se_expires_at s) (Some at_) reason
  end.

Module PgUserSessionRepository.

(** [create] *)
Definition create (input : CreateUserSession) (d : AuthDb) : result RepositoryError UserSession * AuthDb :=
  let '(id, d) := auth_new_v4 d in
  auth_execute (fun d =>
    let row := mkUserSession id (cus_user_id input) (cus_token_hash input) (a_clock d) (a_clock d)
                 (cus_expires_at input) None None in
    if bool_decide (is_Some (a_sessions d !! id)) then
      (Err (map_sqlx_error USER_SESSION_ENTITY (UniqueViolation (Some "user_sessions_pkey"%string))), d)
    else if bool_decide (map_Exists (fun _ s => se_token_hash s = cus_token_hash input) (a_sessions d)) then
      (Err (map_sqlx_error USER_SESSION_ENTITY (UniqueViolation (Some "user_sessions_token_hash_key"%string))), d)
    else if negb (bool_decide (is_Some (a_users d !! cus_user_id input))) then
      (Err (map_sqlx_error USER_SESSION_ENTITY (ForeignKeyViolation (Some "user_sessions_user_id_fkey"%string))), d)
    else (Ok row, set_user_sessions <[id := row]> d)) d.

(** [get_by_token_hash] *)
Definition get_by_token_hash (token_hash : list Byte.byte)
  : AuthDb -> result RepositoryError (option UserSession) * AuthDb :=
  auth_execute (fun d =>
    (Ok (head (filter (fun s => se_token_hash s = token_hash) (map_to_list (a_sessions d)).*2)), d)).

(** [get] *)
Definition get (id : UserSessionId) : AuthDb -> result RepositoryError (option UserSession) * AuthDb :=
  auth_execute (fun d => (Ok (a_sessions d !! id), d)).

(** [touch_last_seen] *)
Definition touch_last_seen (id : UserSessionId) (at_ : Z) : AuthDb -> result RepositoryError unit * AuthDb :=
  auth_execute (fun d =>
    match a_sessions d !! id with
    | None => (Err (RNotFound USER_SESSION_ENTITY), d)
    | Some s => (Ok tt, set_user_sessions <[id := with_last_seen at_ s]> d)
    end).

(** [revoke] *)
Definition revoke (id : UserSessionId) (at_ : Z) (reason : option rstr)
  : AuthDb -> result RepositoryError unit * AuthDb :=
  auth_execute (fun d =>
    match a_sessions d !! id with
    | None => (Err (RNotFound USER_SESSION_ENTITY), d)
    | Some s => (Ok tt, set_user_sessions <[id := revoked at_ reason s]> d)
    end).

(** The rows an [UPDATE ... WHERE ... AND revoked_at IS NULL] revokes. *)
Definition revoke_where (P : UserSession -> bool) (at_ : Z) (reason : option rstr)
  : AuthDb -> result RepositoryError Z * AuthDb :=
  auth_execute (fun d =>
    (Ok (Z.of_nat (size (filter (fun kv : UserSessionId * UserSession =>
                                  P kv.2 && negb (is_revoked kv.2) = true) (a_sessions d)))),
     set_user_sessions (fmap (fun s => if P s then revoked at_ reason s else s)) d)).

(** [revoke_all_for_user] *)
Definition revoke_all_for_user (user_id : UserId) (at_ : Z) (reason : option rstr)
  : AuthDb -> result RepositoryError Z * AuthDb :=
  revoke_where (fun s => se_user_id s =? user_id) at_ reason.

(** [list_for_user]: [ORDER BY created_at DESC, id] *)
Definition newer_first (a b : UserSession) : Prop :=
  se_created_at b < se_created_at a \/ (se_created_at a = se_created_at b /\ se_id a <= se_id b).
#[export] Instance newer_first_dec a b : Decision (newer_first a b).
Proof. apply _. Defined.

Definition list_for_user (user_id : UserId)
  : AuthDb -> result RepositoryError (list UserSession) * AuthDb :=
  auth_execute (fun d =>
    (Ok (merge_sort newer_first (filter (fun s => se_user_id s = user_id) (map_to_list (a_sessions d)).*2)), d)).

(** [revoke_for_user]; [true] when this call revoked the session *)
Definition revoke_for_user (user_id : UserId) (session_id : UserSessionId) (at_ : Z)
  (reason : option rstr) : AuthDb -> result RepositoryError bool * AuthDb :=
  auth_execute (fun d =>
    match a_sessions d !! session_id with
    | Some s =>
        if se_user_id s =? user_id then
          (Ok (negb (is_revoked s)), set_user_sessions <[session_id := revoked at_ reason s]> d)
        else (Err (RNotFound USER_SESSION_ENTITY), d)
    | None => (Err (RNotFound USER_SESSION_ENTITY), d)
    end).

(** [revoke_all_except] *)
Definition revoke_all_except (user_id : UserId) (except_id : UserSessionId) (at_ : Z)
  (reason : option rstr) : AuthDb -> result RepositoryError Z * AuthDb :=
  revoke_where (fun s => (se_user_id s =? user_id) && negb (se_id s =? except_id)) at_ reason.

End PgUserSessionRepository.

(** ** [PgAuditEventRepository] *)

Definition AUDIT_ENTITY : string := "audit_event".

(** [audit_events_kind_chk], as the last migration leaves it *)
Definition audit_kind_chk (kind : string) : bool :=
  bool_decide (kind ∈ ["login_succeeded"; "login_failed"; "logout_succeeded"; "first_user_created";
    "password_changed"; "session_revoked"; "sessions_revoked"; "key_vault_access";
    "key_vault_decrypt_failed"; "host_key_accepted"; "host_key_mismatch"; "host_key_revoked";
    "server_profile_created"; "server_profile_updated"; "server_profile_disabled";
    "server_profile_enabled"; "server_profile_deleted"; "ssh_identity_created";
    "ssh_identity_deleted"; "session_opened"; "session_closed"; "recording_purged"; "other"]%string).

Module PgAuditEventRepository.

(** [create] *)
Definition create (input : CreateAuditEvent) (d : AuthDb) : result RepositoryError AuditEvent * AuthDb :=
  let '(id, d) := auth_new_v4 d in
  auth_execute (fun d =>
    let row := mkAuditRow id (ca_actor_id input) (audit_as_str (ca_kind input)) (ca_payload input)
                 (ca_remote_addr input) (a_clock d) in
    if negb (audit_kind_chk (audit_as_str (ca_kind input))) then
      (Err (map_sqlx_error AUDIT_ENTITY (OtherConstraint (Some "audit_events_kind_chk"%string))), d)
    else if bool_decide (id ∈ map ar_row_id (a_audit d)) then
      (Err (map_sqlx_error AUDIT_ENTITY (UniqueViolation (Some "audit_events_pkey"%string))), d)
    else if negb (match ca_actor_id input with
                  | Some u => bool_decide (is_Some (a_users d !! u)) | None => true end) then
      (Err (map_sqlx_error AUDIT_ENTITY (ForeignKeyViolation (Some "audit_events_actor_id_fkey"%string))), d)
    else (audit_try_into_domain row, push_audit row d)) d.

(** [ORDER BY recorded_at DESC, id DESC] *)
Definition later_first (a b : AuditEventRow) : Prop :=
  ar_recorded_at b < ar_recorded_at a
  \/ (ar_recorded_at a = ar_recorded_at b /\ ar_row_id b <= ar_row_id a).
#[export] Instance later_first_dec a b : Decision (later_first a b).
Proof. apply _. Defined.

Fixpoint collect_events (rows : list AuditEventRow) : result RepositoryError (list AuditEvent) :=
  match rows with
  | [] => Ok []
  | r :: rows => let? e := audit_try_into_domain r in let? es := collect_events rows in Ok (e :: es)
  end.

(** [recent] and [recent_for_actor] *)
Definition recent (limit : Z) : AuthDb -> result RepositoryError (list AuditEvent) * AuthDb :=
  auth_execute (fun d => (collect_events (take (Z.to_nat limit) (merge_sort later_first (a_audit d))), d)).

Definition recent_for_actor (actor_id : UserId) (limit : Z)
  : AuthDb -> result RepositoryError (list AuditEvent) * AuthDb :=
  auth_execute (fun d =>
    (collect_events (take (Z.to_nat limit)
       (merge_sort later_first (filter (fun r => ar_actor_id r = Some actor_id) (a_audit d)))), d)).

(** [get] *)
Definition get (id : AuditEventId) : AuthDb -> result RepositoryError (option AuditEvent) * AuthDb :=
  auth_execute (fun d =>
    (match head (filter (fun r => ar_row_id r = id) (a_audit d)) with
     | Some r => let? e := audit_try_into_domain r in Ok (Some e)
     | None => Ok None
     end, d)).

End PgAuditEventRepository.
