(* ===== verification/Auth.v ===== *)
(** * The authentication service

    Models [crates/relayterm-auth/src/password.rs], [session_token.rs] and [service.rs]: password
    verification, issue, validation and revocation of browser sessions.  Argon2, SHA-256 and
    base64 are third-party code and parameters of the model ([AuthCrypto]); the operating system's
    random source is a stream of draws.  An [async fn] is a program whose atomic actions are its
    repository calls, so requests interleave at every [await]. *)

From S2P Require Import Prelude Utf8 Core PgSession Throttle Prog AuthStore.

(** ** Passwords *)

(** [PasswordHasherConfig] *)
Record PasswordHasherConfig := mkHasherConfig { m_cost : Z; t_cost : Z; p_cost : Z }.

(** [PasswordHasherConfig::OWASP_2023] *)
Definition OWASP_2023 : PasswordHasherConfig := mkHasherConfig 19456 2 1.

(** [PasswordHashingError] *)
Inductive PasswordHashingError := HashFailed | InvalidStoredHash.

(** The third-party primitives: [argon2::Params::new] (whether it accepts), the Argon2id hash of a
    plaintext under a salt as a PHC string, [PasswordHash::new] (whether a string is a PHC string),
    Argon2id verification, SHA-256, and URL-safe base64 without padding. *)
Class AuthCrypto := {
  argon2_params_ok : PasswordHasherConfig -> bool;
  argon2_hash : PasswordHasherConfig -> list Byte.byte -> list Byte.byte -> option rstr;
  phc_parses : rstr -> bool;
  argon2_verify : PasswordHasherConfig -> list Byte.byte -> rstr -> bool;
  sha256 : list Byte.byte -> list Byte.byte;
  url_safe_no_pad : list Byte.byte -> rstr
}.

(** The alphabet of URL-safe base64: letters, digits, [-] and [_]. *)
Definition is_b64url (c : Z) : bool :=
  ((65 <=? c) && (c <=? 90)) || ((97 <=? c) && (c <=? 122)) || ((48 <=? c) && (c <=? 57))
  || (c =? 45) || (c =? 95).

(** What the code relies on: a PHC string that Argon2 produced parses and verifies the password it
    was made from; base64 keeps to its alphabet and encodes something as something. *)
Class AuthCryptoLaws {Cr : AuthCrypto} := {
  argon2_hash_verifies cfg pw salt phc :
    argon2_hash cfg pw salt = Some phc -> phc_parses phc = true /\ argon2_verify cfg pw phc = true;
  url_safe_no_pad_alphabet bytes :
    bytes <> [] -> url_safe_no_pad bytes <> [] /\ Forall (fun c => is_b64url c = true) (url_safe_no_pad bytes)
}.

(** ** The shared state *)

Record AuthWorld := mkAuthWorld {
  aw_db : AuthDb;
  aw_throttler : LoginThrottler.t;
  aw_now : Z;
  aw_rng : nat -> list Byte.byte;
  aw_draws : nat
}.

Definition set_auth_db (d : AuthDb) (w : AuthWorld) : AuthWorld :=
  mkAuthWorld d (aw_throttler w) (aw_now w) (aw_rng w) (aw_draws w).
Definition upd_throttler (f : LoginThrottler.t -> LoginThrottler.t) (w : AuthWorld) : AuthWorld :=
  mkAuthWorld (aw_db w) (f (aw_throttler w)) (aw_now w) (aw_rng w) (aw_draws w).
Definition set_auth_now (t : Z) (w : AuthWorld) : AuthWorld :=
  mkAuthWorld (aw_db w) (aw_throttler w) t (aw_rng w) (aw_draws w).

(** [OsRng.fill_bytes] *)
Definition draw (w : AuthWorld) : list Byte.byte * AuthWorld :=
  (aw_rng w (aw_draws w),
   mkAuthWorld (aw_db w) (aw_throttler w) (aw_now w) (aw_rng w) (S (aw_draws w))).

(** [Utc::now()] *)
Definition auth_now : prog AuthWorld Z := act (fun w => (aw_now w, w)).

(** A repository call. *)
Definition arepo {A} (f : AuthDb -> result RepositoryError A * AuthDb)
  : prog AuthWorld (result RepositoryError A) :=
  act (fun w => let '(r, d) := f (aw_db w) in (r, set_auth_db d w)).

(** ** Errors *)

(** [RepositoryError]'s [Display] *)
Definition repository_error_display (e : RepositoryError) : string :=
  match e with
  | RNotFound entity => entity +:+ " not found"
  | RConflict entity constraint_ => entity +:+ " conflict: " +:+ constraint_
  | RValidation field message => "invalid " +:+ field +:+ ": " +:+ message
  | RDatabase message => "database error: " +:+ message
  end.

(** [AuthServiceError] *)
Inductive AuthServiceError :=
| InvalidCredentials
| SessionInvalid
| SessionExpired
| SessionRevoked
| AuthRepository (detail : string)
| Crypto.

(** [From<RepositoryError> for AuthServiceError] *)
Definition auth_of_repository (e : RepositoryError) : AuthServiceError :=
  AuthRepository (repository_error_display e).

Module PasswordHasher.
Section hasher.
Context {Cr : AuthCrypto}.

(** [PasswordHasher::new] *)
Definition new (config : PasswordHasherConfig) : result PasswordHashingError PasswordHasherConfig :=
  if argon2_params_ok config then Ok config else Err HashFailed.

(** [PasswordHasher::engine] *)
Definition engine (config : PasswordHasherConfig) : result PasswordHashingError unit :=
  if argon2_params_ok config then Ok tt else Err HashFailed.

(** [PasswordHasher::hash_password] with its salt *)
Definition hash_password (config : PasswordHasherConfig) (plaintext : rstr) (salt : list Byte.byte)
  : result PasswordHashingError rstr :=
  let? _ := engine config in
  ok_or (argon2_hash config (as_bytes plaintext) salt) HashFailed.

(** [PasswordHasher::verify_password] *)
Definition verify_password (config : PasswordHasherConfig) (plaintext stored_hash : rstr)
  : result PasswordHashingError bool :=
  let? _ := (if phc_parses stored_hash then Ok tt else Err InvalidStoredHash) in
  let? _ := engine config in
  Ok (argon2_verify config (as_bytes plaintext) stored_hash).

End hasher.
End PasswordHasher.

(** ** Session tokens *)

(** [hash_session_token] *)
Definition hash_session_token `{!AuthCrypto} (token : rstr) : list Byte.byte :=
  sha256 (as_bytes token).

(** [SessionToken::generate], from the 32 bytes of a draw *)
Definition session_token_generate `{!AuthCrypto} (w : AuthWorld) : rstr * AuthWorld :=
  let '(bytes, w) := draw w in (url_safe_no_pad bytes, w).

(** [CreatedSession] *)
Record CreatedSession := mkCreatedSession { cd_token : rstr; cd_session : UserSession }.

(** ** [AuthService] *)

Module AuthService.

(** [struct AuthService]; the repositories are the tables of [aw_db]. *)
Record t := mk { hasher : PasswordHasherConfig; anti_timing_hash : rstr }.

Section service.
Context {Cr : AuthCrypto}.

Abbreviation aio A := (prog AuthWorld (result AuthServiceError A)).

(** A repository call under [?]. *)
Definition repo {A} (f : AuthDb -> result RepositoryError A * AuthDb) : aio A :=
  do! r <- arepo f; Ret (map_err auth_of_repository r).

(** [AuthService::new]; [None] is the panic of [expect]. *)
Definition new (hasher : PasswordHasherConfig) (salt : list Byte.byte) : option t :=
  match PasswordHasher.hash_password hasher (lit "anti-timing-marker-x") salt with
  | Ok h => Some (mk hasher h)
  | Err _ => None
  end.

Context (svc : t).

(** [AuthService::anti_timing_verify], whose result is discarded *)
Definition anti_timing_verify (plaintext : rstr) : unit :=
  let _ := PasswordHasher.verify_password (hasher svc) plaintext (anti_timing_hash svc) in tt.

(** [AuthService::set_password] *)
Definition set_password (user_id : UserId) (plaintext : rstr) : aio unit :=
  do! salt <- act draw;
  do? hash <- Ret (map_err (fun _ => Crypto) (PasswordHasher.hash_password (hasher svc) plaintext salt));
  do? _ <- repo (PgPasswordCredentialRepository.upsert_for_user (mkCreatePassword user_id hash));
  Ret (Ok tt).

(** [AuthService::verify_password] *)
Definition verify_password (user_id : UserId) (plaintext : rstr) : aio unit :=
  do? row <- repo (PgPasswordCredentialRepository.get_for_user user_id);
  match row with
  | None => Ret (Err InvalidCredentials)
  | Some credential =>
      let ok := match PasswordHasher.verify_password (hasher svc) plaintext (pc_password_hash credential) with
                | Ok b => b | Err _ => false end in
      if (ok : bool) then Ret (Ok tt) else Ret (Err InvalidCredentials)
  end.

(** [AuthService::create_session] *)
Definition create_session (user_id : UserId) (ttl now : Z) : aio CreatedSession :=
  do! token <- act session_token_generate;
  do? session <- repo (PgUserSessionRepository.create
                         (mkCreateUserSession user_id (hash_session_token token) (now + ttl)));
  Ret (Ok (mkCreatedSession token session)).

(** [AuthService::validate_session_token] *)
Definition validate_session_token (plaintext_token : rstr) (now : Z) : aio UserSession :=
  do? row <- repo (PgUserSessionRepository.get_by_token_hash (hash_session_token plaintext_token));
  match row with
  | None => Ret (Err SessionInvalid)
  | Some session =>
      if is_revoked session then Ret (Err SessionRevoked)
      else if is_expired_at session now then Ret (Err SessionExpired)
      else Ret (Ok session)
  end.

(** [AuthService::revoke_session] *)
Definition revoke_session (id : UserSessionId) (now : Z) (reason : option rstr) : aio unit :=
  do! r <- arepo (PgUserSessionRepository.revoke id now reason);
  Ret (match r with
       | Ok _ => Ok tt
       | Err (RNotFound _) => Err SessionInvalid
       | Err other => Err (auth_of_repository other)
       end).

(** [AuthService::revoke_all_for_user] *)
Definition revoke_all_for_user (user_id : UserId) (now : Z) (reason : option rstr) : aio Z :=
  repo (PgUserSessionRepository.revoke_all_for_user user_id now reason).

(** [AuthService::list_sessions_for_user] *)
Definition list_sessions_for_user (user_id : UserId) : aio (list UserSession) :=
  repo (PgUserSessionRepository.list_for_user user_id).

(** [AuthService::revoke_session_for_user] *)
Definition revoke_session_for_user (user_id : UserId) (session_id : UserSessionId) (now : Z)
  (reason : option rstr) : aio bool :=
  do! r <- arepo (PgUserSessionRepository.revoke_for_user user_id session_id now reason);
  Ret (match r with
       | Ok transitioned => Ok transitioned
       | Err (RNotFound _) => Err SessionInvalid
       | Err other => Err (auth_of_repository other)
       end).

(** [AuthService::revoke_all_sessions_except] *)
Definition revoke_all_sessions_except (user_id : UserId) (except_id : UserSessionId) (now : Z)
  (reason : option rstr) : aio Z :=
  repo (PgUserSessionRepository.revoke_all_except user_id except_id now reason).

End service.
End AuthService.
