(* ===== verification/AuthRoutes.v ===== *)
(** * The authentication routes

    Models [crates/relayterm-api/src/error.rs] (the error type and what of it reaches the wire),
    [auth/cookie.rs], [auth/csrf.rs], [auth/user.rs] (the extractors), [dto/auth.rs] (request
    validation) and [routes/v1/auth.rs]: bootstrap, login, logout, password change and session
    management.  A handler runs its extractors in the order of its parameters, then its body; the
    JSON body arrives parsed. *)

From stdpp Require Import pretty.
From S2P Require Import Prelude Utf8 Core PgSession Throttle Prog AuthStore Auth.

(** ** Errors and the wire *)

(** [ApiError] *)
Inductive ApiError :=
| Validation (message : rstr)
| Unauthorized (detail : rstr)
| CsrfOriginMismatch (detail : rstr)
| ApiNotFound (entity : string)
| Conflict (entity : string) (reason : option string)
| TooManyRequests (detail : rstr)
| TooManySessions
| TooManyStartingSessions
| TooManySessionsDeployment
| BadGateway (detail : rstr)
| ServiceUnavailable (detail : rstr)
| Internal (detail : rstr).

(** [ErrorCode::as_str] of the code that [parts] chooses, with the status and the message: all a
    client sees of an error. *)
Definition parts (e : ApiError) : Z * string * rstr :=
  match e with
  | Validation msg => (400, "invalid_input"%string, msg)
  | Unauthorized _ => (401, "unauthorized"%string, lit "unauthorized")
  | CsrfOriginMismatch _ => (403, "csrf_origin_mismatch"%string, lit "forbidden")
  | ApiNotFound entity => (404, "not_found"%string, lit (entity +:+ " not found"))
  | Conflict entity (Some r) => (409, "conflict"%string, lit (entity +:+ " " +:+ r))
  | Conflict entity None => (409, "conflict"%string, lit (entity +:+ " conflict"))
  | TooManyRequests _ => (429, "too_many_requests"%string, lit "too many requests")
  | TooManySessions => (429, "too_many_sessions"%string, lit "too many terminal sessions")
  | TooManyStartingSessions =>
      (429, "too_many_starting_sessions"%string, lit "too many starting terminal sessions")
  | TooManySessionsDeployment =>
      (429, "too_many_sessions_deployment"%string, lit "too many terminal sessions for this deployment")
  | BadGateway _ => (502, "bad_gateway"%string, lit "bad gateway")
  | ServiceUnavailable _ => (503, "service_unavailable"%string, lit "service unavailable")
  | Internal _ => (500, "internal_error"%string, lit "internal error")
  end.

(** [From<RepositoryError> for ApiError] *)
Definition api_of_repository (e : RepositoryError) : ApiError :=
  match e with
  | RNotFound entity => ApiNotFound entity
  | RConflict entity _ => Conflict entity None
  | RValidation field message => Internal (lit ("row integrity " +:+ field +:+ ": " +:+ message))
  | RDatabase msg => Internal (lit msg)
  end.

(** [From<AuthServiceError> for ApiError] *)
Definition api_of_auth (e : AuthServiceError) : ApiError :=
  match e with
  | InvalidCredentials => Unauthorized (lit "invalid credentials")
  | SessionInvalid => Unauthorized (lit "session invalid")
  | SessionExpired => Unauthorized (lit "session expired")
  | SessionRevoked => Unauthorized (lit "session revoked")
  | AuthRepository detail => Internal (lit ("auth repo: " +:+ detail))
  | Crypto => Internal (lit "auth crypto failure")
  end.

(** ** Requests and responses *)

(** The headers the routes read.  The outer [option] is the presence of the header, the inner one
    whether [HeaderValue::to_str] can read it. *)
Record Headers := mkHeaders {
  h_cookie : option (option rstr);
  h_origin : option (option rstr)
}.

(** [UserResponse] *)
Record UserResponse := mkUserResponse {
  ur_id : UserId; ur_email : rstr; ur_display_name : rstr; ur_created_at : Z;
  ur_last_login_at : option Z
}.

(** [From<User> for UserResponse] *)
Definition user_response (u : User) : UserResponse :=
  mkUserResponse (us_id u) (us_email u) (us_display_name u) (us_created_at u) (us_last_login_at u).

(** [SessionStatus] *)
Inductive SessionStatus := StActive | StExpired | StRevoked.

(** [SessionListItem] *)
Record SessionListItem := mkSessionItem {
  sl_id : UserSessionId; sl_created_at : Z; sl_last_seen_at : Z; sl_expires_at : Z;
  sl_revoked_at : option Z; sl_current : bool; sl_status : SessionStatus
}.

(** [SessionListItem::from_row] *)
Definition session_item_from_row (row : UserSession) (now : Z) (current_id : UserSessionId)
  : SessionListItem :=
  mkSessionItem (se_id row) (se_created_at row) (se_last_seen_at row) (se_expires_at row)
    (se_revoked_at row) (se_id row =? current_id)
    (if bool_decide (is_Some (se_revoked_at row)) then StRevoked
     else if is_expired_at row now then StExpired else StActive).

Inductive ResponseBody :=
| BEmpty
| BUser (u : UserResponse)
| BSessions (l : list SessionListItem)
| BRevoked (n : Z).

Record Response := mkResponse {
  rp_status : Z; rp_set_cookie : option rstr; rp_body : ResponseBody
}.

(** ** [dto/auth.rs] *)

Definition PASSWORD_MIN_LEN : Z := 12.
Definition PASSWORD_MAX_LEN : Z := 1024.
Definition EMAIL_MAX_LEN : Z := 320.
Definition DISPLAY_NAME_MAX_LEN : Z := 200.
Definition BOOTSTRAP_TOKEN_MAX_LEN : Z := 4096.

(** [BootstrapRequest], [LoginRequest] and [ChangePasswordRequest] *)
Record BootstrapRequest := mkBootstrap {
  br_bootstrap_token : rstr; br_email : rstr; br_display_name : rstr; br_password : rstr }.
Record LoginRequest := mkLogin { lq_email : rstr; lq_password : rstr }.
Record ChangePasswordRequest := mkChange { cq_current_password : rstr; cq_new_password : rstr }.

(** [validate_password] *)
Definition validate_password (value : rstr) : result ApiError unit :=
  if (str_len value <? PASSWORD_MIN_LEN) || (PASSWORD_MAX_LEN <? str_len value) then
    Err (Validation (lit ("password must be between " +:+ pretty PASSWORD_MIN_LEN +:+ " and "
                          +:+ pretty PASSWORD_MAX_LEN +:+ " chars")))
  else Ok tt.

(** [validate_email] *)
Definition validate_email (value : rstr) : result ApiError unit :=
  if (str_len value =? 0) || (EMAIL_MAX_LEN <? str_len value) then
    Err (Validation (lit "email is invalid"))
  else
    let at_count := len (filter (fun b => byte_val b = 64) (as_bytes value)) in
    if negb (at_count =? 1) || bool_decide (head value = Some 64) || bool_decide (last value = Some 64)
    then Err (Validation (lit "email is invalid"))
    else Ok tt.

(** [validate_display_name] *)
Definition validate_display_name (value : rstr) : result ApiError unit :=
  if (str_len value =? 0) || (DISPLAY_NAME_MAX_LEN <? str_len value) then
    Err (Validation (lit ("display_name must be between 1 and " +:+ pretty DISPLAY_NAME_MAX_LEN +:+ " chars")))
  else Ok tt.

(** [validate_bootstrap_token_len] *)
Definition validate_bootstrap_token_len (value : rstr) : result ApiError unit :=
  if (str_len value =? 0) || (BOOTSTRAP_TOKEN_MAX_LEN <? str_len value) then
    Err (Validation (lit "bootstrap_token is invalid"))
  else Ok tt.

(** [BootstrapRequest::validated] *)
Definition bootstrap_validated (req : BootstrapRequest) : result ApiError unit :=
  let? _ := validate_bootstrap_token_len (br_bootstrap_token req) in
  let? _ := validate_email (br_email req) in
  let? _ := validate_display_name (br_display_name req) in
  validate_password (br_password req).

(** [LoginRequest::validated] *)
Definition login_validated (req : LoginRequest) : result ApiError unit :=
  let? _ := validate_email (lq_email req) in
  validate_password (lq_password req).

(** [ChangePasswordRequest::validated] *)
Definition change_validated (req : ChangePasswordRequest) : result ApiError unit :=
  if (str_len (cq_current_password req) =? 0) || (PASSWORD_MAX_LEN <? str_len (cq_current_password req))
  then Err (Validation (lit "current_password is invalid"))
  else validate_password (cq_new_password req).

(** ** [auth/cookie.rs] *)

Definition SESSION_COOKIE_NAME : rstr := lit "relayterm_session".

(** The loop over the pairs. *)
Fixpoint find_session_pair (pairs : list rstr) : option rstr :=
  match pairs with
  | [] => None
  | p :: pairs =>
      match break_on 61 (trim p) with
      | None => find_session_pair pairs
      | Some (name, value) =>
          if decide (name = SESSION_COOKIE_NAME) then
            if decide (value = []) then None else Some value
          else find_session_pair pairs
      end
  end.

(** [extract_session_cookie] *)
Definition extract_session_cookie (h : Headers) : option rstr :=
  match h_cookie h with
  | Some (Some raw) => find_session_pair (split_on 59 raw)
  | _ => None
  end.

(** ** [auth/csrf.rs] *)

(** [check_origin] *)
Definition check_origin (h : Headers) (allowed_origins : list rstr) : result ApiError unit :=
  match h_origin h with
  | None => Err (CsrfOriginMismatch (lit "missing Origin header"))
  | Some None => Err (CsrfOriginMismatch (lit "Origin header is not valid UTF-8"))
  | Some (Some origin) =>
      if bool_decide (origin ∈ allowed_origins) then Ok tt
      else Err (CsrfOriginMismatch (lit "Origin not in allowed_origins"))
  end.

(** ** Configuration and cookies *)

(** [AuthRoutesConfig] *)
Record AuthRoutesConfig := mkAuthRoutes {
  cookie_secure : bool;
  cookie_domain : option rstr;
  allowed_origins : list rstr;
  bootstrap_token : option rstr
}.

(** [Duration::days(30)] *)
Definition SESSION_TTL : Z := 30 * 86400 * nanos_per_second.

Definition cookie_flags (cfg : AuthRoutesConfig) : rstr :=
  (if cookie_secure cfg then lit "; Secure" else [])
  ++ (match cookie_domain cfg with Some d => lit "; Domain=" ++ d | None => [] end).

(** [build_session_cookie] and [build_clear_cookie] *)
Definition build_session_cookie (token : rstr) (cfg : AuthRoutesConfig) : rstr :=
  SESSION_COOKIE_NAME ++ lit "=" ++ token
  ++ lit ("; HttpOnly; SameSite=Strict; Path=/; Max-Age=" +:+ pretty (num_seconds SESSION_TTL))
  ++ cookie_flags cfg.
Definition build_clear_cookie (cfg : AuthRoutesConfig) : rstr :=
  SESSION_COOKIE_NAME ++ lit "=; HttpOnly; SameSite=Strict; Path=/; Max-Age=0" ++ cookie_flags cfg.

(** [constant_time_eq] *)
Definition constant_time_eq (a b : list Byte.byte) : bool :=
  if negb (len a =? len b) then false
  else foldl (fun diff xy => Z.lor diff (Z.lxor (byte_val xy.1) (byte_val xy.2))) 0 (zip a b) =? 0.

(** [no_content_with_cookie] *)
Definition no_content_with_cookie (cookie : rstr) : Response := mkResponse 204 (Some cookie) BEmpty.

(** [AuthenticatedUser] *)
Record AuthenticatedUser := mkAuthenticated { au_user : User; au_session_id : UserSessionId }.

(** ** The handlers *)

Module Routes.
Section routes.
Context {Cr : AuthCrypto} {Lo : PgLower}.
Context (svc : AuthService.t) (cfg : AuthRoutesConfig).

Abbreviation io A := (prog AuthWorld (result ApiError A)).

(** [?] on a repository call and on a call of the service. *)
Definition repo {A} (f : AuthDb -> result RepositoryError A * AuthDb) : io A :=
  do! r <- arepo f; Ret (map_err api_of_repository r).
Definition service {A} (p : prog AuthWorld (result AuthServiceError A)) : io A :=
  do! r <- p; Ret (map_err api_of_auth r).

Definition throttle (f : LoginThrottler.t -> LoginThrottler.t) : prog AuthWorld unit :=
  act (fun w => (tt, upd_throttler f w)).

(** [CsrfGuard::from_request_parts] *)
Definition csrf_guard (h : Headers) : io unit := Ret (check_origin h (allowed_origins cfg)).

(** [AuthenticatedUser::from_request_parts] *)
Definition authenticated_user (h : Headers) : io AuthenticatedUser :=
  do? token <- Ret (ok_or (extract_session_cookie h) (Unauthorized (lit "missing session cookie")));
  do! now <- auth_now;
  do? session <- service (AuthService.validate_session_token token now);
  do? ouser <- repo (PgUserRepository.get (se_user_id session));
  do? user <- Ret (ok_or ouser (Unauthorized (lit "session references missing user")));
  do! _ <- arepo (PgUserSessionRepository.touch_last_seen (se_id session) now);
  Ret (Ok (mkAuthenticated user (se_id session))).

Definition user_id (u : AuthenticatedUser) : UserId := us_id (au_user u).

(** [write_audit_best_effort] *)
Definition write_audit_best_effort (actor_id : option UserId) (kind : AuditEventKind) (payload : json)
  : prog AuthWorld unit :=
  do! _ <- arepo (PgAuditEventRepository.create (mkCreateAudit actor_id kind payload None)); Ret tt.

Definition audit (actor_id : UserId) (kind : AuditEventKind) (payload : json) : io AuditEvent :=
  repo (PgAuditEventRepository.create (mkCreateAudit (Some actor_id) kind payload None)).

Definition failure_payload (method reason : string) : json :=
  JObj [("method"%string, JStr (lit method)); ("reason"%string, JStr (lit reason))].

(** The tail of [bootstrap], after the checks. *)
Definition bootstrap_create (req : BootstrapRequest) : io Response :=
  do? user <- repo (PgUserRepository.create (mkCreateUser (br_email req) (br_display_name req)));
  do? _ <- service (AuthService.set_password svc (us_id user) (br_password req));
  do? _ <- audit (us_id user) FirstUserCreated
             (JObj [("user_id"%string, JUuid (us_id user)); ("created_at"%string, JTime (us_created_at user))]);
  Ret (Ok (mkResponse 201 None (BUser (user_response user)))).

(** [bootstrap] *)
Definition bootstrap (h : Headers) (req : BootstrapRequest) : io Response :=
  do? _ <- csrf_guard h;
  do? _ <- Ret (bootstrap_validated req);
  do? configured_token <- Ret (ok_or (bootstrap_token cfg)
    (ServiceUnavailable (lit "bootstrap is disabled (no first_user_bootstrap_token configured)")));
  if negb (constant_time_eq (as_bytes (br_bootstrap_token req)) (as_bytes configured_token)) then
    do! _ <- write_audit_best_effort None LoginFailed (failure_payload "bootstrap" "bad_token");
    Ret (Err (Unauthorized (lit "bad bootstrap token")))
  else
    do? exists_ <- repo PgPasswordCredentialRepository.any_exists;
    if (exists_ : bool) then
      do! _ <- write_audit_best_effort None LoginFailed (failure_payload "bootstrap" "already_bootstrapped");
      Ret (Err (Conflict "user" (Some "already_bootstrapped"%string)))
    else bootstrap_create req.

(** The tail of [login] when the credentials are refused. *)
Definition login_refused (throttle_key : rstr) (now : Z) (err : AuthServiceError) : io Response :=
  let api_err := match err with
                 | InvalidCredentials => Unauthorized (lit "invalid credentials")
                 | other => api_of_auth other
                 end in
  do! _ <- throttle (fun th => LoginThrottler.record_failure th throttle_key now);
  do! _ <- write_audit_best_effort None LoginFailed (failure_payload "password" "bad_credentials");
  Ret (Err api_err).

(** The tail of [login] when they are accepted. *)
Definition login_accepted (throttle_key : rstr) (now : Z) (user : User) : io Response :=
  do! _ <- throttle (fun th => LoginThrottler.record_success th throttle_key);
  do? created <- service (AuthService.create_session (us_id user) SESSION_TTL now);
  do! _ <- arepo (PgUserRepository.touch_last_login (us_id user) now);
  do? _ <- audit (us_id user) LoginSucceeded
             (JObj [("user_id"%string, JUuid (us_id user)); ("method"%string, JStr (lit "password"));
                    ("login_at"%string, JTime now)]);
  Ret (Ok (mkResponse 200 (Some (build_session_cookie (cd_token created) cfg))
             (BUser (user_response user)))).

(** [login]; a user that is not found never passes the verification, so the [expect] after it is
    reached with a user only. *)
Definition login (h : Headers) (req : LoginRequest) : io Response :=
  do? _ <- csrf_guard h;
  do? _ <- Ret (login_validated req);
  let throttle_key := normalize_login_identifier (lq_email req) in
  do! now <- auth_now;
  do! decision <- act (fun w => (LoginThrottler.check (aw_throttler w) throttle_key now, w));
  match decision with
  | Throttled _ =>
      do! _ <- write_audit_best_effort None LoginFailed (failure_payload "password" "throttled");
      Ret (Err (TooManyRequests (lit "login throttled by failed-attempts policy")))
  | Allowed =>
      do? ouser <- repo (PgUserRepository.get_by_email (lq_email req));
      match ouser with
      | None =>
          let _ := AuthService.anti_timing_verify svc (lq_password req) in
          login_refused throttle_key now InvalidCredentials
      | Some user =>
          do! verify_result <- AuthService.verify_password svc (us_id user) (lq_password req);
          match verify_result with
          | Err err => login_refused throttle_key now err
          | Ok _ => login_accepted throttle_key now user
          end
      end
  end.

(** [logout] *)
Definition logout (h : Headers) : io Response :=
  do? _ <- csrf_guard h;
  let cleared := no_content_with_cookie (build_clear_cookie cfg) in
  match extract_session_cookie h with
  | None => Ret (Ok cleared)
  | Some token =>
      do! now <- auth_now;
      do! v <- AuthService.validate_session_token token now;
      match v with
      | Err _ => Ret (Ok cleared)
      | Ok session =>
          do! r <- AuthService.revoke_session (se_id session) now (Some (lit "logout"));
          match r with
          | Err SessionInvalid => Ret (Ok cleared)
          | Err other => Ret (Err (api_of_auth other))
          | Ok _ =>
              do? _ <- audit (se_user_id session) LogoutSucceeded
                (JObj [("user_id"%string, JUuid (se_user_id session));
                       ("session_id"%string, JUuid (se_id session)); ("logout_at"%string, JTime now)]);
              Ret (Ok cleared)
          end
      end
  end.

(** [me] *)
Definition me (h : Headers) : io Response :=
  do? u <- authenticated_user h;
  Ret (Ok (mkResponse 200 None (BUser (user_response (au_user u))))).

(** [change_password] *)
Definition change_password (h : Headers) (req : ChangePasswordRequest) : io Response :=
  do? _ <- csrf_guard h;
  do? user <- authenticated_user h;
  do? _ <- Ret (change_validated req);
  do! now <- auth_now;
  do! r <- AuthService.verify_password svc (user_id user) (cq_current_password req);
  do? _ <- Ret (map_err (fun err => match err with
                                    | InvalidCredentials => Unauthorized (lit "invalid current password")
                                    | other => api_of_auth other
                                    end) r);
  do? _ <- service (AuthService.set_password svc (user_id user) (cq_new_password req));
  do? revoked_other_sessions <- service (AuthService.revoke_all_sessions_except (user_id user)
                                   (au_session_id user) now (Some (lit "password_changed")));
  do? _ <- audit (user_id user) PasswordChanged
             (JObj [("revoked_other_sessions"%string, JNum revoked_other_sessions);
                    ("changed_at"%string, JTime now)]);
  Ret (Ok (mkResponse 200 None (BRevoked revoked_other_sessions))).

(** [list_sessions] *)
Definition list_sessions (h : Headers) : io Response :=
  do? user <- authenticated_user h;
  do! now <- auth_now;
  do? rows <- service (AuthService.list_sessions_for_user (user_id user));
  Ret (Ok (mkResponse 200 None
    (BSessions (map (fun row => session_item_from_row row now (au_session_id user)) rows)))).

(** [revoke_session] *)
Definition revoke_session (h : Headers) (id : UserSessionId) : io Response :=
  do? _ <- csrf_guard h;
  do? user <- authenticated_user h;
  do! now <- auth_now;
  let is_current := id =? au_session_id user in
  do! r <- AuthService.revoke_session_for_user (user_id user) id now (Some (lit "user_revoke"));
  do? transitioned <- Ret (map_err (fun err => match err with
                                               | SessionInvalid => ApiNotFound "user_session"
                                               | other => api_of_auth other
                                               end) r);
  do? _ <- (if (transitioned : bool) then
              do? _ <- audit (user_id user) SessionRevokedEv
                (JObj [("session_id"%string, JUuid id); ("current_session"%string, JBool is_current);
                       ("revoked_at"%string, JTime now)]);
              Ret (Ok tt)
            else Ret (Ok tt));
  Ret (Ok (if is_current then no_content_with_cookie (build_clear_cookie cfg)
           else mkResponse 204 None BEmpty)).

(** [revoke_all_except_current] *)
Definition revoke_all_except_current (h : Headers) : io Response :=
  do? _ <- csrf_guard h;
  do? user <- authenticated_user h;
  do! now <- auth_now;
  do? revoked_count <- service (AuthService.revoke_all_sessions_except (user_id user)
                          (au_session_id user) now (Some (lit "user_revoke_all")));
  do? _ <- (if 0 <? revoked_count then
              do? _ <- audit (user_id user) SessionsRevoked
                (JObj [("revoked_count"%string, JNum revoked_count); ("revoked_at"%string, JTime now)]);
              Ret (Ok tt)
            else Ret (Ok tt));
  Ret (Ok (mkResponse 200 None (BRevoked revoked_count))).

(** The router. *)
Inductive AuthRequest :=
| QBootstrap (req : BootstrapRequest)
| QLogin (req : LoginRequest)
| QLogout
| QMe
| QChangePassword (req : ChangePasswordRequest)
| QListSessions
| QRevokeSession (id : UserSessionId)
| QRevokeAllExceptCurrent.

Definition serve (h : Headers) (q : AuthRequest) : io Response :=
  match q with
  | QBootstrap req => bootstrap h req
  | QLogin req => login h req
  | QLogout => logout h
  | QMe => me h
  | QChangePassword req => change_password h req
  | QListSessions => list_sessions h
  | QRevokeSession id => revoke_session h id
  | QRevokeAllExceptCurrent => revoke_all_except_current h
  end.

(** The routes that change state take the guard. *)
Definition browser_write (q : AuthRequest) : bool :=
  match q with QMe | QListSessions => false | _ => true end.

End routes.
End Routes.
