(* ===== verification/AuthSafety.v ===== *)
(** * Safety of the authentication state under every interleaving

    The invariant of the users, passwords, browser sessions and audit events and the guarantee each
    request gives the others: accounts are never removed, a session never changes hands, its
    expiry never moves and a revocation is final, the audit log only grows.  Every action of every
    handler keeps both, so they hold in every state of every interleaving of requests, with
    requests dropped at any [await] and statements failing anywhere. *)

From S2P Require Import Prelude Core PgSession Throttle Prog AuthStore Auth AuthRoutes.

Section safety.
Context {Cr : AuthCrypto} {Lo : PgLower}.

(** ** Invariant and guarantee *)

Record db_inv (d : AuthDb) : Prop := {
  ai_users : map_Forall (fun id u => us_id u = id) (a_users d);
  ai_emails : forall i j u v, a_users d !! i = Some u -> a_users d !! j = Some v ->
    pg_lower (us_email u) = pg_lower (us_email v) -> i = j;
  ai_passwords : map_Forall (fun id c => pc_user_id c = id /\ is_Some (a_users d !! id)) (a_passwords d);
  ai_sessions : map_Forall (fun id s => se_id s = id /\ is_Some (a_users d !! se_user_id s)) (a_sessions d);
  ai_tokens : forall i j s t, a_sessions d !! i = Some s -> a_sessions d !! j = Some t ->
    se_token_hash s = se_token_hash t -> i = j;
  ai_audit : Forall (fun r => is_Some (audit_from_str_tag (ar_kind r))
    /\ (forall u, ar_actor_id r = Some u -> is_Some (a_users d !! u))) (a_audit d)
}.

Record user_kept (u u' : User) : Prop := {
  uk_email : us_email u' = us_email u;
  uk_display_name : us_display_name u' = us_display_name u;
  uk_created_at : us_created_at u' = us_created_at u
}.

Record session_kept (s s' : UserSession) : Prop := {
  sk_user : se_user_id s' = se_user_id s;
  sk_token : se_token_hash s' = se_token_hash s;
  sk_created : se_created_at s' = se_created_at s;
  sk_expires : se_expires_at s' = se_expires_at s;
  sk_revoked : forall t, se_revoked_at s = Some t ->
    se_revoked_at s' = Some t /\ se_revoked_reason s' = se_revoked_reason s
}.

#[export] Instance user_kept_pre : PreOrder user_kept.
Proof. split; [done|]. intros ??? [] []. split; congruence. Qed.

#[export] Instance session_kept_pre : PreOrder session_kept.
Proof.
  split; [by split|]. intros s t u [H1 H2 H3 H4 H5] [K1 K2 K3 K4 K5]. split; try congruence.
  intros x Hx. destruct (H5 x Hx) as [Ht Hr]. destruct (K5 x Ht). split; [done|congruence].
Qed.

(** Every entry is still there, as related. *)
Definition kept {K A} `{Countable K} (R : A -> A -> Prop) (m m' : gmap K A) : Prop :=
  forall k x, m !! k = Some x -> exists y, m' !! k = Some y /\ R x y.

#[export] Instance kept_pre {K A} `{Countable K} (R : A -> A -> Prop) `{!PreOrder R} :
  PreOrder (kept (K := K) R).
Proof.
  split.
  - intros m k x Hx. by exists x.
  - intros m1 m2 m3 Hm Hm' k x Hx. destruct (Hm k x Hx) as (y & Hy & Hxy).
    destruct (Hm' k y Hy) as (z & Hz & Hyz). exists z. split; [done|by transitivity y].
Qed.

Lemma kept_insert {K A} `{Countable K} (R : A -> A -> Prop) `{!PreOrder R} (m : gmap K A) k y :
  (forall x, m !! k = Some x -> R x y) -> kept R m (<[k := y]> m).
Proof.
  intros HR k' x Hx. destruct (decide (k = k')) as [<-|Hne].
  - exists y. rewrite lookup_insert_eq. by split; [|apply HR].
  - exists x. by rewrite lookup_insert_ne.
Qed.

Record db_guar (d d' : AuthDb) : Prop := {
  ag_users : kept user_kept (a_users d) (a_users d');
  ag_passwords : dom (a_passwords d) ⊆ dom (a_passwords d');
  ag_sessions : kept session_kept (a_sessions d) (a_sessions d');
  ag_audit : a_audit d `prefix_of` a_audit d'
}.

#[export] Instance db_guar_pre : PreOrder db_guar.
Proof.
  split; [by split|]. intros d1 d2 d3 [A1 A2 A3 A4] [B1 B2 B3 B4].
  split; etransitivity; eassumption.
Qed.

Definition auth_inv (w : AuthWorld) : Prop := db_inv (aw_db w).
Definition auth_guar (w w' : AuthWorld) : Prop := db_guar (aw_db w) (aw_db w').

#[export] Instance auth_guar_pre : PreOrder auth_guar.
Proof. split; [by intros w|]. intros w1 w2 w3. unfold auth_guar. by etransitivity. Qed.

(** ** Tables that stay as they are *)

Record same_auth (d d' : AuthDb) : Prop := {
  sa_users : a_users d' = a_users d;
  sa_passwords : a_passwords d' = a_passwords d;
  sa_sessions : a_sessions d' = a_sessions d;
  sa_audit : a_audit d' = a_audit d
}.

#[export] Instance same_auth_equiv : Equivalence same_auth.
Proof.
  split; [by split| |].
  - intros d d' []. by split.
  - intros d1 d2 d3 [] []. split; congruence.
Qed.

Lemma same_auth_inv d d' : same_auth d d' -> db_inv d -> db_inv d'.
Proof. intros [E1 E2 E3 E4] []. split; rewrite ?E1, ?E2, ?E3, ?E4; done. Qed.

Lemma same_auth_guar d d' : same_auth d d' -> db_guar d d'.
Proof. intros [E1 E2 E3 E4]. split; by rewrite ?E1, ?E2, ?E3, ?E4. Qed.

(** A statement fails and changes no table, or it runs. *)
Lemma auth_execute_cases {A} (f : AuthDb -> result RepositoryError A * AuthDb) d :
  exists d1, same_auth d d1 /\ a_clock d1 = a_clock d /\ a_next_uuid d1 = a_next_uuid d
    /\ (a_faults d = [] -> d1 = d)
    /\ ((exists e, a_faults d <> [] /\ auth_execute f d = (Err e, d1)) \/ auth_execute f d = f d1).
Proof.
  unfold auth_execute, auth_next_fault. destruct (a_faults d) as [|[e|] rest] eqn:E.
  - exists d. split_and!; try done. by right.
  - eexists. split; [|split; [|split; [|split; [|left; exists e; split; [done|reflexivity]]]]];
      [by split|done..].
  - eexists. split; [|split; [|split; [|split; [|right; reflexivity]]]]; [by split|done..].
Qed.

(** ** The repositories keep both *)

Definition keeps {A} (f : AuthDb -> result RepositoryError A * AuthDb) : Prop :=
  forall d, db_inv d -> db_inv (f d).2 /\ db_guar d (f d).2.

Lemma keeps_execute {A} (f : AuthDb -> result RepositoryError A * AuthDb) :
  (forall d, db_inv d -> db_inv (f d).2 /\ db_guar d (f d).2) -> keeps (auth_execute f).
Proof.
  intros Hf d Hd. destruct (auth_execute_cases f d) as (d1 & Hs & _ & _ & _ & [(e & _ & ->)| ->]).
  - cbn [snd]. split; [by apply (same_auth_inv d)|by apply same_auth_guar].
  - destruct (Hf d1) as [H1 H2]; [by apply (same_auth_inv d)|]. split; [done|].
    transitivity d1; [by apply same_auth_guar|done].
Qed.

Lemma keeps_read {A} (f : AuthDb -> result RepositoryError A) : keeps (auth_execute (fun d => (f d, d))).
Proof. by apply keeps_execute. Qed.

(** A statement under a fresh identifier. *)
Lemma keeps_new_v4 {A} (f : Uuid -> AuthDb -> result RepositoryError A * AuthDb) :
  (forall id, keeps (f id)) -> keeps (fun d => let '(id, d) := auth_new_v4 d in f id d).
Proof.
  intros Hf d Hd. cbn [auth_new_v4].
  match goal with |- context [f ?i ?d1] => destruct (Hf i d1) as [H1 H2] end.
  - by apply (same_auth_inv d); [split|].
  - split; [done|]. etransitivity; [|exact H2]. by apply same_auth_guar.
Qed.

Lemma guar_users f d : kept user_kept (a_users d) (f (a_users d)) -> db_guar d (set_users f d).
Proof. intros H. by split. Qed.

Lemma guar_sessions f d :
  kept session_kept (a_sessions d) (f (a_sessions d)) -> db_guar d (set_user_sessions f d).
Proof. intros H. by split. Qed.

(** Users grow or change in [last_login_at] only. *)
Lemma inv_users f d :
  db_inv d -> kept user_kept (a_users d) (f (a_users d)) ->
  map_Forall (fun id u => us_id u = id) (f (a_users d)) ->
  (forall i j u v, f (a_users d) !! i = Some u -> f (a_users d) !! j = Some v ->
     pg_lower (us_email u) = pg_lower (us_email v) -> i = j) ->
  db_inv (set_users f d).
Proof.
  intros [I1 I2 I3 I4 I5 I6] Hk H1 H2.
  assert (Hsome : forall k, is_Some (a_users d !! k) -> is_Some (f (a_users d) !! k)).
  { intros k [x Hx]. destruct (Hk k x Hx) as (y & -> & _). done. }
  split; cbn; try done.
  - eapply map_Forall_impl; [exact I3|]. naive_solver.
  - eapply map_Forall_impl; [exact I4|]. naive_solver.
  - eapply Forall_impl; [exact I6|]. naive_solver.
Qed.

(** Sessions keep their owners and tokens. *)
Lemma inv_sessions f d :
  db_inv d ->
  map_Forall (fun id s => se_id s = id /\ is_Some (a_users d !! se_user_id s)) (f (a_sessions d)) ->
  (forall i j s t, f (a_sessions d) !! i = Some s -> f (a_sessions d) !! j = Some t ->
     se_token_hash s = se_token_hash t -> i = j) ->
  db_inv (set_user_sessions f d).
Proof. intros []. by split. Qed.

Lemma revoked_kept at_ reason s : session_kept s (revoked at_ reason s).
Proof. unfold revoked. destruct (se_revoked_at s) eqn:E; [done|]. split; cbn; try done. congruence. Qed.

Lemma revoked_id at_ reason s : se_id (revoked at_ reason s) = se_id s.
Proof. unfold revoked. by destruct (se_revoked_at s). Qed.

Lemma with_last_seen_kept at_ s : session_kept s (with_last_seen at_ s).
Proof. by split. Qed.

(** Replacing one session by a later version of itself. *)
Lemma keeps_session_update d id s s' :
  db_inv d -> a_sessions d !! id = Some s -> session_kept s s' -> se_id s' = se_id s ->
  db_inv (set_user_sessions <[id := s']> d) /\ db_guar d (set_user_sessions <[id := s']> d).
Proof.
  intros Hd Hs Hk Hid. pose proof (ai_sessions _ Hd _ _ Hs) as [H1 H2]. split.
  - apply inv_sessions; [done| |].
    + apply map_Forall_insert_2; [|apply (ai_sessions _ Hd)]. rewrite Hid, (sk_user _ _ Hk). done.
    + intros i j a b Ha Hb Ht. pose proof (ai_tokens _ Hd) as Hinj. destruct Hk as [_ Hkt _ _ _].
      apply lookup_insert_Some in Ha as [[<- <-]|[? Ha]], Hb as [[<- <-]|[? Hb]]; try done;
        rewrite ?Hkt in Ht; by eapply Hinj.
  - apply guar_sessions, kept_insert; [apply _|]. intros x Hx. by simplify_eq.
Qed.

(** Revoking many. *)
Lemma keeps_session_map d (g : UserSession -> UserSession) :
  (forall s, session_kept s (g s) /\ se_id (g s) = se_id s) -> db_inv d ->
  db_inv (set_user_sessions (fmap g) d) /\ db_guar d (set_user_sessions (fmap g) d).
Proof.
  intros Hg Hd. split.
  - apply inv_sessions; [done| |].
    + intros id s' Hs'. apply lookup_fmap_Some in Hs' as (s & <- & Hs).
      destruct (Hg s) as [Hk ->]. rewrite (sk_user _ _ Hk). by apply (ai_sessions _ Hd).
    + intros i j a b Ha Hb. apply lookup_fmap_Some in Ha as (s & <- & Hs), Hb as (t & <- & Ht).
      rewrite (sk_token _ _ (proj1 (Hg s))), (sk_token _ _ (proj1 (Hg t))). by apply (ai_tokens _ Hd).
  - apply guar_sessions. intros k x Hx. exists (g x). rewrite lookup_fmap, Hx. split; [done|apply Hg].
Qed.

Lemma keeps_user_get id : keeps (PgUserRepository.get id).
Proof. apply keeps_read. Qed.

Lemma keeps_user_by_email email : keeps (PgUserRepository.get_by_email email).
Proof. apply keeps_read. Qed.

Lemma keeps_user_create input : keeps (PgUserRepository.create input).
Proof.
  apply keeps_new_v4. intros id. apply keeps_execute. intros d Hd.
  destruct (bool_decide (is_Some _)) eqn:E1; [by split|].
  destruct (bool_decide (map_Exists _ _)) eqn:E2; [by split|]. bool_props. cbn [snd].
  assert (Hn : a_users d !! id = None) by (destruct (a_users d !! id); naive_solver).
  assert (Hk : kept user_kept (a_users d) (<[id := mkUser id (cu_email input) (cu_display_name input) (a_clock d) None]> (a_users d)))
    by (apply kept_insert; [apply _|congruence]).
  assert (Hnew : forall k u, a_users d !! k = Some u -> pg_lower (us_email u) <> pg_lower (cu_email input)).
  { intros k u Hu Heq. apply E2. by exists k, u. }
  split; [|by apply guar_users]. apply inv_users; [done|done| |].
  - apply map_Forall_insert_2; [done|apply (ai_users _ Hd)].
  - intros i j u v Hu Hv Heq. apply lookup_insert_Some in Hu as [[<- <-]|[? Hu]], Hv as [[<- <-]|[? Hv]];
      cbn in Heq; try done; [by destruct (Hnew _ _ Hv)|by destruct (Hnew _ _ Hu)|by eapply (ai_emails _ Hd)].
Qed.

Lemma keeps_touch_last_login id at_ : keeps (PgUserRepository.touch_last_login id at_).
Proof.
  apply keeps_execute. intros d Hd. destruct (a_users d !! id) as [u|] eqn:E; [|by split]. cbn [snd].
  assert (Hk : kept user_kept (a_users d) (<[id := mkUser (us_id u) (us_email u) (us_display_name u) (us_created_at u) (Some at_)]> (a_users d)))
    by (apply kept_insert; [apply _|]; intros x Hx; by simplify_eq).
  split; [|by apply guar_users]. apply inv_users; [done|done| |].
  - apply map_Forall_insert_2; [exact (ai_users _ Hd _ _ E)|apply (ai_users _ Hd)].
  - intros i j a b Ha Hb Heq. pose proof (ai_emails _ Hd) as Hinj.
    apply lookup_insert_Some in Ha as [[<- <-]|[? Ha]], Hb as [[<- <-]|[? Hb]]; cbn in Heq; try done; by eapply Hinj.
Qed.

Lemma keeps_password_upsert input : keeps (PgPasswordCredentialRepository.upsert_for_user input).
Proof.
  apply keeps_execute. intros d Hd. destruct (bool_decide _) eqn:E; [|by split]. bool_props. cbn [negb snd].
  split; [destruct Hd; split; try done|split; try done]; cbn.
  - by apply map_Forall_insert_2.
  - rewrite dom_insert_L. set_solver.
Qed.

Lemma keeps_password_get id : keeps (PgPasswordCredentialRepository.get_for_user id).
Proof. apply keeps_read. Qed.

Lemma keeps_password_any : keeps PgPasswordCredentialRepository.any_exists.
Proof. apply keeps_read. Qed.

Lemma keeps_session_create input : keeps (PgUserSessionRepository.create input).
Proof.
  apply keeps_new_v4. intros id. apply keeps_execute. intros d Hd.
  destruct (bool_decide (is_Some (a_sessions d !! id))) eqn:E1; [by split|].
  destruct (bool_decide (map_Exists _ _)) eqn:E2; [by split|].
  destruct (bool_decide (is_Some (a_users d !! _))) eqn:E3; [|by split]. bool_props. cbn [negb snd].
  assert (Hn : a_sessions d !! id = None) by (destruct (a_sessions d !! id); naive_solver).
  assert (Hnew : forall k s, a_sessions d !! k = Some s -> se_token_hash s <> cus_token_hash input).
  { intros k s Hs Heq. apply E2. by exists k, s. }
  split; [apply inv_sessions; [done| |]|apply guar_sessions, kept_insert; [apply _|congruence]].
  - apply map_Forall_insert_2; [done|apply (ai_sessions _ Hd)].
  - intros i j s t Hs Ht Heq. apply lookup_insert_Some in Hs as [[<- <-]|[? Hs]], Ht as [[<- <-]|[? Ht]];
      cbn in Heq; try done; [by destruct (Hnew _ _ Ht)|by destruct (Hnew _ _ Hs)|by eapply (ai_tokens _ Hd)].
Qed.

Lemma keeps_session_by_hash hash : keeps (PgUserSessionRepository.get_by_token_hash hash).
Proof. apply keeps_read. Qed.

Lemma keeps_session_list id : keeps (PgUserSessionRepository.list_for_user id).
Proof. apply keeps_read. Qed.

Lemma keeps_touch_last_seen id at_ : keeps (PgUserSessionRepository.touch_last_seen id at_).
Proof.
  apply keeps_execute. intros d Hd. destruct (a_sessions d !! id) as [s|] eqn:E; [|by split].
  by apply (keeps_session_update d id s).
Qed.

Lemma keeps_revoke id at_ reason : keeps (PgUserSessionRepository.revoke id at_ reason).
Proof.
  apply keeps_execute. intros d Hd. destruct (a_sessions d !! id) as [s|] eqn:E; [|by split].
  apply (keeps_session_update d id s); [done|done|apply revoked_kept|apply revoked_id].
Qed.

Lemma keeps_revoke_for_user uid id at_ reason : keeps (PgUserSessionRepository.revoke_for_user uid id at_ reason).
Proof.
  apply keeps_execute. intros d Hd. destruct (a_sessions d !! id) as [s|] eqn:E; [|by split].
  case_match; [|by split].
  apply (keeps_session_update d id s); [done|done|apply revoked_kept|apply revoked_id].
Qed.

Lemma keeps_revoke_where P at_ reason : keeps (PgUserSessionRepository.revoke_where P at_ reason).
Proof.
  apply keeps_execute. intros d Hd. apply keeps_session_map; [|done]. intros s.
  case_match; [split; [apply revoked_kept|apply revoked_id]|by split].
Qed.

Lemma audit_tag_known k : is_Some (audit_from_str_tag (audit_as_str k)).
Proof. destruct k; by eexists. Qed.

Lemma keeps_audit_create input : keeps (PgAuditEventRepository.create input).
Proof.
  apply keeps_new_v4. intros id. apply keeps_execute. intros d Hd. cbv zeta.
  destruct (negb (audit_kind_chk _)); [by split|].
  destruct (bool_decide (id ∈ _)); [by split|].
  destruct (negb _) eqn:E; [by split|]. cbn [snd]. split; [destruct Hd; split; try done|split; try done]; cbn.
  - apply Forall_app. split; [done|]. repeat constructor; cbn; [apply audit_tag_known|].
    intros u Hu. rewrite Hu in E. by bool_props.
  - by apply prefix_app_r.
Qed.

End safety.

#[export] Hint Resolve keeps_user_get keeps_user_by_email keeps_user_create keeps_touch_last_login
  keeps_password_upsert keeps_password_get keeps_password_any keeps_session_create
  keeps_session_by_hash keeps_session_list keeps_touch_last_seen keeps_revoke
  keeps_revoke_for_user keeps_revoke_where keeps_audit_create : relay.

(** ** Looking a row up by a unique column *)

Lemma head_filter_unique {A} `{Countable K} (P : A -> Prop) `{!forall x, Decision (P x)} (m : gmap K A) k x :
  m !! k = Some x -> P x -> (forall j y, m !! j = Some y -> P y -> j = k) ->
  head (filter P (map_to_list m).*2) = Some x.
Proof.
  intros Hx HP Hu.
  assert (Hin : x ∈ filter P (map_to_list m).*2).
  { apply list_elem_of_filter. split; [done|]. apply list_elem_of_fmap. exists (k, x).
    split; [done|]. by apply elem_of_map_to_list. }
  destruct (filter P (map_to_list m).*2) as [|y l] eqn:E; [by apply elem_of_nil in Hin|]. cbn. f_equal.
  assert (Hy : y ∈ filter P (map_to_list m).*2) by (rewrite E; left).
  apply list_elem_of_filter in Hy as [HPy ([j y'] & -> & Hj%elem_of_map_to_list)%list_elem_of_fmap].
  cbn in *. assert (j = k) by (by eapply Hu). congruence.
Qed.

Lemma head_filter_None {A} `{Countable K} (P : A -> Prop) `{!forall x, Decision (P x)} (m : gmap K A) :
  (forall j y, m !! j = Some y -> ~ P y) -> head (filter P (map_to_list m).*2) = None.
Proof.
  intros Hn. destruct (filter P (map_to_list m).*2) as [|y l] eqn:E; [done|]. exfalso.
  assert (Hy : y ∈ filter P (map_to_list m).*2) by (rewrite E; left).
  apply list_elem_of_filter in Hy as [HPy ([j y'] & -> & Hj%elem_of_map_to_list)%list_elem_of_fmap].
  by apply (Hn j y').
Qed.

Lemma head_filter_Some {A} `{Countable K} (P : A -> Prop) `{!forall x, Decision (P x)} (m : gmap K A) x :
  head (filter P (map_to_list m).*2) = Some x -> P x /\ exists k, m !! k = Some x.
Proof.
  intros Hh. assert (Hx : x ∈ filter P (map_to_list m).*2).
  { destruct (filter P (map_to_list m).*2); [done|]. cbn in Hh. simplify_eq. left. }
  apply list_elem_of_filter in Hx as [HP ([k y] & -> & Hk%elem_of_map_to_list)%list_elem_of_fmap].
  split; [done|]. by exists k.
Qed.

(** ** Requests are safe under interference *)

Section interleaving.
Context {Cr : AuthCrypto} {Lo : PgLower}.
Context (svc : AuthService.t) (cfg : AuthRoutesConfig).

Abbreviation WP := (wp auth_inv auth_guar).

Definition safe {A} (p : prog AuthWorld A) : Prop := forall w0, WP p w0 (fun _ _ => True).

Lemma safe_ret {A} (a : A) : safe (Ret a).
Proof. done. Qed.

Lemma asafe_bind {A B} (p : prog AuthWorld A) (k : A -> prog AuthWorld B) :
  safe p -> (forall a, safe (k a)) -> safe (bind p k).
Proof.
  intros Hp Hk w0. apply wp_bind. eapply wp_mono; [|apply Hp]. intros a w _. apply Hk.
Qed.

Lemma asafe_try {E A B} (p : prog AuthWorld (result E A)) (k : A -> prog AuthWorld (result E B)) :
  safe p -> (forall a, safe (k a)) -> safe (try_bind p k).
Proof. intros Hp Hk. apply asafe_bind; [done|]. intros [a|e]; [apply Hk|done]. Qed.

Lemma safe_arepo {A} (f : AuthDb -> result RepositoryError A * AuthDb) : keeps f -> safe (arepo f).
Proof.
  intros Hf w0 w Hw _. destruct (Hf (aw_db w) Hw) as [H1 H2]. unfold auth_inv, auth_guar.
  destruct (f (aw_db w)) as [r d]. by split_and!.
Qed.

Lemma asafe_act {A} (f : AuthWorld -> A * AuthWorld) :
  (forall w, aw_db (f w).2 = aw_db w) -> safe (act f).
Proof. intros Hf w0 w Hw _. unfold auth_inv, auth_guar. rewrite Hf. by split_and!. Qed.

Lemma safe_service_repo {A} (f : AuthDb -> result RepositoryError A * AuthDb) :
  keeps f -> safe (AuthService.repo f).
Proof. intros Hf. apply asafe_bind; [by apply safe_arepo|done]. Qed.

Lemma safe_route_repo {A} (f : AuthDb -> result RepositoryError A * AuthDb) :
  keeps f -> safe (Routes.repo f).
Proof. intros Hf. apply asafe_bind; [by apply safe_arepo|done]. Qed.

Lemma safe_service {A} (p : prog AuthWorld (result AuthServiceError A)) :
  safe p -> safe (Routes.service p).
Proof. intros Hp. by apply asafe_bind. Qed.

(** One syntactic step of a handler. *)
Ltac safe_step :=
  lazymatch goal with
  | |- safe (Ret _) => apply safe_ret
  | |- safe (bind _ _) => apply asafe_bind; [|intros ?]
  | |- safe (try_bind _ _) => apply asafe_try; [|intros ?]
  | |- safe (arepo _) => apply safe_arepo; eauto with relay
  | |- safe (AuthService.repo _) => apply safe_service_repo; eauto with relay
  | |- safe (Routes.repo _) => apply safe_route_repo; eauto with relay
  | |- safe (Routes.service _) => apply safe_service
  | |- safe (act _) => apply asafe_act; done
  | |- safe auth_now => apply asafe_act; done
  | |- safe (match ?x with _ => _ end) => destruct x
  end.
Ltac safe_auto := repeat safe_step.

Lemma safe_set_password id pw : safe (AuthService.set_password svc id pw).
Proof. unfold AuthService.set_password. safe_auto. Qed.

Lemma safe_verify_password id pw : safe (AuthService.verify_password svc id pw).
Proof. unfold AuthService.verify_password. safe_auto. Qed.

Lemma asafe_create_session id ttl now : safe (AuthService.create_session id ttl now).
Proof. unfold AuthService.create_session. safe_auto. Qed.

Lemma safe_validate token now : safe (AuthService.validate_session_token token now).
Proof. unfold AuthService.validate_session_token. safe_auto. Qed.

Lemma safe_revoke_session id now reason : safe (AuthService.revoke_session id now reason).
Proof. unfold AuthService.revoke_session. safe_auto. Qed.

Lemma safe_revoke_for_user uid id now reason : safe (AuthService.revoke_session_for_user uid id now reason).
Proof. unfold AuthService.revoke_session_for_user. safe_auto. Qed.

Lemma safe_revoke_except uid id now reason : safe (AuthService.revoke_all_sessions_except uid id now reason).
Proof. unfold AuthService.revoke_all_sessions_except. apply safe_service_repo, keeps_revoke_where. Qed.

Lemma safe_list id : safe (AuthService.list_sessions_for_user id).
Proof. unfold AuthService.list_sessions_for_user. safe_auto. Qed.

Lemma safe_authenticated h : safe (Routes.authenticated_user h).
Proof. unfold Routes.authenticated_user. safe_auto. apply safe_validate. Qed.

Lemma safe_best_effort a k p : safe (Routes.write_audit_best_effort a k p).
Proof. unfold Routes.write_audit_best_effort. safe_auto. Qed.

Lemma safe_audit a k p : safe (Routes.audit a k p).
Proof. unfold Routes.audit. safe_auto. Qed.

Hint Resolve safe_set_password safe_verify_password asafe_create_session safe_validate
  safe_revoke_session safe_revoke_for_user safe_revoke_except safe_list safe_authenticated
  safe_best_effort safe_audit : relay.

Lemma safe_bootstrap h req : safe (Routes.bootstrap svc cfg h req).
Proof. unfold Routes.bootstrap, Routes.bootstrap_create, Routes.csrf_guard. safe_auto; auto with relay. Qed.

Lemma safe_login h req : safe (Routes.login svc cfg h req).
Proof.
  unfold Routes.login, Routes.csrf_guard, Routes.login_refused, Routes.login_accepted, Routes.throttle.
  cbv zeta. safe_auto; auto with relay.
Qed.

Lemma safe_logout h : safe (Routes.logout cfg h).
Proof. unfold Routes.logout, Routes.csrf_guard. safe_auto; auto with relay. Qed.

Lemma safe_change_password h req : safe (Routes.change_password svc cfg h req).
Proof. unfold Routes.change_password, Routes.csrf_guard. safe_auto; auto with relay. Qed.

Lemma safe_serve h q : safe (Routes.serve svc cfg h q).
Proof.
  destruct q; cbn [Routes.serve]; [apply safe_bootstrap|apply safe_login|apply safe_logout| |
    apply safe_change_password|..];
  unfold Routes.me, Routes.list_sessions, Routes.revoke_session, Routes.revoke_all_except_current,
    Routes.csrf_guard; safe_auto; auto with relay.
Qed.

(** What can happen between two actions of a request: another request arrives, time passes (on
    the server and in the database), the throttler is cleaned up. *)
Inductive auth_starts : AuthWorld -> AuthWorld -> prog AuthWorld unit -> Prop :=
| start_request w h q :
    auth_starts w w (do! _ <- Routes.serve svc cfg h q; Ret tt)
| start_tick w t c :
    aw_now w <= t -> a_clock (aw_db w) <= c ->
    auth_starts w
      (set_auth_now t (set_auth_db (mkAuthDb (a_users (aw_db w)) (a_passwords (aw_db w))
         (a_sessions (aw_db w)) (a_audit (aw_db w)) c (a_next_uuid (aw_db w)) (a_faults (aw_db w))) w))
      (Ret tt)
| start_cleanup w :
    auth_starts w (upd_throttler (fun th => LoginThrottler.cleanup th (aw_now w)) w) (Ret tt).

Lemma auth_safe_starts w w' p :
  auth_starts w w' p -> auth_inv w -> auth_inv w' /\ auth_guar w w' /\ WP p w' (fun _ _ => True).
Proof.
  intros [w1 h q|w1 t c _ _|w1] Hw.
  - split_and!; [done|done|]. apply asafe_bind; [apply safe_serve|done].
  - unfold auth_inv, auth_guar. cbn. split_and!; [|by apply same_auth_guar|done].
    by apply (same_auth_inv (aw_db w1)).
  - by split_and!.
Qed.

(** C7: in every state that any interleaving of authentication requests reaches, with requests
    dropped at any await and statements failing anywhere: email addresses are unique up to
    [LOWER], every password, session and audit event belongs to a stored user, two sessions never
    share a token, every audit row is readable.  And since boot no account has been removed or
    renamed, no session changed its owner, token or expiry, no revocation was undone or restamped,
    no user lost the password row, and the audit log only grew. *)
Theorem auth_history_safety w0 c :
  auth_inv w0 -> reachable auth_starts w0 c -> auth_inv (p_world c) /\ auth_guar w0 (p_world c).
Proof.
  intros Hw Hr. by destruct (pool_sound auth_inv auth_guar auth_starts w0 c auth_safe_starts Hw Hr) as (? & ? & _).
Qed.

Lemma auth_sound w0 c :
  auth_inv w0 -> reachable auth_starts w0 c -> auth_inv (p_world c) /\ auth_guar w0 (p_world c).
Proof.
  intros Hw Hr. by destruct (pool_sound auth_inv auth_guar auth_starts w0 c auth_safe_starts Hw Hr) as (? & ? & _).
Qed.

(** ** A revoked session *)

Lemma by_hash_found d id s hash :
  db_inv d -> a_sessions d !! id = Some s -> se_token_hash s = hash ->
  head (filter (fun t => se_token_hash t = hash) (map_to_list (a_sessions d)).*2) = Some s.
Proof.
  intros Hd Hs <-. apply (head_filter_unique _ _ id); [done|done|]. intros j t Ht Heq.
  by eapply (ai_tokens _ Hd).
Qed.

(** Its token validates nothing, whatever happens meanwhile. *)
Lemma wp_validate_revoked token now id s t w0 Q :
  a_sessions (aw_db w0) !! id = Some s -> se_token_hash s = hash_session_token token ->
  se_revoked_at s = Some t ->
  (forall e w, Q (Err e) w) ->
  WP (AuthService.validate_session_token token now) w0 Q.
Proof.
  intros Hs Hh Hr HQ. unfold AuthService.validate_session_token, AuthService.repo.
  apply wp_try, wp_bind, wp_act. intros w Hw HG.
  pose proof (keeps_session_by_hash (hash_session_token token) (aw_db w) Hw) as [H1 H2].
  destruct (auth_execute_cases (fun d => (Ok (head (filter (fun s => se_token_hash s = hash_session_token token)
    (map_to_list (a_sessions d)).*2)) : result RepositoryError _, d)) (aw_db w)) as (d1 & Hsame & _ & _ & _ & Hcase).
  unfold PgUserSessionRepository.get_by_token_hash in *.
  destruct (ag_sessions _ _ HG id s Hs) as (s' & Hs' & Hk).
  assert (Hd1 : db_inv d1) by (by apply (same_auth_inv (aw_db w))).
  destruct Hcase as [(e & _ & He)|He]; rewrite He in *; cbn [fst snd] in *.
  - split_and!; [done|done|]. cbn. apply HQ.
  - split_and!; [done|done|]. cbn [map_err]. rewrite <- (sa_sessions _ _ Hsame) in Hs'.
    rewrite (by_hash_found d1 id s') by (done || by rewrite (sk_token _ _ Hk)).
    cbn [wp]. unfold is_revoked. destruct (sk_revoked _ _ Hk t Hr) as [-> _]. cbn. apply HQ.
Qed.

Lemma wp_authenticated_revoked h token id s t w0 :
  extract_session_cookie h = Some token ->
  a_sessions (aw_db w0) !! id = Some s -> se_token_hash s = hash_session_token token ->
  se_revoked_at s = Some t ->
  WP (Routes.authenticated_user h) w0 (fun r _ => exists e, r = Err e).
Proof.
  intros Hx Hs Hh Hr. unfold Routes.authenticated_user. rewrite Hx. cbn [ok_or].
  apply wp_try. cbn [wp]. apply wp_bind, wp_act. intros w Hw HG. cbn [fst snd]. split_and!; [done|done|].
  destruct (ag_sessions _ _ HG id s Hs) as (s' & Hs' & Hk).
  apply wp_try, wp_bind. eapply (wp_validate_revoked token _ id s'); [done| | |].
  - by rewrite (sk_token _ _ Hk).
  - by apply (sk_revoked _ _ Hk).
  - intros e w'. cbn [wp map_err]. by eexists.
Qed.

End interleaving.
