(* ===== verification/AuthSpec.v ===== *)
(** * What the authentication routes do

    The routes of [AuthRoutes.v] run one at a time over a database that answers: who is let in and
    who is not, what a login, a logout and a password change do to the tables, what a refused
    caller can learn, and what a cross-site request can do.  The last part instantiates the
    theorems on a small deployment with toy primitives in the place of Argon2 and SHA-256. *)

From S2P Require Import Prelude Utf8 Core PgSession Throttle Prog AuthStore Auth AuthRoutes AuthSafety.

Section spec.
Context {Cr : AuthCrypto} {Lo : PgLower}.
Context (svc : AuthService.t) (cfg : AuthRoutesConfig).

(** ** A database that answers *)

(** No statement fails and the identifiers in use are ones the generator has passed. *)
Record answering (d : AuthDb) : Prop := {
  an_faults : a_faults d = [];
  an_users : map_Forall (fun id _ => id < a_next_uuid d) (a_users d);
  an_sessions : map_Forall (fun id _ => id < a_next_uuid d) (a_sessions d);
  an_audit : Forall (fun r => ar_row_id r < a_next_uuid d) (a_audit d)
}.

Lemma execute_answers {A} (f : AuthDb -> result RepositoryError A * AuthDb) d :
  a_faults d = [] -> auth_execute f d = f d.
Proof. unfold auth_execute, auth_next_fault. by intros ->. Qed.

Lemma run_arepo {A} (f : AuthDb -> result RepositoryError A * AuthDb) w :
  run (arepo f) w = ((f (aw_db w)).1, set_auth_db (f (aw_db w)).2 w).
Proof. unfold arepo. rewrite run_act. by destruct (f (aw_db w)). Qed.

Lemma run_repo {A} (f : AuthDb -> result RepositoryError A * AuthDb) w :
  run (Routes.repo f) w = (map_err api_of_repository (f (aw_db w)).1, set_auth_db (f (aw_db w)).2 w).
Proof. unfold Routes.repo. by rewrite run_bind, run_arepo. Qed.

Lemma run_service_repo {A} (f : AuthDb -> result RepositoryError A * AuthDb) w :
  run (AuthService.repo f) w = (map_err auth_of_repository (f (aw_db w)).1, set_auth_db (f (aw_db w)).2 w).
Proof. unfold AuthService.repo. by rewrite run_bind, run_arepo. Qed.

Lemma run_service {A} (p : prog AuthWorld (result AuthServiceError A)) w :
  run (Routes.service p) w = (map_err api_of_auth (run p w).1, (run p w).2).
Proof. unfold Routes.service. rewrite run_bind. by destruct (run p w). Qed.

Lemma run_now w : run auth_now w = (aw_now w, w).
Proof. done. Qed.

Lemma set_auth_db_id w : set_auth_db (aw_db w) w = w.
Proof. by destruct w. Qed.

(** ** Audit rows *)

Definition audit_row (actor : option UserId) (kind : AuditEventKind) (payload : json) (d : AuthDb)
  : AuditEventRow :=
  mkAuditRow (a_next_uuid d) actor (audit_as_str kind) payload None (a_clock d).

Definition audited_db (actor : option UserId) (kind : AuditEventKind) (payload : json) (d : AuthDb)
  : AuthDb :=
  push_audit (audit_row actor kind payload d) (auth_new_v4 d).2.

Definition audited (actor : option UserId) (kind : AuditEventKind) (payload : json) (w : AuthWorld)
  : AuthWorld := set_auth_db (audited_db actor kind payload (aw_db w)) w.

Lemma audit_kind_allowed k : audit_kind_chk (audit_as_str k) = true.
Proof. by destruct k. Qed.

Lemma audit_tag_roundtrip k : audit_from_str_tag (audit_as_str k) = Some k.
Proof. by destruct k. Qed.

Lemma audit_create_answers actor kind payload d :
  answering d -> (forall u, actor = Some u -> is_Some (a_users d !! u)) ->
  exists ev, PgAuditEventRepository.create (mkCreateAudit actor kind payload None) d
             = (Ok ev, audited_db actor kind payload d).
Proof.
  intros [Hf _ _ Ha] Hu. unfold PgAuditEventRepository.create. cbn [auth_new_v4].
  rewrite execute_answers by done. cbn [ca_actor_id ca_kind ca_payload ca_remote_addr].
  rewrite audit_kind_allowed. cbn [negb a_audit a_users].
  rewrite bool_decide_eq_false_2; [|intros (r & Hr & Hin%list_elem_of_In)%list_elem_of_In%in_map_iff].
  2:{ rewrite Forall_forall in Ha. apply Ha in Hin. lia. }
  assert (Hok : match actor with Some u => bool_decide (is_Some (a_users d !! u)) | None => true end = true).
  { destruct actor as [u|]; [|done]. apply bool_decide_eq_true. by apply Hu. }
  rewrite Hok. cbn [negb]. unfold audit_try_into_domain. cbn [ar_kind]. rewrite audit_tag_roundtrip.
  eexists. reflexivity.
Qed.

Lemma run_audit u kind payload w :
  answering (aw_db w) -> is_Some (a_users (aw_db w) !! u) ->
  exists ev, run (Routes.audit u kind payload) w = (Ok ev, audited (Some u) kind payload w).
Proof.
  intros Ha Hu. unfold Routes.audit. rewrite run_repo.
  destruct (audit_create_answers (Some u) kind payload (aw_db w)) as (ev & ->); [done|naive_solver|].
  by exists ev.
Qed.

Lemma run_best_effort kind payload w :
  answering (aw_db w) ->
  run (Routes.write_audit_best_effort None kind payload) w = (tt, audited None kind payload w).
Proof.
  intros Ha. unfold Routes.write_audit_best_effort. rewrite run_bind, run_arepo.
  by destruct (audit_create_answers None kind payload (aw_db w)) as (ev & ->).
Qed.

(** ** Who is authenticated *)

Definition session_of_token (token : rstr) (d : AuthDb) : option UserSession :=
  head (filter (fun s => se_token_hash s = hash_session_token token) (map_to_list (a_sessions d)).*2).

Lemma session_of_token_spec token d s :
  db_inv d -> session_of_token token d = Some s <->
  a_sessions d !! se_id s = Some s /\ se_token_hash s = hash_session_token token.
Proof.
  intros Hd. split.
  - intros [Hh [k Hk]]%head_filter_Some. by destruct (ai_sessions _ Hd _ _ Hk) as [-> _].
  - intros [Hs Hh]. by apply (by_hash_found d (se_id s)).
Qed.

(** The verdict of [validate_session_token]. *)
Definition verdict (token : rstr) (now : Z) (d : AuthDb) : result AuthServiceError UserSession :=
  match session_of_token token d with
  | None => Err SessionInvalid
  | Some s => if is_revoked s then Err SessionRevoked
              else if is_expired_at s now then Err SessionExpired else Ok s
  end.

Lemma run_validate token now w :
  a_faults (aw_db w) = [] ->
  run (AuthService.validate_session_token token now) w = (verdict token now (aw_db w), w).
Proof.
  intros Hf. unfold AuthService.validate_session_token.
  rewrite run_try, run_service_repo. unfold PgUserSessionRepository.get_by_token_hash.
  rewrite execute_answers by done. cbn [fst snd map_err]. rewrite set_auth_db_id.
  unfold verdict. fold (session_of_token token (aw_db w)). by split_cases.
Qed.

Lemma verdict_ok token now d s :
  db_inv d -> verdict token now d = Ok s <->
  a_sessions d !! se_id s = Some s /\ se_token_hash s = hash_session_token token /\ is_active_at s now = true.
Proof.
  intros Hd. unfold verdict, is_active_at. pose proof (session_of_token_spec token d s Hd) as Hsp.
  destruct (session_of_token token d) as [t|]; [|naive_solver].
  destruct (is_revoked t) eqn:E1, (is_expired_at t now) eqn:E2; split; try done; intros Hs.
  all: try (destruct Hs as (H1 & H2 & H3); assert (t = s) as -> by (assert (Some t = Some s) by tauto; congruence);
    rewrite ?E1, ?E2 in H3; done || by f_equal).
  simplify_eq. destruct (proj1 Hsp eq_refl) as [H1 H2]. by rewrite E1, E2.
Qed.

Definition touched (id : UserSessionId) (s : UserSession) (w : AuthWorld) : AuthWorld :=
  set_auth_db (set_user_sessions <[id := with_last_seen (aw_now w) s]> (aw_db w)) w.

Lemma run_authenticated h token s u w :
  a_faults (aw_db w) = [] -> extract_session_cookie h = Some token ->
  verdict token (aw_now w) (aw_db w) = Ok s -> a_sessions (aw_db w) !! se_id s = Some s ->
  a_users (aw_db w) !! se_user_id s = Some u ->
  run (Routes.authenticated_user h) w = (Ok (mkAuthenticated u (se_id s)), touched (se_id s) s w).
Proof.
  intros Hf Hx Hv Hs Hu. unfold Routes.authenticated_user. rewrite Hx. cbn [ok_or].
  rewrite run_try. cbn [run]. rewrite run_bind, run_now, run_try, run_service, run_validate by done.
  rewrite Hv. cbn [fst snd map_err]. rewrite run_try, run_repo. unfold PgUserRepository.get.
  rewrite execute_answers by done. cbn [fst snd map_err]. rewrite set_auth_db_id, Hu. cbn [ok_or].
  rewrite run_try. cbn [run]. rewrite run_bind, run_arepo. unfold PgUserSessionRepository.touch_last_seen.
  rewrite execute_answers, Hs by done. done.
Qed.

Lemma run_unauthenticated h w :
  auth_inv w -> a_faults (aw_db w) = [] ->
  (forall token s, extract_session_cookie h = Some token -> verdict token (aw_now w) (aw_db w) <> Ok s) ->
  exists e, run (Routes.authenticated_user h) w = (Err (Unauthorized e), w).
Proof.
  intros Hw Hf Hno. unfold Routes.authenticated_user.
  destruct (extract_session_cookie h) as [token|] eqn:Hx; [|by eexists].
  cbn [ok_or]. rewrite run_try. cbn [run]. rewrite run_bind, run_now, run_try, run_service, run_validate by done.
  destruct (verdict token (aw_now w) (aw_db w)) as [s|e] eqn:Hv; [by destruct (Hno token s)|].
  cbn [fst snd map_err].
  assert (Hun : exists d, api_of_auth e = Unauthorized d).
  { unfold verdict in Hv. by repeat case_match; simplify_eq; eexists. }
  destruct Hun as [d ->]. by eexists.
Qed.

(** C8: authentication is exact.  With a database that answers, a request is let in as a user if
    and only if its cookie header carries a session cookie whose digest is the one of a stored
    session of that user, neither revoked nor expired now; the only effect is the time that session
    was last seen.  Every other request gets the one 401 answer and changes nothing. *)
Theorem authentication_is_exact h w :
  auth_inv w -> a_faults (aw_db w) = [] ->
  (forall u id, (exists w', run (Routes.authenticated_user h) w = (Ok (mkAuthenticated u id), w')) <->
     exists token s, extract_session_cookie h = Some token /\ a_sessions (aw_db w) !! id = Some s
       /\ se_token_hash s = hash_session_token token /\ is_active_at s (aw_now w) = true
       /\ a_users (aw_db w) !! se_user_id s = Some u)
  /\ match run (Routes.authenticated_user h) w with
     | (Ok a, w') => exists s, a_sessions (aw_db w) !! au_session_id a = Some s
                       /\ w' = touched (au_session_id a) s w
     | (Err e, w') => parts e = (401, "unauthorized"%string, lit "unauthorized") /\ w' = w
     end.
Proof.
  intros Hw Hf.
  destruct (extract_session_cookie h) as [token|] eqn:Hx.
  - destruct (verdict token (aw_now w) (aw_db w)) as [s|e] eqn:Hv.
    + pose proof (proj1 (verdict_ok token (aw_now w) (aw_db w) s Hw) Hv) as (Hs & Hh & Ha).
      destruct (ai_sessions _ Hw _ _ Hs) as [_ [u Hu]].
      rewrite (run_authenticated h token s u w) by done. split; [|by exists s].
      intros u' id. split.
      * intros [w' [= <- <- _]]. by exists token, s.
      * intros (tok & t & [= <-] & Ht & Hht & Hat & Hut).
        assert (id = se_id s) as -> by (eapply (ai_tokens _ Hw); [done|done|congruence]).
        simplify_eq. by eexists.
    + destruct (run_unauthenticated h w) as [d ->]; [done|done|congruence|]. split; [|done].
      intros u id. split; [by intros [w' ?]|]. intros (tok & t & [= <-] & Ht & Hht & Hat & _).
      destruct (ai_sessions _ Hw _ _ Ht) as [<- _].
      by rewrite (proj2 (verdict_ok token (aw_now w) (aw_db w) t Hw)) in Hv by done.
  - destruct (run_unauthenticated h w) as [d ->]; [done|done|congruence|]. split; [|done].
    intros u id. split; [by intros [w' ?]|]. by intros (tok & t & ? & _).
Qed.

(** ** The cookie comes back *)

Lemma split_on_absent sep s : sep ∉ s -> split_on sep s = [s].
Proof.
  induction s as [|c s IH]; [done|]. intros Hn. cbn.
  rewrite (proj2 (Z.eqb_neq c sep)) by set_solver. by rewrite IH by set_solver.
Qed.

Lemma break_on_first sep a b : sep ∉ a -> break_on sep (a ++ sep :: b) = Some (a, b).
Proof.
  induction a as [|c a IH]; intros Hn; cbn; [by rewrite Z.eqb_refl|].
  rewrite (proj2 (Z.eqb_neq c sep)) by set_solver. by rewrite IH by set_solver.
Qed.

Lemma trim_start_black s : Forall (fun c => is_whitespace c = false) s -> trim_start s = s.
Proof. intros H. apply trim_start_id. destruct H; cbn; [done|]. intros ? [= <-]. done. Qed.

Lemma trim_black s : Forall (fun c => is_whitespace c = false) s -> trim s = s.
Proof.
  intros H. unfold trim. rewrite (trim_start_black s) by done.
  rewrite trim_start_black by (by apply Forall_reverse). apply reverse_involutive.
Qed.

Lemma b64url_black c : is_b64url c = true -> is_whitespace c = false /\ c <> 59.
Proof.
  unfold is_b64url, is_whitespace. intros H.
  repeat (apply orb_true_iff in H as [H|H]); bool_props; split; try lia;
    repeat (apply orb_false_iff; split); rewrite ?andb_false_iff, ?Z.eqb_neq, ?Z.leb_gt; lia.
Qed.

(** A browser that sends the session cookie back is read as it was issued. *)
Lemma own_cookie_extracted h token :
  h_cookie h = Some (Some (SESSION_COOKIE_NAME ++ 61 :: token)) ->
  token <> [] -> Forall (fun c => is_b64url c = true) token ->
  extract_session_cookie h = Some token.
Proof.
  intros Hh Hne Hb. unfold extract_session_cookie. rewrite Hh.
  assert (Hw : Forall (fun c => is_whitespace c = false /\ c <> 59) (SESSION_COOKIE_NAME ++ 61 :: token)).
  { apply Forall_app. split; [by repeat constructor|]. constructor; [done|].
    eapply Forall_impl; [exact Hb|]. apply b64url_black. }
  rewrite split_on_absent.
  2:{ intros Hin. rewrite Forall_forall in Hw. by apply Hw in Hin as [_ ?]. }
  cbn [find_session_pair]. rewrite trim_black by (eapply Forall_impl; [exact Hw|naive_solver]).
  rewrite break_on_first; [|by apply (bool_decide_unpack _)].
  by rewrite decide_True, decide_False by done.
Qed.

(** ** Login *)

Definition user_of_email (email : rstr) (d : AuthDb) : option User :=
  head (filter (fun u => pg_lower (us_email u) = pg_lower email) (map_to_list (a_users d)).*2).

(** The password a user has set accepts the plaintext. *)
Definition password_accepts (id : UserId) (plaintext : rstr) (d : AuthDb) : bool :=
  match a_passwords d !! id with
  | None => false
  | Some c => match PasswordHasher.verify_password (AuthService.hasher svc) plaintext (pc_password_hash c) with
              | Ok b => b | Err _ => false end
  end.

Lemma run_verify_password id pw w :
  a_faults (aw_db w) = [] ->
  run (AuthService.verify_password svc id pw) w =
    ((if password_accepts id pw (aw_db w) then Ok tt else Err InvalidCredentials), w).
Proof.
  intros Hf. unfold AuthService.verify_password. rewrite run_try, run_service_repo.
  unfold PgPasswordCredentialRepository.get_for_user. rewrite execute_answers by done.
  cbn [fst snd map_err]. rewrite set_auth_db_id. unfold password_accepts.
  destruct (a_passwords (aw_db w) !! id) as [c|]; [|done]. by repeat case_match.
Qed.

(** A login attempt that the guard, the validation and the throttle let through. *)
Record login_attempt (h : Headers) (req : LoginRequest) (w : AuthWorld) : Prop := {
  la_origin : check_origin h (allowed_origins cfg) = Ok tt;
  la_valid : login_validated req = Ok tt;
  la_answers : answering (aw_db w)
}.

Abbreviation key_of req := (normalize_login_identifier (lq_email req)).

Lemma run_login_open h req w :
  login_attempt h req w -> LoginThrottler.check (aw_throttler w) (key_of req) (aw_now w) = Allowed ->
  run (Routes.login svc cfg h req) w =
  match user_of_email (lq_email req) (aw_db w) with
  | None => run (Routes.login_refused (key_of req) (aw_now w) InvalidCredentials) w
  | Some u => if password_accepts (us_id u) (lq_password req) (aw_db w)
              then run (Routes.login_accepted cfg (key_of req) (aw_now w) u) w
              else run (Routes.login_refused (key_of req) (aw_now w) InvalidCredentials) w
  end.
Proof.
  intros [Ho Hv [Hf _ _ _]] Hc. unfold Routes.login, Routes.csrf_guard. rewrite Ho, Hv.
  rewrite !run_try. cbn [run]. rewrite run_try. cbn [run]. cbv zeta. rewrite run_bind, run_now.
  rewrite run_bind, run_act, Hc, run_try, run_repo. unfold PgUserRepository.get_by_email.
  rewrite execute_answers by done. cbn [fst snd map_err]. rewrite set_auth_db_id.
  fold (user_of_email (lq_email req) (aw_db w)). destruct (user_of_email (lq_email req) (aw_db w)) as [u|]; [|done].
  rewrite run_bind, run_verify_password by done. by destruct (password_accepts _ _ _).
Qed.

(** A refused login tells nothing and is counted.  Whether the address is unknown, the user has
    no password, the stored hash is corrupt or the password is wrong, the answer is the same 401,
    the same anonymous audit row is appended, the failure counts against the throttle key of the
    address, and nothing else changes. *)
Theorem login_refusals_look_alike h req w :
  login_attempt h req w -> LoginThrottler.check (aw_throttler w) (key_of req) (aw_now w) = Allowed ->
  (forall u, user_of_email (lq_email req) (aw_db w) = Some u ->
     password_accepts (us_id u) (lq_password req) (aw_db w) = false) ->
  run (Routes.login svc cfg h req) w =
    (Err (Unauthorized (lit "invalid credentials")),
     audited None LoginFailed (Routes.failure_payload "password" "bad_credentials")
       (upd_throttler (fun th => LoginThrottler.record_failure th (key_of req) (aw_now w)) w)).
Proof.
  intros Ha Hc Hno. rewrite run_login_open by done.
  assert (Href : run (Routes.login_refused (key_of req) (aw_now w) InvalidCredentials) w =
    (Err (Unauthorized (lit "invalid credentials")),
     audited None LoginFailed (Routes.failure_payload "password" "bad_credentials")
       (upd_throttler (fun th => LoginThrottler.record_failure th (key_of req) (aw_now w)) w))).
  { unfold Routes.login_refused, Routes.throttle. rewrite run_bind, run_act.
    by rewrite run_bind, run_best_effort by apply Ha. }
  destruct (user_of_email (lq_email req) (aw_db w)) as [u|]; [by rewrite Hno|done].
Qed.

(** A throttled login is inert: whatever the credentials, right ones included, the answer is the
    429 of the throttle, only the attempt is recorded in the audit log, and neither users,
    passwords, sessions nor the throttle change. *)
Theorem throttled_login_is_inert h req w r :
  login_attempt h req w -> LoginThrottler.check (aw_throttler w) (key_of req) (aw_now w) = Throttled r ->
  run (Routes.login svc cfg h req) w =
    (Err (TooManyRequests (lit "login throttled by failed-attempts policy")),
     audited None LoginFailed (Routes.failure_payload "password" "throttled") w).
Proof.
  intros [Ho Hv Ha] Hc. unfold Routes.login, Routes.csrf_guard. rewrite Ho, Hv.
  rewrite !run_try. cbn [run]. rewrite run_try. cbn [run]. cbv zeta. rewrite run_bind, run_now.
  by rewrite run_bind, run_act, Hc, run_bind, run_best_effort.
Qed.

(** A failing password lookup is answered 500, not with the 401 of bad credentials, and only an
    address that has an account can get this answer: the two are told apart. *)
Lemma login_leaks_repository_failure h req u e rest w :
  check_origin h (allowed_origins cfg) = Ok tt -> login_validated req = Ok tt ->
  LoginThrottler.check (aw_throttler w) (key_of req) (aw_now w) = Allowed ->
  a_faults (aw_db w) = None :: Some e :: rest -> user_of_email (lq_email req) (aw_db w) = Some u ->
  exists api, (run (Routes.login svc cfg h req) w).1 = Err api
    /\ parts api = (500, "internal_error"%string, lit "internal error").
Proof.
  intros Ho Hv Hc Hf Hu. unfold Routes.login, Routes.csrf_guard. rewrite Ho, Hv.
  rewrite !run_try. cbn [run]. rewrite run_try. cbn [run]. cbv zeta. rewrite run_bind, run_now.
  rewrite run_bind, run_act, Hc, run_try, run_repo.
  unfold PgUserRepository.get_by_email, auth_execute, auth_next_fault. rewrite Hf.
  cbn [fst snd map_err a_users]. unfold user_of_email in Hu. rewrite Hu.
  rewrite run_bind. unfold AuthService.verify_password. rewrite run_try, run_service_repo.
  unfold PgPasswordCredentialRepository.get_for_user, auth_execute, auth_next_fault.
  cbn [a_faults aw_db set_auth_db fst snd map_err].
  exists (api_of_auth (auth_of_repository e)). split; [|done].
  unfold Routes.login_refused, Routes.throttle, Routes.write_audit_best_effort.
  by rewrite run_bind, run_act, !run_bind, run_arepo.
Qed.

(** The token and the row of the session that a login at [w] issues. *)
Definition next_token (w : AuthWorld) : rstr := url_safe_no_pad (aw_rng w (aw_draws w)).

Definition issued (u : User) (w : AuthWorld) : UserSession :=
  let d := aw_db w in
  mkUserSession (a_next_uuid d) (us_id u) (hash_session_token (next_token w)) (a_clock d) (a_clock d)
    (aw_now w + SESSION_TTL) None None.

Definition fresh_token (w : AuthWorld) : Prop :=
  map_Forall (fun _ s => se_token_hash s <> hash_session_token (next_token w)) (a_sessions (aw_db w)).

Definition logged_in (u : User) (now : Z) : User :=
  mkUser (us_id u) (us_email u) (us_display_name u) (us_created_at u) (Some now).

(** [create_session] when the token is new. *)
Lemma run_create_session u w :
  answering (aw_db w) -> a_users (aw_db w) !! us_id u = Some u -> fresh_token w ->
  run (AuthService.create_session (us_id u) SESSION_TTL (aw_now w)) w =
    (Ok (mkCreatedSession (next_token w) (issued u w)),
     mkAuthWorld (set_user_sessions <[a_next_uuid (aw_db w) := issued u w]> (auth_new_v4 (aw_db w)).2)
       (aw_throttler w) (aw_now w) (aw_rng w) (S (aw_draws w))).
Proof.
  intros [Hf _ Hs _] Hu Hfresh. unfold AuthService.create_session.
  rewrite run_bind, run_act. cbn [session_token_generate draw]. rewrite run_try, run_service_repo.
  cbn [aw_db]. unfold PgUserSessionRepository.create. cbn [auth_new_v4].
  rewrite execute_answers by done. cbn [cus_user_id cus_token_hash cus_expires_at a_sessions a_users].
  rewrite bool_decide_eq_false_2; [|intros [x Hx]; apply Hs in Hx; lia].
  rewrite bool_decide_eq_false_2; [|intros (k & x & Hx & Heq); by apply (Hfresh k x Hx)].
  rewrite bool_decide_eq_true_2 by by rewrite Hu. done.
Qed.

(** Steps of the database that keep it answering. *)
Lemma answering_new_session u w :
  answering (aw_db w) ->
  answering (set_user_sessions <[a_next_uuid (aw_db w) := issued u w]> (auth_new_v4 (aw_db w)).2).
Proof.
  intros [Hf Hu Hs Ha]. split; cbn; [done|..].
  - eapply map_Forall_impl; [exact Hu|]. cbn. lia.
  - apply map_Forall_insert_2; [lia|]. eapply map_Forall_impl; [exact Hs|]. cbn. lia.
  - eapply Forall_impl; [exact Ha|]. cbn. lia.
Qed.

Lemma answering_set_users d id u :
  answering d -> is_Some (a_users d !! id) -> answering (set_users <[id := u]> d).
Proof.
  intros [Hf Hu Hs Ha] [x Hx]. split; cbn; try done.
  apply map_Forall_insert_2; [by apply (Hu _ x)|done].
Qed.

(** C10: a login with the right password, a token not drawn before and a database that answers: the
    answer carries the session cookie and the user, exactly one session is stored, for that user,
    with the digest of the token and an expiry thirty days ahead, the failures of the address are
    forgotten, one audit row is appended, and no other session, user or password changes.  From
    then on and until the session expires, a browser that sends the cookie back is authenticated as
    that user. *)
Theorem login_succeeds h req u w :
  AuthCryptoLaws -> auth_inv w -> login_attempt h req w ->
  LoginThrottler.check (aw_throttler w) (key_of req) (aw_now w) = Allowed ->
  user_of_email (lq_email req) (aw_db w) = Some u ->
  password_accepts (us_id u) (lq_password req) (aw_db w) = true ->
  fresh_token w -> aw_rng w (aw_draws w) <> [] ->
  exists w', let id := a_next_uuid (aw_db w) in
    run (Routes.login svc cfg h req) w =
      (Ok (mkResponse 200 (Some (build_session_cookie (next_token w) cfg)) (BUser (user_response u))), w')
    /\ a_sessions (aw_db w) !! id = None
    /\ a_sessions (aw_db w') = <[id := issued u w]> (a_sessions (aw_db w))
    /\ a_users (aw_db w') = <[us_id u := logged_in u (aw_now w)]> (a_users (aw_db w))
    /\ a_passwords (aw_db w') = a_passwords (aw_db w)
    /\ (exists row, a_audit (aw_db w') = a_audit (aw_db w) ++ [row]
          /\ ar_kind row = "login_succeeded"%string /\ ar_actor_id row = Some (us_id u))
    /\ aw_throttler w' = LoginThrottler.record_success (aw_throttler w) (key_of req)
    /\ forall h' t, h_cookie h' = Some (Some (SESSION_COOKIE_NAME ++ 61 :: next_token w)) ->
         aw_now w <= t < aw_now w + SESSION_TTL ->
         (run (Routes.authenticated_user h') (set_auth_now t w')).1
         = Ok (mkAuthenticated (logged_in u (aw_now w)) id).
Proof.
  intros Hlaws Hw Ha Hc Hu Hp Hfresh Hrng. cbv zeta. rewrite run_login_open, Hu, Hp by done.
  pose proof (la_answers _ _ _ Ha) as Hans. pose proof (an_faults _ Hans) as Hf.
  assert (Huser : a_users (aw_db w) !! us_id u = Some u).
  { unfold user_of_email in Hu. apply head_filter_Some in Hu as [_ [k Hk]].
    by rewrite (ai_users _ Hw _ _ Hk). }
  assert (Hnone : a_sessions (aw_db w) !! a_next_uuid (aw_db w) = None).
  { apply eq_None_not_Some. intros [s Hs]. apply (an_sessions _ Hans) in Hs. lia. }
  unfold Routes.login_accepted, Routes.throttle. rewrite run_bind, run_act.
  set (w1 := upd_throttler _ w). rewrite run_try, run_service.
  change (aw_now w) with (aw_now w1). rewrite (run_create_session u w1) by done. cbn [fst snd map_err].
  rewrite run_bind, run_arepo. cbn [aw_db]. unfold PgUserRepository.touch_last_login.
  rewrite execute_answers by done.
  change (a_users (set_user_sessions _ _)) with (a_users (aw_db w)). rewrite Huser. cbn [fst snd].
  rewrite run_try. match goal with |- context [run (Routes.audit ?a ?k ?p) ?x] =>
    destruct (run_audit a k p x) as (ev & ->) end.
  { apply answering_set_users; [by apply (answering_new_session u w1)|by exists u]. }
  { cbn. rewrite lookup_insert_eq. done. }
  match goal with |- context [audited ?a ?k ?p ?x] => set (w' := audited a k p x) end.
  exists w'. split_and!; [done|done|done|done|done|by eexists|done|].
  intros h' t Hck Ht. destruct (url_safe_no_pad_alphabet _ Hrng) as [Hne Hb].
  pose proof (own_cookie_extracted h' (next_token w) Hck Hne Hb) as Hx.
  rewrite (run_authenticated h' (next_token w) (issued u w) (logged_in u (aw_now w)) (set_auth_now t w'));
    [done|done|done|..].
  - unfold verdict, session_of_token. change (a_sessions _) with (<[a_next_uuid (aw_db w) := issued u w]> (a_sessions (aw_db w))).
    rewrite (head_filter_unique _ _ (a_next_uuid (aw_db w)) (issued u w)).
    + change (is_revoked (issued u w)) with false. unfold is_expired_at.
      change (se_expires_at (issued u w)) with (aw_now w + SESSION_TTL). change (aw_now (set_auth_now t w')) with t.
      change (aw_now w1) with (aw_now w) in Ht. destruct (_ <=? _) eqn:E; [bool_props; lia|done].
    + by rewrite lookup_insert_eq.
    + done.
    + intros j y Hy Heq. apply lookup_insert_Some in Hy as [[-> _]|[_ Hy]]; [done|].
      by destruct (Hfresh j y Hy).
  - change (a_sessions _) with (<[a_next_uuid (aw_db w) := issued u w]> (a_sessions (aw_db w))).
    by rewrite lookup_insert_eq.
  - change (a_users _) with (<[us_id u := logged_in u (aw_now w)]> (a_users (aw_db w))).
    by rewrite lookup_insert_eq.
Qed.

(** ** Logout *)

(** C9: a logout is final.  With a database that answers, the session of the cookie is revoked and
    nothing else of the tables changes but one audit row, the browser is told to drop the cookie;
    and in every state that any interleaving of requests reaches afterwards, a request with that
    token is refused, whatever other requests do while it runs. *)
Theorem logout_is_final h token s w :
  auth_inv w -> answering (aw_db w) -> check_origin h (allowed_origins cfg) = Ok tt ->
  extract_session_cookie h = Some token -> a_sessions (aw_db w) !! se_id s = Some s ->
  se_token_hash s = hash_session_token token -> is_active_at s (aw_now w) = true ->
  exists w',
    run (Routes.logout cfg h) w = (Ok (no_content_with_cookie (build_clear_cookie cfg)), w')
    /\ a_sessions (aw_db w') = <[se_id s := revoked (aw_now w) (Some (lit "logout")) s]> (a_sessions (aw_db w))
    /\ a_users (aw_db w') = a_users (aw_db w) /\ a_passwords (aw_db w') = a_passwords (aw_db w)
    /\ (exists row, a_audit (aw_db w') = a_audit (aw_db w) ++ [row]
          /\ ar_kind row = "logout_succeeded"%string /\ ar_actor_id row = Some (se_user_id s))
    /\ forall c h', reachable (auth_starts svc cfg) w' c -> extract_session_cookie h' = Some token ->
         wp auth_inv auth_guar (Routes.authenticated_user h') (p_world c) (fun r _ => exists e, r = Err e).
Proof.
  intros Hw Hans Ho Hx Hs Hh Hact. pose proof (an_faults _ Hans) as Hf.
  pose proof (proj2 (verdict_ok token (aw_now w) (aw_db w) s Hw) (conj Hs (conj Hh Hact))) as Hv.
  destruct (ai_sessions _ Hw _ _ Hs) as [_ [u Hu]].
  assert (Hrun : exists ev, run (Routes.logout cfg h) w = (Ok (no_content_with_cookie (build_clear_cookie cfg)),
    audited (Some (se_user_id s)) LogoutSucceeded ev
      (set_auth_db (set_user_sessions <[se_id s := revoked (aw_now w) (Some (lit "logout")) s]> (aw_db w)) w))).
  { unfold Routes.logout, Routes.csrf_guard. rewrite Ho, run_try. cbn [run]. cbv zeta.
    rewrite Hx, run_bind, run_now, run_bind, run_validate, Hv by done.
    unfold AuthService.revoke_session. rewrite run_bind, run_bind, run_arepo. unfold PgUserSessionRepository.revoke.
    rewrite execute_answers, Hs by done. cbn [fst snd run]. rewrite run_try.
    match goal with |- context [run (Routes.audit ?a ?k ?p) ?x] =>
      destruct (run_audit a k p x) as (ev & ->) end; [|by exists u|by eexists].
    destruct Hans as [A1 A2 A3 A4]. split; [done|done| |done].
    apply map_Forall_insert_2; [by apply (A3 _ s)|done]. }
  destruct Hrun as [p Hrun]. eexists. split; [exact Hrun|]. split_and!; [done|done|done|by eexists|].
  intros c h' Hreach Hx'.
  pose proof (wp_run auth_inv auth_guar _ w _ (safe_logout cfg h w) Hw) as (Hw' & _ & _). rewrite Hrun in Hw'.
  cbn [snd] in Hw'. destruct (auth_sound svc cfg _ c Hw' Hreach) as [_ HG].
  assert (Hrev : se_revoked_at (revoked (aw_now w) (Some (lit "logout")) s) = Some (aw_now w)).
  { unfold is_active_at, is_revoked in Hact. bool_props. unfold revoked. by destruct (se_revoked_at s); [destruct H0|]. }
  destruct (ag_sessions _ _ HG (se_id s) (revoked (aw_now w) (Some (lit "logout")) s)) as (s' & Hs' & Hk).
  { change (a_sessions _) with (<[se_id s := revoked (aw_now w) (Some (lit "logout")) s]> (a_sessions (aw_db w))).
    by rewrite lookup_insert_eq. }
  eapply (wp_authenticated_revoked h' token (se_id s) s' (aw_now w)); [done|done| |].
  - rewrite (sk_token _ _ Hk), (sk_token _ _ (revoked_kept _ _ s)). done.
  - by apply (sk_revoked _ _ Hk).
Qed.

(** A logout can fail silently: when the lookup of the session fails with a database error,
    the route answers 204 and clears the cookie as after a real logout, but the session stays
    valid on the server and no audit row is written: the same token is still accepted. *)
Theorem logout_hides_database_failure h token s e rest w :
  auth_inv w -> a_faults (aw_db w) = Some e :: rest -> check_origin h (allowed_origins cfg) = Ok tt ->
  extract_session_cookie h = Some token -> a_sessions (aw_db w) !! se_id s = Some s ->
  se_token_hash s = hash_session_token token -> is_active_at s (aw_now w) = true ->
  exists w',
    run (Routes.logout cfg h) w = (Ok (no_content_with_cookie (build_clear_cookie cfg)), w')
    /\ same_auth (aw_db w) (aw_db w')
    /\ verdict token (aw_now w) (aw_db w') = Ok s.
Proof.
  intros Hw Hf Ho Hx Hs Hh Hact. unfold Routes.logout, Routes.csrf_guard.
  rewrite Ho, run_try. cbn [run]. cbv zeta. rewrite Hx, run_bind, run_now, run_bind.
  unfold AuthService.validate_session_token. rewrite run_try, run_service_repo.
  unfold PgUserSessionRepository.get_by_token_hash, auth_execute, auth_next_fault. rewrite Hf.
  cbn [fst snd map_err run]. eexists. split; [reflexivity|]. split; [by split|].
  by apply (proj2 (verdict_ok token (aw_now w) (aw_db w) s Hw) (conj Hs (conj Hh Hact))).
Qed.

(** ** Cross-site requests *)

(** A request whose [Origin] is missing, unreadable or not allow-listed. *)
Definition cross_site (h : Headers) : Prop :=
  forall o, h_origin h = Some (Some o) -> o ∉ allowed_origins cfg.

(** A request to a route that changes state whose [Origin] is missing, unreadable or not
    allow-listed never does anything: it is the 403 answer itself, with no action before it, so no
    interleaving gives it an effect. *)
Theorem csrf_blocks_writes h q :
  Routes.browser_write q = true -> cross_site h ->
  exists d, Routes.serve svc cfg h q = Ret (Err (CsrfOriginMismatch d)).
Proof.
  intros Hq Ho.
  assert (Hc : exists d, check_origin h (allowed_origins cfg) = Err (CsrfOriginMismatch d)).
  { unfold check_origin. destruct (h_origin h) as [[o|]|] eqn:E; [|by eexists..].
    rewrite bool_decide_eq_false_2 by (by apply Ho). by eexists. }
  destruct Hc as [d Hd]. exists d.
  destruct q; try done; cbn [Routes.serve];
    unfold Routes.bootstrap, Routes.login, Routes.logout, Routes.change_password, Routes.revoke_session,
      Routes.revoke_all_except_current, Routes.csrf_guard; by rewrite Hd.
Qed.

(** ** Session management *)

(** A request with the cookie of an active session. *)
Record signed_in (h : Headers) (s : UserSession) (u : User) (w : AuthWorld) : Prop := {
  si_inv : auth_inv w;
  si_answers : answering (aw_db w);
  si_origin : check_origin h (allowed_origins cfg) = Ok tt;
  si_cookie : exists token, extract_session_cookie h = Some token /\ se_token_hash s = hash_session_token token;
  si_session : a_sessions (aw_db w) !! se_id s = Some s;
  si_active : is_active_at s (aw_now w) = true;
  si_user : a_users (aw_db w) !! se_user_id s = Some u
}.

Lemma run_signed_in h s u w :
  signed_in h s u w ->
  run (Routes.authenticated_user h) w = (Ok (mkAuthenticated u (se_id s)), touched (se_id s) s w)
  /\ us_id u = se_user_id s.
Proof.
  intros [Hw Ha _ (token & Hx & Hh) Hs Hact Hu]. split; [|by apply (ai_users _ Hw)].
  apply (run_authenticated h token); [apply Ha|done| |done|done].
  by apply (proj2 (verdict_ok token (aw_now w) (aw_db w) s Hw)).
Qed.

Lemma answering_touched h s u w : signed_in h s u w -> answering (aw_db (touched (se_id s) s w)).
Proof.
  intros [_ [A1 A2 A3 A4] _ _ Hs _ _]. split; [done|done| |done].
  apply map_Forall_insert_2; [by apply (A3 _ s)|done].
Qed.

(** A signed-in user cannot touch a session that is not theirs: revoking the session of another
    user and revoking one that does not exist give the same 404, and apart from the time the
    caller's own session was last seen nothing changes, not even the audit log. *)
Theorem foreign_session_revoke_denied h s u id w :
  signed_in h s u w ->
  (forall t, a_sessions (aw_db w) !! id = Some t -> se_user_id t <> us_id u) ->
  run (Routes.revoke_session cfg h id) w = (Err (ApiNotFound "user_session"), touched (se_id s) s w).
Proof.
  intros Hsi Hno. destruct (run_signed_in h s u w Hsi) as [Hauth Hid].
  unfold Routes.revoke_session, Routes.csrf_guard. rewrite (si_origin _ _ _ _ Hsi), run_try. cbn [run].
  rewrite run_try, Hauth, run_bind, run_now. cbv zeta. rewrite run_bind.
  unfold AuthService.revoke_session_for_user. rewrite run_bind, run_arepo.
  unfold PgUserSessionRepository.revoke_for_user. rewrite execute_answers by apply (si_answers _ _ _ _ Hsi).
  change (a_sessions (aw_db (touched (se_id s) s w)))
    with (<[se_id s := with_last_seen (aw_now w) s]> (a_sessions (aw_db w))).
  unfold Routes.user_id. cbn [au_user].
  assert (Hne : id <> se_id s).
  { intros ->. by apply (Hno s (si_session _ _ _ _ Hsi)). }
  rewrite lookup_insert_ne by done. destruct (a_sessions (aw_db w) !! id) as [t|] eqn:Et.
  - rewrite (proj2 (Z.eqb_neq _ _)) by (by apply Hno). done.
  - done.
Qed.

(** ** Password change *)

(** The sessions after the others of a user have been revoked. *)
Definition others_revoked (uid : UserId) (current : UserSessionId) (now : Z) (reason : rstr)
  (t : UserSession) : UserSession :=
  if (se_user_id t =? uid) && negb (se_id t =? current) then revoked now (Some reason) t else t.

Definition count_others (uid : UserId) (current : UserSessionId) (m : gmap UserSessionId UserSession) : Z :=
  Z.of_nat (size (filter (fun kv : UserSessionId * UserSession =>
    (se_user_id kv.2 =? uid) && negb (se_id kv.2 =? current) && negb (is_revoked kv.2) = true) m)).

(** The password row that a change to [phc] leaves. *)
Definition rotated (uid : UserId) (phc : rstr) (d : AuthDb) : PasswordCredential :=
  mkPasswordCredential uid phc (a_clock d)
    (match a_passwords d !! uid with Some c => pc_created_at c | None => a_clock d end) (a_clock d).

(** The handler once the guard, the cookie, the validation and the password check are done. *)
Lemma run_change_password_checked h req s u w :
  signed_in h s u w -> change_validated req = Ok tt ->
  run (Routes.change_password svc cfg h req) w =
    run (do? _ <- Ret (map_err (fun err => match err with
           | InvalidCredentials => Unauthorized (lit "invalid current password")
           | other => api_of_auth other end)
           (if password_accepts (us_id u) (cq_current_password req) (aw_db w) then Ok tt else Err InvalidCredentials));
         do? _ <- Routes.service (AuthService.set_password svc (us_id u) (cq_new_password req));
         do? n <- Routes.service (AuthService.revoke_all_sessions_except (us_id u) (se_id s) (aw_now w)
                    (Some (lit "password_changed")));
         do? _ <- Routes.audit (us_id u) PasswordChanged
                    (JObj [("revoked_other_sessions"%string, JNum n); ("changed_at"%string, JTime (aw_now w))]);
         Ret (Ok (mkResponse 200 None (BRevoked n)))) (touched (se_id s) s w).
Proof.
  intros Hsi Hval. destruct (run_signed_in h s u w Hsi) as [Hauth _].
  pose proof (answering_touched h s u w Hsi) as Hans. set (w1 := touched (se_id s) s w) in *.
  pose proof (an_faults _ Hans) as Hf.
  unfold Routes.change_password, Routes.csrf_guard. rewrite (si_origin _ _ _ _ Hsi), run_try. cbn [run].
  rewrite run_try, Hauth, run_try, Hval. cbn [run]. rewrite run_bind, run_now, run_bind.
  unfold Routes.user_id. cbn [au_user au_session_id]. rewrite run_verify_password by done.
  change (password_accepts _ _ (aw_db w1)) with (password_accepts (us_id u) (cq_current_password req) (aw_db w)).
  done.
Qed.

(** A password change by a signed-in user, with a database that answers.  With the right current
    password, and Argon2 hashing the new one: the new password is accepted from then on, every
    other session of the user that was not revoked yet is revoked and counted, the current one and
    those of other users are kept, no other password changes, one audit row is appended.  With a
    wrong one the answer is a 401 and nothing changes but the time the session was last seen. *)
Theorem change_password_effect h req s u phc w :
  AuthCryptoLaws -> signed_in h s u w -> change_validated req = Ok tt ->
  PasswordHasher.hash_password (AuthService.hasher svc) (cq_new_password req) (aw_rng w (aw_draws w)) = Ok phc ->
  let m := <[se_id s := with_last_seen (aw_now w) s]> (a_sessions (aw_db w)) in
  if password_accepts (us_id u) (cq_current_password req) (aw_db w) then
    exists w' row,
      run (Routes.change_password svc cfg h req) w =
        (Ok (mkResponse 200 None (BRevoked (count_others (us_id u) (se_id s) m))), w')
      /\ a_passwords (aw_db w') = <[us_id u := rotated (us_id u) phc (aw_db w)]> (a_passwords (aw_db w))
      /\ password_accepts (us_id u) (cq_new_password req) (aw_db w') = true
      /\ a_sessions (aw_db w') = others_revoked (us_id u) (se_id s) (aw_now w) (lit "password_changed") <$> m
      /\ a_users (aw_db w') = a_users (aw_db w)
      /\ a_audit (aw_db w') = a_audit (aw_db w) ++ [row]
      /\ ar_kind row = "password_changed"%string /\ ar_actor_id row = Some (us_id u)
  else run (Routes.change_password svc cfg h req) w =
         (Err (Unauthorized (lit "invalid current password")), touched (se_id s) s w).
Proof.
  intros Hlaws Hsi Hval Hhash. cbv zeta. destruct (run_signed_in h s u w Hsi) as [Hauth Hid].
  pose proof (answering_touched h s u w Hsi) as Hans. set (w1 := touched (se_id s) s w) in *.
  pose proof (an_faults _ Hans) as Hf.
  rewrite (run_change_password_checked h req s u w Hsi Hval). fold w1.
  destruct (password_accepts _ _ (aw_db w)); [|done].
  rewrite run_try. cbn [run map_err]. rewrite run_try, run_service. unfold AuthService.set_password.
  rewrite run_bind, run_act. cbn [draw]. rewrite run_try.
  change (aw_rng w1 (aw_draws w1)) with (aw_rng w (aw_draws w)). rewrite Hhash. cbn [run map_err].
  rewrite run_try, run_service_repo. unfold PgPasswordCredentialRepository.upsert_for_user.
  rewrite execute_answers by done. cbn [aw_db cp_user_id cp_password_hash].
  assert (Hu : a_users (aw_db w) !! us_id u = Some u) by (rewrite Hid; apply Hsi).
  rewrite bool_decide_eq_true_2 by (by exists u). cbn [negb fst snd map_err run].
  rewrite run_try, run_service. unfold AuthService.revoke_all_sessions_except. rewrite run_service_repo.
  unfold PgUserSessionRepository.revoke_all_except, PgUserSessionRepository.revoke_where.
  rewrite execute_answers by done. cbn [fst snd map_err]. rewrite run_try.
  match goal with |- context [run (Routes.audit ?a ?k ?p) ?x] =>
    destruct (run_audit a k p x) as (ev & ->) end; [|by exists u|].
  { destruct Hans as [A1 A2 A3 A4]. split; [done|done| |done].
    intros k t (t0 & _ & Ht)%lookup_fmap_Some. by apply (A3 k t0). }
  eexists _, _. split_and!; [reflexivity|reflexivity| |reflexivity|reflexivity|reflexivity|reflexivity|reflexivity].
  unfold password_accepts. change (a_passwords _) with (<[us_id u := rotated (us_id u) phc (aw_db w)]> (a_passwords (aw_db w))).
  rewrite lookup_insert_eq. cbn [rotated pc_password_hash]. unfold PasswordHasher.hash_password in Hhash.
  unfold PasswordHasher.verify_password. destruct (PasswordHasher.engine (AuthService.hasher svc)) as [[]|]; [|done].
  cbn [result_bind] in Hhash. apply ok_or_ok, argon2_hash_verifies in Hhash as [-> ->]. done.
Qed.

(** ** Bootstrap *)

Lemma constant_time_eq_refl a : constant_time_eq a a = true.
Proof.
  unfold constant_time_eq. rewrite Z.eqb_refl. cbn [negb]. apply Z.eqb_eq.
  induction a as [|x a IH]; [done|]. cbn. by rewrite Z.lxor_nilpotent.
Qed.

(** A bootstrap request that passes the guard, the validation and the token check. *)
Record bootstrap_attempt (h : Headers) (req : BootstrapRequest) : Prop := {
  ba_origin : check_origin h (allowed_origins cfg) = Ok tt;
  ba_valid : bootstrap_validated req = Ok tt;
  ba_token : bootstrap_token cfg = Some (br_bootstrap_token req)
}.

(** What is left of the handler after the checks. *)
Lemma bootstrap_checked h req :
  bootstrap_attempt h req ->
  Routes.bootstrap svc cfg h req =
  do? exists_ <- Routes.repo PgPasswordCredentialRepository.any_exists;
  if (exists_ : bool) then
    do! _ <- Routes.write_audit_best_effort None LoginFailed
               (Routes.failure_payload "bootstrap" "already_bootstrapped");
    Ret (Err (Conflict "user" (Some "already_bootstrapped"%string)))
  else Routes.bootstrap_create svc req.
Proof.
  intros [Ho Hv Ht]. unfold Routes.bootstrap, Routes.csrf_guard. rewrite Ho, Hv, Ht.
  cbn [ok_or try_bind bind]. by rewrite constant_time_eq_refl.
Qed.

Lemma answering_audited actor kind payload d : answering d -> answering (audited_db actor kind payload d).
Proof.
  intros [A1 A2 A3 A4]. split; [done|..]; cbn.
  - eapply map_Forall_impl; [exact A2|]. cbn. lia.
  - eapply map_Forall_impl; [exact A3|]. cbn. lia.
  - apply Forall_app. split; [eapply Forall_impl; [exact A4|]; cbn; lia|]. by repeat constructor; cbn; lia.
Qed.

(** The creation of a user with an address that is not taken. *)
Lemma run_bootstrap_create req w phc :
  answering (aw_db w) ->
  map_Forall (fun _ u => pg_lower (us_email u) <> pg_lower (br_email req)) (a_users (aw_db w)) ->
  PasswordHasher.hash_password (AuthService.hasher svc) (br_password req) (aw_rng w (aw_draws w)) = Ok phc ->
  exists w', let id := a_next_uuid (aw_db w) in
    let u := mkUser id (br_email req) (br_display_name req) (a_clock (aw_db w)) None in
    run (Routes.bootstrap_create svc req) w = (Ok (mkResponse 201 None (BUser (user_response u))), w')
    /\ a_users (aw_db w') = <[id := u]> (a_users (aw_db w))
    /\ a_passwords (aw_db w') = <[id := rotated id phc (aw_db w)]> (a_passwords (aw_db w))
    /\ a_users (aw_db w) !! id = None
    /\ answering (aw_db w') /\ aw_rng w' = aw_rng w /\ aw_draws w' = S (aw_draws w).
Proof.
  intros Hans Hnew Hhash. cbv zeta. pose proof (an_faults _ Hans) as Hf.
  assert (Hnone : a_users (aw_db w) !! a_next_uuid (aw_db w) = None).
  { apply eq_None_not_Some. intros [x Hx]. apply (an_users _ Hans) in Hx. lia. }
  unfold Routes.bootstrap_create. rewrite run_try, run_repo. unfold PgUserRepository.create. cbn [auth_new_v4].
  rewrite execute_answers by done. cbn [cu_email cu_display_name a_users a_clock].
  rewrite bool_decide_eq_false_2 by (rewrite Hnone; by intros [? ?]).
  rewrite bool_decide_eq_false_2 by (intros (k & x & Hx & Heq); by apply (Hnew k x Hx)).
  cbn [fst snd map_err us_id]. rewrite run_try, run_service. unfold AuthService.set_password.
  rewrite run_bind, run_act. cbn [draw]. rewrite run_try.
  change (aw_rng (set_auth_db _ w) (aw_draws (set_auth_db _ w))) with (aw_rng w (aw_draws w)).
  rewrite Hhash. cbn [run map_err]. rewrite run_try, run_service_repo.
  unfold PgPasswordCredentialRepository.upsert_for_user. rewrite execute_answers by done.
  cbn [aw_db cp_user_id cp_password_hash set_auth_db].
  rewrite bool_decide_eq_true_2 by (cbn; by rewrite lookup_insert_eq). cbn [negb fst snd map_err run].
  rewrite run_try. match goal with |- context [run (Routes.audit ?a ?k ?p) ?x] =>
    assert (Hax : answering (aw_db x)); [|destruct (run_audit a k p x) as (ev & ->)] end.
  { destruct Hans as [A1 A2 A3 A4]. split; [done|..]; cbn.
    - apply map_Forall_insert_2; [lia|]. eapply map_Forall_impl; [exact A2|]. cbn. lia.
    - eapply map_Forall_impl; [exact A3|]. cbn. lia.
    - eapply Forall_impl; [exact A4|]. cbn. lia. }
  { done. }
  { cbn. by rewrite lookup_insert_eq. }
  eexists. split_and!; [reflexivity|done|done|done|by apply answering_audited|done|done].
Qed.

(** The check that no password exists is one action; the creation comes later. *)
Lemma bootstrap_check_step h req w l1 l2 :
  bootstrap_attempt h req -> a_faults (aw_db w) = [] -> a_passwords (aw_db w) = ∅ ->
  pstep (auth_starts svc cfg)
    (mkPool w (l1 ++ (do! _ <- Routes.bootstrap svc cfg h req; Ret tt) :: l2))
    (mkPool w (l1 ++ (do! _ <- Routes.bootstrap_create svc req; Ret tt) :: l2)).
Proof.
  intros Ha Hf Hp. rewrite bootstrap_checked by done.
  set (f := fun w => let '(r, d) := PgPasswordCredentialRepository.any_exists (aw_db w) in (r, set_auth_db d w)).
  assert (Hfw : f w = (Ok false, w)).
  { unfold f, PgPasswordCredentialRepository.any_exists. rewrite execute_answers by done.
    by rewrite bool_decide_eq_true_2, set_auth_db_id. }
  epose proof (pstep_action (auth_starts svc cfg) _ f _ w l1 l2) as H. rewrite Hfw in H. cbn [fst snd] in H.
  exact H.
Qed.

(** C32: bootstrap is not one-shot.  Two bootstrap requests with the configured token and different
    addresses that arrive together at an empty database both pass the check that no password
    exists, and both create a user with a password, each answered 201. *)
Theorem bootstrap_race h1 h2 req1 req2 phc1 phc2 w0 :
  bootstrap_attempt h1 req1 -> bootstrap_attempt h2 req2 ->
  pg_lower (br_email req1) <> pg_lower (br_email req2) ->
  answering (aw_db w0) -> a_users (aw_db w0) = ∅ -> a_passwords (aw_db w0) = ∅ ->
  PasswordHasher.hash_password (AuthService.hasher svc) (br_password req1) (aw_rng w0 (aw_draws w0)) = Ok phc1 ->
  PasswordHasher.hash_password (AuthService.hasher svc) (br_password req2) (aw_rng w0 (S (aw_draws w0))) = Ok phc2 ->
  exists c, reachable (auth_starts svc cfg) w0 c /\ size (a_passwords (aw_db (p_world c))) = 2%nat.
Proof.
  intros Ha1 Ha2 Hne Hans Hu0 Hp0 Hh1 Hh2. pose proof (an_faults _ Hans) as Hf.
  destruct (run_bootstrap_create req1 w0 phc1) as (w1 & Hr1 & Hu1 & Hp1 & Hn1 & Hans1 & Hrng1 & Hd1);
    [done|by rewrite Hu0|done|].
  destruct (run_bootstrap_create req2 w1 phc2) as (w2 & Hr2 & Hu2 & Hp2 & Hn2 & Hans2 & _);
    [done| |by rewrite Hrng1, Hd1|].
  { rewrite Hu1, Hu0. by apply map_Forall_insert_2; [|apply map_Forall_empty]. }
  exists (mkPool w2 [Ret tt; Ret tt]). split.
  - eapply rtc_l; [apply (pstep_start _ w0 w0 []), (start_request svc cfg w0 h1 (Routes.QBootstrap req1))|].
    eapply rtc_l; [apply (pstep_start _ w0 w0), (start_request svc cfg w0 h2 (Routes.QBootstrap req2))|].
    cbn [Routes.serve app].
    eapply rtc_l; [apply (bootstrap_check_step h1 req1 w0 []); done|].
    eapply rtc_l; [apply (bootstrap_check_step h2 req2 w0 [_] []); done|].
    cbn [app]. etransitivity; [apply (pstep_run _ _ _ [])|].
    rewrite run_bind, Hr1. cbn [run fst snd app].
    etransitivity; [apply (pstep_run _ _ _ [_] [])|]. rewrite run_bind, Hr2. done.
  - cbn [p_world]. rewrite Hp2, Hp1, Hp0. rewrite map_size_insert_None, map_size_insert_None, map_size_empty; [done|done|].
    rewrite lookup_insert_ne; [done|]. intros Heq. rewrite Hu1, <- Heq, lookup_insert_eq in Hn2. done.
Qed.

End spec.

(** ** A small deployment *)

(** Toy primitives: a PHC string is a dollar sign and the password, a digest is its input. *)
#[local] Instance toy_crypto : AuthCrypto := {|
  argon2_params_ok _ := true;
  argon2_hash _ pw _ := Some (36 :: map byte_val pw);
  phc_parses phc := bool_decide (head phc = Some 36);
  argon2_verify _ pw phc := bool_decide (phc = 36 :: map byte_val pw);
  sha256 bytes := bytes;
  url_safe_no_pad bytes := map (fun b => 65 + byte_val b mod 16) bytes
|}.

#[local] Instance toy_lower : PgLower := to_ascii_lowercase.

Lemma toy_laws : AuthCryptoLaws.
Proof.
  split.
  - intros cfg pw salt phc [= <-]. split; [done|]. by apply bool_decide_eq_true.
  - intros bytes Hne. split; [by destruct bytes|]. cbn. apply Forall_map, Forall_forall. intros b _. cbn.
    pose proof (Z.mod_pos_bound (byte_val b) 16 ltac:(lia)). unfold is_b64url.
    by rewrite (proj2 (Z.leb_le 65 _)), (proj2 (Z.leb_le _ 90)) by lia.
Qed.

Definition toy_svc : AuthService.t := AuthService.mk OWASP_2023 (lit "$x").
Definition toy_cfg : AuthRoutesConfig :=
  mkAuthRoutes true None [lit "https://relay.example.com"] (Some (lit "first-token")).

Definition alice : User := mkUser 1 (lit "alice@example.com") (lit "Alice") 0 None.
Definition bob : User := mkUser 2 (lit "bob@example.com") (lit "Bob") 0 None.
Definition alice_session : UserSession := mkUserSession 10 1 (as_bytes (lit "AAAA")) 0 0 1000000 None None.
Definition alice_phone : UserSession := mkUserSession 11 1 (as_bytes (lit "BBBB")) 0 0 1000000 None None.
Definition bob_session : UserSession := mkUserSession 12 2 (as_bytes (lit "CCCC")) 0 0 1000000 None None.

Definition toy_db : AuthDb :=
  mkAuthDb {[ 1 := alice; 2 := bob ]}
    {[ 1 := mkPasswordCredential 1 (lit "$correct horse") 0 0 0 ]}
    {[ 10 := alice_session; 11 := alice_phone; 12 := bob_session ]} [] 500 100 [].

Definition toy_world (d : AuthDb) : AuthWorld :=
  mkAuthWorld d (LoginThrottler.new V1_DEFAULT) 600 (fun n => [byte_of (Z.of_nat n); byte_of 7]) 0.

Definition from_browser (cookie : option rstr) : Headers :=
  mkHeaders (Some <$> cookie) (Some (Some (lit "https://relay.example.com"))).

Definition alice_browser : Headers := from_browser (Some (lit "theme=dark; relayterm_session=AAAA")).
Definition right_login : LoginRequest := mkLogin (lit "Alice@Example.com") (lit "correct horse").
Definition wrong_login : LoginRequest := mkLogin (lit "Alice@Example.com") (lit "correct house").

Ltac toy_compute := apply (bool_decide_unpack _); vm_compute; exact Logic.I.

Lemma toy_inv : auth_inv (toy_world toy_db).
Proof.
  assert (He : map_Forall (fun i u => map_Forall (fun j v =>
    pg_lower (us_email u) = pg_lower (us_email v) -> i = j) (a_users toy_db)) (a_users toy_db)) by toy_compute.
  assert (Ht : map_Forall (fun i s => map_Forall (fun j t =>
    se_token_hash s = se_token_hash t -> i = j) (a_sessions toy_db)) (a_sessions toy_db)) by toy_compute.
  split; cbn [aw_db toy_world].
  - toy_compute.
  - intros i j u v Hu Hv. exact (He i u Hu j v Hv).
  - toy_compute.
  - toy_compute.
  - intros i j s t Hs Hst. exact (Ht i s Hs j t Hst).
  - constructor.
Qed.

Lemma toy_answering : answering (aw_db (toy_world toy_db)).
Proof. split; [done|toy_compute|toy_compute|constructor]. Qed.

Lemma toy_attempt req : login_validated req = Ok tt ->
  login_attempt toy_cfg alice_browser req (toy_world toy_db).
Proof. intros H. split; [by vm_compute|done|apply toy_answering]. Qed.

Lemma toy_signed_in : signed_in toy_cfg alice_browser alice_session alice (toy_world toy_db).
Proof.
  split; [apply toy_inv|apply toy_answering|by vm_compute| |by vm_compute|by vm_compute|by vm_compute].
  exists (lit "AAAA"). by vm_compute.
Qed.

Lemma auth_history_safety_witness :
  exists c, reachable (auth_starts toy_svc toy_cfg) (toy_world toy_db) c
    /\ p_threads c <> [] /\ auth_inv (p_world c) /\ auth_guar (toy_world toy_db) (p_world c).
Proof.
  set (c := mkPool (toy_world toy_db) [do! _ <- Routes.serve toy_svc toy_cfg alice_browser Routes.QLogout; Ret tt]).
  assert (Hr : reachable (auth_starts toy_svc toy_cfg) (toy_world toy_db) c).
  { apply rtc_once, (pstep_start _ _ _ []), start_request. }
  exists c. split; [done|]. split; [done|]. apply (auth_history_safety toy_svc toy_cfg _ c toy_inv Hr).
Defined.

Lemma authentication_is_exact_witness :
  exists w', run (Routes.authenticated_user alice_browser) (toy_world toy_db)
             = (Ok (mkAuthenticated alice 10), w').
Proof.
  destruct (authentication_is_exact alice_browser (toy_world toy_db) toy_inv) as [H _]; [done|].
  apply H. exists (lit "AAAA"), alice_session. by vm_compute.
Defined.

Lemma login_refusals_look_alike_witness :
  (run (Routes.login toy_svc toy_cfg alice_browser wrong_login) (toy_world toy_db)).1
  = Err (Unauthorized (lit "invalid credentials")).
Proof.
  rewrite (login_refusals_look_alike toy_svc toy_cfg alice_browser wrong_login (toy_world toy_db));
    [done|by apply toy_attempt; vm_compute|by vm_compute|].
  intros u Hu. assert (Hu' : user_of_email (lq_email wrong_login) (aw_db (toy_world toy_db)) = Some alice) by by vm_compute.
  rewrite Hu' in Hu. injection Hu as <-. by vm_compute.
Defined.

Definition throttled_world : AuthWorld :=
  upd_throttler (fun _ => LoginThrottler.mk V1_DEFAULT
    {[ lit "alice@example.com" := mkAttempt [500] (Some 700) ]}) (toy_world toy_db).

Lemma throttled_login_is_inert_witness :
  (run (Routes.login toy_svc toy_cfg alice_browser right_login) throttled_world).1
  = Err (TooManyRequests (lit "login throttled by failed-attempts policy")).
Proof.
  rewrite (throttled_login_is_inert toy_svc toy_cfg alice_browser right_login throttled_world 1);
    [done| |by vm_compute].
  split; [by vm_compute|by vm_compute|exact toy_answering].
Defined.

Lemma login_succeeds_witness :
  exists w', run (Routes.login toy_svc toy_cfg alice_browser right_login) (toy_world toy_db) =
    (Ok (mkResponse 200 (Some (build_session_cookie (next_token (toy_world toy_db)) toy_cfg))
           (BUser (user_response alice))), w').
Proof.
  destruct (login_succeeds toy_svc toy_cfg alice_browser right_login alice (toy_world toy_db) toy_laws toy_inv)
    as (w' & H & _); [by apply toy_attempt; vm_compute|by vm_compute|by vm_compute|by vm_compute|toy_compute|done|].
  exists w'. exact H.
Defined.

Lemma logout_is_final_witness :
  exists w', run (Routes.logout toy_cfg alice_browser) (toy_world toy_db)
             = (Ok (no_content_with_cookie (build_clear_cookie toy_cfg)), w')
    /\ a_sessions (aw_db w') !! 10 = Some (revoked 600 (Some (lit "logout")) alice_session).
Proof.
  destruct (logout_is_final toy_svc toy_cfg alice_browser (lit "AAAA") alice_session (toy_world toy_db) toy_inv toy_answering)
    as (w' & H & Hs & _); [by vm_compute..|]. exists w'. split; [exact H|]. rewrite Hs. by vm_compute.
Defined.

Definition failing_db : AuthDb :=
  mkAuthDb (a_users toy_db) (a_passwords toy_db) (a_sessions toy_db) [] 500 100 [Some (RDatabase "connection reset")].

Lemma logout_hides_database_failure_witness :
  exists w', run (Routes.logout toy_cfg alice_browser) (toy_world failing_db)
             = (Ok (no_content_with_cookie (build_clear_cookie toy_cfg)), w').
Proof.
  destruct (logout_hides_database_failure toy_cfg alice_browser (lit "AAAA") alice_session
    (RDatabase "connection reset") [] (toy_world failing_db)) as (w' & H & _);
    [|by vm_compute..|exists w'; exact H].
  apply (same_auth_inv toy_db); [by split|exact toy_inv].
Defined.

Lemma csrf_blocks_writes_witness :
  exists d, Routes.serve toy_svc toy_cfg (mkHeaders None (Some (Some (lit "https://evil.example"))))
              (Routes.QLogin right_login) = Ret (Err (CsrfOriginMismatch d)).
Proof.
  apply (csrf_blocks_writes toy_svc toy_cfg); [done|]. intros o [= <-]. toy_compute.
Defined.

Lemma foreign_session_revoke_denied_witness :
  run (Routes.revoke_session toy_cfg alice_browser 12) (toy_world toy_db)
  = (Err (ApiNotFound "user_session"), touched 10 alice_session (toy_world toy_db)).
Proof.
  apply (foreign_session_revoke_denied toy_cfg alice_browser alice_session alice 12 (toy_world toy_db) toy_signed_in).
  assert (Ht : a_sessions (aw_db (toy_world toy_db)) !! 12 = Some bob_session) by by vm_compute.
  intros t. rewrite Ht. by intros [= <-].
Defined.

Lemma change_password_effect_witness :
  exists w', run (Routes.change_password toy_svc toy_cfg alice_browser
                    (mkChange (lit "correct horse") (lit "battery staple"))) (toy_world toy_db)
             = (Ok (mkResponse 200 None (BRevoked 1)), w').
Proof.
  pose proof (change_password_effect toy_svc toy_cfg alice_browser
    (mkChange (lit "correct horse") (lit "battery staple")) alice_session alice
    (lit "$battery staple") (toy_world toy_db) toy_laws toy_signed_in) as H.
  assert (Hacc : password_accepts toy_svc (us_id alice) (lit "correct horse") (aw_db (toy_world toy_db)) = true)
    by by vm_compute.
  cbv zeta in H. cbn [cq_current_password] in H. rewrite Hacc in H.
  destruct H as (w' & row & H & _); [by vm_compute|by vm_compute|].
  assert (Hn : count_others 1 10 (<[10 := with_last_seen 600 alice_session]> (a_sessions toy_db)) = 1) by by vm_compute.
  exists w'. rewrite <- Hn. exact H.
Defined.

Definition first_request (email : string) : BootstrapRequest :=
  mkBootstrap (lit "first-token") (lit email) (lit "First") (lit "correct horse").

Lemma bootstrap_race_witness :
  exists c, reachable (auth_starts toy_svc toy_cfg) (toy_world (mkAuthDb ∅ ∅ ∅ [] 500 100 [])) c
    /\ size (a_passwords (aw_db (p_world c))) = 2%nat.
Proof.
  apply (bootstrap_race toy_svc toy_cfg alice_browser alice_browser (first_request "alice@example.com")
    (first_request "mallory@example.com") (lit "$correct horse") (lit "$correct horse"));
    [split; by vm_compute|split; by vm_compute|toy_compute|split; [done|toy_compute|toy_compute|constructor]|done|done
    |by vm_compute|by vm_compute].
Defined.
