(* ===== verification/Inventory.v ===== *)
(** * Hosts, identities, profiles and pinned host keys

    Models the entities of [crates/relayterm-core/src/host.rs], [ssh_identity.rs],
    [server_profile.rs] and [known_host.rs], their rows in [crates/relayterm-db/src/rows.rs], the
    lookups of their Postgres repositories, and the whole repository of pinned host keys
    ([crates/relayterm-db/src/repositories/known_host_entry.rs]) with the constraints of its
    migrations and the transaction that replaces a pin.  The tables sit beside those of
    [AuthStore.v]: the users, the audit events, the clock, the drawn UUIDs and the script of driver
    faults are shared. *)

From stdpp Require Import sorting pretty.
From S2P Require Import Prelude Core PgSession AuthStore.

Abbreviation HostId := Z.
Abbreviation SshIdentityId := Z.
Abbreviation KnownHostEntryId := Z.

(** ** Entities *)

(** [SshKeyType] *)
Inductive SshKeyType := Ed25519 | Rsa | EcdsaP256 | EcdsaP384 | EcdsaP521.

#[export] Instance SshKeyType_eq_dec : EqDecision SshKeyType.
Proof. solve_decision. Defined.

(** [SshKeyType::as_str] *)
Definition key_type_as_str (t : SshKeyType) : string :=
  match t with
  | Ed25519 => "ed25519"
  | Rsa => "rsa"
  | EcdsaP256 => "ecdsa_p256"
  | EcdsaP384 => "ecdsa_p384"
  | EcdsaP521 => "ecdsa_p521"
  end.

(** [SshKeyType::from_str_tag] *)
Definition key_type_from_str_tag (value : string) : option SshKeyType :=
  if decide (value = "ed25519"%string) then Some Ed25519
  else if decide (value = "rsa"%string) then Some Rsa
  else if decide (value = "ecdsa_p256"%string) then Some EcdsaP256
  else if decide (value = "ecdsa_p384"%string) then Some EcdsaP384
  else if decide (value = "ecdsa_p521"%string) then Some EcdsaP521
  else None.

(** [KnownHostRevocationReason] *)
Inductive KnownHostRevocationReason :=
| ServerReinstalled | HostKeyRotated | LabTargetRecreated | OperatorOther.

(** [KnownHostRevocationReason::as_str] *)
Definition reason_as_str (r : KnownHostRevocationReason) : string :=
  match r with
  | ServerReinstalled => "server_reinstalled"
  | HostKeyRotated => "host_key_rotated"
  | LabTargetRecreated => "lab_target_recreated"
  | OperatorOther => "operator_other"
  end.

(** [KnownHostRevocationReason::from_str_tag] *)
Definition reason_from_str_tag (value : string) : option KnownHostRevocationReason :=
  if decide (value = "server_reinstalled"%string) then Some ServerReinstalled
  else if decide (value = "host_key_rotated"%string) then Some HostKeyRotated
  else if decide (value = "lab_target_recreated"%string) then Some LabTargetRecreated
  else if decide (value = "operator_other"%string) then Some OperatorOther
  else None.

(** [Host] *)
Record Host := mkHost {
  ho_id : HostId; ho_owner_id : UserId; ho_display_name : rstr; ho_hostname : rstr;
  ho_port : Z; ho_default_username : rstr; ho_created_at : Z; ho_updated_at : Z
}.

(** [SshIdentity] *)
Record SshIdentity := mkSshIdentity {
  si_id : SshIdentityId; si_owner_id : UserId; si_name : rstr; si_key_type : SshKeyType;
  si_public_key : list Byte.byte; si_encrypted_private_key : list Byte.byte;
  si_fingerprint_sha256 : rstr; si_created_at : Z; si_last_used_at : option Z
}.

(** [ServerProfile] *)
Record ServerProfile := mkServerProfile {
  sp_id : ServerProfileId; sp_owner_id : UserId; sp_name : rstr; sp_host_id : HostId;
  sp_ssh_identity_id : SshIdentityId; sp_username_override : option rstr; sp_tags : list rstr;
  sp_created_at : Z; sp_updated_at : Z; sp_last_connected_at : option Z; sp_disabled_at : option Z
}.

(** [ServerProfile::is_disabled] *)
Definition is_disabled (p : ServerProfile) : bool := bool_decide (is_Some (sp_disabled_at p)).

(** [KnownHostEntry] *)
Record KnownHostEntry := mkKnownHost {
  kh_id : KnownHostEntryId; kh_host_id : HostId; kh_key_type : SshKeyType;
  kh_fingerprint_sha256 : rstr; kh_public_key : list Byte.byte; kh_first_seen_at : Z;
  kh_trusted_at : option Z; kh_revoked_at : option Z; kh_revoked_by : option UserId;
  kh_revoked_reason_code : option KnownHostRevocationReason;
  kh_replaced_by_id : option KnownHostEntryId
}.

(** ** Rows *)

(** [HostRow] *)
Record HostRow := mkHostRow {
  hr_id : Uuid; hr_owner_id : Uuid; hr_display_name : rstr; hr_hostname : rstr; hr_port : Z;
  hr_default_username : rstr; hr_created_at : Z; hr_updated_at : Z
}.

(** [SshIdentityRow] *)
Record SshIdentityRow := mkSshIdentityRow {
  ir_id : Uuid; ir_owner_id : Uuid; ir_name : rstr; ir_key_type : string;
  ir_public_key : list Byte.byte; ir_encrypted_private_key : list Byte.byte;
  ir_fingerprint_sha256 : rstr; ir_created_at : Z; ir_last_used_at : option Z
}.

(** [KnownHostEntryRow] *)
Record KnownHostEntryRow := mkKnownRow {
  kr_id : Uuid; kr_host_id : Uuid; kr_key_type : string; kr_fingerprint_sha256 : rstr;
  kr_public_key : list Byte.byte; kr_first_seen_at : Z; kr_trusted_at : option Z;
  kr_revoked_at : option Z; kr_revoked_by : option Uuid; kr_revoked_reason_code : option string;
  kr_replaced_by_id : option Uuid
}.

(** [HostRow::try_into_domain] *)
Definition host_try_into_domain (r : HostRow) : result RepositoryError Host :=
  let? port := ok_or (u16_try_from (hr_port r))
    (RDatabase ("row integrity: host.port out of u16 range (" +:+ pretty (hr_port r) +:+ ")")) in
  if port =? 0 then Err (RDatabase "row integrity: host.port (zero is not a valid SSH port)")
  else Ok (mkHost (hr_id r) (hr_owner_id r) (hr_display_name r) (hr_hostname r) port
             (hr_default_username r) (hr_created_at r) (hr_updated_at r)).

(** [SshIdentityRow::try_into_domain] *)
Definition identity_try_into_domain (r : SshIdentityRow) : result RepositoryError SshIdentity :=
  let? key_type := ok_or (key_type_from_str_tag (ir_key_type r))
    (RDatabase ("row integrity: ssh_identity.key_type unknown (" +:+ ir_key_type r +:+ ")")) in
  Ok (mkSshIdentity (ir_id r) (ir_owner_id r) (ir_name r) key_type (ir_public_key r)
        (ir_encrypted_private_key r) (ir_fingerprint_sha256 r) (ir_created_at r) (ir_last_used_at r)).

(** [KnownHostEntryRow::try_into_domain] *)
Definition known_try_into_domain (r : KnownHostEntryRow) : result RepositoryError KnownHostEntry :=
  let? key_type := ok_or (key_type_from_str_tag (kr_key_type r))
    (RDatabase ("row integrity: known_host_entry.key_type unknown (" +:+ kr_key_type r +:+ ")")) in
  let? reason := match kr_revoked_reason_code r with
                 | None => Ok None
                 | Some tag =>
                     let? c := ok_or (reason_from_str_tag tag)
                       (RDatabase ("row integrity: known_host_entry.revoked_reason_code unknown ("
                                   +:+ tag +:+ ")")) in
                     Ok (Some c)
                 end in
  Ok (mkKnownHost (kr_id r) (kr_host_id r) key_type (kr_fingerprint_sha256 r) (kr_public_key r)
        (kr_first_seen_at r) (kr_trusted_at r) (kr_revoked_at r) (kr_revoked_by r) reason
        (kr_replaced_by_id r)).

(** [.into_iter().map(try_into_domain).collect()] *)
Fixpoint collect_known (rows : list KnownHostEntryRow) : result RepositoryError (list KnownHostEntry) :=
  match rows with
  | [] => Ok []
  | r :: rows => let? e := known_try_into_domain r in let? es := collect_known rows in Ok (e :: es)
  end.

(** ** The tables *)

Record TrustDb := mkTrustDb {
  td_auth : AuthDb;
  td_hosts : gmap HostId HostRow;
  td_identities : gmap SshIdentityId SshIdentityRow;
  td_profiles : gmap ServerProfileId ServerProfile;
  td_known : gmap KnownHostEntryId KnownHostEntryRow
}.

Definition with_auth (a : AuthDb) (d : TrustDb) : TrustDb :=
  mkTrustDb a (td_hosts d) (td_identities d) (td_profiles d) (td_known d).
Definition set_known (f : gmap KnownHostEntryId KnownHostEntryRow -> gmap KnownHostEntryId KnownHostEntryRow)
  (d : TrustDb) : TrustDb :=
  mkTrustDb (td_auth d) (td_hosts d) (td_identities d) (td_profiles d) (f (td_known d)).

Definition set_hosts (f : gmap HostId HostRow -> gmap HostId HostRow) (d : TrustDb) : TrustDb :=
  mkTrustDb (td_auth d) (f (td_hosts d)) (td_identities d) (td_profiles d) (td_known d).
Definition set_identities (f : gmap SshIdentityId SshIdentityRow -> gmap SshIdentityId SshIdentityRow)
  (d : TrustDb) : TrustDb :=
  mkTrustDb (td_auth d) (td_hosts d) (f (td_identities d)) (td_profiles d) (td_known d).
Definition set_profiles (f : gmap ServerProfileId ServerProfile -> gmap ServerProfileId ServerProfile)
  (d : TrustDb) : TrustDb :=
  mkTrustDb (td_auth d) (td_hosts d) (td_identities d) (f (td_profiles d)) (td_known d).

(** [Uuid::new_v4] *)
Definition trust_new_v4 (d : TrustDb) : Uuid * TrustDb :=
  let '(id, a) := auth_new_v4 (td_auth d) in (id, with_auth a d).

(** [NOW()] *)
Definition td_now (d : TrustDb) : Z := a_clock (td_auth d).

(** One statement: the driver fails, or it runs. *)
Definition trust_execute {A} (f : TrustDb -> result RepositoryError A * TrustDb) (d : TrustDb)
  : result RepositoryError A * TrustDb :=
  match auth_next_fault (td_auth d) with
  | (Some e, a) => (Err e, with_auth a d)
  | (None, a) => f (with_auth a d)
  end.

(** A row that is found is converted: [row.map(try_into_domain).transpose()]. *)
Definition transpose_row {R A} (conv : R -> result RepositoryError A) (o : option R)
  : result RepositoryError (option A) :=
  match o with None => Ok None | Some r => let? a := conv r in Ok (Some a) end.

(** [.into_iter().map(try_into_domain).collect()] *)
Fixpoint collect_rows {R A} (conv : R -> result RepositoryError A) (rows : list R)
  : result RepositoryError (list A) :=
  match rows with
  | [] => Ok []
  | r :: rows => let? a := conv r in let? l := collect_rows conv rows in Ok (a :: l)
  end.

(** [row.map(try_into_domain).transpose()?.ok_or(NotFound)] *)
Definition returned_row {R A} (entity : string) (conv : R -> result RepositoryError A) (o : option R)
  : result RepositoryError A :=
  let? a := transpose_row conv o in ok_or a (RNotFound entity).

(** [WHERE id = $1 AND owner_id = $2] *)
Definition owned_row {R} (owner : R -> UserId) (owner_id : UserId) (o : option R) : option R :=
  match o with Some r => if owner r =? owner_id then Some r else None | None => None end.

Definition owner_exists (owner : UserId) (d : TrustDb) : bool :=
  bool_decide (is_Some (a_users (td_auth d) !! owner)).

(** ** [PgHostRepository] *)

Definition HOST_ENTITY : string := "host".

(** [CreateHost] *)
Record CreateHost := mkCreateHost {
  ch_owner_id : UserId; ch_display_name : rstr; ch_hostname : rstr; ch_port : Z; ch_default_username : rstr
}.

(** [UpdateHost] *)
Record UpdateHost := mkUpdateHost {
  uh_display_name : option rstr; uh_hostname : option rstr; uh_port : option Z;
  uh_default_username : option rstr
}.

(** [hosts_port_range] *)
Definition host_check (r : HostRow) : option sqlx_error :=
  if (1 <=? hr_port r) && (hr_port r <=? 65535) then None
  else Some (OtherConstraint (Some "hosts_port_range"%string)).

(** What an [INSERT] into [hosts] violates. *)
Definition host_insert_error (r : HostRow) (d : TrustDb) : option sqlx_error :=
  match host_check r with
  | Some e => Some e
  | None =>
      if bool_decide (is_Some (td_hosts d !! hr_id r)) then Some (UniqueViolation (Some "hosts_pkey"%string))
      else if negb (owner_exists (hr_owner_id r) d) then
        Some (ForeignKeyViolation (Some "hosts_owner_id_fkey"%string))
      else None
  end.

(** [SET column = COALESCE($n, column), updated_at = NOW()] of [update] *)
Definition coalesce_host (input : UpdateHost) (now : Z) (r : HostRow) : HostRow :=
  mkHostRow (hr_id r) (hr_owner_id r) (default (hr_display_name r) (uh_display_name input))
    (default (hr_hostname r) (uh_hostname input)) (default (hr_port r) (uh_port input))
    (default (hr_default_username r) (uh_default_username input)) (hr_created_at r) now.

(** [ON DELETE CASCADE] of [known_host_entries.host_id], and [ON DELETE SET NULL] of [replaced_by_id] in
    the entries that remain. *)
Definition cascade_known (host_id : HostId) (known : gmap KnownHostEntryId KnownHostEntryRow)
  : gmap KnownHostEntryId KnownHostEntryRow :=
  (fun r => match kr_replaced_by_id r with
            | Some n =>
                if bool_decide (kr_host_id <$> known !! n = Some host_id) then
                  mkKnownRow (kr_id r) (kr_host_id r) (kr_key_type r) (kr_fingerprint_sha256 r) (kr_public_key r)
                    (kr_first_seen_at r) (kr_trusted_at r) (kr_revoked_at r) (kr_revoked_by r)
                    (kr_revoked_reason_code r) None
                else r
            | None => r
            end)
  <$> filter (fun kr => kr_host_id kr.2 <> host_id) known.

Module PgHostRepository.

(** [create] *)
Definition create (input : CreateHost) (d : TrustDb) : result RepositoryError Host * TrustDb :=
  let '(id, d) := trust_new_v4 d in
  trust_execute (fun d =>
    let row := mkHostRow id (ch_owner_id input) (ch_display_name input) (ch_hostname input) (ch_port input)
                 (ch_default_username input) (td_now d) (td_now d) in
    match host_insert_error row d with
    | Some e => (Err (map_sqlx_error HOST_ENTITY e), d)
    | None => (host_try_into_domain row, set_hosts <[id := row]> d)
    end) d.

(** [get] *)
Definition get (id : HostId) : TrustDb -> result RepositoryError (option Host) * TrustDb :=
  trust_execute (fun d => (transpose_row host_try_into_domain (td_hosts d !! id), d)).

(** [ORDER BY created_at ASC] *)
Definition created_before (a b : HostRow) : Prop := hr_created_at a <= hr_created_at b.
#[export] Instance created_before_dec a b : Decision (created_before a b).
Proof. unfold created_before. apply _. Defined.

(** [list_for_user] *)
Definition list_for_user (owner_id : UserId) : TrustDb -> result RepositoryError (list Host) * TrustDb :=
  trust_execute (fun d =>
    (collect_rows host_try_into_domain
       (merge_sort created_before (filter (fun r => hr_owner_id r = owner_id) (map_to_list (td_hosts d)).*2)), d)).

(** [update] *)
Definition update (id : HostId) (owner_id : UserId) (input : UpdateHost)
  : TrustDb -> result RepositoryError Host * TrustDb :=
  trust_execute (fun d =>
    match owned_row hr_owner_id owner_id (td_hosts d !! id) with
    | None => (returned_row HOST_ENTITY host_try_into_domain None, d)
    | Some r =>
        let r' := coalesce_host input (td_now d) r in
        match host_check r' with
        | Some e => (Err (map_sqlx_error HOST_ENTITY e), d)
        | None => (returned_row HOST_ENTITY host_try_into_domain (Some r'), set_hosts <[id := r']> d)
        end
    end).

(** [delete]; [server_profiles.host_id] restricts it, the pins of the host go with it. *)
Definition delete (id : HostId) (owner_id : UserId) : TrustDb -> result RepositoryError unit * TrustDb :=
  trust_execute (fun d =>
    match owned_row hr_owner_id owner_id (td_hosts d !! id) with
    | None => (Err (RNotFound HOST_ENTITY), d)
    | Some _ =>
        if existsb (fun p => sp_host_id p =? id) (map_to_list (td_profiles d)).*2 then
          (Err (map_sqlx_error HOST_ENTITY (ForeignKeyViolation (Some "server_profiles_host_id_fkey"%string))), d)
        else (Ok tt, set_hosts (base.delete id) (set_known (cascade_known id) d))
    end).

(** [any_dependents_for_user] *)
Definition any_dependents_for_user (id : HostId) (owner_id : UserId)
  : TrustDb -> result RepositoryError bool * TrustDb :=
  trust_execute (fun d =>
    (Ok (existsb (fun p => (sp_host_id p =? id) && (sp_owner_id p =? owner_id)) (map_to_list (td_profiles d)).*2
         || existsb (fun r => kr_host_id r =? id) (map_to_list (td_known d)).*2), d)).

End PgHostRepository.

(** ** [PgSshIdentityRepository] *)

Definition IDENTITY_ENTITY : string := "ssh_identity".

(** [CreateSshIdentity] *)
Record CreateSshIdentity := mkCreateIdentity {
  ci_owner_id : UserId; ci_name : rstr; ci_key_type : SshKeyType; ci_public_key : list Byte.byte;
  ci_encrypted_private_key : list Byte.byte; ci_fingerprint_sha256 : rstr
}.

(** [ssh_identities_key_type_chk] *)
Definition identity_check (r : SshIdentityRow) : option sqlx_error :=
  if bool_decide (ir_key_type r ∈ ["ed25519"; "rsa"; "ecdsa_p256"; "ecdsa_p384"; "ecdsa_p521"]%string) then None
  else Some (OtherConstraint (Some "ssh_identities_key_type_chk"%string)).

(** What an [INSERT] into [ssh_identities] violates. *)
Definition identity_insert_error (r : SshIdentityRow) (d : TrustDb) : option sqlx_error :=
  match identity_check r with
  | Some e => Some e
  | None =>
      if bool_decide (is_Some (td_identities d !! ir_id r)) then
        Some (UniqueViolation (Some "ssh_identities_pkey"%string))
      else if existsb (fun r' => bool_decide (ir_owner_id r' = ir_owner_id r
                                   /\ ir_fingerprint_sha256 r' = ir_fingerprint_sha256 r))
                (map_to_list (td_identities d)).*2 then
        Some (UniqueViolation (Some "ssh_identities_owner_fingerprint_key"%string))
      else if negb (owner_exists (ir_owner_id r) d) then
        Some (ForeignKeyViolation (Some "ssh_identities_owner_id_fkey"%string))
      else None
  end.

(** [SET name = $3] *)
Definition rename_identity (name : rstr) (r : SshIdentityRow) : SshIdentityRow :=
  mkSshIdentityRow (ir_id r) (ir_owner_id r) name (ir_key_type r) (ir_public_key r) (ir_encrypted_private_key r)
    (ir_fingerprint_sha256 r) (ir_created_at r) (ir_last_used_at r).

Module PgSshIdentityRepository.

(** [create] *)
Definition create (input : CreateSshIdentity) (d : TrustDb) : result RepositoryError SshIdentity * TrustDb :=
  let '(id, d) := trust_new_v4 d in
  trust_execute (fun d =>
    let row := mkSshIdentityRow id (ci_owner_id input) (ci_name input) (key_type_as_str (ci_key_type input))
                 (ci_public_key input) (ci_encrypted_private_key input) (ci_fingerprint_sha256 input)
                 (td_now d) None in
    match identity_insert_error row d with
    | Some e => (Err (map_sqlx_error IDENTITY_ENTITY e), d)
    | None => (identity_try_into_domain row, set_identities <[id := row]> d)
    end) d.

(** [get] *)
Definition get (id : SshIdentityId) : TrustDb -> result RepositoryError (option SshIdentity) * TrustDb :=
  trust_execute (fun d => (transpose_row identity_try_into_domain (td_identities d !! id), d)).

(** [ORDER BY created_at ASC] *)
Definition created_before (a b : SshIdentityRow) : Prop := ir_created_at a <= ir_created_at b.
#[export] Instance created_before_dec a b : Decision (created_before a b).
Proof. unfold created_before. apply _. Defined.

(** [list_for_user] *)
Definition list_for_user (owner_id : UserId) : TrustDb -> result RepositoryError (list SshIdentity) * TrustDb :=
  trust_execute (fun d =>
    (collect_rows identity_try_into_domain
       (merge_sort created_before
          (filter (fun r => ir_owner_id r = owner_id) (map_to_list (td_identities d)).*2)), d)).

(** [rename] *)
Definition rename (id : SshIdentityId) (owner_id : UserId) (name : rstr)
  : TrustDb -> result RepositoryError SshIdentity * TrustDb :=
  trust_execute (fun d =>
    match owned_row ir_owner_id owner_id (td_identities d !! id) with
    | None => (returned_row IDENTITY_ENTITY identity_try_into_domain None, d)
    | Some r =>
        let r' := rename_identity name r in
        (returned_row IDENTITY_ENTITY identity_try_into_domain (Some r'), set_identities <[id := r']> d)
    end).

(** [delete]; [server_profiles.ssh_identity_id] restricts it. *)
Definition delete (id : SshIdentityId) (owner_id : UserId) : TrustDb -> result RepositoryError unit * TrustDb :=
  trust_execute (fun d =>
    match owned_row ir_owner_id owner_id (td_identities d !! id) with
    | None => (Err (RNotFound IDENTITY_ENTITY), d)
    | Some _ =>
        if existsb (fun p => sp_ssh_identity_id p =? id) (map_to_list (td_profiles d)).*2 then
          (Err (map_sqlx_error IDENTITY_ENTITY
                  (ForeignKeyViolation (Some "server_profiles_ssh_identity_id_fkey"%string))), d)
        else (Ok tt, set_identities (base.delete id) d)
    end).

(** [any_dependents_for_user] *)
Definition any_dependents_for_user (id : SshIdentityId) (owner_id : UserId)
  : TrustDb -> result RepositoryError bool * TrustDb :=
  trust_execute (fun d =>
    (Ok (existsb (fun p => (sp_ssh_identity_id p =? id) && (sp_owner_id p =? owner_id))
           (map_to_list (td_profiles d)).*2), d)).

End PgSshIdentityRepository.

(** ** [PgServerProfileRepository] *)

(** The order that Postgres' collation gives [TEXT]. *)
Class PgCollation := pg_text_le : rstr -> rstr -> bool.

Definition SERVER_PROFILE_ENTITY : string := "server_profile".

(** The columns of [terminal_sessions] that refer to other tables. *)
Record SessionRef := mkSessionRef { sr_owner_id : UserId; sr_server_profile_id : ServerProfileId }.

(** [CreateServerProfile] *)
Record CreateServerProfile := mkCreateProfile {
  np_owner_id : UserId; np_name : rstr; np_host_id : HostId; np_ssh_identity_id : SshIdentityId;
  np_username_override : option rstr; np_tags : list rstr
}.

(** [SetOptional] *)
Inductive SetOptional (A : Type) := Unchanged | SetTo (value : option A).
Arguments Unchanged {A}.
Arguments SetTo {A} _.

(** [UpdateServerProfile] *)
Record UpdateServerProfile := mkUpdateProfile {
  up_name : option rstr; up_host_id : option HostId; up_ssh_identity_id : option SshIdentityId;
  up_username_override : SetOptional rstr; up_tags : option (list rstr)
}.

(** What writing a row of [server_profiles] violates; [p] replaces the row of the same id. *)
Definition profile_write_error (p : ServerProfile) (d : TrustDb) : option sqlx_error :=
  if existsb (fun q => bool_decide (sp_id q <> sp_id p /\ sp_owner_id q = sp_owner_id p /\ sp_name q = sp_name p))
       (map_to_list (td_profiles d)).*2 then
    Some (UniqueViolation (Some "server_profiles_owner_name_key"%string))
  else if negb (owner_exists (sp_owner_id p) d) then
    Some (ForeignKeyViolation (Some "server_profiles_owner_id_fkey"%string))
  else if negb (bool_decide (is_Some (td_hosts d !! sp_host_id p))) then
    Some (ForeignKeyViolation (Some "server_profiles_host_id_fkey"%string))
  else if negb (bool_decide (is_Some (td_identities d !! sp_ssh_identity_id p))) then
    Some (ForeignKeyViolation (Some "server_profiles_ssh_identity_id_fkey"%string))
  else None.

(** [SET column = COALESCE($n, column), username_override = CASE ..., updated_at = NOW()] of [update] *)
Definition coalesce_profile (input : UpdateServerProfile) (now : Z) (p : ServerProfile) : ServerProfile :=
  mkServerProfile (sp_id p) (sp_owner_id p) (default (sp_name p) (up_name input))
    (default (sp_host_id p) (up_host_id input)) (default (sp_ssh_identity_id p) (up_ssh_identity_id input))
    (match up_username_override input with Unchanged => sp_username_override p | SetTo v => v end)
    (default (sp_tags p) (up_tags input)) (sp_created_at p) now (sp_last_connected_at p) (sp_disabled_at p).

(** [SET disabled_at = $3, updated_at = NOW()] *)
Definition stamp_disabled (disabled_at : option Z) (now : Z) (p : ServerProfile) : ServerProfile :=
  mkServerProfile (sp_id p) (sp_owner_id p) (sp_name p) (sp_host_id p) (sp_ssh_identity_id p)
    (sp_username_override p) (sp_tags p) (sp_created_at p) now (sp_last_connected_at p) disabled_at.

Module PgServerProfileRepository.

(** [create] *)
Definition create (input : CreateServerProfile) (d : TrustDb) : result RepositoryError ServerProfile * TrustDb :=
  let '(id, d) := trust_new_v4 d in
  trust_execute (fun d =>
    let p := mkServerProfile id (np_owner_id input) (np_name input) (np_host_id input) (np_ssh_identity_id input)
               (np_username_override input) (np_tags input) (td_now d) (td_now d) None None in
    if bool_decide (is_Some (td_profiles d !! id)) then
      (Err (map_sqlx_error SERVER_PROFILE_ENTITY (UniqueViolation (Some "server_profiles_pkey"%string))), d)
    else match profile_write_error p d with
         | Some e => (Err (map_sqlx_error SERVER_PROFILE_ENTITY e), d)
         | None => (Ok p, set_profiles <[id := p]> d)
         end) d.

(** [get] *)
Definition get (id : ServerProfileId) : TrustDb -> result RepositoryError (option ServerProfile) * TrustDb :=
  trust_execute (fun d => (Ok (td_profiles d !! id), d)).

(** [ORDER BY name ASC] *)
Definition named_before `{!PgCollation} (a b : ServerProfile) : Prop := pg_text_le (sp_name a) (sp_name b) = true.
#[export] Instance named_before_dec `{!PgCollation} a b : Decision (named_before a b).
Proof. unfold named_before. apply _. Defined.

(** [list_for_user] *)
Definition list_for_user `{!PgCollation} (owner_id : UserId)
  : TrustDb -> result RepositoryError (list ServerProfile) * TrustDb :=
  trust_execute (fun d =>
    (Ok (merge_sort named_before (filter (fun p => sp_owner_id p = owner_id) (map_to_list (td_profiles d)).*2)), d)).

(** An [UPDATE ... WHERE id AND owner_id RETURNING] *)
Definition update_with (id : ServerProfileId) (owner_id : UserId) (f : Z -> ServerProfile -> ServerProfile)
  : TrustDb -> result RepositoryError ServerProfile * TrustDb :=
  trust_execute (fun d =>
    match owned_row sp_owner_id owner_id (td_profiles d !! id) with
    | None => (Err (RNotFound SERVER_PROFILE_ENTITY), d)
    | Some p =>
        let p' := f (td_now d) p in
        match profile_write_error p' d with
        | Some e => (Err (map_sqlx_error SERVER_PROFILE_ENTITY e), d)
        | None => (Ok p', set_profiles <[id := p']> d)
        end
    end).

(** [update] *)
Definition update (id : ServerProfileId) (owner_id : UserId) (input : UpdateServerProfile)
  : TrustDb -> result RepositoryError ServerProfile * TrustDb :=
  update_with id owner_id (coalesce_profile input).

(** [set_disabled_at] *)
Definition set_disabled_at (id : ServerProfileId) (owner_id : UserId) (disabled_at : option Z)
  : TrustDb -> result RepositoryError ServerProfile * TrustDb :=
  update_with id owner_id (stamp_disabled disabled_at).

(** [delete]; [terminal_sessions.server_profile_id] restricts it. *)
Definition delete (sessions : list SessionRef) (id : ServerProfileId) (owner_id : UserId)
  : TrustDb -> result RepositoryError unit * TrustDb :=
  trust_execute (fun d =>
    match owned_row sp_owner_id owner_id (td_profiles d !! id) with
    | None => (Err (RNotFound SERVER_PROFILE_ENTITY), d)
    | Some _ =>
        if existsb (fun s => sr_server_profile_id s =? id) sessions then
          (Err (map_sqlx_error SERVER_PROFILE_ENTITY
                  (ForeignKeyViolation (Some "terminal_sessions_server_profile_id_fkey"%string))), d)
        else (Ok tt, set_profiles (base.delete id) d)
    end).

(** [any_dependents_for_user] *)
Definition any_dependents_for_user (sessions : list SessionRef) (id : ServerProfileId) (owner_id : UserId)
  : TrustDb -> result RepositoryError bool * TrustDb :=
  trust_execute (fun d =>
    (Ok (existsb (fun s => (sr_server_profile_id s =? id) && (sr_owner_id s =? owner_id)) sessions), d)).

End PgServerProfileRepository.

(** ** [PgKnownHostEntryRepository] *)

Definition KNOWN_ENTITY : string := "known_host_entry".

(** [CreateKnownHostEntry] *)
Record CreateKnownHostEntry := mkCreateKnown {
  ck_host_id : HostId; ck_key_type : SshKeyType; ck_fingerprint_sha256 : rstr;
  ck_public_key : list Byte.byte
}.

(** [ReplaceActivePin] *)
Record ReplaceActivePin := mkReplacePin {
  rp_host_id : HostId; rp_expected_old_fingerprint : rstr; rp_new_key_type : SshKeyType;
  rp_new_fingerprint_sha256 : rstr; rp_new_public_key : list Byte.byte; rp_revoked_by : UserId;
  rp_reason_code : KnownHostRevocationReason
}.

(** [ReplacedKnownHostEntries] *)
Record ReplacedKnownHostEntries := mkReplaced {
  rk_revoked_old : KnownHostEntry; rk_trusted_new : KnownHostEntry
}.

(** The CHECK constraints of [known_host_entries]. *)
Definition known_key_type_chk (r : KnownHostEntryRow) : bool :=
  bool_decide (kr_key_type r ∈ ["ed25519"; "rsa"; "ecdsa_p256"; "ecdsa_p384"; "ecdsa_p521"]%string).
Definition known_reason_chk (r : KnownHostEntryRow) : bool :=
  match kr_revoked_reason_code r with
  | None => true
  | Some c => bool_decide (c ∈ ["server_reinstalled"; "host_key_rotated"; "lab_target_recreated";
                                "operator_other"]%string)
  end.
Definition known_revoked_columns_chk (r : KnownHostEntryRow) : bool :=
  match kr_revoked_at r, kr_revoked_by r, kr_revoked_reason_code r with
  | None, None, None => true
  | Some _, Some _, Some _ => true
  | _, _, _ => false
  end.

Definition known_check (r : KnownHostEntryRow) : option sqlx_error :=
  if negb (known_key_type_chk r) then Some (OtherConstraint (Some "known_host_entries_key_type_chk"%string))
  else if negb (known_reason_chk r) then
    Some (OtherConstraint (Some "known_host_entries_revoked_reason_chk"%string))
  else if negb (known_revoked_columns_chk r) then
    Some (OtherConstraint (Some "known_host_entries_revoked_columns_set_together"%string))
  else None.

(** The row of a host with a fingerprint; the unique index allows one. *)
Definition known_by_fingerprint (host_id : HostId) (fp : rstr) (d : TrustDb) : option KnownHostEntryRow :=
  head (filter (fun r => kr_host_id r = host_id /\ kr_fingerprint_sha256 r = fp) (map_to_list (td_known d)).*2).

(** What an [INSERT] violates, the unique index on host and fingerprint last. *)
Definition known_insert_error (r : KnownHostEntryRow) (d : TrustDb) : option sqlx_error :=
  match known_check r with
  | Some e => Some e
  | None =>
      if bool_decide (is_Some (td_known d !! kr_id r)) then
        Some (UniqueViolation (Some "known_host_entries_pkey"%string))
      else if bool_decide (is_Some (known_by_fingerprint (kr_host_id r) (kr_fingerprint_sha256 r) d)) then
        Some (UniqueViolation (Some "known_host_entries_host_fingerprint_key"%string))
      else if negb (bool_decide (is_Some (td_hosts d !! kr_host_id r))) then
        Some (ForeignKeyViolation (Some "known_host_entries_host_id_fkey"%string))
      else None
  end.

Definition insert_known (r : KnownHostEntryRow) (d : TrustDb) : result RepositoryError KnownHostEntryRow * TrustDb :=
  match known_insert_error r d with
  | Some e => (Err (map_sqlx_error KNOWN_ENTITY e), d)
  | None => (Ok r, set_known <[kr_id r := r]> d)
  end.

(** A transaction: [begin], the body, [commit]; an error anywhere restores the tables. *)
Definition trust_rollback (before d : TrustDb) : TrustDb :=
  mkTrustDb (mkAuthDb (a_users (td_auth before)) (a_passwords (td_auth before)) (a_sessions (td_auth before))
               (a_audit (td_auth before)) (a_clock (td_auth before)) (a_next_uuid (td_auth d))
               (a_faults (td_auth d)))
    (td_hosts before) (td_identities before) (td_profiles before) (td_known before).

Definition trust_then {A B} (p : TrustDb -> result RepositoryError A * TrustDb)
  (k : A -> TrustDb -> result RepositoryError B * TrustDb) (d : TrustDb) : result RepositoryError B * TrustDb :=
  match p d with (Ok a, d') => k a d' | (Err e, d') => (Err e, d') end.

Notation "'stmt' x '<-' p ; k" := (trust_then p (fun x => k))
  (at level 10, x binder, p at level 100, k at level 200) : rust_scope.

Definition trust_transaction {A} (body : TrustDb -> result RepositoryError A * TrustDb) (d : TrustDb)
  : result RepositoryError A * TrustDb :=
  match trust_execute (fun d => (Ok tt, d)) d with
  | (Err e, d1) => (Err e, d1)
  | (Ok _, d1) =>
      match body d1 with
      | (Err e, d2) => (Err e, trust_rollback d1 d2)
      | (Ok a, d2) =>
          match trust_execute (fun d => (Ok tt, d)) d2 with
          | (Ok _, d3) => (Ok a, d3)
          | (Err e, d3) => (Err e, trust_rollback d1 d3)
          end
      end
  end.

Definition fresh_id : TrustDb -> result RepositoryError Uuid * TrustDb :=
  fun d => let '(id, d') := trust_new_v4 d in (Ok id, d').

(** A row that an [INSERT] with [trusted_at] stores. *)
Definition new_known_row (id : Uuid) (host_id : HostId) (kt : SshKeyType) (fp : rstr)
  (public_key : list Byte.byte) (trusted_at : option Z) (now : Z) : KnownHostEntryRow :=
  mkKnownRow id host_id (key_type_as_str kt) fp public_key now trusted_at None None None None.

(** [SET trusted_at = COALESCE(trusted_at, EXCLUDED.trusted_at)] *)
Definition coalesce_trusted (now : Z) (r : KnownHostEntryRow) : KnownHostEntryRow :=
  mkKnownRow (kr_id r) (kr_host_id r) (kr_key_type r) (kr_fingerprint_sha256 r) (kr_public_key r)
    (kr_first_seen_at r) (Some (default now (kr_trusted_at r))) (kr_revoked_at r) (kr_revoked_by r)
    (kr_revoked_reason_code r) (kr_replaced_by_id r).

(** [SET revoked_at = NOW(), revoked_by, revoked_reason_code, replaced_by_id] *)
Definition revoke_known (now : Z) (by_ : UserId) (reason : string) (new_id : Uuid) (r : KnownHostEntryRow)
  : KnownHostEntryRow :=
  mkKnownRow (kr_id r) (kr_host_id r) (kr_key_type r) (kr_fingerprint_sha256 r) (kr_public_key r)
    (kr_first_seen_at r) (kr_trusted_at r) (Some now) (Some by_) (Some reason) (Some new_id).

(** A pin that counts: not revoked and confirmed. *)
Definition row_active (r : KnownHostEntryRow) : bool :=
  bool_decide (kr_revoked_at r = None) && bool_decide (is_Some (kr_trusted_at r)).

(** The payload of the two audit rows of a replacement. *)
Definition replace_payload (input : ReplaceActivePin) (entry replacement : Uuid) : json :=
  JObj [("host_id"%string, JUuid (rp_host_id input));
        ("known_host_entry_id"%string, JUuid entry);
        ("replacement_known_host_entry_id"%string, JUuid replacement);
        ("old_fingerprint"%string, JStr (rp_expected_old_fingerprint input));
        ("new_fingerprint"%string, JStr (rp_new_fingerprint_sha256 input));
        ("key_type"%string, JStr (lit (key_type_as_str (rp_new_key_type input))));
        ("reason_code"%string, JStr (lit (reason_as_str (rp_reason_code input))))].

(** [INSERT INTO audit_events] of the transaction; [actor_id] references [users]. *)
Definition insert_audit (id : Uuid) (actor : UserId) (kind : AuditEventKind) (payload : json)
  : TrustDb -> result RepositoryError unit * TrustDb :=
  trust_execute (fun d =>
    let a := td_auth d in
    let row := mkAuditRow id (Some actor) (audit_as_str kind) payload None (a_clock a) in
    if negb (audit_kind_chk (audit_as_str kind)) then
      (Err (map_sqlx_error AUDIT_ENTITY (OtherConstraint (Some "audit_events_kind_chk"%string))), d)
    else if bool_decide (id ∈ map ar_row_id (a_audit a)) then
      (Err (map_sqlx_error AUDIT_ENTITY (UniqueViolation (Some "audit_events_pkey"%string))), d)
    else if negb (bool_decide (is_Some (a_users a !! actor))) then
      (Err (map_sqlx_error AUDIT_ENTITY (ForeignKeyViolation (Some "audit_events_actor_id_fkey"%string))), d)
    else (Ok tt, with_auth (push_audit row a) d)).

Module PgKnownHostEntryRepository.

(** [create] *)
Definition create (input : CreateKnownHostEntry) (d : TrustDb) : result RepositoryError KnownHostEntry * TrustDb :=
  let '(id, d) := trust_new_v4 d in
  (stmt row <- trust_execute (fun d => insert_known (new_known_row id (ck_host_id input) (ck_key_type input)
                 (ck_fingerprint_sha256 input) (ck_public_key input) None (td_now d)) d);
   fun d => (known_try_into_domain row, d)) d.

(** [ORDER BY first_seen_at ASC] *)
Definition seen_before (a b : KnownHostEntryRow) : Prop := kr_first_seen_at a <= kr_first_seen_at b.
#[export] Instance seen_before_dec a b : Decision (seen_before a b).
Proof. unfold seen_before. apply _. Defined.

(** The rows of a host. *)
Definition rows_of_host (host_id : HostId) (d : TrustDb) : list KnownHostEntryRow :=
  merge_sort seen_before (filter (fun r => kr_host_id r = host_id) (map_to_list (td_known d)).*2).

(** [list_for_host] *)
Definition list_for_host (host_id : HostId)
  : TrustDb -> result RepositoryError (list KnownHostEntry) * TrustDb :=
  trust_execute (fun d => (collect_known (rows_of_host host_id d), d)).

(** [find_by_fingerprint] *)
Definition find_by_fingerprint (host_id : HostId) (fp : rstr)
  : TrustDb -> result RepositoryError (option KnownHostEntry) * TrustDb :=
  trust_execute (fun d => (transpose_row known_try_into_domain (known_by_fingerprint host_id fp d), d)).

(** The upsert of [record_trusted]: [None] when the [WHERE] rejects the row. *)
Definition upsert_trusted (id : Uuid) (input : CreateKnownHostEntry)
  : TrustDb -> result RepositoryError (option KnownHostEntryRow) * TrustDb :=
  trust_execute (fun d =>
    let row := new_known_row id (ck_host_id input) (ck_key_type input) (ck_fingerprint_sha256 input)
                 (ck_public_key input) (Some (td_now d)) (td_now d) in
    match known_by_fingerprint (ck_host_id input) (ck_fingerprint_sha256 input) d with
    | Some r =>
        if bool_decide (is_Some (kr_revoked_at r)) then (Ok None, d)
        else let r' := coalesce_trusted (td_now d) r in (Ok (Some r'), set_known <[kr_id r := r']> d)
    | None =>
        match insert_known row d with
        | (Ok r, d') => (Ok (Some r), d')
        | (Err e, d') => (Err e, d')
        end
    end).

(** [record_trusted] *)
Definition record_trusted (input : CreateKnownHostEntry) (d : TrustDb)
  : result RepositoryError KnownHostEntry * TrustDb :=
  let '(id, d) := trust_new_v4 d in
  (stmt o <- upsert_trusted id input;
   fun d => (match o with
             | None => Err (RConflict KNOWN_ENTITY "revoked")
             | Some row => known_try_into_domain row
             end, d)) d.

(** [SELECT ... FOR UPDATE] of the active row, step 1 of [replace_active_pin]. *)
Definition select_active (input : ReplaceActivePin)
  : TrustDb -> result RepositoryError KnownHostEntryRow * TrustDb :=
  stmt o <- trust_execute (fun d =>
    (Ok (head (filter (fun r => kr_host_id r = rp_host_id input
                                /\ kr_fingerprint_sha256 r = rp_expected_old_fingerprint input
                                /\ row_active r = true) (map_to_list (td_known d)).*2)), d));
  fun d => (ok_or o (RConflict KNOWN_ENTITY "active_pin_mismatch"), d).

(** Step 2: no row may exist for the new fingerprint. *)
Definition refuse_existing (input : ReplaceActivePin) : TrustDb -> result RepositoryError unit * TrustDb :=
  stmt o <- trust_execute (fun d =>
    (Ok (known_by_fingerprint (rp_host_id input) (rp_new_fingerprint_sha256 input) d), d));
  fun d => (match o with
            | Some existing =>
                Err (RConflict KNOWN_ENTITY (if bool_decide (is_Some (kr_revoked_at existing))
                                             then "new_fingerprint_revoked"
                                             else "new_fingerprint_already_active"))
            | None => Ok tt
            end, d).

(** Step 4: [UPDATE ... WHERE id = $1 RETURNING]. *)
Definition update_old (old_id new_id : Uuid) (input : ReplaceActivePin)
  : TrustDb -> result RepositoryError KnownHostEntryRow * TrustDb :=
  trust_execute (fun d =>
    match td_known d !! old_id with
    | None => (Err (map_sqlx_error KNOWN_ENTITY RowNotFound), d)
    | Some r =>
        let r' := revoke_known (td_now d) (rp_revoked_by input) (reason_as_str (rp_reason_code input)) new_id r in
        match known_check r' with
        | Some e => (Err (map_sqlx_error KNOWN_ENTITY e), d)
        | None =>
            if negb (bool_decide (is_Some (a_users (td_auth d) !! rp_revoked_by input))) then
              (Err (map_sqlx_error KNOWN_ENTITY
                      (ForeignKeyViolation (Some "known_host_entries_revoked_by_fkey"%string))), d)
            else (Ok r', set_known <[old_id := r']> d)
        end
    end).

(** The body of the transaction. *)
Definition replace_body (input : ReplaceActivePin)
  : TrustDb -> result RepositoryError (KnownHostEntryRow * KnownHostEntryRow) * TrustDb :=
  stmt old_row <- select_active input;
  stmt _ <- refuse_existing input;
  stmt new_id <- fresh_id;
  stmt new_row <- trust_execute (fun d =>
    insert_known (new_known_row new_id (rp_host_id input) (rp_new_key_type input)
      (rp_new_fingerprint_sha256 input) (rp_new_public_key input) (Some (td_now d)) (td_now d)) d);
  stmt revoked_old_row <- update_old (kr_id old_row) new_id input;
  stmt revoked_audit_id <- fresh_id;
  stmt _ <- insert_audit revoked_audit_id (rp_revoked_by input) HostKeyRevoked
              (replace_payload input (kr_id old_row) new_id);
  stmt accepted_audit_id <- fresh_id;
  stmt _ <- insert_audit accepted_audit_id (rp_revoked_by input) HostKeyAccepted
              (replace_payload input new_id (kr_id old_row));
  fun d => (Ok (revoked_old_row, new_row), d).

(** [replace_active_pin] *)
Definition replace_active_pin (input : ReplaceActivePin)
  : TrustDb -> result RepositoryError ReplacedKnownHostEntries * TrustDb :=
  stmt rows <- trust_transaction (replace_body input);
  fun d => (let? old := known_try_into_domain rows.1 in
            let? new := known_try_into_domain rows.2 in
            Ok (mkReplaced old new), d).

End PgKnownHostEntryRepository.
