(* ===== verification/Vault.v ===== *)
(** * The credential vault's envelope

    Models [crates/relayterm-vault/src/cipher.rs] and [VaultService::decrypt_private_key]: the
    envelope around an encrypted private key.  XChaCha20-Poly1305 is a parameter. *)

From S2P Require Import Prelude.

(** The AEAD: key, nonce, then the plaintext or the ciphertext. *)
Class Aead := {
  aead_encrypt : list Byte.byte -> list Byte.byte -> list Byte.byte -> option (list Byte.byte);
  aead_decrypt : list Byte.byte -> list Byte.byte -> list Byte.byte -> option (list Byte.byte)
}.

(** [VaultError] *)
Inductive VaultError :=
| VMasterKey | VKeyGeneration | VPublicKeySerialization | VPrivateKeySerialization
| VEncrypt | VDecrypt | VBlobFormat
| VUnsupportedKeyType (tag : string)
| VUnsupportedFormat (reason : string).

Definition MAGIC : list Byte.byte := [Byte.x52; Byte.x54; Byte.x56; Byte.x31].
Definition VERSION_XCHACHA20POLY1305_DIRECT : Byte.byte := Byte.x01.
Definition NONCE_LEN : Z := 24.
Definition HEADER_LEN : Z := len MAGIC + 1 + NONCE_LEN.
Definition TAG_LEN : Z := 16.

(** [AEAD] documents: what was encrypted decrypts, and a ciphertext is 16 bytes longer than its plaintext. *)
Class AeadLaws {Ae : Aead} := {
  aead_roundtrip key nonce plaintext c :
    aead_encrypt key nonce plaintext = Some c -> aead_decrypt key nonce c = Some plaintext;
  aead_tagged key nonce plaintext c :
    aead_encrypt key nonce plaintext = Some c -> len c = len plaintext + TAG_LEN
}.

Section vault.
Context {Ae : Aead}.

(** [cipher::encrypt]; the nonce is 24 bytes from the operating system. *)
Definition encrypt (master_key nonce plaintext : list Byte.byte) : result VaultError (list Byte.byte) :=
  let? ciphertext := ok_or (aead_encrypt master_key nonce plaintext) VEncrypt in
  Ok (MAGIC ++ [VERSION_XCHACHA20POLY1305_DIRECT] ++ nonce ++ ciphertext).

(** [cipher::decrypt]; the slices are in range after the length check. *)
Definition decrypt (master_key blob : list Byte.byte) : result VaultError (list Byte.byte) :=
  if len blob <? HEADER_LEN + TAG_LEN then Err VBlobFormat
  else if negb (bool_decide (take (Z.to_nat (len MAGIC)) blob = MAGIC)) then Err VBlobFormat
  else if negb (bool_decide (blob !! Z.to_nat (len MAGIC) = Some VERSION_XCHACHA20POLY1305_DIRECT))
  then Err VBlobFormat
  else
    let nonce := take (Z.to_nat NONCE_LEN) (drop (Z.to_nat (len MAGIC + 1)) blob) in
    let ciphertext := drop (Z.to_nat HEADER_LEN) blob in
    ok_or (aead_decrypt master_key nonce ciphertext) VDecrypt.

(** [VaultService::decrypt_private_key] *)
Definition decrypt_private_key (master_key blob : list Byte.byte) : result VaultError (list Byte.byte) :=
  decrypt master_key blob.

(** ** The envelope *)

Lemma decrypt_envelope key nonce c :
  len nonce = NONCE_LEN -> TAG_LEN <= len c ->
  decrypt key (MAGIC ++ [VERSION_XCHACHA20POLY1305_DIRECT] ++ nonce ++ c)
  = ok_or (aead_decrypt key nonce c) VDecrypt.
Proof.
  intros Hn Hc. unfold decrypt. rewrite !len_app. change (len MAGIC) with 4.
  change (len [VERSION_XCHACHA20POLY1305_DIRECT]) with 1. change HEADER_LEN with 29.
  change (Z.to_nat 4) with 4%nat. change (Z.to_nat (4 + 1)) with 5%nat. change (Z.to_nat 29) with 29%nat.
  assert (Hlen : length nonce = 24%nat) by (unfold len, NONCE_LEN in Hn; lia).
  destruct (_ <? _) eqn:E; bool_props; [unfold TAG_LEN, NONCE_LEN in *; lia|].
  cbn [take app MAGIC lookup list_lookup drop].
  rewrite !bool_decide_eq_true_2 by done. cbn [negb].
  assert (Ht : take (Z.to_nat NONCE_LEN) (nonce ++ c) = nonce).
  { change (Z.to_nat NONCE_LEN) with 24%nat. rewrite <- Hlen. apply take_app_length. }
  assert (Hd : drop 24 (nonce ++ c) = c) by (rewrite <- Hlen; apply drop_app_length).
  by rewrite drop_0, Ht, Hd.
Qed.

(** Only envelopes decrypt. *)
Lemma decrypt_shape key blob plaintext :
  decrypt key blob = Ok plaintext ->
  exists nonce c, blob = MAGIC ++ [VERSION_XCHACHA20POLY1305_DIRECT] ++ nonce ++ c
    /\ len nonce = NONCE_LEN /\ TAG_LEN <= len c /\ aead_decrypt key nonce c = Some plaintext.
Proof.
  unfold decrypt. intros H. destruct (_ <? _) eqn:E1; [done|].
  destruct (bool_decide (take _ blob = MAGIC)) eqn:E2; [|done].
  destruct (bool_decide (blob !! _ = _)) eqn:E3; [|done]. cbn [negb] in H. bool_props.
  apply ok_or_ok in H. change HEADER_LEN with 29 in *. change (Z.to_nat (len MAGIC)) with 4%nat in *.
  change (Z.to_nat (len MAGIC + 1)) with 5%nat in *. change (Z.to_nat 29) with 29%nat in *.
  change (Z.to_nat NONCE_LEN) with 24%nat in *.
  exists (take 24 (drop 5 blob)), (drop 29 blob). split_and!; [|..|done].
  - rewrite <- E2 at 1. rewrite <- (take_drop 4 blob) at 1. f_equal.
    rewrite (drop_S _ _ _ E3). cbn [app]. f_equal. rewrite <- (take_drop 24 (drop 5 blob)) at 1.
    by rewrite drop_drop.
  - unfold len, NONCE_LEN. rewrite length_take, length_drop. unfold len, TAG_LEN in E1. lia.
  - unfold len in *. rewrite length_drop. unfold TAG_LEN in *. lia.
Qed.

(** What was encrypted decrypts. *)
Lemma encrypt_decrypt `{!AeadLaws} (master_key nonce plaintext blob : list Byte.byte) :
  len nonce = NONCE_LEN -> encrypt master_key nonce plaintext = Ok blob ->
  decrypt_private_key master_key blob = Ok plaintext.
Proof.
  intros Hn He. unfold encrypt in He. apply result_bind_ok in He as (c & Hc & He).
  assert (blob = MAGIC ++ [VERSION_XCHACHA20POLY1305_DIRECT] ++ nonce ++ c) as -> by congruence.
  apply ok_or_ok in Hc. pose proof (aead_tagged _ _ _ _ Hc) as Ht. unfold decrypt_private_key.
  rewrite decrypt_envelope; [|done|pose proof (len_nonneg plaintext); lia].
  by rewrite (aead_roundtrip _ _ _ _ Hc).
Qed.

(** What the vault stores, it reads back: decrypting the envelope of an encryption gives the
    plaintext and costs 45 bytes. *)
Theorem vault_roundtrip (master_key nonce plaintext : list Byte.byte) blob :
  AeadLaws -> len nonce = NONCE_LEN -> encrypt master_key nonce plaintext = Ok blob ->
  decrypt_private_key master_key blob = Ok plaintext /\ len blob = HEADER_LEN + len plaintext + TAG_LEN.
Proof.
  intros Hl Hn He. split; [by apply (encrypt_decrypt _ nonce)|].
  unfold encrypt in He. apply result_bind_ok in He as (c & Hc & He).
  assert (blob = MAGIC ++ [VERSION_XCHACHA20POLY1305_DIRECT] ++ nonce ++ c) as -> by congruence.
  apply ok_or_ok in Hc. pose proof (aead_tagged _ _ _ _ Hc) as Ht. rewrite !len_app, Hn, Ht. unfold HEADER_LEN. change (len [_]) with 1. lia.
Qed.

End vault.
