(* ===== verification/Bridge.v ===== *)
(** * The live PTY bridge

    Models the handle and the driver task of [crates/relayterm-ssh/src/russh_pty.rs] ([RusshHandle],
    [drive_channel]) with the bounded queues of [pty.rs] between them.  What the SSH library does (the
    messages of the channel, whether a write on it succeeds) is chosen by the environment, event by event;
    [HostKey.v] models how the connection is made.

    A call of [write_input] clones the sender and then waits for room, so calls that wait are part of the
    state; [select!] may take any branch that is ready. *)

From S2P Require Import Prelude Core.

Definition DEFAULT_PTY_OUTPUT_CHANNEL_CAPACITY : Z := 256.
Definition DEFAULT_PTY_INPUT_CHANNEL_CAPACITY : Z := 64.
Definition DEFAULT_PTY_RESIZE_CHANNEL_CAPACITY : Z := 8.

(** ** The channel *)

(** [russh::ChannelMsg], as far as the driver tells its variants apart *)
Inductive ChannelMsg :=
| ChData (data : list Byte.byte)
| ChExtendedData (data : list Byte.byte) (ext : Z)
| ChExitStatus (exit_status : Z)
| ChEof
| ChClose
| ChOther.

(** What the driver does on the channel and the session. *)
Inductive ChannelAct :=
| ActData (bytes : list Byte.byte)
| ActDataFailed (bytes : list Byte.byte)
| ActWindowChange (cols rows : Z)
| ActEof
| ActClose
| ActDisconnect.

(** ** The state *)

(** Where the driver is: at the [select!], waiting to send an output event, waiting to send the last event,
    closing the channel after it, or gone, with the reason it announced if it came to that. *)
Inductive DriverPhase :=
| AtSelect
| SendingEvent (e : SshPtyEvent)
| TearingDown (reason : ClosedReason)
| Closing (reason : ClosedReason)
| Gone (announced : option ClosedReason).

(** What the callers and the consumer have seen. *)
Inductive Seen :=
| InputAccepted (bytes : list Byte.byte)
| ResizeAccepted (cols rows : Z)
| BridgeClosedReturned
| EventReceived (e : SshPtyEvent).

Record Bridge := mkBridge {
  br_incoming : list ChannelMsg;   (** received on the channel and not yet read by the driver *)
  br_hung_up : bool;               (** nothing more will come *)
  br_output : list SshPtyEvent;
  br_consumer : bool;
  br_input : list (list Byte.byte);
  br_resize : list (Z * Z);
  br_input_tx : bool;              (** the [Mutex<Option<Sender>>]s of the handle *)
  br_resize_tx : bool;
  br_writers : list (list Byte.byte);   (** calls that hold a clone of the sender *)
  br_resizers : list (Z * Z);
  br_phase : DriverPhase;
  br_read : list ChannelMsg;       (** history: what the driver has read, has done, and what others saw *)
  br_acts : list ChannelAct;
  br_seen : list Seen
}.

(** What [RusshPtyBridge::start] returns, with the driver spawned. *)
Definition new_bridge : Bridge := mkBridge [] false [] true [] [] true true [] [] AtSelect [] [] [].

(** *** Updates *)

Definition set_incoming (l : list ChannelMsg) (h : bool) (b : Bridge) : Bridge :=
  mkBridge l h (br_output b) (br_consumer b) (br_input b) (br_resize b) (br_input_tx b) (br_resize_tx b)
    (br_writers b) (br_resizers b) (br_phase b) (br_read b) (br_acts b) (br_seen b).
Definition set_output (l : list SshPtyEvent) (c : bool) (b : Bridge) : Bridge :=
  mkBridge (br_incoming b) (br_hung_up b) l c (br_input b) (br_resize b) (br_input_tx b) (br_resize_tx b)
    (br_writers b) (br_resizers b) (br_phase b) (br_read b) (br_acts b) (br_seen b).
Definition set_input (q w : list (list Byte.byte)) (b : Bridge) : Bridge :=
  mkBridge (br_incoming b) (br_hung_up b) (br_output b) (br_consumer b) q (br_resize b) (br_input_tx b)
    (br_resize_tx b) w (br_resizers b) (br_phase b) (br_read b) (br_acts b) (br_seen b).
Definition set_resize (q w : list (Z * Z)) (b : Bridge) : Bridge :=
  mkBridge (br_incoming b) (br_hung_up b) (br_output b) (br_consumer b) (br_input b) q (br_input_tx b)
    (br_resize_tx b) (br_writers b) w (br_phase b) (br_read b) (br_acts b) (br_seen b).
Definition drop_senders (b : Bridge) : Bridge :=
  mkBridge (br_incoming b) (br_hung_up b) (br_output b) (br_consumer b) (br_input b) (br_resize b) false false
    (br_writers b) (br_resizers b) (br_phase b) (br_read b) (br_acts b) (br_seen b).
Definition set_phase (p : DriverPhase) (b : Bridge) : Bridge :=
  mkBridge (br_incoming b) (br_hung_up b) (br_output b) (br_consumer b) (br_input b) (br_resize b) (br_input_tx b)
    (br_resize_tx b) (br_writers b) (br_resizers b) p (br_read b) (br_acts b) (br_seen b).
Definition note_read (m : ChannelMsg) (b : Bridge) : Bridge :=
  mkBridge (br_incoming b) (br_hung_up b) (br_output b) (br_consumer b) (br_input b) (br_resize b) (br_input_tx b)
    (br_resize_tx b) (br_writers b) (br_resizers b) (br_phase b) (br_read b ++ [m]) (br_acts b) (br_seen b).
Definition act_on_channel (a : ChannelAct) (b : Bridge) : Bridge :=
  mkBridge (br_incoming b) (br_hung_up b) (br_output b) (br_consumer b) (br_input b) (br_resize b) (br_input_tx b)
    (br_resize_tx b) (br_writers b) (br_resizers b) (br_phase b) (br_read b) (br_acts b ++ [a]) (br_seen b).
Definition note_seen (s : Seen) (b : Bridge) : Bridge :=
  mkBridge (br_incoming b) (br_hung_up b) (br_output b) (br_consumer b) (br_input b) (br_resize b) (br_input_tx b)
    (br_resize_tx b) (br_writers b) (br_resizers b) (br_phase b) (br_read b) (br_acts b) (br_seen b ++ [s]).

Definition is_gone (p : DriverPhase) : bool := match p with Gone _ => true | _ => false end.

(** The task has ended: its receivers are dropped with what they held. *)
Definition leave (announced : option ClosedReason) (b : Bridge) : Bridge :=
  set_phase (Gone announced) (set_resize [] (br_resizers b) (set_input [] (br_writers b) b)).

(** ** The handle *)

(** [RusshHandle::write_input] up to its [await]: the sender is cloned. *)
Definition write_input (bytes : list Byte.byte) (b : Bridge) : Bridge :=
  if br_input_tx b then set_input (br_input b) (br_writers b ++ [bytes]) b else note_seen BridgeClosedReturned b.

(** The [await] of the [i]-th call that waits: it fails when the receiver is gone, succeeds when there is
    room, and waits otherwise. *)
Definition writer_sends (i : nat) (b : Bridge) : option Bridge :=
  bytes ← br_writers b !! i;
  let b' := set_input (br_input b) (delete i (br_writers b)) b in
  if is_gone (br_phase b) then Some (note_seen BridgeClosedReturned b')
  else if len (br_input b) <? DEFAULT_PTY_INPUT_CHANNEL_CAPACITY then
    Some (note_seen (InputAccepted bytes) (set_input (br_input b' ++ [bytes]) (br_writers b') b'))
  else None.

(** The caller is dropped while it waits. *)
Definition writer_dropped (i : nat) (b : Bridge) : option Bridge :=
  _ ← br_writers b !! i; Some (set_input (br_input b) (delete i (br_writers b)) b).

(** [RusshHandle::resize], in the same three parts *)
Definition resize (cols rows : Z) (b : Bridge) : Bridge :=
  if br_resize_tx b then set_resize (br_resize b) (br_resizers b ++ [(cols, rows)]) b
  else note_seen BridgeClosedReturned b.

Definition resizer_sends (i : nat) (b : Bridge) : option Bridge :=
  dims ← br_resizers b !! i;
  let b' := set_resize (br_resize b) (delete i (br_resizers b)) b in
  if is_gone (br_phase b) then Some (note_seen BridgeClosedReturned b')
  else if len (br_resize b) <? DEFAULT_PTY_RESIZE_CHANNEL_CAPACITY then
    Some (note_seen (ResizeAccepted dims.1 dims.2) (set_resize (br_resize b' ++ [dims]) (br_resizers b') b'))
  else None.

Definition resizer_dropped (i : nat) (b : Bridge) : option Bridge :=
  _ ← br_resizers b !! i; Some (set_resize (br_resize b) (delete i (br_resizers b)) b).

(** [RusshHandle::close], and the drop of the handle *)
Definition close (b : Bridge) : Bridge := drop_senders b.

(** ** The driver *)

(** [exit_status as i32] *)
Definition as_i32 (z : Z) : Z := if z <=? 2147483647 then z else z - 4294967296.

(** The branch of [channel.wait()] *)
Definition on_channel_msg (m : ChannelMsg) : DriverPhase :=
  match m with
  | ChData data => SendingEvent (PtyOutput data)
  | ChExtendedData data ext => if ext =? 1 then SendingEvent (PtyOutput data) else AtSelect
  | ChExitStatus exit_status => SendingEvent (PtyExit (as_i32 exit_status))
  | ChEof | ChClose => TearingDown RemoteEof
  | ChOther => AtSelect
  end.

Definition driver_reads (b : Bridge) : option Bridge :=
  match br_incoming b with
  | m :: rest => Some (set_phase (on_channel_msg m) (note_read m (set_incoming rest (br_hung_up b) b)))
  | [] => if br_hung_up b then Some (set_phase (TearingDown TransportError) b) else None
  end.

(** The branch of [input_rx.recv()]; [ok] is what [channel.data] answers. *)
Definition driver_input (ok : bool) (b : Bridge) : option Bridge :=
  match br_input b with
  | bytes :: rest =>
      let b := set_input rest (br_writers b) b in
      Some (if ok then act_on_channel (ActData bytes) b
            else set_phase (TearingDown TransportError) (act_on_channel (ActDataFailed bytes) b))
  | [] => if br_input_tx b || negb (bool_decide (br_writers b = [])) then None
          else Some (set_phase (TearingDown LocalClose) b)
  end.

(** The branch of [resize_rx.recv()]; a failure of [window_change] is only logged. *)
Definition driver_resize (b : Bridge) : option Bridge :=
  match br_resize b with
  | (cols, rows) :: rest => Some (act_on_channel (ActWindowChange cols rows) (set_resize rest (br_resizers b) b))
  | [] => if br_resize_tx b || negb (bool_decide (br_resizers b = [])) then None
          else Some (set_phase (TearingDown LocalClose) b)
  end.

(** [output_tx.send(e).await] *)
Definition send_output (e : SshPtyEvent) (b : Bridge) : option (bool * Bridge) :=
  if negb (br_consumer b) then Some (false, b)
  else if len (br_output b) <? DEFAULT_PTY_OUTPUT_CHANNEL_CAPACITY then
    Some (true, set_output (br_output b ++ [e]) true b)
  else None.

(** What follows a send: only a lost [Output] breaks the loop. *)
Definition after_send (e : SshPtyEvent) (sent : bool) : DriverPhase :=
  match e, sent with PtyOutput _, false => TearingDown LocalClose | _, _ => AtSelect end.

(** A send in the loop, and the send of [Closed] after it *)
Definition driver_sends (b : Bridge) : option Bridge :=
  match br_phase b with
  | SendingEvent e => '(sent, b) ← send_output e b; Some (set_phase (after_send e sent) b)
  | TearingDown reason =>
      '(_, b) ← send_output (PtyClosed reason) b; Some (set_phase (Closing reason) b)
  | _ => None
  end.

(** The rest of the teardown; what the three calls answer is ignored. *)
Definition driver_closes (b : Bridge) : option Bridge :=
  match br_phase b with
  | Closing reason =>
      Some (leave (Some reason) (act_on_channel ActDisconnect (act_on_channel ActClose (act_on_channel ActEof b))))
  | _ => None
  end.

(** [JoinHandle::abort] at an [await] *)
Definition driver_aborted (b : Bridge) : option Bridge :=
  match br_phase b with
  | Gone _ => None
  | Closing reason => Some (leave (Some reason) b)
  | _ => Some (leave None b)
  end.

Definition at_select (b : Bridge) : bool := match br_phase b with AtSelect => true | _ => false end.

(** ** The system *)

Inductive BridgeEvent :=
| ServerSends (m : ChannelMsg)
| TransportEnds
| CallWrite (bytes : list Byte.byte)
| WriterSends (i : nat)
| WriterDropped (i : nat)
| CallResize (cols rows : Z)
| ResizerSends (i : nat)
| ResizerDropped (i : nat)
| CallClose
| ConsumerReceives
| ConsumerDropped
| DriverReads
| DriverInput (ok : bool)
| DriverResize
| DriverSends
| DriverCloses
| DriverAborted.

(** One event, if it can happen. *)
Definition bridge_step (ev : BridgeEvent) (b : Bridge) : option Bridge :=
  match ev with
  | ServerSends m => if br_hung_up b then None else Some (set_incoming (br_incoming b ++ [m]) false b)
  | TransportEnds => Some (set_incoming (br_incoming b) true b)
  | CallWrite bytes => Some (write_input bytes b)
  | WriterSends i => writer_sends i b
  | WriterDropped i => writer_dropped i b
  | CallResize cols rows => Some (resize cols rows b)
  | ResizerSends i => resizer_sends i b
  | ResizerDropped i => resizer_dropped i b
  | CallClose => Some (close b)
  | ConsumerReceives =>
      if negb (br_consumer b) then None
      else match br_output b with
           | e :: rest => Some (note_seen (EventReceived e) (set_output rest true b))
           | [] => None
           end
  | ConsumerDropped => Some (set_output [] false b)
  | DriverReads => if at_select b then driver_reads b else None
  | DriverInput ok => if at_select b then driver_input ok b else None
  | DriverResize => if at_select b then driver_resize b else None
  | DriverSends => driver_sends b
  | DriverCloses => driver_closes b
  | DriverAborted => driver_aborted b
  end.

Fixpoint bridge_run (evs : list BridgeEvent) (b : Bridge) : option Bridge :=
  match evs with
  | [] => Some b
  | ev :: evs => b ← bridge_step ev b; bridge_run evs b
  end.
