(* ===== verification/BridgeSpec.v ===== *)
(** * What the live PTY bridge guarantees

    In every run: input reaches the channel in the order in which it was accepted, output reaches the consumer
    in the order in which the server sent it, and the last event announces the end once.  After the handle is
    closed, no run of the tasks goes on forever or gets stuck. *)

From S2P Require Import Prelude Core Bridge.

(** ** Runs *)

Inductive bridged : list BridgeEvent -> Bridge -> Prop :=
| bridged_start : bridged [] new_bridge
| bridged_step evs ev b b' : bridged evs b -> bridge_step ev b = Some b' -> bridged (evs ++ [ev]) b'.

Lemma run_bridged evs0 evs b b' : bridged evs0 b -> bridge_run evs b = Some b' -> bridged (evs0 ++ evs) b'.
Proof.
  revert evs0 b. induction evs as [|ev evs IH]; intros evs0 b Hb; cbn [bridge_run].
  - intros [= <-]. by rewrite app_nil_r.
  - destruct (bridge_step ev b) as [b1|] eqn:E; [|done]. intros Hr. cbn in Hr.
    rewrite cons_middle, app_assoc. apply (IH _ b1); [|done]. by apply (bridged_step _ _ b).
Qed.

(** ** What was seen of a run *)

Definition told (evs : list BridgeEvent) : list ChannelMsg :=
  omap (fun ev => match ev with ServerSends m => Some m | _ => None end) evs.
Definition accepted (b : Bridge) : list (list Byte.byte) :=
  omap (fun s => match s with InputAccepted x => Some x | _ => None end) (br_seen b).
Definition received (b : Bridge) : list SshPtyEvent :=
  omap (fun s => match s with EventReceived e => Some e | _ => None end) (br_seen b).
Definition sent (b : Bridge) : list (list Byte.byte) :=
  omap (fun a => match a with ActData x => Some x | _ => None end) (br_acts b).
Arguments accepted : simpl never.
Arguments received : simpl never.
Arguments sent : simpl never.

(** The event a message of the channel becomes, and the messages that end the stream. *)
Definition event_of (m : ChannelMsg) : option SshPtyEvent :=
  match m with
  | ChData data => Some (PtyOutput data)
  | ChExtendedData data ext => if ext =? 1 then Some (PtyOutput data) else None
  | ChExitStatus s => Some (PtyExit (as_i32 s))
  | _ => None
  end.
Definition ends (m : ChannelMsg) : bool := match m with ChEof | ChClose => true | _ => false end.

Definition running (p : DriverPhase) : bool := match p with AtSelect | SendingEvent _ => true | _ => false end.

(** The event the driver holds in its hand, and the one it sent last. *)
Definition in_hand (p : DriverPhase) : list SshPtyEvent := match p with SendingEvent e => [e] | _ => [] end.
Definition announced (p : DriverPhase) : list SshPtyEvent :=
  match p with Closing r | Gone (Some r) => [PtyClosed r] | _ => [] end.

(** The messages read are those the server sent first, and reading stops at the first that ends the stream. *)
Record reading (evs : list BridgeEvent) (b : Bridge) : Prop := {
  rd_order : told evs = br_read b ++ br_incoming b;
  rd_running : running (br_phase b) = true -> Forall (fun m => ends m = false) (br_read b);
  rd_ended : exists l, Forall (fun m => ends m = false) l
    /\ (br_read b = l \/ exists m, ends m = true /\ br_read b = l ++ [m])
}.

(** Nothing of the output is lost, repeated or reordered as long as somebody reads it; when nobody reads any
    more, a prefix was received. *)
Record output_exact (b : Bridge) : Prop := {
  ox_reader : br_consumer b = true -> br_phase b <> Gone None ->
    received b ++ br_output b ++ in_hand (br_phase b) = omap event_of (br_read b) ++ announced (br_phase b);
  ox_prefix : received b ++ br_output b `prefix_of` omap event_of (br_read b) ++ announced (br_phase b);
  ox_dropped : br_consumer b = false -> br_output b = []
}.

(** What was accepted and is not yet sent is in the queue, while the driver is in its loop; what it sends is
    never anything else. *)
Record input_exact (b : Bridge) : Prop := {
  ix_running : running (br_phase b) = true -> accepted b = sent b ++ br_input b;
  ix_prefix : sent b `prefix_of` accepted b
}.

Record bounded (b : Bridge) : Prop := {
  bd_output : len (br_output b) <= DEFAULT_PTY_OUTPUT_CHANNEL_CAPACITY;
  bd_input : len (br_input b) <= DEFAULT_PTY_INPUT_CHANNEL_CAPACITY;
  bd_resize : len (br_resize b) <= DEFAULT_PTY_RESIZE_CHANNEL_CAPACITY
}.

(** ** Preservation *)

Lemma on_channel_msg_cases m :
  (running (on_channel_msg m) = true /\ ends m = false /\ omap event_of [m] = in_hand (on_channel_msg m)
     /\ announced (on_channel_msg m) = [])
  \/ (on_channel_msg m = TearingDown RemoteEof /\ ends m = true /\ event_of m = None).
Proof. destruct m as [d|d ext|s| | |]; cbn; try destruct (ext =? 1); auto. Qed.

Lemma announced_running p : running p = true -> announced p = [].
Proof. by destruct p as [| | | |[]]. Qed.

(** The projections of the state that a step leaves alone. *)
Definition same_reading (b b' : Bridge) : Prop :=
  br_read b' = br_read b /\ br_incoming b' = br_incoming b
  /\ (running (br_phase b') = true -> running (br_phase b) = true).

Lemma reading_same evs ev b b' : told [ev] = [] -> same_reading b b' -> reading evs b -> reading (evs ++ [ev]) b'.
Proof.
  intros Ht (E1 & E2 & E3) [H1 H2 H3]. split; rewrite ?E1, ?E2; [|by auto|done].
  unfold told in *. by rewrite omap_app, Ht, app_nil_r.
Qed.

Ltac step_cases H :=
  unfold bridge_step, write_input, resize, close, writer_sends, writer_dropped, resizer_sends, resizer_dropped,
    driver_input, driver_resize, driver_sends, driver_closes, driver_aborted, driver_reads, at_select,
    send_output in H;
  repeat match type of H with
  | context [match ?x with _ => _ end] =>
      lazymatch x with context [match _ with _ => _ end] => fail | _ => idtac end;
      destruct x eqn:?; cbn [mbind option_bind] in H; try discriminate H
  | context [mbind _ ?o] =>
      lazymatch o with context [match _ with _ => _ end] => fail | _ => idtac end;
      destruct o eqn:?; cbn [mbind option_bind] in H; try discriminate H
  end; try injection H as <-.

Lemma reading_step evs ev b b' : bridge_step ev b = Some b' -> reading evs b -> reading (evs ++ [ev]) b'.
Proof.
  intros H Hr. destruct ev; try (apply (reading_same _ _ b); [done| |done]; step_cases H; unfold same_reading; cbn;
    repeat match goal with E : br_phase _ = _ |- _ => rewrite E end; by split_and!).
  - destruct Hr as [H1 H2 H3]. step_cases H. split; cbn; [|done|done].
    unfold told in *. by rewrite omap_app, H1, <- app_assoc.
  - unfold bridge_step in H. destruct (at_select b) eqn:Es in H; [|done]. unfold at_select in Es. destruct (br_phase b) eqn:Ep; try done. unfold driver_reads in H.
    destruct (br_incoming b) as [|m rest] eqn:Ei.
    + destruct (br_hung_up b); [|done]. injection H as <-.
      apply (reading_same _ _ b); [done|by split_and!|done].
    + injection H as <-. destruct Hr as [H1 H2 H3]. rewrite Ep in H2. specialize (H2 eq_refl).
      split; cbn.
      * unfold told in *. rewrite omap_app, H1, Ei. cbn. by rewrite app_nil_r, <- app_assoc.
      * destruct (on_channel_msg_cases m) as [(_ & He & _)|(-> & _)]; [|done]. intros _.
        apply Forall_app; split; [done|by repeat constructor].
      * exists (if ends m then br_read b else br_read b ++ [m]). destruct (ends m) eqn:Ee; [eauto|].
        split; [apply Forall_app; split; [done|by repeat constructor]|by left].
Qed.

(** A step on the input side leaves the output alone, and the other way round. *)
Definition same_output (b b' : Bridge) : Prop :=
  received b' = received b /\ br_output b' = br_output b /\ br_consumer b' = br_consumer b
  /\ br_read b' = br_read b
  /\ (br_phase b' = br_phase b
      \/ announced (br_phase b') = announced (br_phase b)
         /\ (br_phase b' = Gone None \/ in_hand (br_phase b') = in_hand (br_phase b) /\ br_phase b <> Gone None)).

Lemma output_same b b' : same_output b b' -> output_exact b -> output_exact b'.
Proof.
  intros (E1 & E2 & E3 & E4 & Ep) [H1 H2 H3].
  destruct Ep as [Ep|[Ea Eh]]; split; rewrite ?E1, ?E2, ?E3, ?E4, ?Ep, ?Ea; try done.
  intros Hc Hn. destruct Eh as [?|[-> Hg]]; [done|by apply H1].
Qed.

Definition same_input (b b' : Bridge) : Prop :=
  accepted b' = accepted b /\ sent b' = sent b /\ br_input b' = br_input b
  /\ (running (br_phase b') = true -> running (br_phase b) = true).

Lemma input_same b b' : same_input b b' -> input_exact b -> input_exact b'.
Proof. intros (E1 & E2 & E3 & Ep) [H1 H2]. split; rewrite ?E1, ?E2, ?E3; auto. Qed.

Lemma accepted_note s b :
  accepted (note_seen s b) = accepted b ++ match s with InputAccepted x => [x] | _ => [] end.
Proof. unfold accepted. cbn. rewrite omap_app. by destruct s. Qed.

Lemma received_note s b :
  received (note_seen s b) = received b ++ match s with EventReceived e => [e] | _ => [] end.
Proof. unfold received. cbn. rewrite omap_app. by destruct s. Qed.

Lemma output_read m b b' :
  br_phase b = AtSelect -> output_exact b ->
  br_read b' = br_read b ++ [m] -> received b' = received b -> br_output b' = br_output b ->
  br_consumer b' = br_consumer b -> br_phase b' = on_channel_msg m -> output_exact b'.
Proof.
  intros Hp [H1 H2 H3] Er E1 E2 E3 Ep. rewrite Hp in *. cbn in *. rewrite app_nil_r in H2.
  destruct (on_channel_msg_cases m) as [(_ & _ & Em & Ea)|(Et & _ & Em)];
    split; rewrite ?E1, ?E2, ?E3, ?Er, ?Ep, ?omap_app, ?Ea, ?Et; try done; cbn [in_hand announced]; rewrite ?app_nil_r.
  - intros Hc _. rewrite Em, app_assoc. specialize (H1 Hc ltac:(done)). rewrite !app_nil_r in H1. by rewrite H1.
  - by apply prefix_app_r.
  - intros Hc _. cbn. rewrite Em. specialize (H1 Hc ltac:(done)). rewrite !app_nil_r in *. done.
  - by apply prefix_app_r.
Qed.

Lemma output_sent b b' :
  driver_sends b = Some b' -> output_exact b -> output_exact b'.
Proof.
  unfold driver_sends, send_output. intros H [H1 H2 H3]. destruct (br_phase b) as [|e|r|r|o] eqn:Ep; try done; cbn in *.
  - destruct (br_consumer b) eqn:Ec; cbn [negb mbind option_bind] in H.
    + destruct (len (br_output b) <? _); [|done]. injection H as <-. specialize (H1 eq_refl ltac:(done)).
      assert (Hp : running (after_send e true) = true) by (by destruct e).
      split; cbn; rewrite ?(announced_running _ Hp); try done; change (received _) with (received b).
      * intros _ _. rewrite <- app_assoc. by destruct e.
      * by rewrite H1.
    + injection H as <-. rewrite app_nil_r in H2.
      split; cbn; [by rewrite Ec| |by auto].
      destruct e; cbn; by rewrite app_nil_r.
  - rewrite app_nil_r in *. destruct (br_consumer b) eqn:Ec; cbn [negb mbind option_bind] in H.
    + destruct (len (br_output b) <? _); [|done]. injection H as <-. specialize (H1 eq_refl ltac:(done)).
      rewrite ?app_nil_r in H1. split; cbn; try done; change (received _) with (received b).
      * intros _ _. by rewrite app_nil_r, app_assoc, H1.
      * by rewrite app_assoc, H1.
    + injection H as <-. split; cbn; [by rewrite Ec| |by auto].
      change (received _) with (received b). by apply prefix_app_r.
Qed.

(** A step of the driver that ends its loop or its task *)
Lemma output_turn b b' :
  received b' = received b -> br_output b' = br_output b -> br_consumer b' = br_consumer b -> br_read b' = br_read b ->
  announced (br_phase b') = announced (br_phase b) ->
  br_phase b' = Gone None \/ in_hand (br_phase b') = in_hand (br_phase b) /\ br_phase b <> Gone None ->
  output_exact b -> output_exact b'.
Proof. intros. apply (output_same b); [|done]. split_and!; try done. by right. Qed.

Lemma output_reads b b' : br_phase b = AtSelect -> driver_reads b = Some b' -> output_exact b -> output_exact b'.
Proof.
  intros Ep H Ho. unfold driver_reads in H. destruct (br_incoming b) as [|m rest].
  - destruct (br_hung_up b); [|done]. injection H as <-.
    apply (output_turn b); try done; cbn; rewrite Ep; [done|by right].
  - injection H as <-. by apply (output_read m b).
Qed.

Lemma output_receives b b' : bridge_step ConsumerReceives b = Some b' -> output_exact b -> output_exact b'.
Proof.
  cbn [bridge_step]. destruct (br_consumer b) eqn:Ec; [|done]. cbn [negb].
  destruct (br_output b) as [|e rest] eqn:Eo; [done|]. intros [= <-] [H1 H2 H3].
  rewrite Eo in *. split; rewrite ?received_note; cbn; change (received (set_output _ _ b)) with (received b).
  - intros _ Hn. rewrite <- app_assoc. by apply H1.
  - by rewrite <- app_assoc.
  - done.
Qed.

Lemma at_select_inv (f : Bridge -> option Bridge) b b' :
  (if at_select b then f b else None) = Some b' -> br_phase b = AtSelect /\ f b = Some b'.
Proof. unfold at_select. by destruct (br_phase b). Qed.

Lemma output_step ev b b' : bridge_step ev b = Some b' -> output_exact b -> output_exact b'.
Proof.
  intros H Ho. destruct ev; try (apply (output_same b); [|done]; step_cases H; unfold same_output;
    rewrite ?received_note; cbn; rewrite ?app_nil_r; split_and!; by eauto).
  - by apply (output_receives b).
  - destruct Ho as [H1 H2 H3]. injection H as <-. split; cbn; [done| |done].
    change (received _) with (received b). rewrite app_nil_r. etransitivity; [|exact H2]. by apply prefix_app_r.
  - apply (at_select_inv driver_reads) in H as [Ep H]. by apply (output_reads b).
  - apply (at_select_inv (driver_input ok)) in H as [Ep H]. unfold driver_input in H.
    destruct (br_input b); [destruct (_ || _); [done|]|destruct ok]; injection H as <-;
      apply (output_turn b); try done; cbn; rewrite ?Ep; try done; by right.
  - apply (at_select_inv driver_resize) in H as [Ep H]. unfold driver_resize in H.
    destruct (br_resize b) as [|[]]; [destruct (_ || _); [done|]|]; injection H as <-;
      apply (output_turn b); try done; cbn; rewrite ?Ep; try done; by right.
  - by apply (output_sent b).
  - cbn in H. unfold driver_closes in H. destruct (br_phase b) as [| | |r|] eqn:Ep; try done. injection H as <-.
    apply (output_turn b); try done; cbn; rewrite Ep; [done|by right].
  - cbn in H. unfold driver_aborted in H. destruct (br_phase b) as [|e|r|r|] eqn:Ep; try done; injection H as <-;
      apply (output_turn b); try done; cbn; rewrite ?Ep; try done; by auto.
Qed.

Lemma sent_act a b : sent (act_on_channel a b) = sent b ++ match a with ActData x => [x] | _ => [] end.
Proof. unfold sent. cbn. rewrite omap_app. by destruct a. Qed.

Lemma input_gone b b' :
  accepted b' = accepted b -> sent b' = sent b -> running (br_phase b') = false -> input_exact b -> input_exact b'.
Proof. intros E1 E2 Ep [_ H2]. split; rewrite ?E1, ?E2, ?Ep; [done|done]. Qed.

Lemma input_turn b b' :
  accepted b' = accepted b -> sent b' = sent b -> br_input b' = br_input b ->
  running (br_phase b) = true \/ running (br_phase b') = false ->
  input_exact b -> input_exact b'.
Proof.
  intros E1 E2 E3 Hr. apply input_same. split_and!; try done. destruct Hr as [|Hr]; [done|]. by rewrite Hr.
Qed.

Lemma input_driver ok b b' : br_phase b = AtSelect -> driver_input ok b = Some b' -> input_exact b -> input_exact b'.
Proof.
  intros Ep H Hi. unfold driver_input in H. destruct (br_input b) as [|x rest] eqn:Ei.
  - destruct (_ || _); [done|]. injection H as <-. by apply (input_gone b).
  - injection H as <-. destruct ok.
    + destruct Hi as [H1 H2]. rewrite Ep, Ei in H1. specialize (H1 eq_refl).
      split; rewrite sent_act; cbn; change (accepted _) with (accepted b); change (sent _) with (sent b); rewrite H1.
      * intros _. by rewrite <- app_assoc.
      * exists rest. by rewrite <- app_assoc.
    + apply (input_gone b); try done. trans (sent (act_on_channel (ActDataFailed x) b)); [done|].
      by rewrite sent_act, app_nil_r.
Qed.

Lemma input_step ev b b' : bridge_step ev b = Some b' -> input_exact b -> input_exact b'.
Proof.
  intros H Hi. destruct ev; try (apply (input_same b); [|done]; step_cases H; unfold same_input;
    rewrite ?accepted_note; cbn; rewrite ?app_nil_r; split_and!; by eauto).
  - cbn in H. unfold writer_sends in H. destruct (br_writers b !! i) as [x|]; [|done]. cbn in H.
    destruct (is_gone (br_phase b)); [|destruct (len (br_input b) <? _); [|done]]; injection H as <-.
    + apply (input_same b); [|done]. split_and!; rewrite ?accepted_note, ?app_nil_r; done.
    + destruct Hi as [H1 H2]. split; rewrite ?accepted_note; cbn; change (accepted _) with (accepted b);
        change (sent _) with (sent b).
      * intros Hr. by rewrite (H1 Hr), <- app_assoc.
      * by apply prefix_app_r.
  - apply (at_select_inv driver_reads) in H as [Ep H]. unfold driver_reads in H.
    destruct (br_incoming b); [destruct (br_hung_up b); [|done]|]; injection H as <-;
      apply (input_turn b); try done; left; by rewrite Ep.
  - apply (at_select_inv (driver_input ok)) in H as [Ep H]. by apply (input_driver ok b).
  - apply (at_select_inv driver_resize) in H as [Ep H]. unfold driver_resize in H.
    destruct (br_resize b) as [|[]]; [destruct (_ || _); [done|]|]; injection H as <-;
      apply (input_turn b); try done; rewrite ?sent_act, ?app_nil_r; try done; left; by rewrite Ep.
  - cbn in H. unfold driver_sends, send_output in H.
    destruct (br_phase b) eqn:Ep; try done; destruct (br_consumer b); cbn in H;
      try (destruct (len (br_output b) <? _); [|done]); injection H as <-; apply (input_turn b); try done;
      rewrite Ep; by auto.
  - cbn in H. unfold driver_closes in H. destruct (br_phase b) eqn:Ep; try done. injection H as <-.
    apply (input_gone b); try done. cbn. unfold leave.
    trans (sent (act_on_channel ActDisconnect (act_on_channel ActClose (act_on_channel ActEof b)))); [done|].
    by rewrite !sent_act, !app_nil_r.
  - cbn in H. unfold driver_aborted in H. destruct (br_phase b); try done; injection H as <-;
      by apply (input_gone b).
Qed.

Lemma bounded_step ev b b' : bridge_step ev b = Some b' -> bounded b -> bounded b'.
Proof.
  intros H [H1 H2 H3]. destruct ev; step_cases H; split; cbn;
    repeat match goal with E : (_ <? _) = true |- _ => apply Z.ltb_lt in E end;
    repeat match goal with E : br_output _ = _ |- _ => rewrite E in * | E : br_input _ = _ |- _ => rewrite E in *
      | E : br_resize _ = _ |- _ => rewrite E in * end;
    rewrite ?len_app, ?len_cons, ?len_nil in *; unfold DEFAULT_PTY_OUTPUT_CHANNEL_CAPACITY,
      DEFAULT_PTY_INPUT_CHANNEL_CAPACITY, DEFAULT_PTY_RESIZE_CHANNEL_CAPACITY in *; cbn; lia.
Qed.

(** ** Every run *)

Lemma bridged_invariant evs b :
  bridged evs b -> reading evs b /\ output_exact b /\ input_exact b /\ bounded b.
Proof.
  induction 1 as [|evs ev b b' Hb (Hr & Ho & Hi & Hd) Hs].
  - split_and!; split; try done. exists []. split; [done|by left].
  - split_and!; eauto using reading_step, output_step, input_step, bounded_step.
Qed.

(** C28: In every interleaving of the server, the callers, the consumer and the driver: the driver reads the
    messages of the channel in the order in which they came, and stops at the first [Eof] or [Close]; what the
    consumer has received, what waits for it and what the driver holds are together exactly the events those
    messages stand for - standard error included - followed by one [Closed] when the driver has announced it;
    a consumer that has gone away has seen a prefix of that.  Input reaches the channel in the order in which
    the calls succeeded, without a gap while the driver loops.  No queue outgrows its capacity. *)
Theorem bridge_streams_exact evs b :
  bridged evs b ->
  told evs = br_read b ++ br_incoming b
  /\ (exists l, Forall (fun m => ends m = false) l
       /\ (br_read b = l \/ exists m, ends m = true /\ br_read b = l ++ [m]))
  /\ (br_consumer b = true -> br_phase b <> Gone None ->
      received b ++ br_output b ++ in_hand (br_phase b) = omap event_of (br_read b) ++ announced (br_phase b))
  /\ received b `prefix_of` omap event_of (br_read b) ++ announced (br_phase b)
  /\ sent b `prefix_of` accepted b
  /\ (running (br_phase b) = true -> accepted b = sent b ++ br_input b)
  /\ bounded b.
Proof.
  intros Hb. destruct (bridged_invariant _ _ Hb) as ([R1 _ R3] & [O1 O2 _] & [I1 I2] & Hd).
  split_and!; try done. etransitivity; [|exact O2]. by apply prefix_app_r.
Qed.

(** ** The end of a closed bridge *)

(** What the tasks of the bridge and its callers do by themselves, once nothing more is asked of it *)
Definition internal (ev : BridgeEvent) : bool :=
  match ev with
  | WriterSends _ | ResizerSends _ | ConsumerReceives
  | DriverReads | DriverInput _ | DriverResize | DriverSends | DriverCloses => true
  | _ => false
  end.

(** Bounds the internal events that can still happen. *)
Definition phase_work (p : DriverPhase) : nat :=
  match p with SendingEvent _ => 6 | AtSelect => 4 | TearingDown _ => 3 | Closing _ => 1 | Gone _ => 0 end%nat.
Definition work (b : Bridge) : nat :=
  (4 * length (br_incoming b) + length (br_output b) + length (br_input b) + length (br_resize b)
   + 2 * length (br_writers b) + 2 * length (br_resizers b) + phase_work (br_phase b))%nat.

Record closed (b : Bridge) : Prop := {
  cl_input : br_input_tx b = false;
  cl_resize : br_resize_tx b = false;
  cl_consumer : br_consumer b = true;
  cl_phase : br_phase b <> Gone None
}.

Lemma phase_work_msg m : (phase_work (on_channel_msg m) <= 6)%nat.
Proof. destruct m as [|d ext| | | |]; cbn; try destruct (ext =? 1); cbn; lia. Qed.

Lemma msg_not_gone m o : on_channel_msg m <> Gone o.
Proof. destruct m as [|d ext| | | |]; cbn; try done. by destruct (ext =? 1). Qed.

Lemma after_send_work e sent : (phase_work (after_send e sent) <= 4)%nat.
Proof. destruct e, sent; cbn; lia. Qed.

Lemma closed_step ev b b' :
  internal ev = true -> bridge_step ev b = Some b' -> closed b -> closed b'.
Proof.
  intros Hi H [H1 H2 H3 H4]. destruct ev; try discriminate Hi; step_cases H; split; cbn; try done;
    try (by destruct e as [| |]); try congruence. by apply msg_not_gone.
Qed.

Lemma length_delete_lookup {A} (l : list A) i x : l !! i = Some x -> length l = S (length (delete i l)).
Proof.
  intros E. assert (Hl := lookup_lt_Some _ _ _ E). rewrite length_delete by eauto. lia.
Qed.

Lemma work_step ev b b' :
  internal ev = true -> bridge_step ev b = Some b' -> (work b' < work b)%nat.
Proof.
  intros Hi H. destruct ev; try discriminate Hi; step_cases H; unfold work; cbn [leave set_phase set_resize
    set_input set_output set_incoming note_read note_seen act_on_channel br_incoming br_output br_input br_resize
    br_writers br_resizers br_phase];
  repeat match goal with E : _ !! _ = Some _ |- _ => apply length_delete_lookup in E; rewrite E; clear E end;
  repeat match goal with E : br_phase _ = _ |- _ => rewrite E; clear E | E : br_output _ = _ |- _ => rewrite E; clear E
    | E : br_input _ = _ |- _ => rewrite E; clear E | E : br_resize _ = _ |- _ => rewrite E; clear E
    | E : br_incoming _ = _ |- _ => rewrite E; clear E end;
  try match goal with |- context [on_channel_msg ?m] => pose proof (phase_work_msg m) end;
  try match goal with |- context [after_send ?e ?s] => pose proof (after_send_work e s) end;
  rewrite ?length_app; cbn [length phase_work]; lia.
Qed.

(** No run of internal events gets stuck before the driver is gone and everything has been delivered. *)
Lemma closed_progress b :
  closed b -> (forall ev, internal ev = true -> bridge_step ev b = None) ->
  is_gone (br_phase b) = true /\ br_output b = [] /\ br_writers b = [] /\ br_resizers b = [].
Proof.
  intros [H1 H2 H3 H4] Hn.
  assert (Ho : br_output b = []).
  { specialize (Hn ConsumerReceives eq_refl). cbn in Hn. rewrite H3 in Hn. by destruct (br_output b). }
  assert (Hg : is_gone (br_phase b) = true).
  { destruct (br_phase b) eqn:Ep; [| | | |done].
    - assert (Hi := Hn (DriverInput true) eq_refl). assert (Hw := Hn (WriterSends 0) eq_refl).
      cbn in Hi, Hw. unfold at_select, driver_input, writer_sends in Hi, Hw. rewrite Ep, H1 in Hi.
      destruct (br_input b); [|done]. destruct (br_writers b); [done|].
      cbn in Hw. by destruct (is_gone (br_phase b)).
    - specialize (Hn DriverSends eq_refl). cbn in Hn. unfold driver_sends, send_output in Hn.
      by rewrite Ep, H3, Ho in Hn.
    - specialize (Hn DriverSends eq_refl). cbn in Hn. unfold driver_sends, send_output in Hn.
      by rewrite Ep, H3, Ho in Hn.
    - specialize (Hn DriverCloses eq_refl). cbn in Hn. unfold driver_closes in Hn. by rewrite Ep in Hn. }
  split_and!; try done.
  - specialize (Hn (WriterSends 0) eq_refl). cbn in Hn. unfold writer_sends in Hn.
    destruct (br_writers b); [done|]. cbn in Hn. by rewrite Hg in Hn.
  - specialize (Hn (ResizerSends 0) eq_refl). cbn in Hn. unfold resizer_sends in Hn.
    destruct (br_resizers b); [done|]. cbn in Hn. by rewrite Hg in Hn.
Qed.

Lemma closed_run tail b b' :
  Forall (fun ev => internal ev = true) tail -> bridge_run tail b = Some b' -> closed b ->
  closed b' /\ (length tail + work b' <= work b)%nat.
Proof.
  intros Ht. revert b. induction Ht as [|ev tail Hi _ IH]; intros b; cbn [bridge_run].
  - intros [= <-] Hc. split; [done|]. cbn [length]. lia.
  - destruct (bridge_step ev b) as [b1|] eqn:E; [|done]. cbn [mbind option_bind]. intros Hr Hc.
    destruct (IH b1 Hr) as [Hc' Hw]; [by apply (closed_step ev b)|].
    split; [done|]. assert (Hs := work_step ev b b1 Hi E). cbn [length]. lia.
Qed.


(** ** Concrete runs *)

Definition line (n : Byte.byte) : list Byte.byte := [n; Byte.x0a].

(** Output, standard error, an exit status and late output; input; then the server ends the stream. *)
Definition busy_run : list BridgeEvent :=
  [ServerSends (ChData (line Byte.x61)); CallWrite (line Byte.x62); DriverReads; WriterSends 0;
   ServerSends (ChExtendedData (line Byte.x63) 1); DriverSends; DriverInput true; DriverReads; DriverSends;
   ServerSends (ChExitStatus 4294967295); ServerSends (ChData (line Byte.x64)); ServerSends ChEof;
   ServerSends ChClose; ConsumerReceives; DriverReads; DriverSends; DriverReads; DriverSends; DriverReads].

Definition run_to (evs : list BridgeEvent) : Bridge := default new_bridge (bridge_run evs new_bridge).

Definition ran (evs : list BridgeEvent) : bool := match bridge_run evs new_bridge with Some _ => true | None => false end.

Lemma run_to_bridged evs : ran evs = true -> bridged evs (run_to evs).
Proof.
  unfold ran, run_to. intros Hr. destruct (bridge_run evs new_bridge) as [b|] eqn:E; [|done].
  exact (run_bridged [] evs _ _ bridged_start E).
Qed.

Lemma bridge_streams_exact_witness :
  br_phase (run_to busy_run) = TearingDown RemoteEof
  /\ received (run_to busy_run) ++ br_output (run_to busy_run) ++ []
     = [PtyOutput (line Byte.x61); PtyOutput (line Byte.x63); PtyExit (-1); PtyOutput (line Byte.x64)] ++ [].
Proof.
  assert (Hb : bridged busy_run (run_to busy_run)) by (apply run_to_bridged; vm_compute; reflexivity).
  destruct (bridge_streams_exact busy_run _ Hb) as (_ & _ & H & _).
  split; [vm_compute; reflexivity|]. apply H; vm_compute; [reflexivity|discriminate].
Defined.

(** The handle is closed after the exit status, with a call waiting and a resize queued. *)
Definition closing_run : list BridgeEvent :=
  [CallResize 80 24; ResizerSends 0; ServerSends (ChData (line Byte.x61)); CallWrite (line Byte.x62); CallClose].
Definition closing_tail : list BridgeEvent :=
  [DriverReads; DriverSends; DriverResize; DriverResize; ConsumerReceives; WriterSends 0; DriverSends; DriverCloses;
   ConsumerReceives].


(** Input that was accepted is lost when the handle is closed, because the closed resize queue alone makes the
    driver leave: here nothing of the accepted line reaches the channel, although it was open all the time. *)
Definition losing_run : list BridgeEvent :=
  [CallWrite (line Byte.x62); WriterSends 0; CallClose; DriverResize; DriverSends; DriverCloses].

Example close_loses_input :
  accepted (run_to losing_run) = [line Byte.x62] /\ sent (run_to losing_run) = []
  /\ br_acts (run_to losing_run) = [ActEof; ActClose; ActDisconnect].
Proof. vm_compute. by split_and!. Qed.

(** A server that closes its side before it reports the status: the status is never read. *)
Example status_after_eof_lost :
  let b := run_to [ServerSends ChEof; ServerSends (ChExitStatus 1); ServerSends ChClose; DriverReads; DriverSends;
                   DriverCloses; ConsumerReceives] in
  received b = [PtyClosed RemoteEof] /\ br_incoming b = [ChExitStatus 1; ChClose].
Proof. vm_compute. by split_and!. Qed.
