(* ===== verification/HostKey.v ===== *)
(** * Host-key trust: the SSH side

    Models [crates/relayterm-ssh/src/preflight.rs] (the classification of a captured host key and
    the preflight service), [auth_check.rs] (the credential check with its permits and its time
    budget), and the three clients of the SSH library: [russh_probe.rs], [russh_auth.rs] and the
    start of a PTY in [russh_pty.rs].  The library itself ([russh], [ssh-key]) is the class
    [Russh], without laws: which key a server presents, whether a connection or an authentication
    succeeds, fails or times out is arbitrary.  What is recorded is every request to authenticate
    that is sent, with the key of the server it is sent to. *)

From S2P Require Import Prelude Core Prog AuthStore Auth Inventory.

(** ** The SSH library *)

(** [ssh_key::Algorithm] as far as it is told apart. *)
Inductive EcdsaCurve := NistP256 | NistP384 | NistP521.
Inductive Algorithm := AlgEd25519 | AlgRsa | AlgDsa | AlgEcdsa (curve : EcdsaCurve) | AlgOther.

(** A server's public key, by what the code asks of it. *)
Record ServerKey := mkServerKey {
  svk_algorithm : Algorithm; svk_fingerprint : rstr; svk_to_bytes : option (list Byte.byte)
}.

(** [std::io::ErrorKind] and [russh::Error] *)
Inductive IoErrorKind :=
| TimedOut | ConnectionRefused | ConnectionReset | ConnectionAborted | NotConnected
| HostUnreachable | NetworkUnreachable | AddrNotAvailable | OtherIo.
Inductive RusshError := RusshIo (kind : IoErrorKind) | RusshOther.

(** [tokio::time::timeout] *)
Inductive timed (A : Type) := Elapsed | InTime (a : A).
Arguments Elapsed {A}.
Arguments InTime {A} _.

(** The [n]-th connection: the key presented at key exchange, if it gets that far; the end of
    [connect], given the verdict of [check_server_key]; the end of [authenticate_publickey]; and
    the three requests that open a shell.  [auth_check_budget] is the number of actions a
    credential check performs before its time is up. *)
Class Russh := {
  ssh_key_parses : list Byte.byte -> bool;
  russh_key_parses : list Byte.byte -> bool;
  kex_key : nat -> rstr -> Z -> option ServerKey;
  connect_outcome : nat -> option bool -> timed (result RusshError unit);
  auth_outcome : nat -> rstr -> timed (result RusshError bool);
  channel_opens : nat -> bool;
  pty_granted : nat -> bool;
  shell_starts : nat -> bool;
  auth_check_budget : nat -> nat
}.

(** ** The shared state *)

(** A request to authenticate: the connection it is sent on, the user, and the key the server had
    presented. *)
Record Signature := mkSignature {
  sg_conn : nat; sg_host_id : HostId; sg_username : rstr; sg_server : option ServerKey
}.

Record TrustWorld := mkTrustWorld {
  tw_auth : AuthWorld;
  tw_hosts : gmap HostId HostRow;
  tw_identities : gmap SshIdentityId SshIdentityRow;
  tw_profiles : gmap ServerProfileId ServerProfile;
  tw_known : gmap KnownHostEntryId KnownHostEntryRow;
  tw_permits : Z;
  tw_conns : nat;
  tw_signed : list Signature
}.

Definition tw_db (w : TrustWorld) : TrustDb :=
  mkTrustDb (aw_db (tw_auth w)) (tw_hosts w) (tw_identities w) (tw_profiles w) (tw_known w).
Definition set_tw_auth (a : AuthWorld) (w : TrustWorld) : TrustWorld :=
  mkTrustWorld a (tw_hosts w) (tw_identities w) (tw_profiles w) (tw_known w) (tw_permits w) (tw_conns w)
    (tw_signed w).
Definition set_tw_db (d : TrustDb) (w : TrustWorld) : TrustWorld :=
  mkTrustWorld (set_auth_db (td_auth d) (tw_auth w)) (td_hosts d) (td_identities d) (td_profiles d)
    (td_known d) (tw_permits w) (tw_conns w) (tw_signed w).
Definition set_permits (n : Z) (w : TrustWorld) : TrustWorld :=
  mkTrustWorld (tw_auth w) (tw_hosts w) (tw_identities w) (tw_profiles w) (tw_known w) n (tw_conns w)
    (tw_signed w).

(** A repository call. *)
Definition trepo {A} (f : TrustDb -> result RepositoryError A * TrustDb)
  : prog TrustWorld (result RepositoryError A) :=
  act (fun w => let '(r, d) := f (tw_db w) in (r, set_tw_db d w)).

(** A program of the authentication routes, on their part of the state. *)
Fixpoint on_auth {A} (p : prog AuthWorld A) : prog TrustWorld A :=
  match p with
  | Ret a => Ret a
  | Atomic f k => Atomic (fun w => let '(x, a) := f (tw_auth w) in (x, set_tw_auth a w))
                    (fun x => on_auth (k x))
  end.

(** [russh::client::connect] dials; the number of the connection stands for the session. *)
Definition dial (w : TrustWorld) : nat * TrustWorld :=
  (tw_conns w,
   mkTrustWorld (tw_auth w) (tw_hosts w) (tw_identities w) (tw_profiles w) (tw_known w) (tw_permits w)
     (S (tw_conns w)) (tw_signed w)).

(** [Handle::authenticate_publickey] sends a signature. *)
Definition sign (s : Signature) (w : TrustWorld) : unit * TrustWorld :=
  (tt, mkTrustWorld (tw_auth w) (tw_hosts w) (tw_identities w) (tw_profiles w) (tw_known w) (tw_permits w)
         (tw_conns w) (tw_signed w ++ [s])).

(** ** [preflight.rs] *)

(** [CapturedHostKey] *)
Record CapturedHostKey := mkCaptured {
  cp_key_type : SshKeyType; cp_fingerprint_sha256 : rstr; cp_public_key : list Byte.byte
}.

(** [HostKeyStatus] *)
Inductive HostKeyStatus := HkUnknown | HkTrusted | HkChanged.

#[export] Instance HostKeyStatus_eq_dec : EqDecision HostKeyStatus.
Proof. solve_decision. Defined.

(** [ProbeError] and [HostKeyPreflightError] *)
Inductive ProbeError := PrUnreachable | PrTimeout | PrBadHostKey | PrTransport.
Inductive HostKeyPreflightError := PfInvalidIdentity | PfProbe (e : ProbeError).

Definition not_revoked (e : KnownHostEntry) : bool := bool_decide (kh_revoked_at e = None).
Definition matches (c : CapturedHostKey) (e : KnownHostEntry) : bool :=
  bool_decide (kh_key_type e = cp_key_type c)
  && bool_decide (kh_fingerprint_sha256 e = cp_fingerprint_sha256 c).

(** [classify_host_key] *)
Definition classify_host_key (captured : CapturedHostKey) (known : list KnownHostEntry) : HostKeyStatus :=
  let active := filter (fun e => not_revoked e = true) known in
  match head (filter (fun e => matches captured e = true) active) with
  | Some matching => if bool_decide (is_Some (kh_trusted_at matching)) then HkTrusted else HkUnknown
  | None =>
      if existsb (fun e => bool_decide (kh_key_type e = cp_key_type captured)
                           && negb (bool_decide (kh_fingerprint_sha256 e = cp_fingerprint_sha256 captured)))
           active
      then HkChanged else HkUnknown
  end.

(** [HostKeyPreflightRequest]; [ProbeTarget] is its host name and port. *)
Record HostKeyPreflightRequest := mkPreflight {
  pf_host_id : HostId; pf_hostname : rstr; pf_port : Z; pf_username : rstr;
  pf_private_key_pem : list Byte.byte
}.

(** [HostKeyPreflightResult] *)
Record HostKeyPreflightResult := mkPreflightResult {
  pr_captured : CapturedHostKey; pr_status : HostKeyStatus
}.

(** [AuthCheckTarget]; [at_host_id] is the [host_id] of the request, kept for the record of the
    signatures. *)
Record AuthCheckTarget := mkAuthTarget {
  at_host_id : HostId; at_hostname : rstr; at_port : Z; at_username : rstr;
  at_accept_pins : list (SshKeyType * rstr); at_private_key_pem : list Byte.byte
}.

(** [AuthAttemptKind] and [AuthCheckOutcome] *)
Inductive AuthAttemptKind := Authenticated | AttemptFailed | HostKeyMismatchKind.
Record AuthCheckOutcome := mkOutcome { ao_captured : CapturedHostKey; ao_kind : AuthAttemptKind }.

(** [SshHostKeyProbe] and [SshAuthChecker], the traits of the two network operations. *)
Class SshHostKeyProbe :=
  capture_host_key : rstr -> Z -> prog TrustWorld (result ProbeError CapturedHostKey).
Class SshAuthChecker :=
  run_auth_check : AuthCheckTarget -> prog TrustWorld (result ProbeError AuthCheckOutcome).

Section preflight.
Context {Rs : Russh} {Pb : SshHostKeyProbe}.

(** [HostKeyPreflightService::preflight] *)
Definition preflight (req : HostKeyPreflightRequest) (known : list KnownHostEntry)
  : prog TrustWorld (result HostKeyPreflightError HostKeyPreflightResult) :=
  if negb (ssh_key_parses (pf_private_key_pem req)) then Ret (Err PfInvalidIdentity) else
  do! r <- capture_host_key (pf_hostname req) (pf_port req);
  Ret (match r with
       | Err e => Err (PfProbe e)
       | Ok captured => Ok (mkPreflightResult captured (classify_host_key captured known))
       end).

End preflight.

(** ** [auth_check.rs] *)

(** [SshAuthCheckStatus] and [SshAuthCheckError] *)
Inductive SshAuthCheckStatus :=
| AcAuthenticationSucceeded | AcAuthenticationFailed | AcHostKeyUnknown | AcHostKeyChanged
| AcConnectionFailed.
Inductive SshAuthCheckError := AcInvalidIdentity | AcSaturated.

(** The pins that count: trusted and not revoked. *)
Definition accept_pins (known : list KnownHostEntry) : list (SshKeyType * rstr) :=
  map (fun e => (kh_key_type e, kh_fingerprint_sha256 e))
    (filter (fun e => not_revoked e && bool_decide (is_Some (kh_trusted_at e)) = true) known).

(** [tokio::time::timeout] drops the future when the time is up: the first [n] actions of [p]
    happen, then [p] is gone. *)
Fixpoint cut {W A} (n : nat) (p : prog W A) {struct p} : prog W (option A) :=
  match p with
  | Ret a => Ret (Some a)
  | Atomic f k => match n with O => Ret None | S n => Atomic f (fun x => cut n (k x)) end
  end.

(** [Semaphore::try_acquire_owned] and the drop of the permit *)
Definition try_acquire (w : TrustWorld) : bool * TrustWorld :=
  if 0 <? tw_permits w then (true, set_permits (tw_permits w - 1) w) else (false, w).
Definition release (w : TrustWorld) : unit * TrustWorld := (tt, set_permits (tw_permits w + 1) w).

Section auth_check.
Context {Rs : Russh} {Ck : SshAuthChecker}.

(** The end of [auth_check]: from the outcome on the network to the status. *)
Definition auth_check_status (known : list KnownHostEntry) (o : option (result ProbeError AuthCheckOutcome))
  : SshAuthCheckStatus :=
  match o with
  | None => AcConnectionFailed
  | Some (Err _) => AcConnectionFailed
  | Some (Ok outcome) =>
      match ao_kind outcome with
      | Authenticated => AcAuthenticationSucceeded
      | AttemptFailed => AcAuthenticationFailed
      | HostKeyMismatchKind =>
          match classify_host_key (ao_captured outcome) known with
          | HkChanged => AcHostKeyChanged
          | HkTrusted | HkUnknown => AcHostKeyUnknown
          end
      end
  end.

(** [SshAuthCheckService::auth_check]; [req] carries the target without the pins. *)
Definition auth_check (req : HostKeyPreflightRequest) (known : list KnownHostEntry)
  : prog TrustWorld (result SshAuthCheckError SshAuthCheckStatus) :=
  if negb (ssh_key_parses (pf_private_key_pem req)) then Ret (Err AcInvalidIdentity) else
  let pins := accept_pins known in
  do! permit <- act try_acquire;
  if negb permit then Ret (Err AcSaturated) else
  let target := mkAuthTarget (pf_host_id req) (pf_hostname req) (pf_port req) (pf_username req) pins
                  (pf_private_key_pem req) in
  do! budget <- act (fun w => (auth_check_budget (tw_conns w), w));
  do! outcome <- cut budget (run_auth_check target);
  do! _ <- act release;
  Ret (Ok (auth_check_status known outcome)).

End auth_check.

(** ** The russh clients *)

(** [key_type_from_algorithm] *)
Definition key_type_from_algorithm (alg : Algorithm) : option SshKeyType :=
  match alg with
  | AlgEd25519 => Some Ed25519
  | AlgRsa => Some Rsa
  | AlgEcdsa NistP256 => Some EcdsaP256
  | AlgEcdsa NistP384 => Some EcdsaP384
  | AlgEcdsa NistP521 => Some EcdsaP521
  | AlgDsa | AlgOther => None
  end.

(** [map_io_error_kind] and [map_russh_error] *)
Definition map_io_error_kind (kind : IoErrorKind) : ProbeError :=
  match kind with
  | TimedOut => PrTimeout
  | ConnectionRefused | ConnectionReset | ConnectionAborted | NotConnected | HostUnreachable
  | NetworkUnreachable | AddrNotAvailable => PrUnreachable
  | OtherIo => PrTransport
  end.
Definition map_russh_error (e : RusshError) : ProbeError :=
  match e with RusshIo kind => map_io_error_kind kind | RusshOther => PrTransport end.

(** What a handler has seen: the captured key, whether it matched a pin, and its verdict. *)
Record Handled := mkHandled {
  hd_captured : option CapturedHostKey; hd_pin_match : bool; hd_verdict : option bool
}.

Definition capture (k : ServerKey) : option CapturedHostKey :=
  kt ← key_type_from_algorithm (svk_algorithm k);
  bytes ← svk_to_bytes k;
  Some (mkCaptured kt (svk_fingerprint k) bytes).

Definition pinned (pins : list (SshKeyType * rstr)) (c : CapturedHostKey) : bool :=
  existsb (fun p => bool_decide (p.1 = cp_key_type c) && bool_decide (p.2 = cp_fingerprint_sha256 c)) pins.

(** [check_server_key] of [AuthHandler] and of [PtyHandler], run when a key is presented. *)
Definition check_server_key (pins : list (SshKeyType * rstr)) (key : option ServerKey) : Handled :=
  match key with
  | None => mkHandled None false None
  | Some k =>
      match capture k with
      | None => mkHandled None false (Some false)
      | Some c => mkHandled (Some c) (pinned pins c) (Some (pinned pins c))
      end
  end.

(** [check_server_key] of [CaptureHandler] *)
Definition capture_server_key (key : option ServerKey) : Handled :=
  match key with
  | None => mkHandled None false None
  | Some k =>
      match capture k with
      | None => mkHandled None false (Some false)
      | Some c => mkHandled (Some c) false (Some true)
      end
  end.

Section russh.
Context {Rs : Russh}.

(** [RusshHostKeyProbe::capture_host_key] *)
Definition russh_capture_host_key (hostname : rstr) (port : Z)
  : prog TrustWorld (result ProbeError CapturedHostKey) :=
  do! n <- act dial;
  let h := capture_server_key (kex_key n hostname port) in
  Ret (match connect_outcome n (hd_verdict h) with
       | Elapsed => Err PrTimeout
       | InTime (Err e) => Err (map_russh_error e)
       | InTime (Ok _) => ok_or (hd_captured h) PrBadHostKey
       end).

(** [RusshAuthChecker::run] *)
Definition russh_auth_check (target : AuthCheckTarget)
  : prog TrustWorld (result ProbeError AuthCheckOutcome) :=
  if negb (russh_key_parses (at_private_key_pem target)) then Ret (Err PrTransport) else
  do! n <- act dial;
  let key := kex_key n (at_hostname target) (at_port target) in
  let h := check_server_key (at_accept_pins target) key in
  match connect_outcome n (hd_verdict h) with
  | Elapsed => Ret (Err PrTimeout)
  | InTime (Err e) => Ret (Err (map_russh_error e))
  | InTime (Ok _) =>
      if negb (hd_pin_match h) then
        Ret (let? captured := ok_or (hd_captured h) PrBadHostKey in
             Ok (mkOutcome captured HostKeyMismatchKind))
      else
        do? captured <- Ret (ok_or (hd_captured h) PrBadHostKey);
        do! _ <- act (sign (mkSignature n (at_host_id target) (at_username target) key));
        Ret (match auth_outcome n (at_username target) with
             | Elapsed => Err PrTimeout
             | InTime (Err e) => Err (map_russh_error e)
             | InTime (Ok success) =>
                 Ok (mkOutcome captured (if (success : bool) then Authenticated else AttemptFailed))
             end)
  end.

#[export] Instance RusshHostKeyProbe : SshHostKeyProbe := russh_capture_host_key.
#[export] Instance RusshAuthChecker : SshAuthChecker := russh_auth_check.

(** [SshPtyConfig] and [SshPtyTarget], without the dimensions of the window *)
Record SshPtyTarget := mkPtyTarget {
  pt_host_id : HostId; pt_hostname : rstr; pt_port : Z; pt_username : rstr;
  pt_accept_pins : list (SshKeyType * rstr); pt_private_key_pem : list Byte.byte
}.

Definition probe_error_display (e : ProbeError) : string :=
  match e with
  | PrUnreachable => "ssh peer unreachable"
  | PrTimeout => "ssh handshake timed out"
  | PrBadHostKey => "ssh server presented invalid host key"
  | PrTransport => "ssh transport error"
  end.

(** [RusshPtyBridge::start] up to the spawn of the driver; the handle is the connection. *)
Definition pty_start (target : SshPtyTarget) : prog TrustWorld (result SshPtyError nat) :=
  if negb (russh_key_parses (pt_private_key_pem target)) then Ret (Err InvalidIdentity) else
  do! n <- act dial;
  let key := kex_key n (pt_hostname target) (pt_port target) in
  let h := check_server_key (pt_accept_pins target) key in
  match connect_outcome n (hd_verdict h) with
  | Elapsed => Ret (Err (Transport (probe_error_display PrTimeout)))
  | InTime (Err e) =>
      Ret (Err (if negb (hd_pin_match h) && bool_decide (is_Some (hd_captured h)) then HostKeyNotTrusted
                else Transport (probe_error_display (map_russh_error e))))
  | InTime (Ok _) =>
      if negb (hd_pin_match h) then Ret (Err HostKeyNotTrusted) else
      do! _ <- act (sign (mkSignature n (pt_host_id target) (pt_username target) key));
      Ret (match auth_outcome n (pt_username target) with
           | Elapsed => Err (Transport (probe_error_display PrTimeout))
           | InTime (Err e) => Err (Transport (probe_error_display (map_russh_error e)))
           | InTime (Ok false) => Err AuthenticationFailed
           | InTime (Ok true) =>
               if negb (channel_opens n) then Err PtyStartFailed
               else if negb (pty_granted n) then Err PtyStartFailed
               else if negb (shell_starts n) then Err PtyStartFailed
               else Ok n
           end)
  end.

End russh.
