(* ===== verification/KeyVault.v ===== *)
(** * The credential vault

    Models [crates/relayterm-vault/src/identity.rs] (generation and import of SSH identities) and
    [master_key.rs], on top of the envelope of [Vault.v].  The SSH key library and base64 are
    parameters; the operating system's random bytes are arguments. *)

From S2P Require Import Prelude Utf8 Core AuthStore Inventory Vault HostKey.

(** ** The master key *)

Definition MASTER_KEY_LEN : Z := 32.

(** [MasterKeyError] *)
Inductive MasterKeyError :=
| MkEmpty
| MkWrongLength (expected actual : Z)
| MkBase64 (detail : rstr)
| MkFile (detail : rstr).

(** [base64::engine::general_purpose::STANDARD.decode] *)
Class Base64Standard := base64_decode : rstr -> result rstr (list Byte.byte).

(** [VaultMasterKey::from_base64] *)
Definition from_base64 {B6 : Base64Standard} (input : rstr) : result MasterKeyError (list Byte.byte) :=
  let trimmed := trim input in
  if bool_decide (trimmed = []) then Err MkEmpty
  else
    let? raw := map_err MkBase64 (base64_decode trimmed) in
    if negb (len raw =? MASTER_KEY_LEN) then Err (MkWrongLength MASTER_KEY_LEN (len raw)) else Ok raw.

(** [VaultMasterKey::from_file], given what reading the file answers *)
Definition from_file {B6 : Base64Standard} (contents : result rstr rstr) : result MasterKeyError (list Byte.byte) :=
  let? raw := map_err MkFile contents in from_base64 raw.

(** ** Identities *)

(** [ssh_key::PrivateKey] *)
Class SshKeys := {
  PrivateKey : Type;
  key_random : list Byte.byte -> option PrivateKey;
  key_from_openssh : rstr -> option PrivateKey;
  key_is_encrypted : PrivateKey -> bool;
  key_algorithm : PrivateKey -> Algorithm;
  key_set_comment : rstr -> PrivateKey -> PrivateKey;
  key_public_openssh : PrivateKey -> option rstr;
  key_fingerprint : PrivateKey -> rstr;
  key_to_openssh : PrivateKey -> option rstr
}.

(** [GeneratedSshIdentity] *)
Record GeneratedSshIdentity := mkGenerated {
  gi_key_type : SshKeyType; gi_public_key_openssh : list Byte.byte; gi_fingerprint_sha256 : rstr;
  gi_encrypted_private_key : list Byte.byte
}.

Section identities.
Context {Ae : Aead} {Sk : SshKeys}.
Context (master_key : list Byte.byte).

Definition with_comment (comment : rstr) (key : PrivateKey) : PrivateKey :=
  if bool_decide (comment = []) then key else key_set_comment comment key.

(** What [generate_ssh_identity] and [import_ssh_identity] end with; [nonce] is the draw of the cipher. *)
Definition seal (nonce : list Byte.byte) (key_type : SshKeyType) (private : PrivateKey)
  : result VaultError GeneratedSshIdentity :=
  let? public := ok_or (key_public_openssh private) VPublicKeySerialization in
  let? pem := ok_or (key_to_openssh private) VPrivateKeySerialization in
  let? blob := encrypt master_key nonce (as_bytes pem) in
  Ok (mkGenerated key_type (as_bytes public) (key_fingerprint private) blob).

(** [VaultService::generate_ssh_identity]; [entropy] is what key generation draws. *)
Definition generate_ssh_identity (entropy nonce : list Byte.byte) (key_type : SshKeyType) (comment : rstr)
  : result VaultError GeneratedSshIdentity :=
  match key_type with
  | Ed25519 =>
      let? private := ok_or (key_random entropy) VKeyGeneration in
      seal nonce key_type (with_comment comment private)
  | other => Err (VUnsupportedKeyType (key_type_as_str other))
  end.

(** The algorithm of an imported key *)
Definition imported_key_type (a : Algorithm) : result VaultError SshKeyType :=
  match a with
  | AlgEd25519 => Ok Ed25519
  | AlgRsa => Err (VUnsupportedKeyType "rsa")
  | AlgDsa => Err (VUnsupportedKeyType "dsa")
  | AlgEcdsa NistP256 => Err (VUnsupportedKeyType "ecdsa_p256")
  | AlgEcdsa NistP384 => Err (VUnsupportedKeyType "ecdsa_p384")
  | AlgEcdsa NistP521 => Err (VUnsupportedKeyType "ecdsa_p521")
  | AlgOther => Err (VUnsupportedKeyType "unknown")
  end.

(** [VaultService::import_ssh_identity] *)
Definition import_ssh_identity (nonce pem : list Byte.byte) (name : rstr)
  : result VaultError GeneratedSshIdentity :=
  let? pem_str := ok_or (from_utf8 pem) (VUnsupportedFormat "malformed") in
  let? private := ok_or (key_from_openssh pem_str) (VUnsupportedFormat "malformed") in
  if key_is_encrypted private then Err (VUnsupportedFormat "encrypted")
  else
    let? key_type := imported_key_type (key_algorithm private) in
    seal nonce key_type (with_comment name private).

(** ** What is stored is the key that was announced *)

(** The row holds [key]: its public half and fingerprint in the clear, and its PEM under the master key. *)
Definition holds_key (g : GeneratedSshIdentity) (key : PrivateKey) : Prop :=
  gi_key_type g = Ed25519 /\ gi_fingerprint_sha256 g = key_fingerprint key
  /\ (exists public, key_public_openssh key = Some public /\ gi_public_key_openssh g = as_bytes public)
  /\ exists pem, key_to_openssh key = Some pem
       /\ decrypt_private_key master_key (gi_encrypted_private_key g) = Ok (as_bytes pem).

Lemma seal_holds {Al : AeadLaws} nonce private g :
  len nonce = NONCE_LEN -> seal nonce Ed25519 private = Ok g -> holds_key g private.
Proof.
  intros Hn H. unfold seal in H. apply result_bind_ok in H as (public & Hp & H). apply ok_or_ok in Hp.
  apply result_bind_ok in H as (pem & Hk & H). apply ok_or_ok in Hk.
  apply result_bind_ok in H as (blob & He & H). injection H as <-.
  split; [done|]. split; [done|]. split; [by exists public|]. exists pem. split; [done|].
  by apply (encrypt_decrypt _ nonce).
Qed.

(** C22: the vault stores the key it announces.  An identity that generation or import returns is an
    unencrypted Ed25519 key, the one that was drawn or the one the caller's PEM encodes, under the
    given comment: its public half and fingerprint are that key's, and the stored blob decrypts, under
    the master key, to that key's PEM and to nothing else. *)
Theorem vault_keeps_identity (entropy nonce pem : list Byte.byte) (key_type : SshKeyType) (name : rstr) g :
  AeadLaws -> len nonce = NONCE_LEN ->
  (generate_ssh_identity entropy nonce key_type name = Ok g ->
   key_type = Ed25519 /\ exists key, key_random entropy = Some key /\ holds_key g (with_comment name key))
  /\ (import_ssh_identity nonce pem name = Ok g ->
      exists text key, from_utf8 pem = Some text /\ key_from_openssh text = Some key
        /\ key_is_encrypted key = false /\ key_algorithm key = AlgEd25519 /\ holds_key g (with_comment name key)).
Proof.
  intros Hl Hn. split.
  - intros H. destruct key_type; try done. unfold generate_ssh_identity in H.
    apply result_bind_ok in H as (key & Hk & H). apply ok_or_ok in Hk.
    split; [done|]. exists key. split; [done|]. by apply (seal_holds nonce).
  - intros H. unfold import_ssh_identity in H. apply result_bind_ok in H as (text & Ht & H).
    apply ok_or_ok in Ht. apply result_bind_ok in H as (key & Hk & H). apply ok_or_ok in Hk.
    destruct (key_is_encrypted key) eqn:Ee; [done|]. apply result_bind_ok in H as (kt & Ha & H).
    destruct (key_algorithm key) as [| | |[]|] eqn:Eg; try done. injection Ha as <-.
    exists text, key. split; [done|]. split; [done|]. split; [done|]. split; [done|]. by apply (seal_holds nonce).
Qed.
End identities.
