(* ===== verification/ConfigSpec.v ===== *)
(** * What the configuration guarantees

    Where the value of a field comes from and when loading fails; which configurations the validators
    accept; what the mask hides. *)

From S2P Require Import Prelude Utf8 Core AuthStore Inventory Vault HostKey KeyVault Config.

(** ** Numbers *)

Definition digits_value (ds : rstr) : Z := foldl (fun acc c => 10 * acc + (c - 48)) 0 ds.
Definition is_digit (c : Z) : Prop := 48 <= c <= 57.

(** A decimal numeral, with or without a plus sign. *)
Definition numeral (s : rstr) (n : Z) : Prop :=
  exists ds, (s = ds \/ s = 43 :: ds) /\ ds <> [] /\ Forall is_digit ds /\ n = digits_value ds.

Lemma to_digit_Some c d : to_digit c = Some d <-> is_digit c /\ d = c - 48.
Proof.
  unfold to_digit, is_digit. destruct ((48 <=? c) && (c <=? 57)) eqn:E.
  - bool_props. split; [by intros [= <-]|intros [_ ->]; done].
  - split; [done|]. intros [? _]. apply andb_false_iff in E as [?|?]; bool_props; lia.
Qed.

Lemma foldl_digits_ge ds acc : 0 <= acc -> Forall is_digit ds -> acc <= foldl (fun acc c => 10 * acc + (c - 48)) acc ds.
Proof.
  intros Ha Hd. revert acc Ha. induction Hd as [|c ds Hc _ IH]; intros acc Ha; cbn; [done|].
  unfold is_digit in Hc. specialize (IH (10 * acc + (c - 48))). lia.
Qed.

Lemma parse_digits_exact max s acc n :
  0 <= acc <= max ->
  parse_digits max acc s = Some n
  <-> Forall is_digit s /\ n = foldl (fun acc c => 10 * acc + (c - 48)) acc s /\ n <= max.
Proof.
  revert acc. induction s as [|c s IH]; intros acc Ha; cbn [parse_digits foldl].
  { split; [intros [= <-]; split_and!; [done|done|lia]|by intros (_ & -> & _)]. }
  destruct (to_digit c) as [d|] eqn:Ed.
  2: { split; [done|]. intros (Hc & _). apply Forall_cons in Hc as [Hc _].
       by rewrite (proj2 (to_digit_Some c (c - 48)) (conj Hc eq_refl)) in Ed. }
  apply to_digit_Some in Ed as [Hc ->]. pose proof Hc as Hc'. unfold is_digit in Hc'. cbv zeta.
  destruct (10 * acc + (c - 48) <=? max) eqn:E; bool_props.
  - rewrite IH by lia. rewrite Forall_cons. tauto.
  - split; [done|]. intros (Hd & -> & Hle). apply Forall_cons in Hd as [_ Hd].
    pose proof (foldl_digits_ge s (10 * acc + (c - 48)) ltac:(lia) Hd). lia.
Qed.

(** [parse::<uN>]: exactly the numerals that fit. *)
Lemma parse_uint_exact max s n : 0 <= max -> parse_uint max s = Some n <-> numeral s n /\ n <= max.
Proof.
  intros Hm. unfold parse_uint, numeral.
  destruct s as [|c s]; [split; [done|intros [(ds & [<-|?] & ? & _) _]; done]|].
  destruct ((c =? 43) && negb (bool_decide (s = []))) eqn:E.
  - bool_props. subst c. rewrite parse_digits_exact by lia. split.
    + intros (Hd & -> & Hle). split; [|done]. exists s. split_and!; [by right|done|done|done].
    + intros [(ds & [<-|[= <-]] & Hne & Hd & ->) Hle]; [|done].
      apply Forall_cons in Hd as [Hd _]. unfold is_digit in Hd. lia.
  - rewrite parse_digits_exact by lia. split.
    + intros (Hd & -> & Hle). split; [|done]. exists (c :: s). split_and!; [by left|done|done|done].
    + intros [(ds & [<-|[= -> ->]] & Hne & Hd & ->) Hle]; [done|].
      rewrite Z.eqb_refl in E. cbn [andb] in E. bool_props. done.
Qed.

Lemma numeral_nonneg s n : numeral s n -> 0 <= n.
Proof. intros (ds & _ & _ & Hd & ->). by apply foldl_digits_ge. Qed.

Lemma parse_uint_bounds max s n : 0 <= max -> parse_uint max s = Some n -> 0 <= n <= max.
Proof. intros Hm [Hn Hle]%parse_uint_exact; [|done]. split; [by eapply numeral_nonneg|done]. Qed.

(** ** Where a value comes from *)

(** A setting: its variables, the first that is set counts, its parser, whether a value that does not
    parse is an error, the field of the configuration and the key of the file. *)
Record Setting {Sa : SocketAddrs} (A : Type) := mkSetting {
  st_env : list string;
  st_parse : rstr -> option A;
  st_strict : bool;
  st_get : Config -> A;
  st_file : FileConfig -> option A
}.
Arguments mkSetting {Sa A} _ _ _ _ _.
Arguments st_env {Sa A} _.
Arguments st_parse {Sa A} _ _.
Arguments st_strict {Sa A} _.
Arguments st_get {Sa A} _ _.
Arguments st_file {Sa A} _ _.

Section settings.
Context {Sa : SocketAddrs} {To : Toml}.

Inductive some_setting : Type := A_setting : forall A : Type, Setting A -> some_setting.
Arguments A_setting {A} _.
Definition setting {A} (name : string) (parse : rstr -> option A) (strict : bool) (get : Config -> A)
  (file : FileConfig -> option A) : some_setting := A_setting (mkSetting [name] parse strict get file).

(** A field that is optional itself, such as a key. *)
Definition optional (name : string) (get : Config -> option rstr) (file : FileConfig -> option rstr) : some_setting :=
  setting name (fun v => Some (Some v)) false get (fun f => Some <$> file f).

Definition ok {A} (parse : rstr -> checked A) (v : rstr) : option A := match parse v with Ok a => Some a | Err _ => None end.

Definition au {A} (g : AuthConfig -> A) (c : Config) : A := g (cf_auth c).
Definition va {A} (g : VaultConfig -> A) (c : Config) : A := g (cf_vault c).
Definition rc {A} (g : TerminalRecordingConfig -> A) (c : Config) : A := g (cf_terminal_recording c).
Definition en {A} (g : TerminalRecordingEncryptionConfig -> A) : Config -> A := rc (fun r => g (rc_encryption r)).
Definition cl {A} (g : TerminalRecordingCleanupConfig -> A) : Config -> A := rc (fun r => g (rc_cleanup r)).
Definition tc {A} (g : TerminalSessionsConfig -> A) (c : Config) : A := g (cf_terminal_sessions c).
Definition fau {A} (g : FileAuthConfig -> option A) (f : FileConfig) : option A := ff_auth f ≫= g.
Definition fva {A} (g : FileVaultConfig -> option A) (f : FileConfig) : option A := ff_vault f ≫= g.
Definition frc {A} (g : FileTerminalRecordingConfig -> option A) (f : FileConfig) : option A := ff_terminal_recording f ≫= g.
Definition fen {A} (g : FileTerminalRecordingEncryptionConfig -> option A) : FileConfig -> option A :=
  frc (fun r => fr_encryption r ≫= g).
Definition fcl {A} (g : FileTerminalRecordingCleanupConfig -> option A) : FileConfig -> option A :=
  frc (fun r => fr_cleanup r ≫= g).
Definition ftc {A} (g : FileTerminalSessionsConfig -> option A) (f : FileConfig) : option A := ff_terminal_sessions f ≫= g.

Definition plain_settings : list some_setting := [
  setting "RELAYTERM_SERVER__BIND" socket_addr_parse false cf_bind (fun f => ff_server f ≫= id);
  A_setting (mkSetting ["DATABASE_URL"; "RELAYTERM_DATABASE__URL"]%string Some false (fun c => db_url (cf_database c))
    (fun f => ff_database f ≫= fd_url));
  setting "RELAYTERM_DATABASE__MAX_CONNECTIONS" (parse_uint u32_max) false (fun c => db_max_connections (cf_database c))
    (fun f => ff_database f ≫= fd_max_connections)].

Definition auth_settings : list some_setting := [
  setting "RELAYTERM_AUTH__MODE" (ok auth_mode_from_str) true (au au_mode) (fau fa_mode);
  optional "RELAYTERM_AUTH__SESSION_SIGNING_KEY_B64" (au au_session_signing_key_b64) (fau fa_session_signing_key_b64);
  optional "RELAYTERM_AUTH__SESSION_SIGNING_KEY_FILE" (au au_session_signing_key_file) (fau fa_session_signing_key_file);
  optional "RELAYTERM_AUTH__FIRST_USER_BOOTSTRAP_TOKEN" (au au_first_user_bootstrap_token)
    (fau fa_first_user_bootstrap_token);
  setting "RELAYTERM_AUTH__COOKIE_SECURE" parse_bool false (au au_cookie_secure) (fau fa_cookie_secure);
  optional "RELAYTERM_AUTH__COOKIE_DOMAIN" (au au_cookie_domain) (fau fa_cookie_domain);
  setting "RELAYTERM_AUTH__ALLOWED_ORIGINS" (fun v => Some (origins_of v)) false (au au_allowed_origins)
    (fau fa_allowed_origins);
  setting "RELAYTERM_VAULT__ENABLED" parse_bool false (va va_enabled) (fva fv_enabled);
  optional "RELAYTERM_VAULT__MASTER_KEY_B64" (va va_master_key_b64) (fva fv_master_key_b64);
  optional "RELAYTERM_VAULT__MASTER_KEY_FILE" (va va_master_key_file) (fva fv_master_key_file)].

Definition recording_settings : list some_setting := [
  setting "RELAYTERM_TERMINAL_RECORDING__ENABLED" parse_bool true (rc rc_enabled) (frc fr_enabled);
  setting "RELAYTERM_TERMINAL_RECORDING__RETENTION_DAYS" (parse_uint u32_max) true (rc rc_retention_days)
    (frc fr_retention_days);
  setting "RELAYTERM_TERMINAL_RECORDING__MAX_BYTES_PER_SESSION" (parse_uint u64_max) true (rc rc_max_bytes_per_session)
    (frc fr_max_bytes_per_session);
  setting "RELAYTERM_TERMINAL_RECORDING__CHUNK_TARGET_BYTES" (parse_uint u32_max) true (rc rc_chunk_target_bytes)
    (frc fr_chunk_target_bytes);
  setting "RELAYTERM_TERMINAL_RECORDING__CHUNK_HARD_CAP_BYTES" (parse_uint u32_max) true (rc rc_chunk_hard_cap_bytes)
    (frc fr_chunk_hard_cap_bytes);
  setting "RELAYTERM_TERMINAL_RECORDING__ENCRYPTION__MODE" (ok encryption_mode_from_str) true (en en_mode) (fen fe_mode);
  optional "RELAYTERM_TERMINAL_RECORDING__ENCRYPTION__MASTER_KEY_B64" (en en_master_key_b64) (fen fe_master_key_b64);
  optional "RELAYTERM_TERMINAL_RECORDING__ENCRYPTION__MASTER_KEY_FILE" (en en_master_key_file) (fen fe_master_key_file);
  setting "RELAYTERM_TERMINAL_RECORDING__COMPRESSION__MODE" (ok compression_mode_from_str) true
    (rc (fun r => co_mode (rc_compression r))) (frc (fun r => fr_compression r ≫= fc_mode));
  setting "RELAYTERM_TERMINAL_RECORDING__CLEANUP__ENABLED" parse_bool true (cl cl_enabled) (fcl fl_enabled);
  setting "RELAYTERM_TERMINAL_RECORDING__CLEANUP__STARTUP_SWEEP_ENABLED" parse_bool true (cl cl_startup_sweep_enabled)
    (fcl fl_startup_sweep_enabled);
  setting "RELAYTERM_TERMINAL_RECORDING__CLEANUP__PERIODIC_SWEEP_ENABLED" parse_bool true (cl cl_periodic_sweep_enabled)
    (fcl fl_periodic_sweep_enabled);
  setting "RELAYTERM_TERMINAL_RECORDING__CLEANUP__SWEEP_INTERVAL_SECONDS" (parse_uint u64_max) true
    (cl cl_sweep_interval_seconds) (fcl fl_sweep_interval_seconds);
  setting "RELAYTERM_TERMINAL_RECORDING__CLEANUP__BATCH_SIZE" (parse_uint u32_max) true (cl cl_batch_size)
    (fcl fl_batch_size)].

Definition session_settings : list some_setting := [
  setting "RELAYTERM_TERMINAL_SESSIONS__DETACHED_LIVE_PTY_TTL_SECONDS" (parse_uint u64_max) true
    (tc tc_detached_live_pty_ttl_seconds) (ftc ft_detached_live_pty_ttl_seconds);
  setting "RELAYTERM_TERMINAL_SESSIONS__MAX_LIVE_PTY_SESSIONS_PER_USER" (parse_uint u32_max) true
    (tc tc_max_live_pty_sessions_per_user) (ftc ft_max_live_pty_sessions_per_user);
  setting "RELAYTERM_TERMINAL_SESSIONS__MAX_STARTING_SESSIONS_PER_USER" (parse_uint u32_max) true
    (tc tc_max_starting_sessions_per_user) (ftc ft_max_starting_sessions_per_user);
  setting "RELAYTERM_TERMINAL_SESSIONS__MAX_LIVE_PTY_SESSIONS_PER_DEPLOYMENT" (parse_uint u32_max) true
    (tc tc_max_live_pty_sessions_per_deployment) (ftc ft_max_live_pty_sessions_per_deployment)].

Definition settings : list some_setting := plain_settings ++ auth_settings ++ recording_settings ++ session_settings.

(** The value of the first variable that is set. *)
Definition env_value (env : string -> option rstr) {A} (s : Setting A) : option rstr :=
  head (omap env (st_env s)).

(** What the setting resolves to: the environment if it says something that parses, else the file if it
    says something, else the default. *)
Definition resolved (env : string -> option rstr) (file : option FileConfig) {A} (s : Setting A) : A :=
  default (default (st_get s defaults) (file ≫= st_file s)) (env_value env s ≫= st_parse s).

(** A strict setting that does not parse. *)
Definition malformed (env : string -> option rstr) {A} (s : Setting A) : Prop :=
  st_strict s = true /\ exists v, env_value env s = Some v /\ st_parse s v = None.

(** The file that is read, if there is one. *)
Definition file_read (host : HostEnv) (file : option FileConfig) : Prop :=
  match resolve_file host with
  | None => file = None
  | Some path => exists f, read_config_file host path = Ok f /\ file = Some f
  end.

Lemma strict_ok {A} env name (parse : rstr -> checked A) old a :
  strict env name parse old = Ok a <->
  match env name with Some v => parse v = Ok a | None => a = old end.
Proof.
  unfold strict. destruct (env name) as [v|]; [|naive_solver].
  destruct (parse v); cbn; naive_solver.
Qed.

(** What the environment makes of a configuration. *)
Definition overridden (env : string -> option rstr) (c cfg : Config) (x : some_setting) : Prop :=
  match x with A_setting s =>
    st_get s cfg = default (st_get s c) (env_value env s ≫= st_parse s) /\ ~ malformed env s
  end.

Lemma overridden_strict {A} env c cfg name (parse : rstr -> option A) (get : Config -> A) file a :
  strict env name (fun v => ok_or (parse v) Unparsable) (get c) = Ok a -> get cfg = a ->
  overridden env c cfg (setting name parse true get file).
Proof.
  intros H%strict_ok <-. unfold overridden, malformed, env_value. cbn. destruct (env name) as [v|]; cbn.
  - apply ok_or_ok in H. rewrite H. split; [done|]. intros (_ & v' & [= <-] & ?). congruence.
  - split; [done|]. by intros (_ & v' & ? & _).
Qed.

Lemma overridden_tag {A} env c cfg name (parse : rstr -> checked A) (get : Config -> A) file a :
  strict env name parse (get c) = Ok a -> get cfg = a ->
  overridden env c cfg (setting name (ok parse) true get file).
Proof.
  intros H%strict_ok <-. unfold overridden, malformed, env_value, ok. cbn. destruct (env name) as [v|]; cbn.
  - rewrite H. split; [done|]. intros (_ & v' & [= <-] & Hn). by rewrite H in Hn.
  - split; [done|]. by intros (_ & v' & ? & _).
Qed.

Lemma overridden_free {A} env c cfg (s : Setting A) :
  st_strict s = false -> st_get s cfg = default (st_get s c) (env_value env s ≫= st_parse s) ->
  overridden env c cfg (A_setting s).
Proof. intros Hs Hg. split; [done|]. intros [? _]. congruence. Qed.

Lemma overridden_lenient {A} env c cfg name (parse : rstr -> option A) (get : Config -> A) file :
  get cfg = lenient env name parse (get c) -> overridden env c cfg (setting name parse false get file).
Proof.
  unfold overridden, malformed, env_value, lenient. cbn. intros ->. split; [|by intros [? _]].
  destruct (env name) as [v|]; cbn; [|done]. by destruct (parse v).
Qed.

Lemma overridden_optional env c cfg name (get : Config -> option rstr) file :
  get cfg = or_else (env name) (get c) -> overridden env c cfg (optional name get file).
Proof.
  unfold overridden, malformed, env_value. cbn. intros ->. split; [|by intros [? _]]. by destruct (env name).
Qed.

Lemma env_overrides env c cfg : apply_env_with env c = Ok cfg -> Forall (overridden env c cfg) settings.
Proof.
  intros H. unfold apply_env_with in H.
  apply result_bind_ok in H as (auth & Ha & H). unfold env_auth in Ha.
  apply result_bind_ok in Ha as (mode & Hmode & [= <-]).
  apply result_bind_ok in H as (rec & Hr & H). unfold env_recording in Hr.
  repeat match type of Hr with result_bind _ _ = Ok _ => let x := fresh "x" in let Hx := fresh "Hx" in
    apply result_bind_ok in Hr as (x & Hx & Hr) end.
  injection Hr as <-.
  match goal with Hx : env_encryption _ _ = Ok _ |- _ => unfold env_encryption in Hx;
    let m := fresh "m" in let Hm := fresh "Hm" in apply result_bind_ok in Hx as (m & Hm & [= <-]) end.
  match goal with Hx : env_cleanup _ _ = Ok _ |- _ => unfold env_cleanup in Hx;
    repeat match type of Hx with result_bind _ _ = Ok _ => let y := fresh "y" in let Hy := fresh "Hy" in
      apply result_bind_ok in Hx as (y & Hy & Hx) end; injection Hx as <- end.
  apply result_bind_ok in H as (ses & Hs & [= <-]). unfold env_sessions in Hs.
  repeat match type of Hs with result_bind _ _ = Ok _ => let y := fresh "y" in let Hy := fresh "Hy" in
    apply result_bind_ok in Hs as (y & Hy & Hs) end.
  injection Hs as <-.
  unfold settings, plain_settings, auth_settings, recording_settings, session_settings. cbn [app].
  repeat (apply Forall_cons; split); try exact (Forall_nil_2 _);
    first [ by apply overridden_lenient | by apply overridden_optional
          | by eapply overridden_tag | by eapply overridden_strict | apply overridden_free; [done|] ]; unfold env_value; cbn.
  destruct (env "DATABASE_URL"); cbn; [done|]. by destruct (env "RELAYTERM_DATABASE__URL").
Qed.

(** The error of a strict setting names its variable. *)
Definition fails_on (env : string -> option rstr) (e : ConfigError) (x : some_setting) : Prop :=
  match x with A_setting s => malformed env s /\ exists name cause, st_env s = [name] /\ e = Context name cause end.

Lemma fails_strict {A} env name (parse : rstr -> option A) get file old e :
  strict env name (fun v => ok_or (parse v) Unparsable) old = Err e -> fails_on env e (setting name parse true get file).
Proof.
  unfold strict. destruct (env name) as [v|] eqn:Ev; [|done]. destruct (parse v) eqn:Ep; [done|]. cbn. intros [= <-].
  split; [|by exists name, Unparsable]. split; [done|]. exists v. unfold env_value. cbn. by rewrite Ev.
Qed.

Lemma fails_tag {A} env name (parse : rstr -> checked A) get file old e :
  strict env name parse old = Err e -> fails_on env e (setting name (ok parse) true get file).
Proof.
  unfold strict. destruct (env name) as [v|] eqn:Ev; [|done]. destruct (parse v) eqn:Ep; [done|]. cbn. intros [= <-].
  split; [|by exists name, e0]. split; [done|]. exists v. unfold env_value, ok. cbn. by rewrite Ev, Ep.
Qed.

Ltac find_setting := repeat first
  [ apply Exists_cons_hd; first [by eapply fails_strict | by eapply fails_tag] | apply Exists_cons_tl ].

Lemma env_fails env c e : apply_env_with env c = Err e -> Exists (fails_on env e) settings.
Proof.
  intros H. unfold apply_env_with, env_auth, env_recording, env_encryption, env_cleanup, env_sessions in H.
  unfold settings, plain_settings, auth_settings, recording_settings, session_settings. cbn [app].
  repeat (lazymatch type of H with result_bind _ _ = Err _ => apply result_bind_err in H as [H|(? & _ & H)] end).
  all: first [discriminate | by find_setting].
Qed.
(** The file over the defaults. *)
Definition base (file : option FileConfig) : Config :=
  match file with Some f => merge_into f defaults | None => defaults end.

Lemma or_old_default {A} (new : option A) old : or_old new old = default old new.
Proof. by destruct new. Qed.
Lemma or_else_default {A} (new old : option A) : or_else new old = default old (Some <$> new).
Proof. by destruct new. Qed.

Lemma merge_fields c f :
  Forall (fun x => match x with A_setting s => st_get s (merge_into f c) = default (st_get s c) (st_file s f) end) settings.
Proof.
  unfold settings, plain_settings, auth_settings, recording_settings, session_settings; cbn [app].
  repeat (apply Forall_cons; split); try exact (Forall_nil_2 _); cbn.
  all: unfold fau, fva, fen, fcl, frc, ftc, au, va, en, cl, rc, tc; cbn.
  all: repeat (match goal with |- context [merged _ ?o _] => destruct o end; cbn).
  all: by rewrite ?or_old_default, ?or_else_default.
Qed.

Lemma base_fields file :
  Forall (fun x => match x with A_setting s => st_get s (base file) = default (st_get s defaults) (file ≫= st_file s) end)
    settings.
Proof. destruct file as [f|]; [exact (merge_fields defaults f)|]. apply Forall_forall. by intros [A s] _. Qed.

Lemma load_steps host cfg :
  load host = Ok cfg -> exists file, file_read host file /\ apply_env_with (getenv host) (base file) = Ok cfg.
Proof.
  intros (c & Hc & H)%result_bind_ok. unfold file_read. destruct (resolve_file host) as [path|].
  - apply result_bind_ok in Hc as (f & Hf & [= <-]). exists (Some f). split; [by exists f|done].
  - injection Hc as <-. by exists None.
Qed.

(** Every field has the value its setting resolves to. *)
Lemma load_resolved host cfg :
  load host = Ok cfg ->
  exists file, file_read host file
    /\ Forall (fun x => match x with A_setting s =>
         st_get s cfg = resolved (getenv host) file s /\ ~ malformed (getenv host) s end) settings.
Proof.
  intros (file & Hf & H)%load_steps. exists file. split; [done|].
  pose proof (base_fields file) as Hb. pose proof (env_overrides _ _ _ H) as Ho.
  rewrite Forall_forall in Hb, Ho. apply Forall_forall. intros [A s] Hs. specialize (Hb _ Hs). cbn in Hb.
  destruct (Ho _ Hs) as [E2 E3]. split; [|done]. unfold resolved. by rewrite E2, Hb.
Qed.

(** C35: later sources win.  When loading succeeds, each of the 31 fields has the value of its environment
    variable if one is set and parses, else that of the configuration file if it is there and names the
    field, else the default; and no variable of a strict setting is malformed.  When loading fails, the
    file could not be read or parsed, or a strict variable is malformed and the error names it. *)
Theorem load_precedence host :
  (forall cfg, load host = Ok cfg ->
    exists file, file_read host file
      /\ Forall (fun x => match x with A_setting s =>
           st_get s cfg = resolved (getenv host) file s /\ ~ malformed (getenv host) s end) settings)
  /\ (forall e, load host = Err e ->
      (exists path, resolve_file host = Some path /\ read_config_file host path = Err e)
      \/ Exists (fails_on (getenv host) e) settings).
Proof.
  split; [exact (load_resolved host)|]. intros e [He|(c & _ & He)]%result_bind_err.
  - left. destruct (resolve_file host) as [path|]; [|done]. exists path. split; [done|].
    by apply result_bind_err in He as [He|(f & _ & He)].
  - right. by eapply env_fails.
Qed.

End settings.

(** ** Which configurations start *)

Section validators.
Context {Sa : SocketAddrs}.

(** The ranges of the fields' integer types. *)
Record typed (c : Config) : Prop := {
  ty_days : is_u32 (rc_retention_days (cf_terminal_recording c));
  ty_bytes : is_u64 (rc_max_bytes_per_session (cf_terminal_recording c));
  ty_target : is_u32 (rc_chunk_target_bytes (cf_terminal_recording c));
  ty_cap : is_u32 (rc_chunk_hard_cap_bytes (cf_terminal_recording c));
  ty_interval : is_u64 (cl_sweep_interval_seconds (rc_cleanup (cf_terminal_recording c)));
  ty_batch : is_u32 (cl_batch_size (rc_cleanup (cf_terminal_recording c)));
  ty_ttl : is_u64 (tc_detached_live_pty_ttl_seconds (cf_terminal_sessions c));
  ty_live : is_u32 (tc_max_live_pty_sessions_per_user (cf_terminal_sessions c));
  ty_starting : is_u32 (tc_max_starting_sessions_per_user (cf_terminal_sessions c));
  ty_deployment : is_u32 (tc_max_live_pty_sessions_per_deployment (cf_terminal_sessions c))
}.

(** ** The types of the loaded numbers *)

(** A file whose numbers have the types that [FileConfig] declares. *)
Record file_typed (f : FileConfig) : Prop := {
  ft_days : forall z, frc fr_retention_days f = Some z -> is_u32 z;
  ft_bytes : forall z, frc fr_max_bytes_per_session f = Some z -> is_u64 z;
  ft_target : forall z, frc fr_chunk_target_bytes f = Some z -> is_u32 z;
  ft_cap : forall z, frc fr_chunk_hard_cap_bytes f = Some z -> is_u32 z;
  ft_interval : forall z, fcl fl_sweep_interval_seconds f = Some z -> is_u64 z;
  ft_batch : forall z, fcl fl_batch_size f = Some z -> is_u32 z;
  ft_ttl : forall z, ftc ft_detached_live_pty_ttl_seconds f = Some z -> is_u64 z;
  ft_live : forall z, ftc ft_max_live_pty_sessions_per_user f = Some z -> is_u32 z;
  ft_starting : forall z, ftc ft_max_starting_sessions_per_user f = Some z -> is_u32 z;
  ft_deployment : forall z, ftc ft_max_live_pty_sessions_per_deployment f = Some z -> is_u32 z
}.

(** The deserialiser refuses a number that does not fit its field. *)
Definition toml_typed {To : Toml} : Prop := forall raw f, toml_from_str raw = Ok f -> file_typed f.

Lemma resolved_all {A} (P : A -> Prop) env file (s : Setting A) :
  P (st_get s defaults) -> (forall f z, file = Some f -> st_file s f = Some z -> P z) ->
  (forall v z, st_parse s v = Some z -> P z) -> P (resolved env file s).
Proof.
  intros Hd Hf Hp. unfold resolved. destruct (env_value env s) as [v|]; cbn.
  - destruct (st_parse s v) eqn:E; cbn; [by eapply Hp|].
    destruct file as [f|]; cbn; [|done]. destruct (st_file s f) eqn:Ef; cbn; [by eapply Hf|done].
  - destruct file as [f|]; cbn; [|done]. destruct (st_file s f) eqn:Ef; cbn; [by eapply Hf|done].
Qed.

Lemma loaded_all {A} (P : A -> Prop) env file (s : Setting A) cfg :
  st_get s cfg = resolved env file s /\ ~ malformed env s ->
  P (st_get s defaults) -> (forall f z, file = Some f -> st_file s f = Some z -> P z) ->
  (forall v z, st_parse s v = Some z -> P z) -> P (st_get s cfg).
Proof. intros [-> _]. apply resolved_all. Qed.

Lemma file_read_typed {To : Toml} host file f : toml_typed -> file_read host file -> file = Some f -> file_typed f.
Proof.
  intros Ht. unfold file_read. destruct (resolve_file host) as [path|]; [|by intros ->].
  intros (f' & Hr & ->) [= <-]. apply result_bind_ok in Hr as (raw & _ & Hr).
  apply (Ht raw). by destruct (toml_from_str raw); [injection Hr as ->|].
Qed.

Lemma load_typed {To : Toml} host cfg : toml_typed -> load host = Ok cfg -> typed cfg.
Proof.
  intros Ht (file & Hf & H)%load_resolved.
  assert (Hty : forall f, file = Some f -> file_typed f) by (intros f; by apply (file_read_typed host)).
  unfold settings, plain_settings, auth_settings, recording_settings, session_settings, setting, optional in H.
  cbn [app] in H. repeat (let E := fresh in apply Forall_cons in H as [E H]; lazy beta iota in E). clear H.
  assert (H32 : forall v z, parse_uint u32_max v = Some z -> is_u32 z) by (intros v z; by apply parse_uint_bounds).
  assert (H64 : forall v z, parse_uint u64_max v = Some z -> is_u64 z) by (intros v z; by apply parse_uint_bounds).
  split; match goal with H : _ /\ ~ malformed _ _ |- ?P _ =>
    refine (loaded_all P _ _ _ _ H _ _ _); [by vm_compute| |done];
      let f := fresh in let z := fresh in let Hfz := fresh in intros f z Hfz; destruct (Hty f Hfz);
      match goal with K : forall z, _ = Some z -> _ |- _ => exact (K z) end end.
Qed.

Definition exactly_one (a b : option rstr) : Prop := (is_Some a /\ b = None) \/ (a = None /\ is_Some b).

Record auth_sound (a : AuthConfig) : Prop := {
  as_key : exactly_one (au_session_signing_key_b64 a) (au_session_signing_key_file a);
  as_origins : au_allowed_origins a <> [];
  as_secure : au_cookie_secure a = true
}.

Record cleanup_sound (l : TerminalRecordingCleanupConfig) : Prop := {
  ls_batch : 1 <= cl_batch_size l <= 10000;
  ls_interval : cl_sweep_interval_seconds l = 0 \/ 60 <= cl_sweep_interval_seconds l <= 604800;
  ls_cadence : cl_periodic_sweep_enabled l = true -> cl_sweep_interval_seconds l <> 0
}.

(** A chunk never exceeds the session's budget, and always holds a frame of the live wire. *)
Record bounds_sound (r : TerminalRecordingConfig) : Prop := {
  bs_days : 1 <= rc_retention_days r <= 3650;
  bs_bytes : rc_chunk_hard_cap_bytes r <= rc_max_bytes_per_session r <= 2 ^ 40;
  bs_cap : 1048576 + 65536 <= rc_chunk_hard_cap_bytes r;
  bs_target : 1 <= rc_chunk_target_bytes r <= rc_chunk_hard_cap_bytes r
}.

Record keys_sound (c : Config) (e : TerminalRecordingEncryptionConfig) : Prop := {
  ks_mode : match en_mode e with
            | EncDisabled => au_mode (cf_auth c) = Dev /\ en_master_key_b64 e = None /\ en_master_key_file e = None
            | EncRequired => exactly_one (en_master_key_b64 e) (en_master_key_file e)
            end;
  ks_b64 : is_Some (en_master_key_b64 e) -> en_master_key_b64 e <> va_master_key_b64 (cf_vault c);
  ks_file : forall p q, en_master_key_file e = Some p -> va_master_key_file (cf_vault c) = Some q ->
              path_components p <> path_components q
}.

Record sessions_sound (s : TerminalSessionsConfig) : Prop := {
  ss_ttl : 5 <= tc_detached_live_pty_ttl_seconds s <= 86400;
  ss_live : 1 <= tc_max_live_pty_sessions_per_user s <= 256;
  ss_starting : 1 <= tc_max_starting_sessions_per_user s <= 32;
  ss_deployment : tc_max_live_pty_sessions_per_deployment s <= 4096;
  ss_live_deployment : tc_max_live_pty_sessions_per_user s <= tc_max_live_pty_sessions_per_deployment s;
  ss_starting_deployment : tc_max_starting_sessions_per_user s <= tc_max_live_pty_sessions_per_deployment s
}.

Definition placeholder_free (o : option rstr) : Prop := forall v, o = Some v -> ~ exists a b, v = a ++ lit "CHANGE_ME" ++ b.

Record secrets_sound (c : Config) : Prop := {
  es_key : placeholder_free (au_session_signing_key_b64 (cf_auth c));
  es_token : placeholder_free (au_first_user_bootstrap_token (cf_auth c));
  es_url : placeholder_free (Some (db_url (cf_database c)));
  es_vault : placeholder_free (va_master_key_b64 (cf_vault c));
  es_recording : placeholder_free (en_master_key_b64 (rc_encryption (cf_terminal_recording c)))
}.

(** A configuration that may start. *)
Record sound (c : Config) : Prop := {
  so_auth : au_mode (cf_auth c) = Production -> auth_sound (cf_auth c);
  so_secrets : au_mode (cf_auth c) = Production -> secrets_sound c;
  so_bounds : bounds_sound (cf_terminal_recording c);
  so_cleanup : cleanup_sound (rc_cleanup (cf_terminal_recording c));
  so_keys : rc_enabled (cf_terminal_recording c) = true -> keys_sound c (rc_encryption (cf_terminal_recording c));
  so_sessions : sessions_sound (cf_terminal_sessions c)
}.

(** *** The validators, one by one *)

Lemma both_or_neither_exact field a b : both_or_neither field a b = Ok tt <-> exactly_one a b.
Proof.
  unfold both_or_neither, exactly_one, is_Some. destruct a, b; split; try done; try naive_solver.
Qed.

Lemma validate_auth_exact c :
  validate_auth c = Ok tt <-> (au_mode (cf_auth c) = Production -> auth_sound (cf_auth c)).
Proof.
  unfold validate_auth. destruct (au_mode (cf_auth c)); [naive_solver|]. rewrite result_bind_ok. split.
  - intros ([] & Hk & H) _. apply both_or_neither_exact in Hk.
    destruct (bool_decide (_ = [])) eqn:E; [done|]. destruct (au_cookie_secure (cf_auth c)) eqn:Es; [|done].
    bool_props. by split.
  - intros H. destruct (H eq_refl) as [H1 H2 H3]. exists tt. split; [by apply both_or_neither_exact|].
    by rewrite (bool_decide_eq_false_2 _ H2), H3.
Qed.

Ltac bound_cases := repeat match goal with |- context [if ?b then _ else _] => destruct b eqn:?; bool_props end.

Lemma validate_cleanup_exact l :
  is_u64 (cl_sweep_interval_seconds l) ->
  validate_terminal_recording_cleanup l = Ok tt <-> cleanup_sound l.
Proof.
  intros Hi. unfold validate_terminal_recording_cleanup, is_u64 in *.
  unfold terminal_recording_defaults.CLEANUP_BATCH_SIZE_MIN, terminal_recording_defaults.CLEANUP_BATCH_SIZE_MAX,
    terminal_recording_defaults.CLEANUP_SWEEP_INTERVAL_SECONDS_MIN,
    terminal_recording_defaults.CLEANUP_SWEEP_INTERVAL_SECONDS_MAX.
  split.
  - bound_cases; try done. intros _.
    assert (H0 : cl_sweep_interval_seconds l = 0 \/ 60 <= cl_sweep_interval_seconds l).
    { apply andb_false_iff in Heqb1 as [E|E]; bool_props; lia. }
    split; [lia|lia|]. intros Hp. rewrite Hp in Heqb3. cbn [andb] in Heqb3. by bool_props.
  - intros [H1 H2 H3]. bound_cases; try lia; try done. intuition lia.
Qed.

Lemma validate_bounds_exact r :
  is_u32 (rc_retention_days r) -> is_u64 (rc_max_bytes_per_session r) -> is_u32 (rc_chunk_target_bytes r) ->
  validate_recording_bounds r = Ok tt <-> bounds_sound r.
Proof.
  unfold is_u32, is_u64. intros H1 H2 H3. unfold validate_recording_bounds.
  unfold terminal_recording_defaults.RETENTION_DAYS_HARD_CAP,
    terminal_recording_defaults.MAX_BYTES_PER_SESSION_HARD_CAP, terminal_recording_defaults.CHUNK_HARD_CAP_BYTES_FLOOR.
  split.
  - bound_cases; try done. intros _. split; lia.
  - intros [B1 B2 B3 B4]. bound_cases; (done || lia).
Qed.

Lemma validate_sessions_exact c :
  validate_terminal_sessions c = Ok tt <-> sessions_sound (cf_terminal_sessions c).
Proof.
  unfold validate_terminal_sessions. cbv zeta.
  change terminal_sessions_defaults.DETACHED_LIVE_PTY_TTL_SECONDS_MIN with 5.
  change terminal_sessions_defaults.DETACHED_LIVE_PTY_TTL_SECONDS_MAX with 86400.
  change terminal_sessions_defaults.MAX_LIVE_PTY_SESSIONS_PER_USER_MIN with 1.
  change terminal_sessions_defaults.MAX_LIVE_PTY_SESSIONS_PER_USER_MAX with 256.
  change terminal_sessions_defaults.MAX_STARTING_SESSIONS_PER_USER_MIN with 1.
  change terminal_sessions_defaults.MAX_STARTING_SESSIONS_PER_USER_MAX with 32.
  change terminal_sessions_defaults.MAX_LIVE_PTY_SESSIONS_PER_DEPLOYMENT_MIN with 1.
  change terminal_sessions_defaults.MAX_LIVE_PTY_SESSIONS_PER_DEPLOYMENT_MAX with 4096.
  split.
  - bound_cases; try done.
  - intros [S1 S2 S3 S4 S5 S6]. bound_cases; (done || lia).
Qed.

Lemma str_contains_exact needle hay : str_contains needle hay = true <-> exists a b, hay = a ++ needle ++ b.
Proof.
  induction hay as [|c hay IH]; cbn [str_contains]; rewrite orb_true_iff, bool_decide_eq_true.
  - split; [intros [[b Hb]|]; [by exists [], b|done]|].
    intros (a & b & H). left. exists []. symmetry in H. apply app_eq_nil in H as [-> H].
    by apply app_eq_nil in H as [-> ->].
  - rewrite IH. split.
    + intros [[b ->]|(a & b & ->)]; [by exists [], b|by exists (c :: a), b].
    + intros (a & b & H). destruct a as [|x a]; cbn in H; [left; by exists b|].
      right. injection H as -> ->. by exists a, b.
Qed.

Lemma placeholder_exact o : holds_placeholder o = false <-> placeholder_free o.
Proof.
  unfold holds_placeholder, placeholder_free. destruct o as [v|]; [|naive_solver].
  unfold contains_production_placeholder, PRODUCTION_PLACEHOLDER_MARKER.
  pose proof (str_contains_exact (lit "CHANGE_ME") v) as H.
  destruct (str_contains (lit "CHANGE_ME") v); split; [done| |intros _ ? [= <-] Hc; by apply H in Hc|done].
  intros Hn. destruct (Hn v eq_refl). by apply H.
Qed.

Lemma validate_secrets_exact c :
  validate_production_secrets c = Ok tt <-> (au_mode (cf_auth c) = Production -> secrets_sound c).
Proof.
  unfold validate_production_secrets.
  change (contains_production_placeholder (db_url (cf_database c))) with (holds_placeholder (Some (db_url (cf_database c)))).
  split.
  - bound_cases; try done; intros _ ?; try done. split; by apply placeholder_exact.
  - intros H. destruct (bool_decide (au_mode (cf_auth c) = Production)) eqn:E; cbn [negb]; [|done]. bool_props.
    destruct (H E) as [H1 H2 H3 H4 H5]. apply placeholder_exact in H1, H2, H3, H4, H5. by rewrite H1, H2, H3, H4, H5.
Qed.

Lemma same_source_false a b : same_source a b = false <-> (is_Some a -> a <> b).
Proof.
  unfold same_source. rewrite andb_false_iff, !bool_decide_eq_false. split; [tauto|].
  intros H. destruct (decide (is_Some a)); tauto.
Qed.

Lemma same_path_false a b :
  same_path a b = false <-> (forall p q, a = Some p -> b = Some q -> path_components p <> path_components q).
Proof. unfold same_path. destruct a, b; [rewrite bool_decide_eq_false|..]; naive_solver. Qed.

Lemma validate_encryption_exact mode e :
  validate_encryption mode e = Ok tt <->
  match en_mode e with
  | EncDisabled => mode = Dev /\ en_master_key_b64 e = None /\ en_master_key_file e = None
  | EncRequired => exactly_one (en_master_key_b64 e) (en_master_key_file e)
  end.
Proof.
  unfold validate_encryption. destruct (en_mode e); [|apply both_or_neither_exact].
  destruct mode; [|split; [done|by intros [? _]]]. cbn.
  destruct (en_master_key_b64 e), (en_master_key_file e); cbn; naive_solver.
Qed.

Lemma validate_recording_exact c :
  typed c ->
  validate_terminal_recording c = Ok tt <->
  bounds_sound (cf_terminal_recording c) /\ cleanup_sound (rc_cleanup (cf_terminal_recording c))
  /\ (rc_enabled (cf_terminal_recording c) = true -> keys_sound c (rc_encryption (cf_terminal_recording c))).
Proof.
  intros Ht. unfold validate_terminal_recording. rewrite result_bind_ok.
  rewrite <- (validate_bounds_exact _ (ty_days c Ht) (ty_bytes c Ht) (ty_target c Ht)).
  rewrite <- (validate_cleanup_exact _ (ty_interval c Ht)). split.
  - intros ([] & Hb & H). split; [done|]. apply result_bind_ok in H as ([] & Hl & H). split; [done|].
    intros He. rewrite He in H. cbn [negb] in H. apply result_bind_ok in H as ([] & Hm & H).
    apply validate_encryption_exact in Hm.
    destruct (same_source _ _) eqn:E1 in H; [done|]. destruct (same_path _ _) eqn:E2 in H; [done|].
    split; [done|by apply same_source_false|by apply same_path_false].
  - intros (Hb & Hl & He). exists tt. split; [done|]. rewrite result_bind_ok. exists tt. split; [done|].
    destruct (rc_enabled _); [|done]. destruct (He eq_refl) as [K1 K2 K3]. cbn [negb]. rewrite result_bind_ok.
    exists tt. split; [by apply validate_encryption_exact|].
    by rewrite (proj2 (same_source_false _ _) K2), (proj2 (same_path_false _ _) K3).
Qed.

(** The gates that [main] passes before it does anything else. *)
Definition validated (c : Config) : Prop :=
  validate_auth c = Ok tt /\ validate_production_secrets c = Ok tt /\ validate_terminal_recording c = Ok tt
  /\ validate_terminal_sessions c = Ok tt.

Lemma validated_exact c : typed c -> validated c <-> sound c.
Proof.
  intros Ht. unfold validated.
  rewrite validate_auth_exact, validate_secrets_exact, (validate_recording_exact c Ht), validate_sessions_exact.
  split; [intros (? & ? & (? & ? & ?) & ?); by split|intros []; tauto].
Qed.
End validators.

(** ** The gates *)

(** C36: a configuration passes the four validators exactly when it is sound: in production it has exactly
    one source for the signing key, an allowed origin, secure cookies, and no placeholder in any of its
    five secrets; whatever the mode, retention is between 1 and 3650 days, a chunk is at most the hard
    cap, the cap at most the session's budget and the budget at most a tebibyte, the sweep's batch is
    between 1 and 10000, its cadence is zero or between a minute and a week and not zero when the
    periodic sweep is on, the terminal's time to live is between 5 seconds and a day, and no limit per
    user exceeds the deployment's; and if recording is on, plaintext is for development without a key,
    while encryption has exactly one source for a key that is not the vault's. *)
Theorem accepted_config_exact {Sa : SocketAddrs} (c : Config) :
  typed c -> validated c <-> sound c.
Proof. exact (validated_exact c). Qed.

(** ** The mask *)

Lemma break_on_app sep a b : sep ∉ a -> break_on sep (a ++ sep :: b) = Some (a, b).
Proof.
  induction a as [|c a IH]; cbn [app break_on]; [by rewrite Z.eqb_refl|].
  intros [Hc Ha]%not_elem_of_cons. destruct (c =? sep) eqn:E; bool_props; [congruence|]. by rewrite IH.
Qed.

Lemma break_on_absent sep a : sep ∉ a -> break_on sep a = None.
Proof.
  induction a as [|c a IH]; cbn; [done|]. intros [Hc Ha]%not_elem_of_cons.
  destruct (c =? sep) eqn:E; bool_props; [congruence|]. by rewrite IH.
Qed.

Lemma break_on_before sep a b : sep ∉ a ->
  break_on sep (a ++ b) = prod_map (app a) id <$> break_on sep b.
Proof.
  induction a as [|c a IH]; cbn [app break_on]; [intros _; by destruct (break_on sep b) as [[]|]|].
  intros [Hc Ha]%not_elem_of_cons. destruct (c =? sep) eqn:E; bool_props; [congruence|]. rewrite IH by done.
  by destruct (break_on sep b) as [[]|].
Qed.

Lemma break_on_parts sep s a b : break_on sep s = Some (a, b) -> s = a ++ sep :: b /\ sep ∉ a.
Proof.
  revert a b. induction s as [|c s IH]; intros a b; cbn; [done|].
  destruct (c =? sep) eqn:E; bool_props; [subst c; intros [= <- <-]; split; [done|by apply not_elem_of_nil]|].
  destruct (break_on sep s) as [[x y]|] eqn:Es; [|done]. intros [= <- <-].
  destruct (IH x y eq_refl) as [-> Hx]. split; [done|]. by apply not_elem_of_cons.
Qed.

Lemma break_str_scheme scheme s : 58 ∉ scheme -> break_str (lit "://") (scheme ++ lit "://" ++ s) = Some (scheme, s).
Proof.
  induction scheme as [|c scheme IH]; [by intros _|]. intros [Hc Hs]%not_elem_of_cons. cbn [app break_str].
  rewrite bool_decide_eq_false_2; [by rewrite IH|]. intros [k Hk].
  change (lit "://") with [58; 47; 47] in Hk at 2. injection Hk as Hk _. congruence.
Qed.

(** What of the password follows its first at sign, with the at sign that ends it. *)
Definition leaked (password : rstr) : rstr :=
  match break_on 64 password with Some (_, leak) => leak ++ [64] | None => [] end.

(** C40: the mask of a database URL shows the scheme, the user, the host and the path, three stars, and of
    the password exactly what follows its first at sign.  A password without an at sign leaves no trace in
    the result. *)
Theorem redaction_exact scheme user password host :
  58 ∉ scheme -> 58 ∉ user -> 64 ∉ user ->
  redact_database_url (scheme ++ lit "://" ++ user ++ 58 :: password ++ 64 :: host)
  = scheme ++ lit "://" ++ user ++ lit ":***@" ++ leaked password ++ host.
Proof.
  intros Hs Hu Ha. unfold redact_database_url, leaked. rewrite break_str_scheme by done.
  assert (Hsplit : forall p rest, 64 ∉ p ->
    break_on 64 (user ++ 58 :: p ++ 64 :: rest) = Some (user ++ 58 :: p, rest)).
  { intros p rest Hp. rewrite (app_comm_cons p), app_assoc. apply break_on_app.
    apply not_elem_of_app. split; [done|]. by apply not_elem_of_cons. }
  destruct (break_on 64 password) as [[p leak]|] eqn:E.
  - apply break_on_parts in E as [-> Hp]. rewrite <- app_assoc. cbn [app].
    rewrite Hsplit by done. rewrite break_on_app by done. cbn. by rewrite <- !app_assoc.
  - rewrite Hsplit; [by rewrite break_on_app by done; cbn; rewrite <- ?app_assoc|].
    intros Hin. apply list_elem_of_split in Hin as (l1 & l2 & ->).
    destruct (decide (64 ∈ l1)) as [Hl|Hl]; [|by rewrite break_on_app in E].
    clear -E Hl. revert E. induction l1 as [|c l1 IH]; [by apply not_elem_of_nil in Hl|]. cbn.
    destruct (c =? 64) eqn:Ec; [done|]. destruct (break_on 64 (l1 ++ 64 :: l2)) as [[]|] eqn:E2; [done|].
    bool_props. apply elem_of_cons in Hl as [<-|Hl]; [done|]. intros _. by apply IH.
Qed.

(** ** Concrete inputs *)

#[local] Instance toy_addrs : SocketAddrs := {|
  SocketAddr := Z; socket_addr_parse := parse_uint u16_max; loopback_8080 := 8080 |}.

Lemma accepted_config_exact_witness : typed defaults /\ (validated defaults <-> sound defaults).
Proof.
  assert (H : typed defaults) by (split; split; vm_compute; congruence).
  split; [exact H|]. exact (accepted_config_exact defaults H).
Defined.

Lemma redaction_exact_witness :
  ((58 ∉ lit "postgres") /\ (58 ∉ lit "app") /\ (64 ∉ lit "app")) /\
  redact_database_url (lit "postgres" ++ lit "://" ++ lit "app" ++ 58 :: lit "p@ss" ++ 64 :: lit "db/x")
  = lit "postgres" ++ lit "://" ++ lit "app" ++ lit ":***@" ++ leaked (lit "p@ss") ++ lit "db/x".
Proof.
  assert (H : (58 ∉ lit "postgres") /\ (58 ∉ lit "app") /\ (64 ∉ lit "app")) by (split_and!; compute_done).
  split; [exact H|]. destruct H as (H1 & H2 & H3). exact (redaction_exact _ _ _ _ H1 H2 H3).
Defined.
