(* ===== verification/Boot.v ===== *)
(** * Start-up

    Models [apps/backend/src/main.rs]: the order in which the process loads and checks its configuration,
    repairs the database, resolves its keys and builds the services, each step that can refuse to start,
    and the loop of the periodic retention worker ([spawn_recording_retention_periodic_worker] of
    [crates/relayterm-terminal/src/retention_worker.rs]).

    The recording and session tables are one database state ([PgRec]) and the account tables another
    ([AuthDb]); whether the pool connects and the listener binds, and the two times that are read, come
    from the surroundings. *)

From S2P Require Import Prelude Utf8 Throttle Core PgSession Manager Recording PgRecording Reconcile AuthStore.
From S2P Require Import AuthRoutes Inventory Vault HostKey KeyVault Config.

Record BootDb := mkBootDb { bd_rec : PgRec; bd_auth : AuthDb }.

(** ** What can stop the process *)

Inductive BootError :=
| LoadRefused (e : ConfigError)
| GateRefused (stage : string) (e : ConfigError)
| ConnectFailed
| ReconcileFailed (e : RepositoryError)
| FirstUserCheckFailed (e : RepositoryError)
| NoFirstUser
| MasterKeyRefused (e : ConfigError)
| EncryptionWriterMissing
| BindFailed.

(** What the listener serves: the parts of [AppState] that depend on the configuration, and the worker. *)
Record Served {Sa : SocketAddrs} := mkServed {
  sv_bind : SocketAddr;
  sv_master_key : option (list Byte.byte);
  sv_manager : ManagerConfig;
  sv_recording : option RecordingWriterConfig;
  sv_auth_routes : AuthRoutesConfig;
  sv_throttle : LoginThrottleConfig;
  sv_worker : option RecordingRetentionPeriodicConfig
}.
Arguments mkServed {Sa} _ _ _ _ _ _ _.
Arguments sv_bind {Sa} _.
Arguments sv_master_key {Sa} _.
Arguments sv_manager {Sa} _.
Arguments sv_recording {Sa} _.
Arguments sv_auth_routes {Sa} _.
Arguments sv_throttle {Sa} _.
Arguments sv_worker {Sa} _.

Inductive Startup {Sa : SocketAddrs} := Serving (s : Served) | Refused (e : BootError) | Panicked.

(** What the process meets outside. *)
Record Surroundings {Sa : SocketAddrs} := mkSurroundings {
  su_host : HostEnv;
  su_connects : bool;
  su_reconcile_at : Z;
  su_sweep_at : Z;
  su_binds : SocketAddr -> bool
}.
Arguments mkSurroundings {Sa} _ _ _ _ _.
Arguments su_host {Sa} _.
Arguments su_connects {Sa} _.
Arguments su_reconcile_at {Sa} _.
Arguments su_sweep_at {Sa} _.
Arguments su_binds {Sa} _ _.

Section start.
Context {Sa : SocketAddrs} {To : Toml} {B6 : Base64Standard}.

(** ** The steps *)

(** Loading, and the four validators. *)
Definition configure (host : HostEnv) : result BootError Config :=
  let? cfg := map_err LoadRefused (Config.load host) in
  let? _ := map_err (GateRefused "validate auth config") (validate_auth cfg) in
  let? _ := map_err (GateRefused "validate production secrets") (validate_production_secrets cfg) in
  let? _ := map_err (GateRefused "validate terminal recording config") (validate_terminal_recording cfg) in
  let? _ := map_err (GateRefused "validate terminal session config") (validate_terminal_sessions cfg) in
  Ok cfg.

(** [run_recording_retention_startup_sweep], behind its switches; the summary is dropped. *)
Definition startup_sweep (cfg : Config) (now : Z) (d : PgRec) : PgRec :=
  let cleanup := rc_cleanup (cf_terminal_recording cfg) in
  if cl_enabled cleanup && cl_startup_sweep_enabled cleanup then
    (run_recording_retention_sweep (rc_retention_days (cf_terminal_recording cfg)) (cl_batch_size cleanup) now d).2
  else d.

(** In production somebody must be able to log in. *)
Definition first_user_gate (cfg : Config) (d : AuthDb) : result BootError unit * AuthDb :=
  match au_mode (cf_auth cfg), au_first_user_bootstrap_token (cf_auth cfg) with
  | Production, None =>
      match PgPasswordCredentialRepository.any_exists d with
      | (Err e, d) => (Err (FirstUserCheckFailed e), d)
      | (Ok true, d) => (Ok tt, d)
      | (Ok false, d) => (Err NoFirstUser, d)
      end
  | _, _ => (Ok tt, d)
  end.

(** [build_recording_runtime] *)
Definition build_recording_runtime (cfg : Config) : result BootError (option RecordingWriterConfig) :=
  let rec := cf_terminal_recording cfg in
  if negb (rc_enabled rec) then Ok None
  else match en_mode (rc_encryption rec) with
       | EncDisabled => Ok (Some (mkWriterConfig (rc_chunk_target_bytes rec) (rc_chunk_hard_cap_bytes rec)))
       | EncRequired => Err EncryptionWriterMissing
       end.

(** [NonZeroU32::new] *)
Definition nonzero (z : Z) : option Z := if z =? 0 then None else Some z.

(** [Config::detached_live_pty_ttl]; durations are in nanoseconds. *)
Definition detached_live_pty_ttl (cfg : Config) : Z :=
  nanos (tc_detached_live_pty_ttl_seconds (cf_terminal_sessions cfg)).

(** The manager of the process; [None] is the panic of an [expect]. *)
Definition manager_config (cfg : Config) (recording : bool) : option ManagerConfig :=
  live ← nonzero (tc_max_live_pty_sessions_per_user (cf_terminal_sessions cfg));
  starting ← nonzero (tc_max_starting_sessions_per_user (cf_terminal_sessions cfg));
  deployment ← nonzero (tc_max_live_pty_sessions_per_deployment (cf_terminal_sessions cfg));
  Some (mkManagerConfig (detached_live_pty_ttl cfg) live starting deployment recording).

Definition auth_routes_config (cfg : Config) : AuthRoutesConfig :=
  let a := cf_auth cfg in
  mkAuthRoutes (au_cookie_secure a) (au_cookie_domain a) (au_allowed_origins a) (au_first_user_bootstrap_token a).

Definition worker_config (cfg : Config) : option RecordingRetentionPeriodicConfig :=
  let cleanup := rc_cleanup (cf_terminal_recording cfg) in
  periodic_worker_config_if_enabled (cl_enabled cleanup) (cl_periodic_sweep_enabled cleanup)
    (cl_sweep_interval_seconds cleanup) (rc_retention_days (cf_terminal_recording cfg)) (cl_batch_size cleanup).

(** The part that does not touch the database *)
Definition assemble (su : Surroundings) (cfg : Config) : Startup :=
  let '(key, cfg) := vault_master_key (su_host su) cfg in
  match map_err MasterKeyRefused key with
  | Err e => Refused e
  | Ok master_key =>
      match build_recording_runtime cfg with
      | Err e => Refused e
      | Ok recording =>
          match manager_config cfg (bool_decide (is_Some recording)) with
          | None => Panicked
          | Some manager =>
              if su_binds su (cf_bind cfg) then
                Serving (mkServed (cf_bind cfg) master_key manager recording (auth_routes_config cfg) V1_DEFAULT
                           (worker_config cfg))
              else Refused BindFailed
          end
      end
  end.

(** [main], up to the point where it serves *)
Definition start (su : Surroundings) (d : BootDb) : Startup * BootDb :=
  match configure (su_host su) with
  | Err e => (Refused e, d)
  | Ok cfg =>
      if negb (su_connects su) then (Refused ConnectFailed, d)
      else match reconcile_orphaned_on_startup (su_reconcile_at su) (bd_rec d) with
      | (Err e, r) => (Refused (ReconcileFailed e), mkBootDb r (bd_auth d))
      | (Ok _, r) =>
          let r := startup_sweep cfg (su_sweep_at su) r in
          match first_user_gate cfg (bd_auth d) with
          | (Err e, a) => (Refused e, mkBootDb r a)
          | (Ok _, a) => (assemble su cfg, mkBootDb r a)
          end
      end
  end.

End start.

(** ** The periodic worker *)

(** What wakes the worker's [select!]: the shutdown channel changed or closed, or the ticker fired, with
    what the advisory lock answers and the time the sweep reads. *)
Inductive WorkerEvent :=
| ShutdownChanged (value : bool)
| SenderDropped
| Ticked (lock : LockAnswers) (now : Z).

(** The loop of [spawn_recording_retention_periodic_worker], and whether it has ended. *)
Fixpoint worker_loop (cfg : RecordingRetentionPeriodicConfig) (events : list WorkerEvent) (d : PgRec) : bool * PgRec :=
  match events with
  | [] => (false, d)
  | ShutdownChanged true :: _ | SenderDropped :: _ => (true, d)
  | ShutdownChanged false :: rest => worker_loop cfg rest d
  | Ticked lock now :: rest =>
      worker_loop cfg rest
        (run_one_periodic_tick (Some lock) (pc_retention_days cfg) (pc_batch_size cfg) now d).2
  end.
