(* ===== verification/BootSpec.v ===== *)
(** * What a start guarantees

    When the process serves, its configuration is sound, nothing panicked, its parts are built within their
    bounds, no session is left over from before, and the orchestrator's invariant holds again; a start that
    is refused by its configuration touches nothing; and the worker that it spawns works off every recording
    that had expired. *)

From S2P Require Import Prelude Utf8 Throttle Core SessionStore PgSession Prog Manager ManagerInv Recording.
From S2P Require Import PgRecording Reconcile AuthStore AuthRoutes Inventory Vault HostKey KeyVault Config ConfigSpec.
From S2P Require Import Boot.
Import PgTerminalRecordingRepository.

(** ** The retention sweep leaves the session tables alone *)

(** Up to the fault script and the next identifier. *)
#[export] Instance same_tables_equiv : Equivalence same_tables.
Proof.
  split; [by intros d; split|by intros d d' []; split|].
  intros d1 d2 d3. apply same_tables_trans.
Qed.

Definition tables_kept {A} (p : PgRec -> A * PgRec) : Prop := forall d, same_tables (pr_db d) (pr_db (p d).2).

Lemma kept_statement {A} (f : PgRec -> result RepositoryError A * PgRec) : tables_kept f -> tables_kept (statement f).
Proof.
  intros Hf d. unfold statement, next_fault. destruct (faults (pr_db d)) as [|[e|] rest].
  - etransitivity; [|apply Hf]. done.
  - by split.
  - etransitivity; [|apply Hf]. by split.
Qed.

Lemma kept_query {A} (f : PgRec -> A) : tables_kept (query f).
Proof. by apply kept_statement. Qed.

Lemma kept_exec (f : PgRec -> PgRec) : (forall d, same_tables (pr_db d) (pr_db (f d))) -> tables_kept (exec f).
Proof. intros Hf. apply kept_statement. exact Hf. Qed.

Lemma kept_then {A B} (p : PgRec -> result RepositoryError A * PgRec) (k : A -> PgRec -> result RepositoryError B * PgRec) :
  tables_kept p -> (forall a, tables_kept (k a)) -> tables_kept (then_ p k).
Proof.
  intros Hp Hk d. unfold then_. specialize (Hp d). destruct (p d) as [[a|e] d']; [|done].
  etransitivity; [exact Hp|apply Hk].
Qed.

Lemma kept_transaction {A} (body : PgRec -> result RepositoryError (A * bool) * PgRec) :
  tables_kept body -> tables_kept (transaction body).
Proof.
  intros Hb d. unfold transaction.
  assert (Hs : tables_kept (statement (fun d => (Ok (E := RepositoryError) tt, d)))) by (by apply kept_statement).
  pose proof (Hs d) as H1. destruct (statement _ d) as [[[]|e] d1]; [|done]. cbn [snd] in H1.
  pose proof (Hb d1) as H2. destruct (body d1) as [[[a []]|e] d2]; cbn [snd] in *.
  - pose proof (Hs d2) as H3. destruct (statement _ d2) as [[[]|e] d3]; cbn [snd] in *.
    + etransitivity; [exact H1|]. by etransitivity.
    + etransitivity; [exact H1|]. by split.
  - etransitivity; [exact H1|]. by split.
  - etransitivity; [exact H1|]. by split.
Qed.

Lemma kept_purge input : tables_kept (purge_for_retention input).
Proof.
  intros d. unfold purge_for_retention. destruct (i32_try_from_days _); [|done]. revert d.
  apply kept_transaction. unfold purge_body. apply kept_then; [apply kept_query|]. intros [c|]; [|done].
  apply kept_then; [apply kept_query|]. intros [cc by_]. apply kept_then; [apply kept_query|]. intros mc.
  destruct ((cc =? 0) && (mc =? 0)); [done|].
  apply kept_then; [by apply kept_exec|]. intros _. apply kept_then; [by apply kept_exec|]. intros _.
  apply kept_then; [|done]. intros d. unfold fresh_uuid, new_v4. cbn.
  etransitivity; [|by apply kept_exec]. by split.
Qed.

Lemma kept_sweep_loop n now ids s : tables_kept (sweep_loop n now ids s).
Proof.
  revert s. induction ids as [|id ids IH]; intros s d; [done|]. cbn [sweep_loop rt_purge pg_retention_store].
  pose proof (kept_purge (mkPurge id n now) d) as H. destruct (purge_for_retention _ d) as [[[p|]|e] d']; cbn in H |- *.
  - etransitivity; [exact H|apply IH].
  - etransitivity; [exact H|apply IH].
  - done.
Qed.

Lemma kept_sweep n batch now : tables_kept (run_recording_retention_sweep n batch now).
Proof.
  intros d. unfold run_recording_retention_sweep. cbn [rt_list_eligible pg_retention_store].
  assert (H : same_tables (pr_db d) (pr_db (list_eligible_for_retention n now batch d).2)).
  { unfold list_eligible_for_retention. destruct (i32_try_from_days n); [apply kept_query|done]. }
  destruct (list_eligible_for_retention n now batch d) as [[[|c cs]|e] d']; [done| |done].
  etransitivity; [exact H|apply kept_sweep_loop].
Qed.

(** ** Configuration and gates *)

Section start.
Context {Sa : SocketAddrs} {To : Toml} {B6 : Base64Standard}.

Lemma configure_ok host cfg : configure host = Ok cfg <-> Config.load host = Ok cfg /\ validated cfg.
Proof.
  unfold configure, validated. rewrite result_bind_ok. split.
  - intros (c & Hl & H). apply map_err_ok in Hl.
    apply result_bind_ok in H as ([] & H1 & H). apply result_bind_ok in H as ([] & H2 & H).
    apply result_bind_ok in H as ([] & H3 & H). apply result_bind_ok in H as ([] & H4 & [= <-]).
    by rewrite map_err_ok in H1, H2, H3, H4.
  - intros (Hl & H1 & H2 & H3 & H4). exists cfg. by rewrite Hl, H1, H2, H3, H4.
Qed.

Lemma kept_startup_sweep cfg now d : same_tables (pr_db d) (pr_db (startup_sweep cfg now d)).
Proof. unfold startup_sweep. destruct (_ && _); [apply kept_sweep|done]. Qed.

Lemma orphans_kept d d' : same_tables (pr_db d) (pr_db d') -> orphans d' = orphans d.
Proof. intros [_ _ H _ _]. unfold orphans. by rewrite H. Qed.

Lemma any_exists_true d d' : PgPasswordCredentialRepository.any_exists d = (Ok true, d') -> a_passwords d' <> ∅.
Proof.
  unfold PgPasswordCredentialRepository.any_exists, auth_execute. destruct (auth_next_fault d) as [[e|] d1]; [done|].
  intros [= H <-]. apply negb_true_iff in H. by bool_props.
Qed.

(** ** What is served *)

(** The parts of a serving process, against the configuration it loaded and the database it found. *)
Record served_ok (cfg : Config) (d' : BootDb) (s : Served) : Prop := {
  sk_sound : sound cfg;
  sk_ttl : nanos 5 <= mc_detach_ttl (sv_manager s) <= nanos 86400
           /\ duration_from_std (mc_detach_ttl (sv_manager s)) = Some (mc_detach_ttl (sv_manager s));
  sk_live : 1 <= mc_max_live_pty_per_user (sv_manager s) <= 256;
  sk_starting : 1 <= mc_max_starting_per_user (sv_manager s) <= 32;
  sk_deployment : Z.max (mc_max_live_pty_per_user (sv_manager s)) (mc_max_starting_per_user (sv_manager s))
                  <= mc_max_live_pty_per_deployment (sv_manager s) <= 4096;
  sk_recording : (mc_recording (sv_manager s) = true <-> is_Some (sv_recording s))
                 /\ forall w, sv_recording s = Some w -> au_mode (cf_auth cfg) = Dev
                      /\ 1 <= chunk_target_bytes w <= chunk_hard_cap_bytes w;
  sk_key : (is_Some (sv_master_key s) <-> va_enabled (cf_vault cfg) = true)
           /\ forall k, sv_master_key s = Some k -> len k = MASTER_KEY_LEN;
  sk_production : au_mode (cf_auth cfg) = Production ->
    cookie_secure (sv_auth_routes s) = true /\ allowed_origins (sv_auth_routes s) <> []
    /\ (is_Some (bootstrap_token (sv_auth_routes s)) \/ a_passwords (bd_auth d') <> ∅);
  sk_worker : forall w, sv_worker s = Some w ->
    1 <= pc_retention_days w <= 3650 /\ 1 <= pc_batch_size w <= 10000 /\ 60 <= pc_interval w <= 604800;
  sk_orphans : orphans (bd_rec d') = []
}.

Lemma master_key_cases host cfg :
  (vault_master_key host cfg).2 = without_sources cfg
  /\ forall k, (vault_master_key host cfg).1 = Ok k ->
       (is_Some k <-> va_enabled (cf_vault cfg) = true) /\ forall b, k = Some b -> len b = MASTER_KEY_LEN.
Proof.
  split; [done|]. intros k. unfold vault_master_key. cbn [fst].
  destruct (va_enabled (cf_vault cfg)); cbn [negb];
    [|intros [= <-]; split; [split; [by intros [? ?]|done]|done]].
  assert (Hb : forall s b, from_base64 s = Ok b -> len b = MASTER_KEY_LEN).
  { intros s b. unfold from_base64. case_bool_decide; [done|]. intros (raw & _ & Hk)%result_bind_ok.
    destruct (len raw =? MASTER_KEY_LEN) eqn:E; [|done]. bool_props. by injection Hk as <-. }
  assert (Hsome : forall r : result MasterKeyError (list Byte.byte), (forall b, r = Ok b -> len b = MASTER_KEY_LEN) ->
    forall e, map_err e (let? k := r in Ok (Some k)) = (Ok k : checked _) ->
    (is_Some k <-> true = true) /\ forall b, k = Some b -> len b = MASTER_KEY_LEN).
  { intros [b|e'] Hr e; [|done]. intros [= <-]. split; [by split|]. intros ? [= <-]. by apply Hr. }
  destruct (va_master_key_b64 _), (va_master_key_file _); try done; apply Hsome; [by apply Hb|].
  intros b. unfold from_file. intros (raw & _ & Hk)%result_bind_ok. by apply Hb in Hk.
Qed.

(** What the validators guarantee of the parts that are built. *)
Lemma nonzero_pos z : 1 <= z -> nonzero z = Some z.
Proof. intros H. unfold nonzero. by rewrite (proj2 (Z.eqb_neq _ _)) by lia. Qed.

Lemma manager_config_sound cfg b :
  sessions_sound (cf_terminal_sessions cfg) ->
  manager_config cfg b = Some (mkManagerConfig (detached_live_pty_ttl cfg)
    (tc_max_live_pty_sessions_per_user (cf_terminal_sessions cfg))
    (tc_max_starting_sessions_per_user (cf_terminal_sessions cfg))
    (tc_max_live_pty_sessions_per_deployment (cf_terminal_sessions cfg)) b).
Proof.
  intros [H1 H2 H3 H4 H5 H6]. unfold manager_config.
  rewrite nonzero_pos by lia. cbn [mbind option_bind]. rewrite nonzero_pos by lia. cbn [mbind option_bind].
  by rewrite nonzero_pos by lia.
Qed.

Lemma ttl_sound cfg :
  sessions_sound (cf_terminal_sessions cfg) ->
  nanos 5 <= detached_live_pty_ttl cfg <= nanos 86400
  /\ duration_from_std (detached_live_pty_ttl cfg) = Some (detached_live_pty_ttl cfg).
Proof.
  intros [H _ _ _ _ _]. unfold detached_live_pty_ttl, duration_from_std, nanos, i64_max. split; [lia|].
  by rewrite (proj2 (Z.leb_le _ _)) by lia.
Qed.

Lemma recording_runtime_sound cfg r :
  sound cfg -> build_recording_runtime cfg = Ok r ->
  forall w, r = Some w -> au_mode (cf_auth cfg) = Dev /\ 1 <= chunk_target_bytes w <= chunk_hard_cap_bytes w.
Proof.
  intros [_ _ Hb _ Hk _]. unfold build_recording_runtime. destruct (rc_enabled _); [|by intros [= <-]].
  destruct (Hk eq_refl) as [Hm _ _]. destruct (en_mode _); [|done]. intros [= <-] w [= <-]. split; [apply Hm|apply Hb].
Qed.

Lemma worker_config_sound cfg w :
  bounds_sound (cf_terminal_recording cfg) -> cleanup_sound (rc_cleanup (cf_terminal_recording cfg)) ->
  worker_config cfg = Some w ->
  1 <= pc_retention_days w <= 3650 /\ 1 <= pc_batch_size w <= 10000 /\ 60 <= pc_interval w <= 604800.
Proof.
  intros [Hd _ _ _] [Hb Hi _]. unfold worker_config, periodic_worker_config_if_enabled.
  destruct (negb _ || negb _ || _) eqn:E; [done|]. intros [= <-]. cbn. bool_props. lia.
Qed.

Lemma first_user_gate_ok cfg d d' :
  first_user_gate cfg d = (Ok tt, d') -> au_mode (cf_auth cfg) = Production ->
  is_Some (au_first_user_bootstrap_token (cf_auth cfg)) \/ a_passwords d' <> ∅.
Proof.
  intros H Hp. unfold first_user_gate in H. rewrite Hp in H.
  destruct (au_first_user_bootstrap_token _); [by left; eexists|]. right.
  destruct (PgPasswordCredentialRepository.any_exists d) as [[[]|e] d1] eqn:E; [|done..].
  injection H as <-. by apply any_exists_true in E.
Qed.

(** The parts that are assembled from a sound configuration. *)
Lemma assemble_cases su cfg d' :
  sound cfg -> orphans (bd_rec d') = [] ->
  (au_mode (cf_auth cfg) = Production ->
     is_Some (au_first_user_bootstrap_token (cf_auth cfg)) \/ a_passwords (bd_auth d') <> ∅) ->
  match assemble su cfg with Serving s => served_ok cfg d' s | Refused _ => True | Panicked => False end.
Proof.
  intros Hs Ho Hf. unfold assemble. destruct (master_key_cases (su_host su) cfg) as [Hc Hk].
  destruct (vault_master_key (su_host su) cfg) as [key cfg']. cbn [fst snd] in Hc, Hk. subst cfg'.
  destruct key as [k|e]; [|done]. cbn [map_err]. destruct (Hk k eq_refl) as [Hk1 Hk2].
  destruct (build_recording_runtime (without_sources cfg)) as [r|e] eqn:Er; [|done].
  change (build_recording_runtime cfg = Ok r) in Er.
  change (manager_config (without_sources cfg)) with (manager_config cfg).
  rewrite manager_config_sound by apply Hs.
  destruct (su_binds su _); [|done].
  pose proof (so_sessions _ Hs) as [S1 S2 S3 S4 S5 S6].
  split; cbn [sv_manager sv_recording sv_master_key sv_auth_routes sv_worker mc_detach_ttl mc_max_live_pty_per_user
    mc_max_starting_per_user mc_max_live_pty_per_deployment mc_recording]; try lia; try done.
  - by apply ttl_sound.
  - split; [apply bool_decide_eq_true|]. by apply recording_runtime_sound.
  - intros Hp. destruct (so_auth _ Hs Hp) as [_ H2 H3]. split_and!; [done|done|by apply Hf].
  - intros w. change (worker_config (without_sources cfg)) with (worker_config cfg).
    apply worker_config_sound; apply Hs.
Qed.

(** A start that serves is sound, and none panics. *)
Lemma served_backend_sound su d :
  toml_typed ->
  match start su d with
  | (Serving s, d') => exists cfg, Config.load (su_host su) = Ok cfg /\ served_ok cfg d' s
  | (Refused _, _) => True
  | (Panicked, _) => False
  end.
Proof.
  intros Ht. unfold start. destruct (configure (su_host su)) as [cfg|e] eqn:Ec; [|done].
  apply configure_ok in Ec as [Hl Hv]. apply validated_exact in Hv; [|by apply (load_typed (su_host su))].
  destruct (su_connects su); [|done]. cbn [negb].
  destruct (reconcile_orphaned_on_startup _ _) as [[l|e] r] eqn:Er; [|done].
  apply reconciled_no_orphans in Er. cbv zeta.
  destruct (first_user_gate cfg (bd_auth d)) as [[[]|e] a] eqn:Eg; [|done].
  pose proof (assemble_cases su cfg (mkBootDb (startup_sweep cfg (su_sweep_at su) r) a) Hv) as Ha.
  destruct (assemble su cfg); [|done|].
  - exists cfg. split; [done|]. apply Ha; [|by apply (first_user_gate_ok cfg (bd_auth d))].
    cbn. by rewrite (orphans_kept _ _ (kept_startup_sweep _ _ _)).
  - apply Ha; [|by apply (first_user_gate_ok cfg (bd_auth d))].
    cbn. by rewrite (orphans_kept _ _ (kept_startup_sweep _ _ _)).
Qed.

End start.

(** ** The orchestrator's invariant after a restart *)

Lemma closed_row_readable at_ now r :
  session_row_ok r ->
  session_row_ok (closed_row at_ now r)
  /\ session_try_into_domain (closed_row at_ now r)
     = Ok (mkSession (r_id r) (r_owner_id r) (r_server_profile_id r) Closed (r_cols r) (r_rows r) (r_created_at r) now
             (Some at_)).
Proof.
  intros Hr. assert (Hok : session_row_ok (closed_row at_ now r)) by (split; [done|apply Hr]). split; [done|].
  destruct (session_row_readable _ Hok) as (st & Hst & ->). by destruct st.
Qed.

(** The stored rows are right before and after: the part of [ManagerInv.inv] that outlives the process. *)
Record store_ok (d : PgDb) : Prop := {
  sk_wf : pg_wf d;
  sk_sessions : map_Forall (fun _ => session_ok) (sv_sessions d);
  sk_fk : map_Forall (fun _ a => is_Some (sv_sessions d !! ta_session_id a)) (sv_attachments d);
  sk_events : Forall (fun e => is_Some (sv_sessions d !! se_session_id e)) (sv_events d)
}.

Lemma store_ok_same d d' : same_tables d d' -> store_ok d -> store_ok d'.
Proof.
  intros H [H1 H2 H3 H4]. destruct (same_tables_store_eq _ _ H) as (E1 & E2 & E3).
  split; rewrite <- ?E1, <- ?E2, <- ?E3; [by apply (same_tables_wf d)|done..].
Qed.

Section reconciled.
Context (at_ : Z) (l : list ReconciledTerminalSession) (d d' : PgRec).
Hypothesis Hc : closes at_ l d d'.
Hypothesis Hids : map rn_session_id l = map fst (orphans d).
Hypothesis Hok : store_ok (pr_db d).

Lemma reconciled_row id r' :
  t_sessions (pr_db d') !! id = Some r' ->
  exists r, t_sessions (pr_db d) !! id = Some r /\ r_id r = id /\ session_row_ok r
    /\ (r' = r \/ r' = closed_row at_ (clock (pr_db d)) r).
Proof.
  intros H. rewrite (cl_sessions _ _ _ _ Hc) in H. destruct (t_sessions (pr_db d) !! id) as [r|] eqn:E; [|done].
  exists r. destruct (wf_sessions _ (sk_wf _ Hok) _ _ E) as [Hi Hr]. split_and!; try done.
  cbn in H. injection H as <-. case_decide; auto.
Qed.

Lemma reconciled_wf : pg_wf (pr_db d').
Proof.
  split.
  - intros id r' (r & _ & Hi & Hr & [-> | ->])%reconciled_row; [done|].
    split; [done|]. by apply closed_row_readable.
  - rewrite (cl_attachments _ _ _ _ Hc). apply (sk_wf _ Hok).
Qed.

Lemma reconciled_some id : is_Some (sv_sessions (pr_db d) !! id) -> is_Some (sv_sessions (pr_db d') !! id).
Proof.
  rewrite !session_view_is_Some; [|exact reconciled_wf|apply Hok].
  intros [r Hr]. rewrite (cl_sessions _ _ _ _ Hc), Hr. by eexists.
Qed.

Lemma view_row (db : PgDb) id s : sv_sessions db !! id = Some s ->
  exists r, t_sessions db !! id = Some r /\ session_try_into_domain r = Ok s.
Proof.
  cbn. rewrite lookup_omap. destruct (t_sessions db !! id) as [r|]; [|done]. cbn. intros H. exists r. split; [done|].
  unfold session_of_row in H. destruct (session_try_into_domain r); [by injection H as ->|done].
Qed.

Lemma reconciled_session id s' :
  sv_sessions (pr_db d') !! id = Some s' ->
  session_ok s' /\ exists s, sv_sessions (pr_db d) !! id = Some s /\ session_grows s s'.
Proof.
  intros (r' & Hr' & Hs')%view_row. destruct (reconciled_row id r' Hr') as (r & Hr & Hi & Hro & Hcase).
  destruct (session_row_readable r Hro) as (st & _ & Hd).
  assert (Hv : sv_sessions (pr_db d) !! id = Some (mkSession (r_id r) (r_owner_id r) (r_server_profile_id r) st
    (r_cols r) (r_rows r) (r_created_at r) (r_last_seen_at r) (r_closed_at r))).
  { cbn. rewrite lookup_omap, Hr. cbn. unfold session_of_row. by rewrite Hd. }
  pose proof (sk_sessions _ Hok _ _ Hv) as Hso. destruct Hcase as [-> | ->].
  - rewrite Hd in Hs'. injection Hs' as <-. split; [done|]. by eexists.
  - rewrite (proj2 (closed_row_readable _ _ _ Hro)) in Hs'. injection Hs' as <-.
    split; [|eexists; split; [exact Hv|by split]]. destruct Hso as [Ho1 Ho2 _]. by split.
Qed.

Lemma reconciled_store : store_ok (pr_db d').
Proof.
  split.
  - exact reconciled_wf.
  - intros id s Hs. by apply reconciled_session in Hs as [? _].
  - change (sv_attachments (pr_db d')) with (t_attachments (pr_db d')). rewrite (cl_attachments _ _ _ _ Hc).
    intros id a Ha. apply reconciled_some. exact (sk_fk _ Hok _ _ Ha).
  - destruct (cl_events _ _ _ _ Hc) as (evs & He & Hf). cbn [sv_events pg_session_store]. rewrite He, omap_app.
    apply Forall_app. split.
    + eapply Forall_impl; [exact (sk_events _ Hok)|]. intros e. apply reconciled_some.
    + apply Forall_forall. intros e (row & Hrow & Hev)%list_elem_of_omap.
      apply list_elem_of_lookup in Hrow as [i Hi]. destruct (Forall2_lookup_r _ _ _ i row Hf Hi) as (r & Hr & Hcl & _).
      assert (Hin : rn_session_id r ∈ map fst (orphans d)).
      { rewrite <- Hids. apply list_elem_of_In, in_map, list_elem_of_In. by eapply list_elem_of_lookup_2. }
      apply list_elem_of_In, in_map_iff in Hin as ([id st] & Hid & Hin%list_elem_of_In).
      apply orphans_In in Hin as (row0 & Hrow0 & _). apply reconciled_some, session_view_is_Some; [apply Hok|].
      unfold event_of_row, event_try_into_domain in Hev. destruct (event_from_str_tag _); [|done]. injection Hev as <-.
      cbn in Hid |- *. rewrite Hcl, <- Hid. by eexists.
Qed.

Lemma reconciled_grows : map_grows session_grows (sv_sessions (pr_db d)) (sv_sessions (pr_db d')).
Proof.
  intros id s Hs. destruct (reconciled_some id) as [s' Hs']; [by eexists|]. exists s'. split; [done|].
  apply reconciled_session in Hs' as (_ & s0 & Hs0 & Hg). congruence.
Qed.
End reconciled.

Lemma no_orphans_closed d id s : store_ok (pr_db d) -> orphans d = [] -> sv_sessions (pr_db d) !! id = Some s -> ts_status s = Closed.
Proof.
  intros Hok Ho (r & Hr & Hd)%view_row. destruct (wf_sessions _ (sk_wf _ Hok) _ _ Hr) as [_ Hro].
  destruct (session_row_readable r Hro) as (st & Hst & Hd'). rewrite Hd' in Hd. injection Hd as <-. cbn.
  destruct (decide (st = Closed)) as [|Hne]; [done|]. exfalso.
  assert (Hin : (id, r_status r) ∈ orphans d); [|rewrite Ho in Hin; by apply elem_of_nil in Hin].
  apply orphans_In. exists r. split_and!; [done|done|]. unfold orphan. apply bool_decide_eq_true. rewrite Hst.
  destruct st; set_solver.
Qed.

(** What a restart makes of the stored sessions: all are closed, none is lost, and nothing but their status
    and their times has changed. *)
Record restarted (before after : PgDb) : Prop := {
  rs_closed : forall id s, sv_sessions after !! id = Some s -> ts_status s = Closed;
  rs_grows : map_grows session_grows (sv_sessions before) (sv_sessions after);
  rs_attachments : sv_attachments after = sv_attachments before
}.

(** C38: the invariant of the orchestrator survives the death of its process.  Take any state the
    orchestrator reached before, whatever it was doing, and a process that starts on the database that this
    state left: if it serves, then empty registries over the database it found satisfy the invariant again;
    every session is closed; no session, owner, profile, size or attachment was lost or changed. *)
Theorem restart_restores_invariant {B R : Type} {Sa : SocketAddrs} {To : Toml} {B6 : Base64Standard}
  (w : World PgDb B R) su d s d' (t : Z) (b : B) (r : R) :
  inv w -> w_db w = pr_db (bd_rec d) -> start su d = (Serving s, d') ->
  inv (ManagerInv.boot (pr_db (bd_rec d')) t b r)
  /\ restarted (w_db w) (pr_db (bd_rec d')).
Proof.
  intros [H1 H2 H3 H4 _ _ _] Hw Hrun. rewrite Hw in *.
  assert (Hok : store_ok (pr_db (bd_rec d))) by done.
  unfold start in Hrun. destruct (configure (su_host su)) as [cfg|e]; [|done].
  destruct (su_connects su); [|done]. cbn [negb] in Hrun.
  pose proof (reconcile_cases (su_reconcile_at su) (bd_rec d)) as Hrec. cbv zeta in Hrec.
  destruct (reconcile_orphaned_on_startup _ _) as [[l|e] r1] eqn:Er; [|done]. cbn [fst snd] in Hrec.
  destruct Hrec as (Hids & _ & Hc). apply reconciled_no_orphans in Er. cbv zeta in Hrun.
  destruct (first_user_gate cfg (bd_auth d)) as [[[]|e] a]; [|done]. injection Hrun as _ <-. cbn [bd_rec].
  pose proof (kept_startup_sweep cfg (su_sweep_at su) r1) as Hkept.
  set (r2 := startup_sweep _ _ _) in *.
  pose proof (reconciled_store _ _ _ _ Hc Hids Hok) as Hok1. pose proof (store_ok_same _ _ Hkept Hok1) as Hok2.
  destruct (same_tables_store_eq _ _ Hkept) as (E1 & E2 & _). split; [destruct Hok2; by apply inv_boot|split].
  - intros id x. apply no_orphans_closed; [done|]. by rewrite (orphans_kept _ _ Hkept).
  - rewrite <- E1. by apply (reconciled_grows _ _ _ _ Hc).
  - rewrite <- E2. apply (cl_attachments _ _ _ _ Hc).
Qed.

(** ** Refusals, and a start that succeeds *)

Section outcomes.
Context {Sa : SocketAddrs} {To : Toml} {B6 : Base64Standard}.

(** What a refusal means and what it left behind. *)
Definition refusal_ok (su : Surroundings) (d d' : BootDb) (e : BootError) : Prop :=
  match e with
  | LoadRefused e => Config.load (su_host su) = Err e /\ d' = d
  | GateRefused _ _ => (exists cfg, Config.load (su_host su) = Ok cfg /\ ~ sound cfg) /\ d' = d
  | ConnectFailed => su_connects su = false /\ d' = d
  | ReconcileFailed _ => db_frame (bd_rec d) (bd_rec d') /\ bd_auth d' = bd_auth d
  | _ => orphans (bd_rec d') = []
  end.

Lemma assemble_refuses su cfg e : assemble su cfg = Refused e ->
  match e with MasterKeyRefused _ | EncryptionWriterMissing | BindFailed => True | _ => False end.
Proof.
  unfold assemble. destruct (vault_master_key _ cfg) as [[k|er] c]; cbn [map_err]; [|by intros [= <-]].
  unfold build_recording_runtime. destruct (rc_enabled _); cbn [negb].
  - destruct (en_mode _); [|by intros [= <-]].
    destruct (manager_config c _); [|done]. by destruct (su_binds su _); intros [= <-].
  - destruct (manager_config c _); [|done]. by destruct (su_binds su _); intros [= <-].
Qed.

Lemma first_user_gate_refuses cfg d e d' : first_user_gate cfg d = (Err e, d') ->
  match e with FirstUserCheckFailed _ | NoFirstUser => True | _ => False end.
Proof.
  unfold first_user_gate. destruct (au_mode (cf_auth cfg)), (au_first_user_bootstrap_token (cf_auth cfg)); try done.
  destruct (PgPasswordCredentialRepository.any_exists d) as [[[]|er] d1]; by intros [= <- <-].
Qed.

Lemma configure_err host e : toml_typed -> configure host = Err e ->
  match e with
  | LoadRefused e => Config.load host = Err e
  | GateRefused _ _ => exists cfg, Config.load host = Ok cfg /\ ~ sound cfg
  | _ => False
  end.
Proof.
  intros Ht H. pose proof (configure_ok host) as Hok. destruct (Config.load host) as [cfg|e'] eqn:El.
  - assert (Hn : ~ sound cfg).
    { intros Hs. apply validated_exact in Hs; [|by apply (load_typed host)].
      assert (configure host = Ok cfg) by (by apply Hok). congruence. }
    unfold configure in H. rewrite El in H. cbn [map_err result_bind] in H.
    repeat (apply result_bind_err in H as [H|([] & _ & H)]; [apply map_err_err in H as [? ->]; by exists cfg|]). done.
  - unfold configure in H. rewrite El in H. by injection H as <-.
Qed.

Lemma refused_start_explained su d e d' :
  toml_typed -> start su d = (Refused e, d') -> refusal_ok su d d' e.
Proof.
  intros Ht. unfold start. destruct (configure (su_host su)) as [cfg|er] eqn:Ec.
  2: { intros [= <- <-]. apply configure_err in Ec; [|done]. destruct er; try done; by split. }
  destruct (su_connects su) eqn:Eco; cbn [negb]; [|by intros [= <- <-]].
  pose proof (reconcile_cases (su_reconcile_at su) (bd_rec d)) as Hrec. cbv zeta in Hrec.
  destruct (reconcile_orphaned_on_startup _ _) as [[l|er] r1] eqn:Er; cbn [fst snd] in Hrec; [|by intros [= <- <-]].
  apply reconciled_no_orphans in Er. cbv zeta.
  assert (Ho : forall a, orphans (bd_rec (mkBootDb (startup_sweep cfg (su_sweep_at su) r1) a)) = []).
  { intros a. cbn. by rewrite (orphans_kept _ _ (kept_startup_sweep _ _ _)). }
  destruct (first_user_gate cfg (bd_auth d)) as [[[]|er] a] eqn:Eg; intros [= E <-].
  - apply assemble_refuses in E. by destruct e; try done; apply Ho.
  - subst er. apply first_user_gate_refuses in Eg. by destruct e; try done; apply Ho.
Qed.


(** A start succeeds when nothing stands in its way: the configuration loads and is sound, the
    database and the listener answer, the vault's key resolves, recording does not ask for the encryption
    writer, and in production somebody can log in. *)
Theorem sound_start_serves su d cfg k :
  toml_typed -> Config.load (su_host su) = Ok cfg -> sound cfg -> su_connects su = true -> rec_healthy (bd_rec d) ->
  a_faults (bd_auth d) = [] ->
  (au_mode (cf_auth cfg) = Production ->
     is_Some (au_first_user_bootstrap_token (cf_auth cfg)) \/ a_passwords (bd_auth d) <> ∅) ->
  (vault_master_key (su_host su) cfg).1 = Ok k ->
  (rc_enabled (cf_terminal_recording cfg) = true -> en_mode (rc_encryption (cf_terminal_recording cfg)) = EncDisabled) ->
  su_binds su (cf_bind cfg) = true ->
  exists s d', start su d = (Serving s, d').
Proof.
  intros Ht Hl Hs Hco Hh Hf Hu Hk He Hb. unfold start.
  rewrite (proj2 (configure_ok (su_host su) cfg)).
  2: { split; [done|]. apply validated_exact; [by apply (load_typed (su_host su))|done]. }
  rewrite Hco. cbn [negb]. pose proof (reconcile_succeeds (su_reconcile_at su) _ Hh) as Hr.
  destruct (reconcile_orphaned_on_startup _ _) as [[l|e] r1]; [|done]. cbv zeta.
  assert (Hg : exists a, first_user_gate cfg (bd_auth d) = (Ok tt, a)).
  { unfold first_user_gate. destruct (au_mode (cf_auth cfg)); [by eexists|].
    destruct (au_first_user_bootstrap_token (cf_auth cfg)); [by eexists|].
    unfold PgPasswordCredentialRepository.any_exists, auth_execute, auth_next_fault. rewrite Hf.
    destruct (Hu eq_refl) as [[? ?]|Hne]; [done|]. rewrite bool_decide_eq_false_2 by done. by eexists. }
  destruct Hg as [a ->]. unfold assemble. destruct (master_key_cases (su_host su) cfg) as [Hc _].
  destruct (vault_master_key (su_host su) cfg) as [key cfg']. cbn [fst snd] in Hc, Hk. subst key cfg'. cbn [map_err].
  change (build_recording_runtime (without_sources cfg)) with (build_recording_runtime cfg).
  change (manager_config (without_sources cfg)) with (manager_config cfg).
  change (cf_bind (without_sources cfg)) with (cf_bind cfg).
  assert (Hr' : exists w, build_recording_runtime cfg = Ok w).
  { unfold build_recording_runtime. destruct (rc_enabled _); [|by eexists]. rewrite He by done. by eexists. }
  destruct Hr' as [w ->]. rewrite manager_config_sound by apply Hs. rewrite Hb. by do 2 eexists.
Qed.

End outcomes.

(** ** The worker *)

Definition got_lock (e : WorkerEvent) : bool :=
  match e with
  | Ticked l _ => la_connection l && bool_decide (la_try_lock l = Some true)
  | _ => false
  end.

(** The worker is not told to stop, and its clock reads a time between the two. *)
Definition keeps_running (now0 now1 : Z) (e : WorkerEvent) : Prop :=
  match e with
  | ShutdownChanged b => b = false
  | SenderDropped => False
  | Ticked _ now => now0 <= now <= now1
  end.

Lemma expired_later id n now now1 d :
  now <= now1 -> expired_at id n now1 d = None -> expired_at id n now d = None.
Proof.
  intros Hle. unfold expired_at. destruct (t_sessions (pr_db d) !! id) as [row|]; [|done]. cbn.
  destruct (r_closed_at row) as [c|]; [|done]. cbn. destruct (c + days n <=? now1) eqn:E; [done|].
  intros _. bool_props. by rewrite (proj2 (Z.leb_gt _ _)) by lia.
Qed.

(** What a stretch of the worker's life did: sessions that had expired at [now0] went down by [k] batches,
    and only sessions that had expired by [now1] lost rows. *)
Record worked (n batch now0 now1 k : Z) (d d' : PgRec) : Prop := {
  wk_faults : no_faults d';
  wk_sessions : t_sessions (pr_db d') = t_sessions (pr_db d);
  wk_backlog : len (eligible n now0 d') <= Z.max 0 (len (eligible n now0 d) - k * batch);
  wk_spared : forall id, expired_at id n now1 d = None -> rows_of id d' = rows_of id d
}.

Lemma tick_works n batch now0 now1 l now d :
  no_faults d -> n <= i32_max -> 1 <= batch -> now0 <= now <= now1 ->
  worked n batch now0 now1 (if got_lock (Ticked l now) then 1 else 0) d
    (run_one_periodic_tick (Some l) n batch now d).2.
Proof.
  intros Hf Hn Hb [Hle Hle']. unfold run_one_periodic_tick, run_with_lock, got_lock.
  assert (Hidle : worked n batch now0 now1 0 d d) by (split; [done|done|lia|done]).
  destruct (la_connection l); [|done]. cbn [negb andb]. destruct (la_try_lock l) as [[]|]; [|done..].
  destruct (sweep_complete n batch now d Hf Hn Hb) as (Hsw & Hf' & _).
  destruct (run_recording_retention_sweep n batch now d) as [s d']. cbn [fst snd] in *.
  assert (Hw : worked n batch now0 now1 1 d d').
  { split; [done|apply Hsw|pose proof (sweep_progress n now0 now batch d d' Hle Hb Hsw); lia|].
    intros id Hx. rewrite (sw_rows _ _ _ Hsw). rewrite decide_False; [done|]. intros Hin.
    destruct (candidates_spec n now batch d Hb) as (_ & _ & Hel & _). destruct (Hel id Hin) as [[c Hc] _].
    by rewrite (expired_later id n now now1 d) in Hc by done. }
  rewrite bool_decide_eq_true_2 by done. by destruct (la_unlock l).
Qed.

Lemma worked_trans n batch now0 now1 k1 k2 d d1 d2 :
  0 <= k1 -> 0 <= k2 -> 1 <= batch ->
  worked n batch now0 now1 k1 d d1 -> worked n batch now0 now1 k2 d1 d2 -> worked n batch now0 now1 (k1 + k2) d d2.
Proof.
  intros H1 H2 Hb [A1 A2 A3 A4] [B1 B2 B3 B4]. split; [done|congruence|nia|].
  intros id Hx. rewrite B4, A4; [done|done|]. unfold expired_at in *. by rewrite A2.
Qed.

Lemma worker_works wc now0 now1 events d :
  no_faults d -> pc_retention_days wc <= i32_max -> 1 <= pc_batch_size wc ->
  Forall (keeps_running now0 now1) events ->
  (worker_loop wc events d).1 = false
  /\ worked (pc_retention_days wc) (pc_batch_size wc) now0 now1 (len (filter (fun e => got_lock e = true) events)) d
       (worker_loop wc events d).2.
Proof.
  intros Hf Hn Hb He. revert d Hf. induction He as [|e events Hx _ IH]; intros d Hf.
  { split; [done|]. rewrite filter_nil, len_nil. split; [done|done|cbn; lia|done]. }
  destruct e as [b| |l now]; cbn [worker_loop keeps_running] in *.
  - subst b. rewrite filter_cons_False by done. by apply IH.
  - done.
  - pose proof (tick_works (pc_retention_days wc) (pc_batch_size wc) now0 now1 l now d Hf Hn Hb Hx) as Ht.
    destruct (IH _ (wk_faults _ _ _ _ _ _ _ Ht)) as [IH1 IH2]. split; [done|].
    assert (Hlen : len (filter (fun e => got_lock e = true) (Ticked l now :: events))
      = (if got_lock (Ticked l now) then 1 else 0) + len (filter (fun e => got_lock e = true) events)).
    { rewrite filter_cons. destruct (got_lock (Ticked l now)); [|done]. cbn [decide]. rewrite decide_True by done. by rewrite len_cons. }
    rewrite Hlen. apply (worked_trans _ _ _ _ _ _ _ _ _) with (5 := IH2) (4 := Ht); [|apply len_nonneg|done].
    by destruct (got_lock _).
Qed.

(** C39: the worker of a sound configuration gets through its backlog.  Whatever recordings have expired at
    some time, as soon as as many of its ticks have got the lock as batches are needed for them, all of them
    are gone, no matter what expires meanwhile and how the other ticks fare; sessions that have not expired
    by the last tick keep every row; no session row changes; and the worker is still running. *)
Theorem worker_drains_expired {Sa : SocketAddrs} (cfg : Config) wc now0 now1 events d :
  sound cfg -> worker_config cfg = Some wc -> no_faults d ->
  Forall (keeps_running now0 now1) events ->
  len (eligible (pc_retention_days wc) now0 d)
    <= pc_batch_size wc * len (filter (fun e => got_lock e = true) events) ->
  let (ended, d') := worker_loop wc events d in
  ended = false /\ t_sessions (pr_db d') = t_sessions (pr_db d)
  /\ (forall id, is_Some (expired_at id (pc_retention_days wc) now0 d) -> rows_of id d' = [])
  /\ (forall id, expired_at id (pc_retention_days wc) now1 d = None -> rows_of id d' = rows_of id d).
Proof.
  intros Hs Hw Hf He Hlen. apply worker_config_sound in Hw as (Hn & Hb & _); [|apply Hs..].
  assert (Hi : pc_retention_days wc <= i32_max) by (unfold i32_max; lia).
  destruct (worker_works wc now0 now1 events d Hf Hi ltac:(lia) He) as [H1 [H2 H3 H4 H5]].
  destruct (worker_loop wc events d) as [ended d']. cbn [fst snd] in *. split_and!; [done|done| |done].
  assert (Hnil : eligible (pc_retention_days wc) now0 d' = []).
  { destruct (eligible _ now0 d') as [|x l]; [done|]. rewrite len_cons in H4. pose proof (len_nonneg l). nia. }
  intros id [c Hc]. destruct (rows_of id d') as [|x l] eqn:E; [done|]. exfalso.
  assert (Hin : (id, c) ∈ eligible (pc_retention_days wc) now0 d').
  { apply expired_In; [|by rewrite E]. unfold expired_at in *. by rewrite H3. }
  rewrite Hnil in Hin. by apply elem_of_nil in Hin.
Qed.
