(* ===== verification/BootScenario.v ===== *)
(** * A start, step by step

    A development host with a configuration file, a vault key and the periodic sweep in its environment, on a
    database that a crash left with two open sessions: every premise of the start-up theorems holds of it. *)

From S2P Require Import Prelude Utf8 Throttle Core SessionStore PgSession Prog Manager ManagerInv Recording.
From S2P Require Import PgRecording Reconcile AuthStore AuthRoutes Inventory Vault HostKey KeyVault Config ConfigSpec.
From S2P Require Import Boot BootSpec.
Import PgTerminalRecordingRepository.

(** ** The surroundings *)

#[local] Existing Instance toy_addrs.

Definition blank_file : FileConfig := mkFileConfig None None None None None None.
Definition days_file : FileConfig :=
  mkFileConfig None None None None
    (Some (mkFileRecording None (Some 7) None None None None None None)) None.

(** A parser that knows two files. *)
#[local] Instance toy_toml : Toml :=
  fun raw => if bool_decide (raw = []) then Ok blank_file
             else if bool_decide (raw = lit "days = 7") then Ok days_file else Err (lit "syntax").

#[local] Instance toy_base64 : Base64Standard := fun s => Ok (as_bytes s).

Lemma toy_toml_typed : toml_typed.
Proof.
  intros raw f. unfold toml_from_str, toy_toml. case_bool_decide; [intros [= <-]; by split|].
  case_bool_decide; [|done]. intros [= <-]. split; try done. intros z [= <-]. by vm_compute.
Qed.

Definition env0 (name : string) : option rstr :=
  if bool_decide (name = "RELAYTERM_CONFIG"%string) then Some (lit "relayterm.toml")
  else if bool_decide (name = "RELAYTERM_VAULT__MASTER_KEY_B64"%string) then
    Some (lit "0123456789abcdef0123456789abcdef")
  else if bool_decide (name = "RELAYTERM_TERMINAL_RECORDING__CLEANUP__PERIODIC_SWEEP_ENABLED"%string) then Some (lit "true")
  else if bool_decide (name = "RELAYTERM_TERMINAL_RECORDING__CLEANUP__SWEEP_INTERVAL_SECONDS"%string) then Some (lit "60")
  else None.

Definition host0 : HostEnv := mkHostEnv env0 (fun p => bool_decide (p = lit "relayterm.toml")) (fun _ => Ok (lit "days = 7")).

(** The same host, told to be in production without a signing key. *)
Definition host1 : HostEnv :=
  mkHostEnv (fun name => if bool_decide (name = "RELAYTERM_AUTH__MODE"%string) then Some (lit "production") else env0 name)
    (is_file host0) (read_to_string host0).

Definition su0 (host : HostEnv) : Surroundings := mkSurroundings host true 2500 2600 (fun _ => true).

Definition auth0 : AuthDb := mkAuthDb ∅ ∅ ∅ [] 2000 300 [].
Definition db0 : BootDb := mkBootDb crash_db auth0.

Definition cfg0 : Config := match Config.load host0 with Ok c => c | Err _ => defaults end.

Lemma cfg0_loaded : Config.load host0 = Ok cfg0.
Proof. by vm_compute. Qed.

Lemma cfg0_sound : sound cfg0.
Proof. apply validated_exact; [exact (load_typed host0 cfg0 toy_toml_typed cfg0_loaded)|]. by vm_compute. Qed.

Lemma crash_healthy : rec_healthy crash_db.
Proof.
  split; [done|constructor|]. intros id. unfold chunks_of, rows_of. cbn. case_match; repeat constructor. cbn. lia.
Qed.

Definition is_serving (o : Startup) : bool := match o with Serving _ => true | _ => false end.

Lemma start0_serves : is_serving (start (su0 host0) db0).1 = true.
Proof. vm_compute. reflexivity. Qed.

Lemma start1_refuses : is_serving (start (su0 host1) db0).1 = false.
Proof. vm_compute. reflexivity. Qed.

(** ** Witnesses *)


Lemma sound_start_serves_witness : exists s d', start (su0 host0) db0 = (Serving s, d').
Proof.
  apply (sound_start_serves (su0 host0) db0 cfg0 (Some (as_bytes (lit "0123456789abcdef0123456789abcdef"))));
    [exact toy_toml_typed|exact cfg0_loaded|exact cfg0_sound|reflexivity|exact crash_healthy|reflexivity
    |intros H; by vm_compute in H|by vm_compute|by vm_compute|reflexivity].
Defined.

(** The world of the orchestrator at the time of the crash. *)
Definition crashed : World PgDb unit unit := ManagerInv.boot (pr_db crash_db) 2000 () ().

Lemma crash_view id s : sv_sessions (pr_db crash_db) !! id = Some s -> id ∈ [100; 101; 102] /\ session_ok s.
Proof.
  intros (r & Hr & Hd)%view_row. cbn in Hr.
  repeat (apply lookup_insert_Some in Hr as [[<- <-]|[_ Hr]];
    [split; [set_solver|]; vm_compute in Hd; injection Hd as <-; split; (by vm_compute) || (split; [done|by intros [? ?]])|]).
  apply lookup_singleton_Some in Hr as [<- <-]. split; [set_solver|]. vm_compute in Hd. injection Hd as <-.
  split; try by vm_compute. split; [by eexists|done].
Qed.

Lemma crashed_inv : inv crashed.
Proof.
  apply inv_boot.
  - split; [|apply map_Forall_empty]. intros id r Hr. cbn in Hr.
    repeat (apply lookup_insert_Some in Hr as [[<- <-]|[_ Hr]]; [by split|]).
    apply lookup_singleton_Some in Hr as [<- <-]. by split.
  - intros id s Hs. by apply crash_view in Hs as [_ ?].
  - apply map_Forall_empty.
  - constructor.
Qed.

Lemma restart_restores_invariant_witness :
  exists s d', start (su0 host0) db0 = (Serving s, d')
    /\ inv (ManagerInv.boot (pr_db (bd_rec d')) 3000 () () : World PgDb unit unit).
Proof.
  pose proof start0_serves as Hs.
  destruct (start (su0 host0) db0) as [[s|e|] d'] eqn:E; [|discriminate Hs..].
  exists s, d'. split; [reflexivity|].
  exact (proj1 (restart_restores_invariant crashed (su0 host0) db0 s d' 3000 () () crashed_inv eq_refl E)).
Defined.

Definition wc0 : RecordingRetentionPeriodicConfig := mkPeriodic 7 100 60.
Definition late : Z := days 8.
Definition ticks : list WorkerEvent :=
  [Ticked (mkLockAnswers true (Some false) true) late; ShutdownChanged false; Ticked (mkLockAnswers true (Some true) true) late].

Lemma worker_drains_expired_witness :
  rows_of 100 rec_old <> [] /\ rows_of 100 (worker_loop wc0 ticks rec_old).2 = [].
Proof.
  split; [by vm_compute|].
  assert (He : Forall (keeps_running late late) ticks).
  { apply Forall_cons; split; [cbn; lia|]. apply Forall_cons; split; [reflexivity|].
    apply Forall_cons; split; [cbn; lia|constructor]. }
  assert (Hw : worker_config cfg0 = Some wc0) by (vm_compute; reflexivity).
  assert (Hl : len (eligible (pc_retention_days wc0) late rec_old)
    <= pc_batch_size wc0 * len (filter (fun e => got_lock e = true) ticks)) by (vm_compute; congruence).
  pose proof (worker_drains_expired cfg0 wc0 late late ticks rec_old cfg0_sound Hw eq_refl He Hl) as H.
  destruct (worker_loop wc0 ticks rec_old) as [ended d']. destruct H as (_ & _ & H & _). cbn [snd].
  apply H. vm_compute. by eexists.
Defined.
