(* ===== verification/Shutdown.v ===== *)
(** * The end of a process

    Models the last part of [main] of [apps/backend/src/main.rs], from [axum::serve] to the return, with
    [shutdown_signal], the watch channel between the two, and the join of the retention worker, whose loop is
    [worker_loop] of [Boot.v].  Here a sweep has a beginning and an end, and a signal may come in between.

    What [axum::serve] does is chosen by the environment: it may return any time after the signal, and fail any
    time. *)

From S2P Require Import Prelude Recording PgRecording Boot.
Import PgTerminalRecordingRepository.

(** ** The state *)

Inductive WorkerPhase :=
| WkSelect
| WkSweeping (lock : LockAnswers) (now : Z)
| WkEnded.

Inductive MainPhase :=
| PmServing
| PmJoining
| PmReturned (ok : bool).

Record Process := mkProcess {
  pp_signalled : bool;              (** the value of the watch channel *)
  pp_main : MainPhase;
  pp_worker : option WorkerPhase;   (** the spawned worker, if there is one *)
  pp_db : PgRec;
  pp_woken : list WorkerEvent       (** history: what the worker's loop has taken *)
}.

(** The process when it begins to serve *)
Definition serving (worker : option RecordingRetentionPeriodicConfig) (d : PgRec) : Process :=
  mkProcess false PmServing ((fun _ => WkSelect) <$> worker) d [].

Definition returned (m : MainPhase) : bool := match m with PmReturned _ => true | _ => false end.

(** ** The steps *)

(** Once [main] has returned, nothing runs any more. *)
Inductive ProcessEvent :=
| CtrlC
| Terminate
| ServeReturns
| ServeFails
| TickStarts (lock : LockAnswers) (now : Z)
| SweepEnds
| ShutdownSeen
| Joined
| DatabaseChanges (d : PgRec).

(** [shutdown_signal] and what follows it in the closure given to [with_graceful_shutdown] *)
Definition shutdown_signal (p : Process) : option Process :=
  match pp_main p with
  | PmServing => Some (mkProcess true PmServing (pp_worker p) (pp_db p) (pp_woken p))
  | _ => None
  end.

(** What [main] does when [axum::serve] is over *)
Definition serve_over (ok : bool) (p : Process) : option Process :=
  match pp_main p with
  | PmServing =>
      let main := if ok then match pp_worker p with Some _ => PmJoining | None => PmReturned true end
                  else PmReturned false in
      Some (mkProcess (pp_signalled p) main (pp_worker p) (pp_db p) (pp_woken p))
  | _ => None
  end.

(** The worker: its [select!] is [biased], so a pending shutdown wins over a tick. *)
Definition worker_ticks (lock : LockAnswers) (now : Z) (p : Process) : option Process :=
  match pp_worker p with
  | Some WkSelect =>
      if pp_signalled p then None
      else Some (mkProcess false (pp_main p) (Some (WkSweeping lock now)) (pp_db p) (pp_woken p))
  | _ => None
  end.

Definition sweep_ends (cfg : RecordingRetentionPeriodicConfig) (p : Process) : option Process :=
  match pp_worker p with
  | Some (WkSweeping lock now) =>
      Some (mkProcess (pp_signalled p) (pp_main p) (Some WkSelect)
        (run_one_periodic_tick (Some lock) (pc_retention_days cfg) (pc_batch_size cfg) now (pp_db p)).2
        (pp_woken p ++ [Ticked lock now]))
  | _ => None
  end.

Definition worker_sees_shutdown (p : Process) : option Process :=
  match pp_worker p with
  | Some WkSelect =>
      if pp_signalled p then
        Some (mkProcess true (pp_main p) (Some WkEnded) (pp_db p) (pp_woken p ++ [ShutdownChanged true]))
      else None
  | _ => None
  end.

(** [RetentionPeriodicWorkerHandle::shutdown] *)
Definition worker_joined (p : Process) : option Process :=
  match pp_main p, pp_worker p with
  | PmJoining, Some WkEnded => Some (mkProcess (pp_signalled p) (PmReturned true) (Some WkEnded) (pp_db p) (pp_woken p))
  | _, _ => None
  end.

Definition process_step (cfg : RecordingRetentionPeriodicConfig) (ev : ProcessEvent) (p : Process) : option Process :=
  if returned (pp_main p) then None
  else match ev with
  | CtrlC | Terminate => shutdown_signal p
  | ServeReturns => if pp_signalled p then serve_over true p else None
  | ServeFails => serve_over false p
  | TickStarts lock now => worker_ticks lock now p
  | SweepEnds => sweep_ends cfg p
  | ShutdownSeen => worker_sees_shutdown p
  | Joined => worker_joined p
  | DatabaseChanges d => Some (mkProcess (pp_signalled p) (pp_main p) (pp_worker p) d (pp_woken p))
  end.

Fixpoint process_run (cfg : RecordingRetentionPeriodicConfig) (evs : list ProcessEvent) (p : Process) : option Process :=
  match evs with
  | [] => Some p
  | ev :: evs => p ← process_step cfg ev p; process_run cfg evs p
  end.

(** ** An orderly end *)

Section shutdown.
Context (cfg : RecordingRetentionPeriodicConfig).

(** A process that joins was signalled; one that returned well has no worker left; a worker ends only after
    the signal. *)
Record orderly (p : Process) : Prop := {
  od_joining : pp_main p = PmJoining -> pp_signalled p = true /\ is_Some (pp_worker p);
  od_returned : pp_main p = PmReturned true ->
    pp_signalled p = true /\ (pp_worker p = None \/ pp_worker p = Some WkEnded);
  od_ended : pp_worker p = Some WkEnded -> pp_signalled p = true
}.

Ltac process_cases H :=
  unfold process_step, shutdown_signal, serve_over, worker_ticks, sweep_ends, worker_sees_shutdown, worker_joined in H;
  repeat match type of H with
  | context [match ?x with _ => _ end] =>
      lazymatch x with context [match _ with _ => _ end] => fail | _ => idtac end;
      destruct x eqn:?; try discriminate H
  end; injection H as <-.

Lemma orderly_step ev p p' : process_step cfg ev p = Some p' -> orderly p -> orderly p'.
Proof.
  intros H [H1 H2 H3]. destruct ev; process_cases H; split; cbn in *; intros; simplify_eq;
    repeat match goal with E : ?x = ?y |- _ => rewrite E in * end; naive_solver.
Qed.

(** The states of a process that was started with or without a worker *)
Inductive lives (d0 : PgRec) : Process -> Prop :=
| lives_start worker : worker = None \/ worker = Some cfg -> lives d0 (serving worker d0)
| lives_step ev p p' : lives d0 p -> process_step cfg ev p = Some p' -> lives d0 p'.

Lemma lives_orderly d0 p : lives d0 p -> orderly p.
Proof.
  induction 1 as [w Hw|ev p p' _ IH Hs]; [|by apply (orderly_step ev p)].
  split; try done. by destruct Hw as [->| ->].
Qed.

Lemma run_lives d0 evs p p' : lives d0 p -> process_run cfg evs p = Some p' -> lives d0 p'.
Proof.
  revert p. induction evs as [|ev evs IH]; intros p Hp; cbn [process_run]; [by intros [= <-]|].
  destruct (process_step cfg ev p) as [p1|] eqn:E; [|done]. apply IH. by apply (lives_step d0 ev p).
Qed.

(** *** The sweeps *)

Definition ended (w : option WorkerPhase) : bool := match w with Some WkEnded => true | _ => false end.

(** The worker as [worker_loop] sees it: the events it has taken explain its state, as long as nobody else
    writes to the database. *)
Definition explained (d0 : PgRec) (p : Process) : Prop :=
  worker_loop cfg (pp_woken p) d0 = (ended (pp_worker p), pp_db p).

Lemma worker_loop_app evs evs' d d1 :
  worker_loop cfg evs d = (false, d1) -> worker_loop cfg (evs ++ evs') d = worker_loop cfg evs' d1.
Proof.
  revert d. induction evs as [|[[]| |l now] evs IH]; intros d; cbn [worker_loop app]; try done;
    [by intros [= <-]|apply IH..].
Qed.

Lemma explained_step d0 ev p p' :
  (forall d, ev <> DatabaseChanges d) -> process_step cfg ev p = Some p' -> explained d0 p -> explained d0 p'.
Proof.
  intros Hd H He. unfold explained in *. destruct ev; try (by destruct (Hd d)); process_cases H; cbn in *;
    repeat match goal with E : pp_worker _ = _ |- _ => rewrite E in * end;
    first [exact He | by rewrite (worker_loop_app _ _ _ _ He) | by rewrite He].
Qed.

(** The life of the worker under [main] is a run of [worker_loop]. *)
Theorem process_runs_worker_loop d0 evs p :
  (forall d, DatabaseChanges d ∉ evs) -> process_run cfg evs (serving (Some cfg) d0) = Some p ->
  worker_loop cfg (pp_woken p) d0 = (ended (pp_worker p), pp_db p).
Proof.
  intros Hd. assert (He : explained d0 (serving (Some cfg) d0)) by done. revert He.
  generalize (serving (Some cfg) d0). induction evs as [|ev evs IH]; intros q He; cbn [process_run]; [by intros [= <-]|].
  destruct (process_step cfg ev q) as [q1|] eqn:E; [|done]. apply IH.
  - intros d Hin. apply (Hd d). by right.
  - apply (explained_step d0 ev q); [|done..]. intros d ->. apply (Hd d). by left.
Qed.

(** *** After the signal *)

Definition starts_sweep (ev : ProcessEvent) : bool := match ev with TickStarts _ _ => true | _ => false end.
Definition ends_sweep (ev : ProcessEvent) : bool := match ev with SweepEnds => true | _ => false end.
Definition sweeping (p : Process) : nat := match pp_worker p with Some (WkSweeping _ _) => 1 | _ => 0 end%nat.

Lemma signalled_step ev p p' :
  process_step cfg ev p = Some p' -> pp_signalled p = true ->
  pp_signalled p' = true /\ starts_sweep ev = false
  /\ sweeping p = (sweeping p' + if ends_sweep ev then 1 else 0)%nat.
Proof.
  intros H Hs. unfold sweeping. destruct ev; process_cases H; cbn in *; simplify_eq; split_and!; try done;
    repeat match goal with E : pp_worker _ = _ |- _ => rewrite E end; lia || congruence.
Qed.

(** What the process does by itself *)
Definition winds_down (ev : ProcessEvent) : bool :=
  match ev with ServeReturns | SweepEnds | ShutdownSeen | Joined => true | _ => false end.

Definition main_work (m : MainPhase) : nat := match m with PmServing => 2 | PmJoining => 1 | PmReturned _ => 0 end%nat.
Definition worker_work (w : option WorkerPhase) : nat :=
  match w with Some (WkSweeping _ _) => 2 | Some WkSelect => 1 | _ => 0 end%nat.
Definition process_work (p : Process) : nat := (main_work (pp_main p) + worker_work (pp_worker p))%nat.

Lemma process_work_bound p : (process_work p <= 4)%nat.
Proof. unfold process_work. destruct (pp_main p), (pp_worker p) as [[]|]; cbn; lia. Qed.

Lemma work_decreases ev p p' :
  winds_down ev = true -> process_step cfg ev p = Some p' -> (process_work p' < process_work p)%nat.
Proof.
  intros Hw H. unfold process_work. destruct ev; try discriminate Hw; process_cases H; cbn;
    repeat match goal with E : pp_worker _ = _ |- _ => rewrite E | E : pp_main _ = _ |- _ => rewrite E end; cbn; lia.
Qed.

Lemma stuck_returned p :
  orderly p -> pp_signalled p = true -> (forall ev, winds_down ev = true -> process_step cfg ev p = None) ->
  exists ok, pp_main p = PmReturned ok.
Proof.
  intros [H1 _ _] Hs Hn. destruct (pp_main p) as [| |ok] eqn:Em; [| |by exists ok].
  - specialize (Hn ServeReturns eq_refl). unfold process_step, serve_over in Hn. by rewrite Em, Hs in Hn.
  - destruct (H1 eq_refl) as [_ [w Ew]].
    destruct w as [|l n|]; [specialize (Hn ShutdownSeen eq_refl)|specialize (Hn SweepEnds eq_refl)|
      specialize (Hn Joined eq_refl)];
      unfold process_step, worker_sees_shutdown, sweep_ends, worker_joined in Hn; by rewrite Em, Ew, ?Hs in Hn.
Qed.

(** An orderly shutdown: after the signal no sweep begins and at most the one in flight ends; at most four
    steps of the process itself remain, and where none can happen [main] has returned.  When it has returned
    without error, the signal had come and no worker was left. *)
Theorem shutdown_orderly d0 p tail p' :
  lives d0 p -> pp_signalled p = true -> process_run cfg tail p = Some p' ->
  Forall (fun ev => starts_sweep ev = false) tail
  /\ (length (filter (fun ev => ends_sweep ev = true) tail) <= 1)%nat
  /\ (Forall (fun ev => winds_down ev = true) tail -> (length tail <= 4)%nat)
  /\ ((forall ev, winds_down ev = true -> process_step cfg ev p' = None) -> exists ok, pp_main p' = PmReturned ok)
  /\ (pp_main p' = PmReturned true -> pp_worker p' = None \/ pp_worker p' = Some WkEnded).
Proof.
  intros Hl Hs Hr.
  assert (H : pp_signalled p' = true /\ Forall (fun ev => starts_sweep ev = false) tail
    /\ sweeping p = (sweeping p' + length (filter (fun ev => ends_sweep ev = true) tail))%nat
    /\ (Forall (fun ev => winds_down ev = true) tail -> length tail + process_work p' <= process_work p)%nat).
  { clear Hl. revert p Hs Hr. induction tail as [|ev tail IH]; intros p Hs; cbn [process_run].
    - intros [= <-]. split_and!; [done|by constructor|cbn; lia|cbn; lia].
    - destruct (process_step cfg ev p) as [p1|] eqn:E; [|done]. cbn [mbind option_bind]. intros Hr.
      destruct (signalled_step ev p p1 E Hs) as (Hs1 & Ht & Hw). destruct (IH p1 Hs1 Hr) as (I1 & I2 & I3 & I4).
      split_and!; [done|by constructor| |].
      + rewrite filter_cons. destruct (ends_sweep ev); [rewrite decide_True by done|rewrite decide_False by done]; cbn [length]; lia.
      + intros [Hd Hd']%Forall_cons. assert (Hlt := work_decreases ev p p1 Hd E). specialize (I4 Hd'). cbn [length]. lia. }
  destruct H as (Hs' & H1 & H2 & H3). assert (Ho := lives_orderly d0 p' (run_lives d0 tail p p' Hl Hr)).
  split_and!; [done| | | |].
  - unfold sweeping in H2. destruct (pp_worker p) as [[]|]; lia.
  - intros Ht. specialize (H3 Ht). assert (Hb := process_work_bound p). lia.
  - by apply stuck_returned.
  - intros Hm. by apply (od_returned p' Ho).
Qed.

End shutdown.

(** A signal during a sweep of a recording that has expired: the sweep ends, then the worker, then [main]. *)
Example signal_during_sweep :
  let cfg := mkPeriodic 30 10 60 in
  let now := 1000 + days 30 in
  let run tail := process_run cfg
    ([TickStarts (mkLockAnswers true (Some true) true) now; CtrlC; ServeReturns] ++ tail) (serving (Some cfg) rec_old) in
  (pp_main <$> run []) = Some PmJoining /\ run [Joined] = None /\ run [ShutdownSeen] = None
  /\ (fun p => (pp_main p, pp_worker p, eligible 30 now (pp_db p))) <$> run [SweepEnds; ShutdownSeen; Joined]
     = Some (PmReturned true, Some WkEnded, [])
  /\ eligible 30 now rec_old <> [].
Proof. split_and!; vm_compute; congruence. Qed.
