(* ===== verification/TrustRoutes.v ===== *)
(** * The host-key routes

    Models the routes of [crates/relayterm-api/src/routes/v1/server_profiles.rs] that deal with host
    keys: [host_key_preflight], [trust_host_key], [replace_host_key] and [auth_check], with the
    request validation of [dto/preflight.rs] and the error conversions of [error.rs] they use.  The
    extractors are those of [AuthRoutes.v].  Responses leave out the static message of a status. *)

From S2P Require Import Prelude Core PgSession Prog AuthStore Auth AuthRoutes Inventory Vault HostKey.

(** ** [dto/preflight.rs] *)

Definition FINGERPRINT_MIN_LEN : Z := 8.
Definition FINGERPRINT_MAX_LEN : Z := 128.

(** [validate_fingerprint], and [TrustHostKeyRequest::validated_expected_fingerprint] at its field *)
Definition validate_fingerprint (value : rstr) (field : string) : result ApiError rstr :=
  if negb (bool_decide (lit "SHA256:" `prefix_of` value)) then
    Err (Validation (lit (field +:+ " must start with 'SHA256:'")))
  else if (str_len value <? FINGERPRINT_MIN_LEN) || (FINGERPRINT_MAX_LEN <? str_len value) then
    Err (Validation (lit (field +:+ " length is out of range")))
  else if existsb (fun c => is_whitespace c || is_control c) value then
    Err (Validation (lit (field +:+ " must not contain whitespace or control characters")))
  else Ok value.

(** [TrustHostKeyRequest] is its expected fingerprint. *)
Definition validated_expected_fingerprint (expected_fingerprint : rstr) : result ApiError rstr :=
  validate_fingerprint expected_fingerprint "expected_fingerprint".

(** [ReplaceHostKeyRequest] and [ReplaceHostKeyValidatedRequest] *)
Record ReplaceHostKeyRequest := mkReplaceRequest {
  rr_expected_old_fingerprint : rstr; rr_expected_new_fingerprint : rstr; rr_reason_code : string
}.
Record ReplaceHostKeyValidatedRequest := mkReplaceValidated {
  rv_expected_old_fingerprint : rstr; rv_expected_new_fingerprint : rstr;
  rv_reason_code : KnownHostRevocationReason
}.

(** [ReplaceHostKeyRequest::validated] *)
Definition replace_validated (req : ReplaceHostKeyRequest) : result ApiError ReplaceHostKeyValidatedRequest :=
  let? old := validate_fingerprint (rr_expected_old_fingerprint req) "expected_old_fingerprint" in
  let? new := validate_fingerprint (rr_expected_new_fingerprint req) "expected_new_fingerprint" in
  let? reason := ok_or (reason_from_str_tag (rr_reason_code req))
                   (Validation (lit "reason_code is not a recognised value")) in
  Ok (mkReplaceValidated old new reason).

(** ** Errors *)

(** [From<HostKeyPreflightError> for ApiError] *)
Definition api_of_preflight (e : HostKeyPreflightError) : ApiError :=
  match e with
  | PfInvalidIdentity => Internal (lit "ssh identity material is malformed")
  | PfProbe p => BadGateway (lit ("ssh probe: " +:+ probe_error_display p))
  end.

(** [From<SshAuthCheckError> for ApiError] *)
Definition api_of_auth_check (e : SshAuthCheckError) : ApiError :=
  match e with
  | AcInvalidIdentity => Internal (lit "ssh identity material is malformed")
  | AcSaturated => ServiceUnavailable (lit "auth-check concurrency limit reached")
  end.

(** [VaultError]'s [Display] where it reaches [Internal] *)
Definition vault_error_display (e : VaultError) : string :=
  match e with
  | VMasterKey => "vault master key invalid"
  | VKeyGeneration => "ssh keypair generation failed"
  | VPublicKeySerialization => "ssh public key serialization failed"
  | VPrivateKeySerialization => "ssh private key serialization failed"
  | VEncrypt => "vault encrypt failed"
  | VDecrypt => "vault decrypt failed"
  | VBlobFormat => "vault blob format invalid"
  | VUnsupportedKeyType tag => "ssh key type not supported by vault: " +:+ tag
  | VUnsupportedFormat reason => "ssh key format not supported by vault: " +:+ reason
  end.

(** [From<VaultError> for ApiError] *)
Definition api_of_vault (e : VaultError) : ApiError :=
  match e with
  | VUnsupportedKeyType tag => Validation (lit "unsupported key_type " ++ [34] ++ lit tag ++ [34])
  | VUnsupportedFormat reason => Validation (lit ("unsupported_key_format " +:+ reason))
  | VMasterKey => ServiceUnavailable (lit "vault master key invalid")
  | other => Internal (lit ("vault: " +:+ vault_error_display other))
  end.

(** [map_replace_repository_error] *)
Definition map_replace_repository_error (err : RepositoryError) : ApiError :=
  match err with
  | RConflict entity constraint_ =>
      if decide (entity = KNOWN_ENTITY) then
        if decide (constraint_ = "active_pin_mismatch"%string) then
          Conflict "host_key" (Some "active_pin_mismatch"%string)
        else if decide (constraint_ = "new_fingerprint_revoked"%string) then
          Conflict "host_key" (Some "captured_revoked"%string)
        else if decide (constraint_ = "new_fingerprint_already_active"%string) then
          Conflict "host_key" (Some "new_fingerprint_already_active"%string)
        else api_of_repository err
      else api_of_repository err
  | _ => api_of_repository err
  end.

(** ** Responses *)

(** [HostKeyPreflightResponse], [TrustHostKeyResponse], [ReplaceHostKeyResponse] and
    [AuthCheckResponse] *)
Inductive TrustResponse :=
| RPreflight (profile_id : ServerProfileId) (host_id : HostId) (hostname : rstr) (port : Z)
    (host_key_status : HostKeyStatus) (host_key_type : SshKeyType) (host_key_fingerprint : rstr)
    (active_pin_fingerprint : option rstr)
| RTrust (known_host_entry_id : KnownHostEntryId) (host_id : HostId) (host_key_type : SshKeyType)
    (host_key_fingerprint : rstr) (trusted_at : Z)
| RReplace (profile_id : ServerProfileId) (host_id : HostId) (revoked_known_host_entry_id : KnownHostEntryId)
    (revoked_fingerprint : rstr) (trusted_known_host_entry_id : KnownHostEntryId)
    (trusted_fingerprint : rstr) (host_key_type : SshKeyType) (trusted_at : Z)
| RAuthCheck (profile_id : ServerProfileId) (host_id : HostId) (ssh_identity_id : SshIdentityId)
    (status : SshAuthCheckStatus) (checked_at : Z).

(** ** The handlers *)

Definition PROFILE_ENTITY : string := "server_profile".

Module TrustRoutes.
Section routes.
Context {Cr : AuthCrypto} {Lo : PgLower} {Ae : Aead} {Rs : Russh} {Pb : SshHostKeyProbe} {Ck : SshAuthChecker}.
Context (cfg : AuthRoutesConfig) (vault : option (list Byte.byte)).

Abbreviation io A := (prog TrustWorld (result ApiError A)).

(** [?] on a repository call. *)
Definition repo {A} (f : TrustDb -> result RepositoryError A * TrustDb) : io A :=
  do! r <- trepo f; Ret (map_err api_of_repository r).

Definition csrf_guard (h : Headers) : io unit := on_auth (Routes.csrf_guard cfg h).
Definition authenticated_user (h : Headers) : io AuthenticatedUser := on_auth (Routes.authenticated_user h).
Definition user_id (u : AuthenticatedUser) : UserId := us_id (au_user u).

(** [.filter(|x| x.owner_id == user_id).ok_or(NotFound)] *)
Definition owned {A} (owner : A -> UserId) (user_id : UserId) (o : option A) : result ApiError A :=
  match o with
  | Some a => if owner a =? user_id then Ok a else Err (ApiNotFound PROFILE_ENTITY)
  | None => Err (ApiNotFound PROFILE_ENTITY)
  end.

(** [server_profile_disabled_conflict] *)
Definition server_profile_disabled_conflict : ApiError := Conflict PROFILE_ENTITY (Some "disabled"%string).

(** [resolve_owned_profile] *)
Definition resolve_owned_profile (user_id : UserId) (profile_id : ServerProfileId)
  : io (ServerProfile * Host * SshIdentity) :=
  do? p <- repo (PgServerProfileRepository.get profile_id);
  do? profile <- Ret (owned sp_owner_id user_id p);
  do? h <- repo (PgHostRepository.get (sp_host_id profile));
  do? host <- Ret (owned ho_owner_id user_id h);
  do? i <- repo (PgSshIdentityRepository.get (sp_ssh_identity_id profile));
  do? identity <- Ret (owned si_owner_id user_id i);
  Ret (Ok (profile, host, identity)).

(** [decrypt_identity] *)
Definition decrypt_identity (identity : SshIdentity) : result ApiError (list Byte.byte) :=
  let? master_key := ok_or vault
    (ServiceUnavailable (lit "vault is disabled; preflight requires a master key")) in
  map_err api_of_vault (decrypt_private_key master_key (si_encrypted_private_key identity)).

Definition effective_username (profile : ServerProfile) (host : Host) : rstr :=
  default (ho_default_username host) (sp_username_override profile).

(** What the four handlers begin with: the owned trio, the disabled check, the decrypted key, the
    pins of the host. *)
Definition load_target (user : UserId) (id : ServerProfileId)
  : io (ServerProfile * Host * SshIdentity * HostKeyPreflightRequest * list KnownHostEntry) :=
  do? trio <- resolve_owned_profile user id;
  let '(profile, host, identity) := trio in
  if is_disabled profile then Ret (Err server_profile_disabled_conflict) else
  do? pem <- Ret (decrypt_identity identity);
  do? known <- repo (PgKnownHostEntryRepository.list_for_host (ho_id host));
  Ret (Ok (profile, host, identity,
           mkPreflight (ho_id host) (ho_hostname host) (ho_port host) (effective_username profile host) pem,
           known)).

Definition run_preflight (req : HostKeyPreflightRequest) (known : list KnownHostEntry)
  : io HostKeyPreflightResult :=
  do! r <- preflight req known; Ret (map_err api_of_preflight r).

(** The fingerprint of the pin that flagged a change. *)
Definition changed_pin (c : CapturedHostKey) (known : list KnownHostEntry) : option rstr :=
  kh_fingerprint_sha256 <$> head (filter (fun e =>
    not_revoked e && bool_decide (is_Some (kh_trusted_at e)) && bool_decide (kh_key_type e = cp_key_type c)
    && negb (bool_decide (kh_fingerprint_sha256 e = cp_fingerprint_sha256 c)) = true) known).

(** [host_key_preflight] *)
Definition host_key_preflight (h : Headers) (id : ServerProfileId) : io TrustResponse :=
  do? _ <- csrf_guard h;
  do? user <- authenticated_user h;
  do? target <- load_target (user_id user) id;
  let '(profile, host, _, req, known) := target in
  do? result <- run_preflight req known;
  let active_pin_fingerprint := match pr_status result with
                                | HkChanged => changed_pin (pr_captured result) known
                                | _ => None
                                end in
  Ret (Ok (RPreflight (sp_id profile) (ho_id host) (ho_hostname host) (ho_port host) (pr_status result)
             (cp_key_type (pr_captured result)) (cp_fingerprint_sha256 (pr_captured result))
             active_pin_fingerprint)).

(** A revoked row for the captured key. *)
Definition revoked_before (c : CapturedHostKey) (known : list KnownHostEntry) : bool :=
  existsb (fun e => matches c e && negb (not_revoked e)) known.

(** [trust_host_key] *)
Definition trust_host_key (h : Headers) (id : ServerProfileId) (expected_fingerprint : rstr)
  : io TrustResponse :=
  do? _ <- csrf_guard h;
  do? user <- authenticated_user h;
  do? expected <- Ret (validated_expected_fingerprint expected_fingerprint);
  do? target <- load_target (user_id user) id;
  let '(_, host, _, req, known) := target in
  do? result <- run_preflight req known;
  let captured := pr_captured result in
  if bool_decide (pr_status result = HkChanged)
     || negb (bool_decide (cp_fingerprint_sha256 captured = expected)) then
    Ret (Err (Conflict "host_key" None))
  else if revoked_before captured known then Ret (Err (Conflict "host_key" None))
  else
    do? entry <- repo (PgKnownHostEntryRepository.record_trusted
                         (mkCreateKnown (ho_id host) (cp_key_type captured) (cp_fingerprint_sha256 captured)
                            (cp_public_key captured)));
    do? trusted_at <- Ret (ok_or (kh_trusted_at entry)
                             (Internal (lit "known_host_entry.trusted_at NULL after record_trusted")));
    Ret (Ok (RTrust (kh_id entry) (kh_host_id entry) (kh_key_type entry) (kh_fingerprint_sha256 entry) trusted_at)).

(** [replace_host_key] *)
Definition replace_host_key (h : Headers) (id : ServerProfileId) (request : ReplaceHostKeyRequest)
  : io TrustResponse :=
  do? _ <- csrf_guard h;
  do? user <- authenticated_user h;
  do? validated <- Ret (replace_validated request);
  do? target <- load_target (user_id user) id;
  let '(profile, host, _, req, known) := target in
  do? result <- run_preflight req known;
  let captured := pr_captured result in
  if bool_decide (cp_fingerprint_sha256 captured = rv_expected_old_fingerprint validated) then
    Ret (Err (Conflict "host_key" (Some "captured_unchanged"%string)))
  else if negb (bool_decide (cp_fingerprint_sha256 captured = rv_expected_new_fingerprint validated)) then
    Ret (Err (Conflict "host_key" (Some "captured_mismatch"%string)))
  else if revoked_before captured known then
    Ret (Err (Conflict "host_key" (Some "captured_revoked"%string)))
  else
    do! r <- trepo (PgKnownHostEntryRepository.replace_active_pin
                      (mkReplacePin (ho_id host) (rv_expected_old_fingerprint validated) (cp_key_type captured)
                         (cp_fingerprint_sha256 captured) (cp_public_key captured) (user_id user)
                         (rv_reason_code validated)));
    do? replaced <- Ret (map_err map_replace_repository_error r);
    do? trusted_at <- Ret (ok_or (kh_trusted_at (rk_trusted_new replaced))
                             (Internal (lit "known_host_entry.trusted_at NULL after replace_active_pin")));
    Ret (Ok (RReplace (sp_id profile) (ho_id host) (kh_id (rk_revoked_old replaced))
               (kh_fingerprint_sha256 (rk_revoked_old replaced)) (kh_id (rk_trusted_new replaced))
               (kh_fingerprint_sha256 (rk_trusted_new replaced)) (kh_key_type (rk_trusted_new replaced))
               trusted_at)).

(** [auth_check] *)
Definition auth_check (h : Headers) (id : ServerProfileId) : io TrustResponse :=
  do? _ <- csrf_guard h;
  do? user <- authenticated_user h;
  do? target <- load_target (user_id user) id;
  let '(profile, host, identity, req, known) := target in
  do! r <- HostKey.auth_check req known;
  do? status <- Ret (map_err api_of_auth_check r);
  do! checked_at <- on_auth auth_now;
  Ret (Ok (RAuthCheck (sp_id profile) (ho_id host) (si_id identity) status checked_at)).

(** The four routes. *)
Inductive TrustRequest :=
| QPreflight
| QTrust (expected_fingerprint : rstr)
| QReplace (req : ReplaceHostKeyRequest)
| QAuthCheck.

Definition serve (h : Headers) (id : ServerProfileId) (q : TrustRequest) : io TrustResponse :=
  match q with
  | QPreflight => host_key_preflight h id
  | QTrust fp => trust_host_key h id fp
  | QReplace req => replace_host_key h id req
  | QAuthCheck => auth_check h id
  end.

End routes.
End TrustRoutes.
