(* ===== verification/Frames.v ===== *)
(** * What authentication and host-key requests leave alone

    Every action of every handler of [AuthRoutes.v] and of [TrustRoutes.v], whatever the state it finds
    and whatever the SSH side does, leaves the hosts, identities and profiles as they are, keeps the
    users, only appends to the audit log and to the pins, and never takes an identifier twice.  The
    inventory routes rely on this. *)

From S2P Require Import Prelude Utf8 Core PgSession Throttle Prog AuthStore Auth AuthRoutes.
From S2P Require Import Inventory Vault HostKey TrustRoutes.

(** ** Authentication *)

Record auth_frame (d d' : AuthDb) : Prop := {
  af_uuid : a_next_uuid d <= a_next_uuid d';
  af_users : forall u, is_Some (a_users d !! u) -> is_Some (a_users d' !! u);
  af_audit : a_audit d `prefix_of` a_audit d'
}.

#[export] Instance auth_frame_pre : PreOrder auth_frame.
Proof.
  split; [by split|]. intros d1 d2 d3 [A1 A2 A3] [B1 B2 B3].
  split; [lia|auto|by transitivity (a_audit d2)].
Qed.

Definition auth_world_frame (w w' : AuthWorld) : Prop := auth_frame (aw_db w) (aw_db w').

(** An operation of an authentication repository keeps the frame. *)
Definition aframes {A} (f : AuthDb -> result RepositoryError A * AuthDb) : Prop :=
  forall d, auth_frame d (f d).2.

Lemma aframes_execute {A} (f : AuthDb -> result RepositoryError A * AuthDb) :
  aframes f -> aframes (auth_execute f).
Proof.
  intros Hf d. unfold auth_execute, auth_next_fault. destruct (a_faults d) as [|[e|] rest]; [apply Hf|by split|].
  etransitivity; [|apply Hf]. by split.
Qed.

(** The operations: every branch of every statement. *)
Ltac frame_statement :=
  apply aframes_execute; intros ?; cbn zeta; repeat case_match; cbn [fst snd]; try reflexivity;
  (split; cbn; [lia|try done; intros ?; rewrite ?lookup_insert_is_Some'; tauto|try done; by apply prefix_app_r]).

Section auth.
Context {Cr : AuthCrypto} {Lo : PgLower}.

Lemma aframes_new_v4 {A} (f : Uuid -> AuthDb -> result RepositoryError A * AuthDb) :
  (forall id, aframes (f id)) -> aframes (fun d => let '(id, d) := auth_new_v4 d in f id d).
Proof. intros Hf d. cbn. etransitivity; [|apply Hf]. split; cbn; [lia|done|done]. Qed.

Lemma aframes_user_create input : aframes (PgUserRepository.create input).
Proof. apply aframes_new_v4. intros id. frame_statement. Qed.
Lemma aframes_user_get id : aframes (PgUserRepository.get id).
Proof. frame_statement. Qed.
Lemma aframes_user_by_email email : aframes (PgUserRepository.get_by_email email).
Proof. frame_statement. Qed.
Lemma aframes_touch_login id at_ : aframes (PgUserRepository.touch_last_login id at_).
Proof. frame_statement. Qed.
Lemma aframes_upsert input : aframes (PgPasswordCredentialRepository.upsert_for_user input).
Proof. frame_statement. Qed.
Lemma aframes_get_password id : aframes (PgPasswordCredentialRepository.get_for_user id).
Proof. frame_statement. Qed.
Lemma aframes_any_exists : aframes PgPasswordCredentialRepository.any_exists.
Proof. frame_statement. Qed.
Lemma aframes_session_create input : aframes (PgUserSessionRepository.create input).
Proof. apply aframes_new_v4. intros id. frame_statement. Qed.
Lemma aframes_by_token hash : aframes (PgUserSessionRepository.get_by_token_hash hash).
Proof. frame_statement. Qed.
Lemma aframes_touch_seen id at_ : aframes (PgUserSessionRepository.touch_last_seen id at_).
Proof. frame_statement. Qed.
Lemma aframes_revoke id at_ reason : aframes (PgUserSessionRepository.revoke id at_ reason).
Proof. frame_statement. Qed.
Lemma aframes_revoke_where P at_ reason : aframes (PgUserSessionRepository.revoke_where P at_ reason).
Proof. frame_statement. Qed.
Lemma aframes_list id : aframes (PgUserSessionRepository.list_for_user id).
Proof. frame_statement. Qed.
Lemma aframes_revoke_for u id at_ reason : aframes (PgUserSessionRepository.revoke_for_user u id at_ reason).
Proof. frame_statement. Qed.
Lemma aframes_audit input : aframes (PgAuditEventRepository.create input).
Proof. apply aframes_new_v4. intros id. frame_statement. Qed.

(** *** The handlers *)

Lemma all_arepo {A} (f : AuthDb -> result RepositoryError A * AuthDb) :
  aframes f -> all_acts auth_world_frame (arepo f).
Proof.
  intros Hf. split; [|done]. intros w. specialize (Hf (aw_db w)). unfold auth_world_frame.
  by destruct (f (aw_db w)) as [r d].
Qed.

Lemma all_act_same {A} (f : AuthWorld -> A * AuthWorld) :
  (forall w, aw_db (f w).2 = aw_db w) -> all_acts auth_world_frame (act f).
Proof. intros Hf. split; [|done]. intros w. unfold auth_world_frame. by rewrite Hf. Qed.
End auth.

Create HintDb frames discriminated.
#[export] Hint Resolve all_arepo aframes_user_create aframes_user_get aframes_user_by_email aframes_touch_login
  aframes_upsert aframes_get_password aframes_any_exists aframes_session_create aframes_by_token
  aframes_touch_seen aframes_revoke aframes_revoke_where aframes_list aframes_revoke_for aframes_audit : frames.

(** Walk through a program, action by action. *)
Ltac walk :=
  repeat first
    [ exact I
    | progress cbv beta iota zeta
    | solve [eauto 3 with frames]
    | apply all_acts_try; [|intros ?]
    | apply all_acts_bind; [|intros ?]
    | case_match ].

Section auth_routes.
Context {Cr : AuthCrypto} {Lo : PgLower}.
Context (svc : AuthService.t) (cfg : AuthRoutesConfig).
Abbreviation AF := (all_acts auth_world_frame).

Lemma frame_now : AF auth_now.
Proof. by apply all_act_same. Qed.
Lemma frame_draw : AF (act draw).
Proof. by apply all_act_same. Qed.
Lemma frame_generate : AF (act session_token_generate).
Proof. by apply all_act_same. Qed.
Lemma frame_throttle f : AF (Routes.throttle f).
Proof. by apply all_act_same. Qed.
Lemma frame_check key now : AF (act (fun w => (LoginThrottler.check (aw_throttler w) key now, w))).
Proof. by apply all_act_same. Qed.
Lemma frame_repo {A} (f : AuthDb -> result RepositoryError A * AuthDb) : aframes f -> AF (Routes.repo f).
Proof. intros Hf. unfold Routes.repo. walk. Qed.
Lemma frame_service_repo {A} (f : AuthDb -> result RepositoryError A * AuthDb) : aframes f -> AF (AuthService.repo f).
Proof. intros Hf. unfold AuthService.repo. walk. Qed.
Lemma frame_service {A} (p : prog AuthWorld (result AuthServiceError A)) : AF p -> AF (Routes.service p).
Proof. intros Hp. unfold Routes.service. by walk. Qed.
#[local] Hint Resolve frame_now frame_draw frame_generate frame_throttle frame_check frame_repo
  frame_service_repo frame_service : frames.

Lemma frame_validate token now : AF (AuthService.validate_session_token token now).
Proof. unfold AuthService.validate_session_token. walk. Qed.
Lemma frame_set_password u pw : AF (AuthService.set_password svc u pw).
Proof. unfold AuthService.set_password. walk. Qed.
Lemma frame_verify u pw : AF (AuthService.verify_password svc u pw).
Proof. unfold AuthService.verify_password. walk. Qed.
Lemma frame_create_session u ttl now : AF (AuthService.create_session u ttl now).
Proof. unfold AuthService.create_session. walk. Qed.
Lemma frame_revoke_session id now reason : AF (AuthService.revoke_session id now reason).
Proof. unfold AuthService.revoke_session. walk. Qed.
Lemma frame_revoke_for u id now reason : AF (AuthService.revoke_session_for_user u id now reason).
Proof. unfold AuthService.revoke_session_for_user. walk. Qed.
Lemma frame_revoke_except u id now reason : AF (AuthService.revoke_all_sessions_except u id now reason).
Proof. apply frame_service_repo, aframes_revoke_where. Qed.
Lemma frame_list_sessions u : AF (AuthService.list_sessions_for_user u).
Proof. apply frame_service_repo, aframes_list. Qed.
Lemma frame_user h : AF (Routes.authenticated_user h).
Proof. unfold Routes.authenticated_user. walk. Qed.
Lemma frame_audit u kind payload : AF (Routes.audit u kind payload).
Proof. apply frame_repo, aframes_audit. Qed.
Lemma frame_best_effort u kind payload : AF (Routes.write_audit_best_effort u kind payload).
Proof. unfold Routes.write_audit_best_effort. walk. Qed.
Lemma frame_csrf h : AF (Routes.csrf_guard cfg h).
Proof. done. Qed.
#[local] Hint Resolve frame_validate frame_set_password frame_verify frame_create_session frame_revoke_session
  frame_revoke_for frame_revoke_except frame_list_sessions frame_user frame_audit frame_best_effort frame_csrf : frames.

Lemma frame_refused key now err : AF (Routes.login_refused key now err).
Proof. unfold Routes.login_refused. walk. Qed.
Lemma frame_accepted key now u : AF (Routes.login_accepted cfg key now u).
Proof. unfold Routes.login_accepted. walk. Qed.
Lemma frame_bootstrap_create req : AF (Routes.bootstrap_create svc req).
Proof. unfold Routes.bootstrap_create. walk. Qed.
#[local] Hint Resolve frame_refused frame_accepted frame_bootstrap_create : frames.

(** Every authentication request *)
Lemma frame_auth_serve h q : AF (Routes.serve svc cfg h q).
Proof.
  destruct q; cbn [Routes.serve]; unfold Routes.bootstrap, Routes.login, Routes.logout, Routes.me,
    Routes.change_password, Routes.list_sessions, Routes.revoke_session, Routes.revoke_all_except_current; walk.
Qed.
End auth_routes.

(** ** Host keys *)

(** Every pin is stored under its own identifier. *)
Definition known_ids (d : TrustDb) : Prop := map_Forall (fun id r => kr_id r = id) (td_known d).

Record inv_frame (d d' : TrustDb) : Prop := {
  if_auth : auth_frame (td_auth d) (td_auth d');
  if_hosts : td_hosts d' = td_hosts d;
  if_identities : td_identities d' = td_identities d;
  if_profiles : td_profiles d' = td_profiles d;
  if_kept : forall id r, td_known d !! id = Some r ->
    exists r', td_known d' !! id = Some r' /\ kr_host_id r' = kr_host_id r;
  if_new : forall id r', td_known d' !! id = Some r' ->
    (exists r, td_known d !! id = Some r /\ kr_host_id r' = kr_host_id r) \/ is_Some (td_hosts d !! kr_host_id r')
}.

#[export] Instance inv_frame_pre : PreOrder inv_frame.
Proof.
  split.
  - intros d. split; [done|done|done|done| |]; intros id r Hr; [by exists r|left; by exists r].
  - intros d1 d2 d3 [A1 A2 A3 A4 A5 A6] [B1 B2 B3 B4 B5 B6].
    split; [by transitivity (td_auth d2)|congruence|congruence|congruence| |].
    + intros id r Hr. destruct (A5 id r Hr) as (r2 & H2 & E2). destruct (B5 id r2 H2) as (r3 & H3 & E3).
      exists r3. split; [done|congruence].
    + intros id r3 H3. destruct (B6 id r3 H3) as [(r2 & H2 & E2)|H]; [|right; by rewrite <- A2].
      destruct (A6 id r2 H2) as [(r & Hr & E)|H]; [left; exists r; split; [done|congruence]|].
      right. by rewrite E2.
Qed.

(** An operation on the tables keeps the frame. *)
Definition iframes {A} (f : TrustDb -> result RepositoryError A * TrustDb) : Prop :=
  forall d, known_ids d -> known_ids (f d).2 /\ inv_frame d (f d).2.

(** The authentication half of the tables changes alone. *)
Lemma frame_with_auth a d : auth_frame (td_auth d) a -> known_ids d ->
  known_ids (with_auth a d) /\ inv_frame d (with_auth a d).
Proof.
  intros Ha Hk. split; [done|]. split; [done|done|done|done| |]; intros id r Hr; [by exists r|left; by exists r].
Qed.

Lemma iframes_refl {A} (f : TrustDb -> result RepositoryError A) : iframes (fun d => (f d, d)).
Proof. by intros d Hd. Qed.

(** A statement: the driver fails, or the statement runs on tables that are the same. *)
Lemma execute_frame {A} (f : TrustDb -> result RepositoryError A * TrustDb) d :
  known_ids d -> exists d1, known_ids d1 /\ inv_frame d d1
    /\ ((exists e, trust_execute f d = (Err e, d1)) \/ trust_execute f d = f d1).
Proof.
  intros Hd. unfold trust_execute, auth_next_fault.
  destruct (a_faults (td_auth d)) as [|o rest].
  { exists d. split; [done|]. split; [done|]. right. by destruct d. }
  edestruct (frame_with_auth (mkAuthDb (a_users (td_auth d)) (a_passwords (td_auth d)) (a_sessions (td_auth d))
    (a_audit (td_auth d)) (a_clock (td_auth d)) (a_next_uuid (td_auth d)) rest) d) as [H1 H2]; [by split|done|].
  eexists. split; [exact H1|]. split; [exact H2|]. destruct o as [e|]; [left; by exists e|by right].
Qed.

Lemma iframes_execute {A} (f : TrustDb -> result RepositoryError A * TrustDb) :
  iframes f -> iframes (trust_execute f).
Proof.
  intros Hf d Hd. destruct (execute_frame f d Hd) as (d1 & H1 & H2 & [[e ->]| ->]); [done|].
  destruct (Hf _ H1) as [K1 K2]. split; [done|]. by transitivity d1.
Qed.

Lemma iframes_read {A} (f : TrustDb -> result RepositoryError A) : iframes (trust_execute (fun d => (f d, d))).
Proof. apply iframes_execute, iframes_refl. Qed.

Lemma iframes_then {A B} (p : TrustDb -> result RepositoryError A * TrustDb)
  (k : A -> TrustDb -> result RepositoryError B * TrustDb) :
  iframes p -> (forall a, iframes (k a)) -> iframes (trust_then p k).
Proof.
  intros Hp Hk d Hd. unfold trust_then. destruct (Hp d Hd) as [H1 H2]. destruct (p d) as [[a|e] d1]; [|done].
  destruct (Hk a d1 H1) as [K1 K2]. split; [done|]. by transitivity d1.
Qed.

Lemma iframes_new_v4 {A} (f : Uuid -> TrustDb -> result RepositoryError A * TrustDb) :
  (forall id, iframes (f id)) -> iframes (fun d => let '(id, d) := trust_new_v4 d in f id d).
Proof.
  intros Hf d Hd. cbn. edestruct (frame_with_auth (auth_new_v4 (td_auth d)).2 d) as [H1 H2];
    [split; cbn; [lia|done|done]|done|]. destruct (Hf (a_next_uuid (td_auth d)) _ H1) as [K1 K2].
  split; [done|]. by etransitivity.
Qed.

(** A pin is written over one of the same host, or on an existing host. *)
Lemma frame_set_known d id r :
  known_ids d -> kr_id r = id -> is_Some (td_hosts d !! kr_host_id r) \/
    (exists r0, td_known d !! id = Some r0 /\ kr_host_id r = kr_host_id r0) ->
  (forall r0, td_known d !! id = Some r0 -> kr_host_id r = kr_host_id r0) ->
  known_ids (set_known <[id := r]> d) /\ inv_frame d (set_known <[id := r]> d).
Proof.
  intros Hd <- Hor Hold. split; [by apply map_Forall_insert_2|].
  split; [done|done|done|done| |]; cbn [td_known set_known]; intros id' r' Hr'.
  - destruct (decide (kr_id r = id')) as [<-|Hne].
    + exists r. rewrite lookup_insert_eq. split; [done|]. by apply Hold.
    + exists r'. by rewrite lookup_insert_ne.
  - apply lookup_insert_Some in Hr' as [[<- <-]|[_ Hr']]; [|left; by exists r'].
    destruct Hor as [H|(r0 & H0 & E)]; [by right|left; by exists r0].
Qed.

Lemma iframes_insert (mk : TrustDb -> KnownHostEntryRow) : iframes (fun d => insert_known (mk d) d).
Proof.
  intros d Hd. unfold insert_known, known_insert_error. repeat case_match; cbn [fst snd]; simplify_eq; try done.
  bool_props. apply frame_set_known; [done|done|left; done|]. intros r0 Hr0. exfalso. naive_solver.
Qed.

Lemma by_fingerprint_key host fp d r :
  known_ids d -> known_by_fingerprint host fp d = Some r -> td_known d !! kr_id r = Some r.
Proof.
  intros Hd H. unfold known_by_fingerprint in H. apply head_Some_elem_of in H.
  apply list_elem_of_filter in H as [_ H]. apply list_elem_of_fmap in H as ([id r'] & -> & H).
  apply elem_of_map_to_list in H. cbn [snd] in *. by rewrite (Hd id r' H).
Qed.

Lemma iframes_upsert id input : iframes (PgKnownHostEntryRepository.upsert_trusted id input).
Proof.
  apply iframes_execute. intros d Hd. destruct (known_by_fingerprint _ _ d) as [r|] eqn:E.
  - destruct (bool_decide _); [done|]. pose proof (by_fingerprint_key _ _ _ _ Hd E) as Hr.
    apply frame_set_known; [done|done| |]; [right; by exists r|]. intros r0 Hr0. by simplify_eq.
  - cbn zeta. match goal with |- context [insert_known ?row d] =>
      destruct (iframes_insert (fun _ => row) d Hd) as [H1 H2]; destruct (insert_known row d) as [[]] end; done.
Qed.

Lemma iframes_record_trusted input : iframes (PgKnownHostEntryRepository.record_trusted input).
Proof.
  unfold PgKnownHostEntryRepository.record_trusted. apply iframes_new_v4. intros id.
  apply iframes_then; [apply iframes_upsert|]. intros o. apply iframes_refl.
Qed.

Lemma iframes_update_old old_id new_id input : iframes (PgKnownHostEntryRepository.update_old old_id new_id input).
Proof.
  apply iframes_execute. intros d Hd. destruct (td_known d !! old_id) as [r|] eqn:E; [|done].
  cbn zeta. repeat case_match; try done. pose proof (Hd old_id r E) as Hid. cbn beta in Hid.
  apply frame_set_known; [done|done| |]; [right; by exists r|]. intros r0 Hr0. by simplify_eq.
Qed.

Lemma iframes_insert_audit id actor kind payload : iframes (insert_audit id actor kind payload).
Proof.
  apply iframes_execute. intros d Hd. cbn zeta. repeat case_match; try done.
  apply frame_with_auth; [|done]. split; cbn; [done|done|by apply prefix_app_r].
Qed.

Lemma iframes_fresh_id : iframes fresh_id.
Proof. apply (iframes_new_v4 (fun id d => (Ok id, d))). intros id. apply (iframes_refl (fun _ => Ok id)). Qed.

Lemma iframes_replace_body input : iframes (PgKnownHostEntryRepository.replace_body input).
Proof.
  unfold PgKnownHostEntryRepository.replace_body.
  repeat (apply iframes_then; [|intros ?]);
    first [apply iframes_fresh_id|apply iframes_update_old|apply iframes_insert_audit|apply iframes_read
          |apply iframes_refl|apply iframes_execute, iframes_insert].
Qed.

(** A transaction that is rolled back has still drawn its identifiers. *)
Lemma frame_rollback before d :
  known_ids before -> a_next_uuid (td_auth before) <= a_next_uuid (td_auth d) ->
  known_ids (trust_rollback before d) /\ inv_frame before (trust_rollback before d).
Proof.
  intros Hb Hu. split; [exact Hb|]. split; [by split|done|done|done| |]; cbn [td_known trust_rollback];
    intros id r Hr; [by exists r|left; by exists r].
Qed.

Lemma iframes_transaction {A} (body : TrustDb -> result RepositoryError A * TrustDb) :
  iframes body -> iframes (trust_transaction body).
Proof.
  intros Hb d Hd. unfold trust_transaction.
  pose proof (iframes_read (fun _ => Ok tt)) as Hx.
  destruct (Hx d Hd) as [H1 H2]. destruct (trust_execute _ d) as [[[]|e] d1]; [|done]. cbn [fst snd] in *.
  destruct (Hb d1 H1) as [K1 K2]. destruct (body d1) as [[a|e] d2]; cbn [fst snd] in *.
  - destruct (Hx d2 K1) as [L1 L2]. destruct (trust_execute _ d2) as [[[]|e] d3]; cbn [fst snd] in *.
    + split; [done|]. transitivity d1; [done|]. by transitivity d2.
    + destruct (frame_rollback d1 d3) as [M1 M2]; [done| |].
      { transitivity (a_next_uuid (td_auth d2)); [apply K2|apply L2]. }
      split; [done|]. by transitivity d1.
  - destruct (frame_rollback d1 d2) as [M1 M2]; [done|apply K2|]. split; [done|]. by transitivity d1.
Qed.

Lemma iframes_replace input : iframes (PgKnownHostEntryRepository.replace_active_pin input).
Proof.
  apply iframes_then; [apply iframes_transaction, iframes_replace_body|]. intros rows. apply iframes_refl.
Qed.

(** *** The handlers *)

Definition trust_world_frame (w w' : TrustWorld) : Prop :=
  known_ids (tw_db w) -> known_ids (tw_db w') /\ inv_frame (tw_db w) (tw_db w').

Lemma all_trepo {A} (f : TrustDb -> result RepositoryError A * TrustDb) :
  iframes f -> all_acts trust_world_frame (trepo f).
Proof.
  intros Hf. split; [|done]. intros w Hw. specialize (Hf (tw_db w) Hw).
  destruct (f (tw_db w)) as [r d]. cbn [fst snd] in *.
  assert (tw_db (set_tw_db d w) = d) as -> by by destruct d as [[]]. exact Hf.
Qed.

Lemma all_tact_same {A} (f : TrustWorld -> A * TrustWorld) :
  (forall w, tw_db (f w).2 = tw_db w) -> all_acts trust_world_frame (act f).
Proof. intros Hf. split; [|done]. intros w Hw. by rewrite Hf. Qed.

Lemma all_cut {W A} (P : W -> W -> Prop) n (p : prog W A) : all_acts P p -> all_acts P (cut n p).
Proof.
  revert n. induction p as [a|X f k IH]; intros n; [done|]. destruct n as [|n]; [done|].
  intros [H1 H2]. split; [done|]. intros x. by apply IH.
Qed.

Lemma all_on_auth {A} (p : prog AuthWorld A) :
  all_acts auth_world_frame p -> all_acts trust_world_frame (on_auth p).
Proof.
  induction p as [a|X f k IH]; [done|]. intros [H1 H2]. split; [|by intros x; apply IH].
  intros w Hw. specialize (H1 (tw_auth w)). destruct (f (tw_auth w)) as [x a]. cbn [fst snd] in *.
  by apply (frame_with_auth (aw_db a) (tw_db w)).
Qed.

#[export] Hint Resolve all_trepo all_on_auth all_cut iframes_read iframes_record_trusted iframes_replace
  frame_now frame_user frame_csrf frame_draw frame_audit : frames.

Section trust_routes.
Context {Cr : AuthCrypto} {Lo : PgLower} {Ae : Aead} {Rs : Russh}.
Context (cfg : AuthRoutesConfig) (vault : option (list Byte.byte)).
Abbreviation TF := (all_acts trust_world_frame).

Lemma frame_trepo {A} (f : TrustDb -> result RepositoryError A * TrustDb) : iframes f -> TF (TrustRoutes.repo f).
Proof. intros Hf. unfold TrustRoutes.repo. walk. Qed.
Lemma frame_trust_csrf h : TF (TrustRoutes.csrf_guard cfg h).
Proof. done. Qed.
Lemma frame_trust_user h : TF (TrustRoutes.authenticated_user h).
Proof. apply all_on_auth, frame_user. Qed.
#[local] Hint Resolve frame_trepo frame_trust_csrf frame_trust_user : frames.

Lemma frame_load user id : TF (TrustRoutes.load_target vault user id).
Proof.
  assert (H1 : iframes (PgServerProfileRepository.get id)) by apply iframes_read.
  assert (H2 : forall i, iframes (PgHostRepository.get i)) by (intros; apply iframes_read).
  assert (H3 : forall i, iframes (PgSshIdentityRepository.get i)) by (intros; apply iframes_read).
  assert (H4 : forall i, iframes (PgKnownHostEntryRepository.list_for_host i)) by (intros; apply iframes_read).
  unfold TrustRoutes.load_target, TrustRoutes.resolve_owned_profile. walk.
Qed.

Lemma frame_dial : TF (act dial).
Proof. by apply all_tact_same. Qed.
Lemma frame_sign s : TF (act (sign s)).
Proof. by apply all_tact_same. Qed.
Lemma frame_acquire : TF (act try_acquire).
Proof. apply all_tact_same. intros w. unfold try_acquire. by case_match. Qed.
Lemma frame_release : TF (act release).
Proof. by apply all_tact_same. Qed.
Lemma frame_budget : TF (act (fun w => (auth_check_budget (tw_conns w), w))).
Proof. by apply all_tact_same. Qed.
#[local] Hint Resolve frame_load frame_dial frame_sign frame_acquire frame_release frame_budget : frames.

Lemma frame_capture hostname port : TF (russh_capture_host_key hostname port).
Proof. unfold russh_capture_host_key. walk. Qed.
Lemma frame_checker target : TF (russh_auth_check target).
Proof. unfold russh_auth_check. walk. Qed.
#[local] Hint Resolve frame_capture frame_checker : frames.

Lemma frame_preflight req known : TF (TrustRoutes.run_preflight (Pb := RusshHostKeyProbe) req known).
Proof.
  unfold TrustRoutes.run_preflight, preflight, capture_host_key, RusshHostKeyProbe. walk.
Qed.
Lemma frame_auth_check req known : TF (auth_check (Ck := RusshAuthChecker) req known).
Proof. unfold auth_check, run_auth_check, RusshAuthChecker. walk. Qed.
#[local] Hint Resolve frame_preflight frame_auth_check : frames.

(** Every host-key request *)
Lemma frame_trust_serve h id q :
  TF (TrustRoutes.serve (Pb := RusshHostKeyProbe) (Ck := RusshAuthChecker) cfg vault h id q).
Proof.
  destruct q; cbn [TrustRoutes.serve]; unfold TrustRoutes.host_key_preflight, TrustRoutes.trust_host_key,
    TrustRoutes.replace_host_key, TrustRoutes.auth_check; walk.
Qed.
End trust_routes.
