(* ===== verification/InventorySafety.v ===== *)
(** * Safety of the inventory under every interleaving

    The invariant of the hosts, identities and profiles, and the guarantee each request gives the
    others.  They hold in every state of every interleaving of inventory, host-key and authentication
    requests and of launches, with requests dropped at any [await] and statements failing anywhere. *)

From S2P Require Import Prelude Validation Utf8 Core PgSession Prog AuthStore Auth AuthRoutes AuthSafety.
From S2P Require Import Inventory Vault HostKey KeyVault TrustRoutes InventoryRoutes Frames.

(** ** Invariant and guarantee *)

Definition next_id (d : TrustDb) : Z := a_next_uuid (td_auth d).
Definition user_exists (d : TrustDb) (u : UserId) : Prop := is_Some (a_users (td_auth d) !! u).

Record host_row_ok (d : TrustDb) (id : HostId) (r : HostRow) : Prop := {
  hk_id : hr_id r = id;
  hk_fresh : id < next_id d;
  hk_owner : user_exists d (hr_owner_id r);
  hk_display_name : label_wf 128 (hr_display_name r);
  hk_hostname : hostname_wf (hr_hostname r);
  hk_port : port_wf (hr_port r);
  hk_username : username_wf (hr_default_username r)
}.

Record identity_row_ok (d : TrustDb) (id : SshIdentityId) (r : SshIdentityRow) : Prop := {
  ik_id : ir_id r = id;
  ik_fresh : id < next_id d;
  ik_owner : user_exists d (ir_owner_id r);
  ik_key_type : is_Some (key_type_from_str_tag (ir_key_type r));
  ik_name : label_wf 64 (ir_name r)
}.

(** A profile refers to a host and an identity of its own owner. *)
Record profile_ok (d : TrustDb) (id : ServerProfileId) (p : ServerProfile) : Prop := {
  pk_id : sp_id p = id;
  pk_fresh : id < next_id d;
  pk_owner : user_exists d (sp_owner_id p);
  pk_name : label_wf 64 (sp_name p);
  pk_username : forall u, sp_username_override p = Some u -> username_wf u;
  pk_tags : tags_wf (sp_tags p);
  pk_host : exists r, td_hosts d !! sp_host_id p = Some r /\ hr_owner_id r = sp_owner_id p;
  pk_identity : exists r, td_identities d !! sp_ssh_identity_id p = Some r /\ ir_owner_id r = sp_owner_id p
}.

Record inventory_inv (d : TrustDb) (sessions : list SessionRef) : Prop := {
  ii_hosts : map_Forall (host_row_ok d) (td_hosts d);
  ii_identities : map_Forall (identity_row_ok d) (td_identities d);
  ii_fingerprints : forall i j r r', td_identities d !! i = Some r -> td_identities d !! j = Some r' ->
    ir_owner_id r = ir_owner_id r' -> ir_fingerprint_sha256 r = ir_fingerprint_sha256 r' -> i = j;
  ii_profiles : map_Forall (profile_ok d) (td_profiles d);
  ii_names : forall i j p p', td_profiles d !! i = Some p -> td_profiles d !! j = Some p' ->
    sp_owner_id p = sp_owner_id p' -> sp_name p = sp_name p' -> i = j;
  ii_known_ids : known_ids d;
  ii_known : map_Forall (fun _ r => is_Some (td_hosts d !! kr_host_id r)) (td_known d);
  ii_sessions : Forall (fun s => exists p, td_profiles d !! sr_server_profile_id s = Some p
                                  /\ sp_owner_id p = sr_owner_id s) sessions
}.

(** The key of an identity never changes; its name may. *)
Record identity_kept (r r' : SshIdentityRow) : Prop := {
  dk_owner : ir_owner_id r' = ir_owner_id r;
  dk_key_type : ir_key_type r' = ir_key_type r;
  dk_public_key : ir_public_key r' = ir_public_key r;
  dk_encrypted : ir_encrypted_private_key r' = ir_encrypted_private_key r;
  dk_fingerprint : ir_fingerprint_sha256 r' = ir_fingerprint_sha256 r;
  dk_created_at : ir_created_at r' = ir_created_at r
}.

Definition host_kept (r r' : HostRow) : Prop :=
  hr_owner_id r' = hr_owner_id r /\ hr_created_at r' = hr_created_at r.
Definition profile_kept (p p' : ServerProfile) : Prop :=
  sp_owner_id p' = sp_owner_id p /\ sp_created_at p' = sp_created_at p.

#[export] Instance identity_kept_pre : PreOrder identity_kept.
Proof. split; [by split|]. intros r1 r2 r3 [] []. split; congruence. Qed.
#[export] Instance host_kept_pre : PreOrder host_kept.
Proof. split; [by split|]. intros r1 r2 r3 [] []. split; congruence. Qed.
#[export] Instance profile_kept_pre : PreOrder profile_kept.
Proof. split; [by split|]. intros r1 r2 r3 [] []. split; congruence. Qed.

(** Whatever has an identifier that was drawn before was there before: nothing that was deleted comes
    back, and nobody takes its identifier. *)
Definition no_return {A} (R : A -> A -> Prop) (next : Z) (m m' : gmap Z A) : Prop :=
  forall id x', m' !! id = Some x' -> id < next -> exists x, m !! id = Some x /\ R x x'.

Lemma no_return_refl {A} (R : A -> A -> Prop) `{!Reflexive R} next (m : gmap Z A) : no_return R next m m.
Proof. intros id x Hx _. by exists x. Qed.

Lemma no_return_trans {A} (R : A -> A -> Prop) `{!Transitive R} n1 n2 (m1 m2 m3 : gmap Z A) :
  n1 <= n2 -> no_return R n1 m1 m2 -> no_return R n2 m2 m3 -> no_return R n1 m1 m3.
Proof.
  intros Hn H12 H23 id x3 H3 Hid. destruct (H23 id x3 H3) as (x2 & H2 & R2); [lia|].
  destruct (H12 id x2 H2 Hid) as (x1 & H1 & R1). exists x1. split; [done|by transitivity x2].
Qed.

Record inventory_guar (d d' : TrustDb) : Prop := {
  ig_auth : auth_frame (td_auth d) (td_auth d');
  ig_hosts : no_return host_kept (next_id d) (td_hosts d) (td_hosts d');
  ig_identities : no_return identity_kept (next_id d) (td_identities d) (td_identities d');
  ig_profiles : no_return profile_kept (next_id d) (td_profiles d) (td_profiles d');
  ig_pins : forall id r, td_known d !! id = Some r -> kr_host_id r < next_id d ->
    (exists r', td_known d' !! id = Some r' /\ kr_host_id r' = kr_host_id r) \/ td_hosts d' !! kr_host_id r = None
}.

#[export] Instance inventory_guar_pre : PreOrder inventory_guar.
Proof.
  split.
  - intros d. split; [done|by apply no_return_refl|by apply no_return_refl|by apply no_return_refl|].
    intros id r Hr _. left. by exists r.
  - intros d1 d2 d3 [A1 A2 A3 A4 A5] [B1 B2 B3 B4 B5].
    assert (Hn : next_id d1 <= next_id d2) by apply A1.
    split; [by transitivity (td_auth d2)|by apply (no_return_trans _ _ (next_id d2) _ (td_hosts d2))
           |by apply (no_return_trans _ _ (next_id d2) _ (td_identities d2))
           |by apply (no_return_trans _ _ (next_id d2) _ (td_profiles d2))|].
    intros id r Hr Hid. destruct (A5 id r Hr Hid) as [(r2 & H2 & E2)|H2].
    + destruct (B5 id r2 H2 ltac:(lia)) as [(r3 & H3 & E3)|H3]; [left; exists r3; split; [done|congruence]|].
      right. by rewrite <- E2.
    + right. destruct (td_hosts d3 !! kr_host_id r) as [x|] eqn:E; [|done].
      destruct (B2 _ x E ltac:(lia)) as (x2 & Hx2 & _). congruence.
Qed.

(** ** Tables that stay as they are *)

Lemma host_row_frame d d' id r : auth_frame (td_auth d) (td_auth d') -> host_row_ok d id r -> host_row_ok d' id r.
Proof. intros [H1 H2 _] []. split; try done; [unfold next_id in *; lia|by apply H2]. Qed.
Lemma identity_row_frame d d' id r :
  auth_frame (td_auth d) (td_auth d') -> identity_row_ok d id r -> identity_row_ok d' id r.
Proof. intros [H1 H2 _] []. split; try done; [unfold next_id in *; lia|by apply H2]. Qed.

Lemma host_rows_frame d d' (m : gmap HostId HostRow) :
  auth_frame (td_auth d) (td_auth d') -> map_Forall (host_row_ok d) m -> map_Forall (host_row_ok d') m.
Proof. intros Ha H. eapply map_Forall_impl; [exact H|]. intros id r. by apply host_row_frame. Qed.
Lemma identity_rows_frame d d' (m : gmap SshIdentityId SshIdentityRow) :
  auth_frame (td_auth d) (td_auth d') -> map_Forall (identity_row_ok d) m -> map_Forall (identity_row_ok d') m.
Proof. intros Ha H. eapply map_Forall_impl; [exact H|]. intros id r. by apply identity_row_frame. Qed.

(** A profile stays well-formed when its host and its identity keep their owners. *)
Lemma profile_frame d d' id p :
  auth_frame (td_auth d) (td_auth d') ->
  (forall r, td_hosts d !! sp_host_id p = Some r ->
    exists r', td_hosts d' !! sp_host_id p = Some r' /\ hr_owner_id r' = hr_owner_id r) ->
  (forall r, td_identities d !! sp_ssh_identity_id p = Some r ->
    exists r', td_identities d' !! sp_ssh_identity_id p = Some r' /\ ir_owner_id r' = ir_owner_id r) ->
  profile_ok d id p -> profile_ok d' id p.
Proof.
  intros [H1 H2 _] Hh Hi [? ? ? ? ? ? (h & Hh1 & Hh2) (i & Hi1 & Hi2)].
  split; try done; [unfold next_id in *; lia|by apply H2| |].
  - destruct (Hh h Hh1) as (h' & ? & ?). exists h'. split; [done|congruence].
  - destruct (Hi i Hi1) as (i' & ? & ?). exists i'. split; [done|congruence].
Qed.

Lemma frame_keeps_inventory d d' s :
  inv_frame d d' -> known_ids d' -> inventory_inv d s -> inventory_inv d' s /\ inventory_guar d d'.
Proof.
  intros [Ha Hh Hi Hp Hk Hn] Hids []. split.
  - split; rewrite ?Hh, ?Hi, ?Hp; try done.
    + by apply (host_rows_frame d).
    + by apply (identity_rows_frame d).
    + eapply map_Forall_impl; [exact ii_profiles0|]. intros id p.
      apply profile_frame; [done| |]; intros r Hr; exists r; rewrite ?Hh, ?Hi; done.
    + intros id r' Hr'. destruct (Hn id r' Hr') as [(r & Hr & ->)|H]; [|done]. by apply (ii_known0 id r).
  - split; rewrite ?Hh, ?Hi, ?Hp; [done|by apply no_return_refl|by apply no_return_refl|by apply no_return_refl|].
    intros id r Hr _. left. by apply Hk.
Qed.

(** ** The writes *)

(** An [EXISTS] that answers no. *)
Lemma exists_none {A} (f : A -> bool) (m : gmap Z A) :
  existsb f (map_to_list m).*2 = false -> map_Forall (fun _ x => f x = false) m.
Proof.
  intros H id x Hx. rewrite existsb_Forall, Forall_forall in H. apply H, list_elem_of_fmap.
  exists (id, x). split; [done|]. by apply elem_of_map_to_list.
Qed.

Section puts.
Context (d0 d : TrustDb) (s : list SessionRef).
Context (Hinv : inventory_inv d s) (Hguar : inventory_guar d0 d).

(** A row that is written over one that it keeps, or under an identifier drawn since [d0]. *)
Lemma no_return_insert {A} (R : A -> A -> Prop) `{!Transitive R} (m0 m : gmap Z A) id x :
  no_return R (next_id d0) m0 m ->
  (forall x0, m !! id = Some x0 -> R x0 x) -> (m !! id = None -> next_id d0 <= id) ->
  no_return R (next_id d0) m0 (<[id := x]> m).
Proof.
  intros Hm Hold Hnew id' x' Hx Hid. apply lookup_insert_Some in Hx as [[<- <-]|[_ Hx]]; [|by apply Hm].
  destruct (m !! id) as [x0|] eqn:E; [|specialize (Hnew eq_refl); lia].
  destruct (Hm id x0 E Hid) as (y & Hy & Ry). exists y. split; [done|]. transitivity x0; [done|by apply Hold].
Qed.

Lemma put_host id r :
  host_row_ok d id r ->
  (forall r0, td_hosts d !! id = Some r0 -> host_kept r0 r) -> (td_hosts d !! id = None -> next_id d0 <= id) ->
  inventory_inv (set_hosts <[id := r]> d) s /\ inventory_guar d0 (set_hosts <[id := r]> d).
Proof using Hinv Hguar.
  intros Hr Hold Hnew. pose proof Hinv as Hi. pose proof Hguar as [G1 G2 G3 G4 G5]. destruct Hi. split.
  - split; cbn; try done.
    + apply map_Forall_insert_2; [by apply (host_row_frame d)|by apply (host_rows_frame d)].
    + by apply (identity_rows_frame d).
    + eapply map_Forall_impl; [exact ii_profiles0|]. intros i p. apply profile_frame; [done| |by intros x; exists x].
      intros x Hx. destruct (decide (sp_host_id p = id)) as [<-|Hne].
      * exists r. cbn. rewrite lookup_insert_eq. split; [done|]. by apply Hold.
      * exists x. cbn. by rewrite lookup_insert_ne.
    + eapply map_Forall_impl; [exact ii_known0|]. intros i k. rewrite lookup_insert_is_Some'. tauto.
  - split; cbn; try done; [apply no_return_insert; [apply _|done..]|].
    intros i k Hk Hi. destruct (G5 i k Hk Hi) as [H|H]; [by left|]. right.
    rewrite lookup_insert_ne; [done|]. intros E. rewrite <- E in H. specialize (Hnew H). lia.
Qed.

Lemma put_identity id r :
  identity_row_ok d id r ->
  (forall r0, td_identities d !! id = Some r0 -> identity_kept r0 r) ->
  (td_identities d !! id = None -> next_id d0 <= id /\
    map_Forall (fun _ r' => ~ (ir_owner_id r' = ir_owner_id r /\ ir_fingerprint_sha256 r' = ir_fingerprint_sha256 r))
      (td_identities d)) ->
  inventory_inv (set_identities <[id := r]> d) s /\ inventory_guar d0 (set_identities <[id := r]> d).
Proof using Hinv Hguar.
  intros Hr Hold Hnew. pose proof Hinv as Hi. pose proof Hguar as [G1 G2 G3 G4 G5]. destruct Hi.
  assert (Huniq : forall j r', td_identities d !! j = Some r' -> ir_owner_id r = ir_owner_id r' ->
            ir_fingerprint_sha256 r = ir_fingerprint_sha256 r' -> id = j).
  { intros j r' Hj E1 E2. destruct (td_identities d !! id) as [r0|] eqn:E.
    - destruct (Hold r0 eq_refl). apply (ii_fingerprints0 id j r0 r'); congruence.
    - destruct (Hnew eq_refl) as [_ Hn]. destruct (Hn j r' Hj). by split. }
  split.
  - split; cbn; try done.
    + by apply (host_rows_frame d).
    + apply map_Forall_insert_2; [by apply (identity_row_frame d)|by apply (identity_rows_frame d)].
    + intros i j x y [[<- <-]|[_ Hi]]%lookup_insert_Some [[<- <-]|[_ Hj]]%lookup_insert_Some E1 E2; [done| | |].
      * by apply (Huniq j y).
      * symmetry. by apply (Huniq i x).
      * by apply (ii_fingerprints0 i j x y).
    + eapply map_Forall_impl; [exact ii_profiles0|]. intros i p. apply profile_frame; [done|by intros x; exists x|].
      intros x Hx. destruct (decide (sp_ssh_identity_id p = id)) as [<-|Hne].
      * exists r. cbn. rewrite lookup_insert_eq. split; [done|]. by apply Hold.
      * exists x. cbn. by rewrite lookup_insert_ne.
  - split; cbn; try done. apply no_return_insert; [apply _|done|done|]. intros H. by apply Hnew.
Qed.

Lemma put_profile id p :
  profile_ok d id p ->
  (forall p0, td_profiles d !! id = Some p0 -> profile_kept p0 p) -> (td_profiles d !! id = None -> next_id d0 <= id) ->
  map_Forall (fun _ q => ~ (sp_id q <> sp_id p /\ sp_owner_id q = sp_owner_id p /\ sp_name q = sp_name p))
    (td_profiles d) ->
  inventory_inv (set_profiles <[id := p]> d) s /\ inventory_guar d0 (set_profiles <[id := p]> d).
Proof using Hinv Hguar.
  intros Hp Hold Hnew Hname. pose proof Hinv as Hi. pose proof Hguar as [G1 G2 G3 G4 G5]. destruct Hi.
  assert (Huniq : forall j q, td_profiles d !! j = Some q -> sp_owner_id p = sp_owner_id q ->
            sp_name p = sp_name q -> id = j).
  { intros j q Hq E1 E2. destruct (decide (id = j)) as [|Hne]; [done|]. destruct (Hname j q Hq).
    rewrite (pk_id _ _ _ (ii_profiles0 j q Hq)), (pk_id _ _ _ Hp). by split; [intros ->|]. }
  split.
  - split; cbn; try done.
    + by apply (host_rows_frame d).
    + by apply (identity_rows_frame d).
    + assert (Hsame : forall i q, profile_ok d i q -> profile_ok (set_profiles <[id := p]> d) i q).
      { intros i q. apply profile_frame; [done| |]; intros x; by exists x. }
      apply map_Forall_insert_2; [by apply Hsame|]. eapply map_Forall_impl; [exact ii_profiles0|]. exact Hsame.
    + intros i j x y [[<- <-]|[_ Hi]]%lookup_insert_Some [[<- <-]|[_ Hj]]%lookup_insert_Some E1 E2; [done| | |].
      * by apply (Huniq j y).
      * symmetry. by apply (Huniq i x).
      * by apply (ii_names0 i j x y).
    + eapply Forall_impl; [exact ii_sessions0|]. intros x (q & Hq & E).
      destruct (decide (sr_server_profile_id x = id)) as [<-|Hne].
      * exists p. rewrite lookup_insert_eq. split; [done|]. destruct (Hold q Hq). congruence.
      * exists q. by rewrite lookup_insert_ne.
  - split; cbn; try done. apply no_return_insert; [apply _|done..].
Qed.
End puts.

(** *** The repositories keep both *)

(** What a request has found out about the owners of a host and of an identity; it stays true. *)
Definition host_of (u : UserId) (id : HostId) (d : TrustDb) : Prop :=
  id < next_id d /\ forall r, td_hosts d !! id = Some r -> hr_owner_id r = u.
Definition identity_of (u : UserId) (id : SshIdentityId) (d : TrustDb) : Prop :=
  id < next_id d /\ forall r, td_identities d !! id = Some r -> ir_owner_id r = u.

Lemma host_of_later u id d d' : inventory_guar d d' -> host_of u id d -> host_of u id d'.
Proof.
  intros [Ha Hh _ _ _] [Hid Ho]. split; [destruct Ha; unfold next_id in *; lia|]. intros r' Hr'.
  destruct (Hh id r' Hr' Hid) as (r & Hr & [E _]). rewrite E. by apply Ho.
Qed.

Lemma identity_of_later u id d d' : inventory_guar d d' -> identity_of u id d -> identity_of u id d'.
Proof.
  intros [Ha _ Hi _ _] [Hid Ho]. split; [destruct Ha; unfold next_id in *; lia|]. intros r' Hr'.
  destruct (Hi id r' Hr' Hid) as (r & Hr & []). rewrite dk_owner0. by apply Ho.
Qed.

(** What holds of the tables may be assumed of an operation as long as requests keep it. *)
Definition stable (K : TrustDb -> Prop) : Prop := forall d d', inventory_guar d d' -> K d -> K d'.

Definition ikeeps_if {A} (K : TrustDb -> Prop) (s : list SessionRef)
  (f : TrustDb -> result RepositoryError A * TrustDb) : Prop :=
  forall d, inventory_inv d s -> K d -> inventory_inv (f d).2 s /\ inventory_guar d (f d).2.
Definition ikeeps {A} : list SessionRef -> (TrustDb -> result RepositoryError A * TrustDb) -> Prop :=
  ikeeps_if (fun _ => True).

Lemma stable_true : stable (fun _ => True).
Proof. done. Qed.
Lemma stable_and K1 K2 : stable K1 -> stable K2 -> stable (fun d => K1 d /\ K2 d).
Proof. intros H1 H2 d d' Hg [? ?]. split; [by apply (H1 d)|by apply (H2 d)]. Qed.

Lemma ikeeps_frames {A} K s (f : TrustDb -> result RepositoryError A * TrustDb) : iframes f -> ikeeps_if K s f.
Proof. intros Hf d Hd _. destruct (Hf d (ii_known_ids _ _ Hd)) as [H1 H2]. by apply frame_keeps_inventory. Qed.

Lemma ikeeps_execute {A} K s (f : TrustDb -> result RepositoryError A * TrustDb) :
  stable K -> ikeeps_if K s f -> ikeeps_if K s (trust_execute f).
Proof.
  intros HK Hf d Hd Hk.
  destruct (execute_frame f d (ii_known_ids _ _ Hd)) as (d1 & H1 & H2 & [[e ->]| ->]);
    destruct (frame_keeps_inventory d d1 s H2 H1 Hd) as [K1 K2]; [done|].
  destruct (Hf d1 K1 (HK _ _ K2 Hk)) as [L1 L2]. split; [done|]. by transitivity d1.
Qed.

(** An [INSERT] under an identifier that was just drawn *)
Lemma ikeeps_create {A} K s (f : Uuid -> TrustDb -> result RepositoryError A * TrustDb) :
  stable K ->
  (forall d0 d id, inventory_inv d s -> inventory_guar d0 d -> K d -> next_id d0 <= id < next_id d ->
    inventory_inv (f id d).2 s /\ inventory_guar d0 (f id d).2) ->
  ikeeps_if K s (fun d => let '(id, d) := trust_new_v4 d in trust_execute (f id) d).
Proof.
  intros HK Hf d Hd Hk. cbn.
  destruct (frame_with_auth (auth_new_v4 (td_auth d)).2 d) as [F1 F2];
    [split; cbn; [lia|done|done]|by apply (ii_known_ids _ s)|].
  destruct (frame_keeps_inventory _ _ s F2 F1 Hd) as [G1 G2].
  set (d1 := with_auth (auth_new_v4 (td_auth d)).2 d) in *.
  assert (Hn : next_id d1 = next_id d + 1) by done.
  change (with_auth _ d) with d1. change (a_next_uuid (td_auth d)) with (next_id d).
  destruct (execute_frame (f (next_id d)) d1 F1) as (d2 & H1 & H2 & [[e ->]| ->]);
    destruct (frame_keeps_inventory d1 d2 s H2 H1 G1) as [K1 K2]; [split; [done|by transitivity d1]|].
  apply Hf; [done|by transitivity d1|by apply (HK d), Hk; transitivity d1|].
  destruct K2 as [[Hu _ _] _ _ _ _]. unfold next_id in *. lia.
Qed.

(** **** Hosts *)

Record create_host_ok (input : CreateHost) : Prop := {
  ho_display_ok : label_wf 128 (ch_display_name input);
  ho_hostname_ok : hostname_wf (ch_hostname input);
  ho_port_ok : port_wf (ch_port input);
  ho_username_ok : username_wf (ch_default_username input)
}.
Record update_host_ok (input : UpdateHost) : Prop := {
  uo_display_ok : forall v, uh_display_name input = Some v -> label_wf 128 v;
  uo_hostname_ok : forall v, uh_hostname input = Some v -> hostname_wf v;
  uo_port_ok : forall v, uh_port input = Some v -> port_wf v;
  uo_username_ok : forall v, uh_default_username input = Some v -> username_wf v
}.

Lemma owned_row_Some {R} (owner : R -> UserId) u o r : owned_row owner u o = Some r -> o = Some r /\ owner r = u.
Proof. unfold owned_row. destruct o as [x|]; [|done]. destruct (owner x =? u) eqn:E; [|done]. bool_props. naive_solver. Qed.

Lemma keeps_create_host s input : create_host_ok input -> ikeeps s (PgHostRepository.create input).
Proof.
  intros []. apply ikeeps_create; [apply stable_true|]. intros d0 d id Hd Hg _ Hid. cbn zeta.
  unfold host_insert_error. repeat case_match; simplify_eq; try done. bool_props.
  unfold owner_exists in *. bool_props. cbn [hr_id] in *.
  apply (put_host d0 d); [done|done| | |lia].
  - split; cbn; try done. lia.
  - intros r0 Hr0. exfalso. naive_solver.
Qed.

Lemma keeps_update_host s id u input : update_host_ok input -> ikeeps s (PgHostRepository.update id u input).
Proof.
  intros []. apply ikeeps_execute; [apply stable_true|]. intros d Hd _.
  destruct (owned_row hr_owner_id u _) as [r|] eqn:E; [|done]. apply owned_row_Some in E as [E _].
  cbn zeta. destruct (host_check _); [done|]. pose proof (ii_hosts _ _ Hd id r E) as [].
  apply (put_host d d); [done|done| | |congruence].
  - split; cbn; try done; destruct input as [[?|] [?|] [?|] [?|]]; cbn in *; auto.
  - intros r0 Hr0. by simplify_eq.
Qed.

Lemma keeps_delete_host s id u : ikeeps s (PgHostRepository.delete id u).
Proof.
  apply ikeeps_execute; [apply stable_true|]. intros d Hd _.
  destruct (owned_row hr_owner_id u _) as [r|] eqn:E; [|done].
  destruct (existsb _ _) eqn:Ep; [done|]. apply exists_none in Ep. destruct Hd. cbn [fst snd].
  assert (Hkeep : forall i k, cascade_known id (td_known d) !! i = Some k ->
            exists k0, td_known d !! i = Some k0 /\ kr_host_id k0 <> id /\ kr_host_id k = kr_host_id k0
                       /\ kr_id k = kr_id k0).
  { intros i k Hk. unfold cascade_known in Hk. apply lookup_fmap_Some in Hk as (k0 & <- & Hk).
    apply map_lookup_filter_Some in Hk as [Hk Hne]. exists k0. by repeat case_match. }
  assert (Hhosts : forall i h, i <> id -> td_hosts d !! i = Some h -> base.delete id (td_hosts d) !! i = Some h)
    by (intros i h Hne Hh; by rewrite lookup_delete_ne).
  split.
  - split; cbn; try done.
    + apply map_Forall_delete. by apply (host_rows_frame d).
    + by apply (identity_rows_frame d).
    + intros i p Hp. specialize (Ep i p Hp). cbn beta in Ep. bool_props.
      apply (profile_frame d); [done| |by intros x; exists x|by apply ii_profiles0].
      intros h Hh. exists h. split; [|done]. by apply Hhosts.
    + intros i k Hk. destruct (Hkeep i k Hk) as (k0 & Hk0 & _ & _ & ->). by apply ii_known_ids0.
    + intros i k Hk. destruct (Hkeep i k Hk) as (k0 & Hk0 & Hne & -> & _).
      destruct (ii_known0 i k0 Hk0) as [h Hh]. exists h. by apply Hhosts.
  - split; cbn; [done| |by apply no_return_refl|by apply no_return_refl|].
    + intros i h [_ Hh]%lookup_delete_Some _. by exists h.
    + intros i k Hk _. destruct (decide (kr_host_id k = id)) as [->|Hne].
      * right. apply lookup_delete_eq.
      * left. unfold cascade_known. rewrite lookup_fmap.
        rewrite (map_lookup_filter_Some_2 _ _ i k Hk) by done. cbn. eexists. split; [done|].
        by repeat case_match.
Qed.

(** **** Identities *)

Lemma keeps_create_identity s input :
  label_wf 64 (ci_name input) -> ikeeps s (PgSshIdentityRepository.create input).
Proof.
  intros Hname. apply ikeeps_create; [apply stable_true|]. intros d0 d id Hd Hg _ Hid. cbn zeta.
  destruct (identity_insert_error _ d) eqn:E; [done|]. unfold identity_insert_error in E.
  repeat case_match; simplify_eq. bool_props. unfold owner_exists in *. bool_props. cbn [ir_id ir_owner_id] in *.
  assert (Hnone : td_identities d !! id = None) by (destruct (td_identities d !! id); naive_solver).
  apply (put_identity d0 d); [done|done| |congruence|].
  - split; cbn; try done; [lia|]. by destruct (ci_key_type input).
  - intros _. split; [lia|]. match goal with H : existsb _ _ = false |- _ => apply exists_none in H as Hn end.
    eapply map_Forall_impl; [exact Hn|]. intros j r Hr. cbn beta in Hr. by apply bool_decide_eq_false in Hr.
Qed.

Lemma keeps_rename_identity s id u name : label_wf 64 name -> ikeeps s (PgSshIdentityRepository.rename id u name).
Proof.
  intros Hname. apply ikeeps_execute; [apply stable_true|]. intros d Hd _.
  destruct (owned_row ir_owner_id u _) as [r|] eqn:E; [|done]. apply owned_row_Some in E as [E _].
  cbn zeta. cbn [snd]. pose proof (ii_identities _ _ Hd id r E) as [].
  apply (put_identity d d); [done|done| | |congruence].
  - by split.
  - intros r0 Hr0. simplify_eq. by split.
Qed.

Lemma keeps_delete_identity s id u : ikeeps s (PgSshIdentityRepository.delete id u).
Proof.
  apply ikeeps_execute; [apply stable_true|]. intros d Hd _.
  destruct (owned_row ir_owner_id u _) as [r|] eqn:E; [|done].
  destruct (existsb _ _) eqn:Ep; [done|]. apply exists_none in Ep. destruct Hd. cbn [fst snd]. split.
  - split; cbn; try done.
    + by apply (host_rows_frame d).
    + apply map_Forall_delete. by apply (identity_rows_frame d).
    + intros i j x y [_ Hx]%lookup_delete_Some [_ Hy]%lookup_delete_Some. by apply ii_fingerprints0.
    + intros i p Hp. specialize (Ep i p Hp). cbn beta in Ep. bool_props.
      apply (profile_frame d); [done|by intros x; exists x| |by apply ii_profiles0].
      intros h Hh. exists h. split; [|done]. cbn. by rewrite lookup_delete_ne.
  - split; cbn; [done|by apply no_return_refl| |by apply no_return_refl|intros i k Hk _; left; by exists k].
    intros i h [_ Hh]%lookup_delete_Some _. by exists h.
Qed.

(** **** Profiles *)

Record create_profile_ok (input : CreateServerProfile) : Prop := {
  po_name_ok : label_wf 64 (np_name input);
  po_username_ok : forall u, np_username_override input = Some u -> username_wf u;
  po_tags_ok : tags_wf (np_tags input)
}.
Record update_profile_ok (input : UpdateServerProfile) : Prop := {
  vo_name_ok : forall v, up_name input = Some v -> label_wf 64 v;
  vo_username_ok : forall v, up_username_override input = SetTo (Some v) -> username_wf v;
  vo_tags_ok : forall v, up_tags input = Some v -> tags_wf v
}.

Lemma no_write_error p d :
  profile_write_error p d = None ->
  map_Forall (fun _ q => ~ (sp_id q <> sp_id p /\ sp_owner_id q = sp_owner_id p /\ sp_name q = sp_name p)) (td_profiles d)
  /\ user_exists d (sp_owner_id p) /\ is_Some (td_hosts d !! sp_host_id p)
  /\ is_Some (td_identities d !! sp_ssh_identity_id p).
Proof.
  unfold profile_write_error, owner_exists, user_exists. intros H. repeat case_match; simplify_eq. bool_props.
  match goal with H : existsb _ _ = false |- _ => apply exists_none in H as Hn end.
  split; [|done]. eapply map_Forall_impl; [exact Hn|]. intros j q Hq. cbn beta in Hq.
  by apply bool_decide_eq_false in Hq.
Qed.

Lemma stable_refs u hid iid : stable (fun d => host_of u hid d /\ identity_of u iid d).
Proof.
  apply stable_and; intros d d' Hg; [by apply host_of_later|by apply identity_of_later].
Qed.

Lemma keeps_create_profile s input :
  create_profile_ok input ->
  ikeeps_if (fun d => host_of (np_owner_id input) (np_host_id input) d
                      /\ identity_of (np_owner_id input) (np_ssh_identity_id input) d) s
    (PgServerProfileRepository.create input).
Proof.
  intros []. apply ikeeps_create; [apply stable_refs|]. intros d0 d id Hd Hg [[_ Hh] [_ Hi]] Hid. cbn zeta.
  destruct (bool_decide _) eqn:Enew; [done|]. destruct (profile_write_error _ d) eqn:E; [done|].
  apply no_write_error in E as (Hname & Hu & [h Hh'] & [i Hi']). bool_props. cbn in Hh', Hi'.
  assert (Hnone : td_profiles d !! id = None) by (destruct (td_profiles d !! id); naive_solver).
  apply (put_profile d0 d); [done|done| |congruence|lia|done].
  split; cbn; try done; [lia| |]; [exists h|exists i]; (split; [done|]); [by apply Hh|by apply Hi].
Qed.

(** An update that keeps the owner and refers to rows of that owner *)
Lemma keeps_update_with K s id u f :
  stable K ->
  (forall d p now, inventory_inv d s -> K d -> td_profiles d !! id = Some p -> sp_owner_id p = u ->
    is_Some (td_hosts d !! sp_host_id (f now p)) -> is_Some (td_identities d !! sp_ssh_identity_id (f now p)) ->
    profile_ok d id (f now p) /\ profile_kept p (f now p)) ->
  ikeeps_if K s (PgServerProfileRepository.update_with id u f).
Proof.
  intros HK Hf. apply ikeeps_execute; [done|]. intros d Hd Hk.
  destruct (owned_row sp_owner_id u _) as [p|] eqn:E; [|done]. apply owned_row_Some in E as [E Eu].
  cbn zeta. destruct (profile_write_error _ d) eqn:Ew; [done|]. apply no_write_error in Ew as (Hname & _ & Hh & Hi).
  destruct (Hf d p (td_now d) Hd Hk E Eu Hh Hi) as [H1 H2].
  apply (put_profile d d); [done|done|done| |congruence|done]. intros p0 Hp0. by simplify_eq.
Qed.

Lemma keeps_update_profile s id u input :
  update_profile_ok input ->
  ikeeps_if (fun d => (forall h, up_host_id input = Some h -> host_of u h d)
                      /\ (forall i, up_ssh_identity_id input = Some i -> identity_of u i d)) s
    (PgServerProfileRepository.update id u input).
Proof.
  intros []. apply keeps_update_with.
  { apply stable_and; intros d d' Hg H x Hx; [eapply host_of_later|eapply identity_of_later]; eauto. }
  intros d p now Hd [Kh Ki] Hp Eu [h Hh] [i Hi]. pose proof (ii_profiles _ _ Hd id p Hp) as [].
  split; [|by split]. destruct input as [name host identity username tags]. cbn in *. split; cbn; try done.
  - destruct name; cbn; auto.
  - intros x Hx. destruct username as [|v]; [by auto|]. subst v. by apply vo_username_ok0.
  - destruct tags; cbn; auto.
  - exists h. split; [done|]. destruct host as [x|]; cbn in *.
    + rewrite Eu. by apply (Kh x eq_refl).
    + destruct pk_host0 as (? & ? & ?). by simplify_eq.
  - exists i. split; [done|]. destruct identity as [x|]; cbn in *.
    + rewrite Eu. by apply (Ki x eq_refl).
    + destruct pk_identity0 as (? & ? & ?). by simplify_eq.
Qed.

Lemma keeps_set_disabled s id u t : ikeeps s (PgServerProfileRepository.set_disabled_at id u t).
Proof.
  apply keeps_update_with; [apply stable_true|]. intros d p now Hd _ Hp _ _ _.
  pose proof (ii_profiles _ _ Hd id p Hp) as []. by split.
Qed.

Lemma keeps_delete_profile s id u : ikeeps s (PgServerProfileRepository.delete s id u).
Proof.
  apply ikeeps_execute; [apply stable_true|]. intros d Hd _.
  destruct (owned_row sp_owner_id u _) as [p|] eqn:E; [|done].
  destruct (existsb _ _) eqn:Ep; [done|]. rewrite existsb_Forall in Ep. destruct Hd. cbn [fst snd]. split.
  - split; cbn; try done.
    + by apply (host_rows_frame d).
    + by apply (identity_rows_frame d).
    + apply map_Forall_delete. eapply map_Forall_impl; [exact ii_profiles0|]. intros i q.
      apply profile_frame; [done| |]; intros x; by exists x.
    + intros i j x y [_ Hx]%lookup_delete_Some [_ Hy]%lookup_delete_Some. by apply ii_names0.
    + rewrite Forall_forall in Ep, ii_sessions0 |- *. intros x Hx. destruct (ii_sessions0 x Hx) as (q & Hq & Eq).
      exists q. split; [|done]. specialize (Ep x Hx). cbn beta in Ep. bool_props. by rewrite lookup_delete_ne.
  - split; cbn; [done|by apply no_return_refl|by apply no_return_refl| |intros i k Hk _; left; by exists k].
    intros i h [_ Hh]%lookup_delete_Some _. by exists h.
Qed.

(** ** What validation establishes *)

Lemma validate_identity_name_exact s v : validate_identity_name s = Ok v <-> v = s /\ label_wf 64 s.
Proof.
  rewrite <- label_exact. unfold validate_identity_name, MAX_NAME_LEN. cbn zeta.
  destruct (bool_decide (trim s = [])) eqn:E1; bool_props.
  { split; [done|]. intros (_ & H1 & H2 & _). congruence. }
  destruct (bool_decide (trim s = s)) eqn:E2; bool_props; cbn [negb]; [|naive_solver]. rewrite E2.
  destruct (64 <? len s) eqn:E3; bool_props; [split; [done|lia]|].
  destruct (existsb is_control s); [naive_solver|]. split; [|naive_solver].
  intros [= <-]. split; [done|]. split; [congruence|done].
Qed.

Section validation.
Context {Db : RustDebug}.

Lemma validate_opt_ok {A} (validate : A -> result ValidationError A) (P : A -> Prop) o o' :
  (forall a b, validate a = Ok b <-> b = a /\ P a) -> validate_opt validate o = Ok o' ->
  o' = o /\ forall a, o = Some a -> P a.
Proof.
  intros Hv. destruct o as [a|]; cbn; [|by intros [= <-]].
  intros (b & Hb & [= <-])%result_bind_ok. apply map_err_ok, Hv in Hb as [-> Hp].
  split; [done|]. by intros ? [= <-].
Qed.

Lemma host_into_create_ok req u input :
  host_into_create req u = Ok input -> create_host_ok input /\ ch_owner_id input = u.
Proof.
  intros H. unfold host_into_create in H.
  apply result_bind_ok in H as (a & Ha & H). apply map_err_ok, validate_host_display_name_exact in Ha as [-> Ha].
  apply result_bind_ok in H as (b & Hb & H). apply map_err_ok, validate_hostname_exact in Hb as [-> Hb].
  apply result_bind_ok in H as (c & Hc & H). apply map_err_ok, validate_ssh_port_exact in Hc as [-> Hc].
  apply result_bind_ok in H as (e & He & H). apply map_err_ok, validate_ssh_username_exact in He as [-> He].
  injection H as <-. by split.
Qed.

Lemma host_into_update_ok req input : host_into_update req = Ok input -> update_host_ok input.
Proof.
  intros H. unfold host_into_update in H.
  apply result_bind_ok in H as (a & Ha & H). apply (validate_opt_ok _ _ _ _ validate_host_display_name_exact) in Ha as [-> Ha].
  apply result_bind_ok in H as (b & Hb & H). apply (validate_opt_ok _ _ _ _ validate_hostname_exact) in Hb as [-> Hb].
  apply result_bind_ok in H as (c & Hc & H). apply (validate_opt_ok _ _ _ _ validate_ssh_port_exact) in Hc as [-> Hc].
  apply result_bind_ok in H as (e & He & H). apply (validate_opt_ok _ _ _ _ validate_ssh_username_exact) in He as [-> He].
  destruct (_ && _); [done|]. injection H as <-. by split.
Qed.

Lemma profile_into_create_ok req u input :
  profile_into_create req u = Ok input -> create_profile_ok input /\ np_owner_id input = u.
Proof.
  intros H. unfold profile_into_create in H.
  apply result_bind_ok in H as (a & Ha & H). apply map_err_ok, validate_profile_name_exact in Ha as [-> Ha].
  apply result_bind_ok in H as (b & Hb & H). apply (validate_opt_ok _ _ _ _ validate_ssh_username_exact) in Hb as [-> Hb].
  apply result_bind_ok in H as (c & Hc & H). apply map_err_ok, validate_tags_exact in Hc as [-> Hc].
  injection H as <-. by split.
Qed.

Lemma profile_into_update_ok req input :
  profile_into_update req = Ok input -> update_profile_ok input.
Proof.
  intros H. unfold profile_into_update in H.
  apply result_bind_ok in H as (a & Ha & H). apply (validate_opt_ok _ _ _ _ validate_profile_name_exact) in Ha as [-> Ha].
  apply result_bind_ok in H as (b & Hb & H).
  apply result_bind_ok in H as (c & Hc & H). apply (validate_opt_ok _ _ _ _ validate_tags_exact) in Hc as [-> Hc].
  destruct (_ && _); [done|]. injection H as <-. split; [done| |done]. cbn. intros v ->.
  destruct (upr_username_override req) as [[raw|]|]; try done.
  apply result_bind_ok in Hb as (w & Hw & [= <-]). by apply map_err_ok, validate_ssh_username_exact in Hw as [-> Hw].
Qed.
End validation.

(** ** Interleaving *)

Definition iw_db (w : InvWorld) : TrustDb := tw_db (iw_trust w).
Definition inv_ok (w : InvWorld) : Prop := inventory_inv (iw_db w) (iw_sessions w).
Record inv_step (w w' : InvWorld) : Prop := {
  is_guar : inventory_guar (iw_db w) (iw_db w');
  is_refs : iw_sessions w `prefix_of` iw_sessions w'
}.

#[export] Instance inv_step_pre : PreOrder inv_step.
Proof. split; [by split|]. intros w1 w2 w3 [] []. split; by etransitivity. Qed.

Abbreviation IWP := (wp inv_ok inv_step).
Definition isafe {A} (p : prog InvWorld A) : Prop := forall w0, IWP p w0 (fun _ _ => True).

Lemma isafe_ret {A} (a : A) : isafe (Ret a).
Proof. done. Qed.
Lemma isafe_bind {A B} (p : prog InvWorld A) (k : A -> prog InvWorld B) :
  isafe p -> (forall a, isafe (k a)) -> isafe (bind p k).
Proof. intros Hp Hk w0. apply wp_bind. eapply wp_mono; [|apply Hp]. intros a w _. apply Hk. Qed.
Lemma isafe_try {E A B} (p : prog InvWorld (result E A)) (k : A -> prog InvWorld (result E B)) :
  isafe p -> (forall a, isafe (k a)) -> isafe (try_bind p k).
Proof. intros Hp Hk. apply isafe_bind; [done|]. intros [a|e]; [apply Hk|done]. Qed.
Lemma isafe_pure {E A B} (r : result E A) (k : A -> prog InvWorld (result E B)) :
  (forall a, r = Ok a -> isafe (k a)) -> isafe (try_bind (Ret r) k).
Proof. intros Hk w0. cbn. destruct r as [a|e]; [by apply Hk|done]. Qed.

(** A program of the host-key or authentication side *)
Lemma isafe_on_trust {A} (p : prog TrustWorld A) :
  all_acts trust_world_frame p -> isafe (InventoryRoutes.on_trust p).
Proof.
  intros Hp w0. apply all_acts_wp. apply (all_acts_embed trust_world_frame); [|done].
  intros w t Ht Hw. destruct (Ht (ii_known_ids _ _ Hw)) as [H1 H2].
  destruct (frame_keeps_inventory _ _ _ H2 H1 Hw) as [K1 K2]. by split.
Qed.

Lemma wp_inv_repo {A} (K : TrustDb -> Prop) (f : TrustDb -> result RepositoryError A * TrustDb) w0
  (Q : result ApiError A -> InvWorld -> Prop) :
  stable K -> (forall s, ikeeps_if K s f) -> K (iw_db w0) ->
  (forall w w', inv_ok w -> inv_step w0 w -> inv_ok w' -> inv_step w w' ->
    iw_db w' = (f (iw_db w)).2 -> Q (map_err api_of_repository (f (iw_db w)).1) w') ->
  IWP (InventoryRoutes.repo f) w0 Q.
Proof.
  intros HK Hf Hk HQ w Hw HG. destruct (Hf (iw_sessions w) (iw_db w) Hw) as [H1 H2].
  { apply (HK (iw_db w0)), Hk. apply HG. }
  cbn. unfold iw_db in *. specialize (HQ w). destruct (f (tw_db (iw_trust w))) as [r d]. cbn in *.
  assert (Hdb : tw_db (set_tw_db d (iw_trust w)) = d) by by destruct d as [[]].
  assert (Hok : inv_ok (mkInv (set_tw_db d (iw_trust w)) (iw_sessions w)))
    by (unfold inv_ok, iw_db; cbn; by rewrite Hdb).
  assert (Hst : inv_step w (mkInv (set_tw_db d (iw_trust w)) (iw_sessions w)))
    by (split; [unfold iw_db; cbn; by rewrite Hdb|done]).
  split; [done|]. split; [done|]. by apply HQ.
Qed.

Lemma isafe_repo {A} (f : TrustDb -> result RepositoryError A * TrustDb) :
  (forall s, ikeeps s f) -> isafe (InventoryRoutes.repo f).
Proof. intros Hf w0. by apply (wp_inv_repo (fun _ => True)). Qed.

(** The repository call itself, before [?] *)
Lemma isafe_trepo {A} (f : TrustDb -> result RepositoryError A * TrustDb) :
  (forall s, ikeeps s f) -> isafe (InventoryRoutes.on_trust (trepo f)).
Proof.
  intros Hf w0 w Hw HG. destruct (isafe_repo f Hf w0 w Hw HG) as (H1 & H2 & _). split; [exact H1|].
  split; [exact H2|exact I].
Qed.

Lemma isafe_repo_sessions {A} (f : list SessionRef -> TrustDb -> result RepositoryError A * TrustDb) :
  (forall s, ikeeps s (f s)) -> isafe (InventoryRoutes.repo_sessions f).
Proof.
  intros Hf. apply isafe_bind; [|done]. intros w0 w Hw _.
  destruct (Hf (iw_sessions w) (iw_db w) Hw I) as [H1 H2].
  unfold iw_db in *. destruct (f (iw_sessions w) (tw_db (iw_trust w))) as [r d]. cbn in *.
  assert (Hdb : tw_db (set_tw_db d (iw_trust w)) = d) by by destruct d as [[]].
  unfold inv_ok, iw_db. cbn. rewrite Hdb. split; [done|]. split; [|done]. split; [unfold iw_db; cbn; by rewrite Hdb|done].
Qed.

(** A row that a request has found to be its user's. *)
Lemma wp_owned_host u id w0 :
  IWP (InventoryRoutes.owned_host u id) w0 (fun r w => is_ok r = true -> host_of u id (iw_db w)).
Proof.
  unfold InventoryRoutes.owned_host. apply wp_try.
  apply (wp_inv_repo (fun _ => True)); [apply stable_true|intros s; apply ikeeps_frames, iframes_read|done|].
  intros w w' Hw _ Hw' Hst E.
  destruct (execute_frame (fun d => (transpose_row host_try_into_domain (td_hosts d !! id), d)) (iw_db w)
              (ii_known_ids _ _ Hw)) as (d1 & _ & Hf & Hx).
  unfold PgHostRepository.get in *. destruct Hx as [[e Hx]|Hx]; rewrite Hx in *; cbn in *; [done|].
  destruct (td_hosts d1 !! id) as [row|] eqn:Er; [|by cbn]. cbn.
  destruct (host_try_into_domain row) as [ho|e] eqn:Eh; cbn; [|done].
  destruct (ho_owner_id ho =? u) eqn:Eo; cbn; [|done]. intros _. bool_props.
  unfold host_try_into_domain in Eh. apply result_bind_ok in Eh as (port & _ & Eh).
  destruct (port =? 0); [done|]. injection Eh as <-. cbn in Eo. rewrite E.
  pose proof (ii_hosts _ _ Hw') as Hh. rewrite E in Hh. split.
  - by apply (Hh id row Er).
  - intros r Hr. congruence.
Qed.

Lemma wp_owned_identity u id w0 :
  IWP (InventoryRoutes.owned_identity u id) w0 (fun r w => is_ok r = true -> identity_of u id (iw_db w)).
Proof.
  unfold InventoryRoutes.owned_identity. apply wp_try.
  apply (wp_inv_repo (fun _ => True)); [apply stable_true|intros s; apply ikeeps_frames, iframes_read|done|].
  intros w w' Hw _ Hw' Hst E.
  destruct (execute_frame (fun d => (transpose_row identity_try_into_domain (td_identities d !! id), d)) (iw_db w)
              (ii_known_ids _ _ Hw)) as (d1 & _ & Hf & Hx).
  unfold PgSshIdentityRepository.get in *. destruct Hx as [[e Hx]|Hx]; rewrite Hx in *; cbn in *; [done|].
  destruct (td_identities d1 !! id) as [row|] eqn:Er; [|by cbn]. cbn.
  destruct (identity_try_into_domain row) as [i|e] eqn:Eh; cbn; [|done].
  destruct (si_owner_id i =? u) eqn:Eo; cbn; [|done]. intros _. bool_props.
  unfold identity_try_into_domain in Eh. apply result_bind_ok in Eh as (kt & _ & Eh).
  injection Eh as <-. cbn in Eo. rewrite E.
  pose proof (ii_identities _ _ Hw') as Hi. rewrite E in Hi. split.
  - by apply (Hi id row Er).
  - intros r Hr. congruence.
Qed.

Section routes.
Context {Cr : AuthCrypto} {Lo : PgLower} {Co : PgCollation} {Ae : Aead} {Sk : SshKeys} {Db : RustDebug}.
Context (cfg : AuthRoutesConfig) (vault : option (list Byte.byte)).

Lemma isafe_csrf h : isafe (InventoryRoutes.csrf_guard cfg h).
Proof. done. Qed.
Lemma isafe_user h : isafe (InventoryRoutes.authenticated_user h).
Proof. apply isafe_try; [apply isafe_on_trust, all_on_auth, frame_user|done]. Qed.
Lemma isafe_audit u kind payload : isafe (InventoryRoutes.audit u kind payload).
Proof. apply isafe_bind; [apply isafe_on_trust, all_on_auth, all_arepo, aframes_audit|done]. Qed.
Lemma isafe_draw : isafe InventoryRoutes.draw_bytes.
Proof. apply isafe_on_trust, all_on_auth, frame_draw. Qed.
Lemma isafe_now : isafe InventoryRoutes.utc_now.
Proof. apply isafe_on_trust, all_on_auth, frame_now. Qed.
Lemma isafe_read {A} (f : TrustDb -> result RepositoryError A) :
  isafe (InventoryRoutes.repo (trust_execute (fun d => (f d, d)))).
Proof. apply isafe_repo. intros s. apply ikeeps_frames, iframes_read. Qed.
Lemma isafe_owned_host u id : isafe (InventoryRoutes.owned_host u id).
Proof. intros w0. eapply wp_mono; [|apply wp_owned_host]. done. Qed.
Lemma isafe_owned_identity u id : isafe (InventoryRoutes.owned_identity u id).
Proof. intros w0. eapply wp_mono; [|apply wp_owned_identity]. done. Qed.
Lemma isafe_owned_profile u id : isafe (InventoryRoutes.owned_profile u id).
Proof. apply isafe_try; [apply isafe_read|done]. Qed.
Lemma isafe_store u name g source :
  label_wf 64 name -> isafe (InventoryRoutes.store_identity u name g source).
Proof.
  intros Hn. unfold InventoryRoutes.store_identity.
  apply isafe_bind; [apply isafe_trepo; intros s; by apply keeps_create_identity|].
  intros r. apply isafe_pure. intros i _. apply isafe_try; [apply isafe_audit|done].
Qed.

Lemma identity_validate_ok req v : identity_validate req = Ok v -> label_wf 64 (vi_name v).
Proof.
  intros H. unfold identity_validate in H. apply result_bind_ok in H as (n & Hn & H).
  apply result_bind_ok in H as (t & _ & H). injection H as <-. by apply validate_identity_name_exact in Hn as [-> ?].
Qed.
Lemma import_validate_ok req v : import_validate req = Ok v -> label_wf 64 v.1.
Proof.
  intros H. unfold import_validate in H. apply result_bind_ok in H as (n & Hn & H).
  apply validate_identity_name_exact in Hn as [-> Hn]. repeat case_match; try done. by injection H as <-.
Qed.

Create HintDb isafe discriminated.
Hint Resolve isafe_ret isafe_csrf isafe_user isafe_audit isafe_draw isafe_now isafe_owned_host
  isafe_owned_identity isafe_owned_profile isafe_store identity_validate_ok import_validate_ok : isafe.

(** Walk through a handler. *)
Ltac stroll :=
  repeat first
    [ solve [eauto 4 with isafe]
    | apply isafe_pure; intros ? ?
    | apply isafe_read
    | apply isafe_try; [|intros ?]
    | apply isafe_bind; [|intros ?]
    | case_match ].

(** A profile is created when its host and its identity are the user's. *)
Lemma isafe_create_profile h req : isafe (InventoryRoutes.create_profile cfg h req).
Proof.
  unfold InventoryRoutes.create_profile. apply isafe_try; [done|intros _]. apply isafe_try; [apply isafe_user|].
  intros u. apply isafe_pure. intros input Hin. apply profile_into_create_ok in Hin as [Hok Hu]. intros w0.
  apply wp_try. eapply wp_mono; [|apply wp_owned_host]. intros [ho|e] w1 H1; [|done].
  apply wp_try. eapply wp_mono; [|apply wp_guar, wp_owned_identity]; [|apply _]. intros [i|e] w2 [H2 HG]; [|done].
  apply wp_try. eapply wp_inv_repo; [apply stable_refs|intros s; by apply keeps_create_profile| |].
  { rewrite Hu. split; [|by apply H2]. eapply host_of_later; [apply HG|by apply H1]. }
  intros w w' _ _ _ _ _. destruct (map_err _ _) as [p|e]; [|done].
  assert (Ht : isafe (do? _ <- InventoryRoutes.write_lifecycle_audit u ServerProfileCreated p;
                      Ret (Ok (RProfile 201 (profile_response p))))) by (apply isafe_try; [apply isafe_audit|done]).
  apply Ht.
Qed.

(** The checks of an update's new host and new identity *)
Lemma wp_check_host u (o : option HostId) w0 :
  IWP (match o with
       | Some id => do? _ <- InventoryRoutes.owned_host u id; Ret (Ok tt)
       | None => Ret (Ok tt)
       end) w0 (fun r w => is_ok r = true -> forall id, o = Some id -> host_of u id (iw_db w)).
Proof.
  destruct o as [id|]; [|done]. apply wp_try. eapply wp_mono; [|apply wp_owned_host].
  intros [ho|e] w H; [|done]. intros _ ? [= <-]. by apply H.
Qed.
Lemma wp_check_identity u (o : option SshIdentityId) w0 :
  IWP (match o with
       | Some id => do? _ <- InventoryRoutes.owned_identity u id; Ret (Ok tt)
       | None => Ret (Ok tt)
       end) w0 (fun r w => is_ok r = true -> forall id, o = Some id -> identity_of u id (iw_db w)).
Proof.
  destruct o as [id|]; [|done]. apply wp_try. eapply wp_mono; [|apply wp_owned_identity].
  intros [i|e] w H; [|done]. intros _ ? [= <-]. by apply H.
Qed.

Lemma isafe_update_profile h id req : isafe (InventoryRoutes.update_profile cfg h id req).
Proof.
  unfold InventoryRoutes.update_profile. apply isafe_try; [done|intros _]. apply isafe_try; [apply isafe_user|].
  intros u. apply isafe_pure. intros input Hin. apply profile_into_update_ok in Hin.
  apply isafe_try; [apply isafe_owned_profile|intros _]. intros w0.
  apply wp_try. eapply wp_mono; [|apply wp_check_host]. intros [[]|e] w1 H1; [|done].
  apply wp_try. eapply wp_mono; [|apply wp_guar, wp_check_identity]; [|apply _]. intros [[]|e] w2 [H2 HG]; [|done].
  apply wp_try. eapply wp_inv_repo; [|intros s; by apply keeps_update_profile| |].
  { apply stable_and; intros d d' Hg H x Hx; [eapply host_of_later|eapply identity_of_later]; eauto. }
  { split; [|by apply H2]. intros ho Ho. eapply host_of_later; [apply HG|by apply H1]. }
  intros w w' _ _ _ _ _. destruct (map_err _ _) as [p|e]; [|done].
  assert (Ht : isafe (do? _ <- InventoryRoutes.write_lifecycle_audit u ServerProfileUpdated p;
                      Ret (Ok (RProfile 200 (profile_response p))))) by (apply isafe_try; [apply isafe_audit|done]).
  apply Ht.
Qed.

Lemma isafe_create_host h req : isafe (InventoryRoutes.create_host cfg h req).
Proof.
  unfold InventoryRoutes.create_host. stroll. apply isafe_repo. intros s. apply keeps_create_host.
  by eapply host_into_create_ok.
Qed.
Lemma isafe_update_host h id req : isafe (InventoryRoutes.update_host cfg h id req).
Proof.
  unfold InventoryRoutes.update_host. stroll. apply isafe_repo. intros s. apply keeps_update_host.
  by eapply host_into_update_ok.
Qed.
Lemma isafe_delete_host h id : isafe (InventoryRoutes.delete_host cfg h id).
Proof. unfold InventoryRoutes.delete_host. stroll. apply isafe_repo. intros s. apply keeps_delete_host. Qed.

Lemma isafe_create_identity h req : isafe (InventoryRoutes.create_identity cfg vault h req).
Proof. unfold InventoryRoutes.create_identity. stroll. Qed.
Lemma isafe_import_identity h req : isafe (InventoryRoutes.import_identity cfg vault h req).
Proof. unfold InventoryRoutes.import_identity. stroll. Qed.
Lemma isafe_update_identity h id name : isafe (InventoryRoutes.update_identity cfg h id name).
Proof.
  unfold InventoryRoutes.update_identity. stroll. apply isafe_repo. intros s. apply keeps_rename_identity.
  by match goal with H : validate_identity_name _ = Ok _ |- _ => apply validate_identity_name_exact in H as [-> ?] end.
Qed.
Lemma isafe_delete_identity h id : isafe (InventoryRoutes.delete_identity cfg h id).
Proof.
  unfold InventoryRoutes.delete_identity. stroll; try apply isafe_audit. apply isafe_repo. intros s.
  apply keeps_delete_identity.
Qed.
Lemma isafe_profile_dependents id u :
  isafe (InventoryRoutes.repo_sessions (fun s => PgServerProfileRepository.any_dependents_for_user s id u)).
Proof. apply isafe_repo_sessions. intros s. apply ikeeps_frames, iframes_read. Qed.
Lemma isafe_profile_delete id u :
  isafe (InventoryRoutes.repo_sessions (fun s => PgServerProfileRepository.delete s id u)).
Proof. apply isafe_repo_sessions. intros s. apply keeps_delete_profile. Qed.
Hint Resolve isafe_profile_dependents isafe_profile_delete : isafe.

Lemma isafe_delete_profile h id : isafe (InventoryRoutes.delete_profile cfg h id).
Proof.
  unfold InventoryRoutes.delete_profile. stroll; try apply isafe_audit.
Qed.
Lemma isafe_disable h id : isafe (InventoryRoutes.disable cfg h id).
Proof.
  unfold InventoryRoutes.disable. stroll; try apply isafe_audit. apply isafe_repo. intros s. apply keeps_set_disabled.
Qed.
Lemma isafe_enable h id : isafe (InventoryRoutes.enable cfg h id).
Proof.
  unfold InventoryRoutes.enable. stroll; try apply isafe_audit. apply isafe_repo. intros s. apply keeps_set_disabled.
Qed.

Lemma isafe_list_hosts h : isafe (InventoryRoutes.list_hosts h).
Proof. unfold InventoryRoutes.list_hosts. stroll. Qed.
Lemma isafe_get_host h id : isafe (InventoryRoutes.get_host h id).
Proof. unfold InventoryRoutes.get_host. stroll. Qed.
Lemma isafe_list_identities h : isafe (InventoryRoutes.list_identities h).
Proof. unfold InventoryRoutes.list_identities. stroll. Qed.
Lemma isafe_get_identity h id : isafe (InventoryRoutes.get_identity h id).
Proof. unfold InventoryRoutes.get_identity. stroll. Qed.
Lemma isafe_list_profiles h : isafe (InventoryRoutes.list_profiles h).
Proof. unfold InventoryRoutes.list_profiles. stroll. Qed.
Lemma isafe_get_profile h id : isafe (InventoryRoutes.get_profile h id).
Proof. unfold InventoryRoutes.get_profile. stroll. Qed.

Lemma isafe_serve h q : isafe (InventoryRoutes.serve cfg vault h q).
Proof.
  destruct q; cbn [InventoryRoutes.serve].
  - apply isafe_create_host.
  - apply isafe_list_hosts.
  - apply isafe_get_host.
  - apply isafe_update_host.
  - apply isafe_delete_host.
  - apply isafe_create_identity.
  - apply isafe_import_identity.
  - apply isafe_list_identities.
  - apply isafe_get_identity.
  - apply isafe_update_identity.
  - apply isafe_delete_identity.
  - apply isafe_create_profile.
  - apply isafe_list_profiles.
  - apply isafe_get_profile.
  - apply isafe_update_profile.
  - apply isafe_delete_profile.
  - apply isafe_disable.
  - apply isafe_enable.
Qed.
End routes.

(** What can happen between two actions: a request arrives at the inventory, at the host keys or at the
    authentication, time passes, or a launch writes the row of a session on a profile of its owner. *)
Inductive inventory_starts {Cr : AuthCrypto} {Lo : PgLower} {Co : PgCollation} {Ae : Aead} {Sk : SshKeys} {Db : RustDebug} {Rs : Russh}
  (svc : AuthService.t) (cfg : AuthRoutesConfig) (vault : option (list Byte.byte))
  : InvWorld -> InvWorld -> prog InvWorld unit -> Prop :=
| start_inventory_request w h q :
    inventory_starts svc cfg vault w w (do! _ <- InventoryRoutes.serve cfg vault h q; Ret tt)
| start_trust_request w h id q :
    inventory_starts svc cfg vault w w
      (InventoryRoutes.on_trust (do! _ <- TrustRoutes.serve (Pb := RusshHostKeyProbe) (Ck := RusshAuthChecker)
                                            cfg vault h id q; Ret tt))
| start_auth_request w h q :
    inventory_starts svc cfg vault w w
      (InventoryRoutes.on_trust (on_auth (do! _ <- Routes.serve svc cfg h q; Ret tt)))
| start_clock w t c :
    let a := tw_auth (iw_trust w) in
    inventory_starts svc cfg vault w
      (mkInv (set_tw_auth (set_auth_now t (set_auth_db (mkAuthDb (a_users (aw_db a)) (a_passwords (aw_db a))
         (a_sessions (aw_db a)) (a_audit (aw_db a)) c (a_next_uuid (aw_db a)) (a_faults (aw_db a))) a))
         (iw_trust w)) (iw_sessions w)) (Ret tt)
| start_launch w p :
    td_profiles (iw_db w) !! sp_id p = Some p ->
    inventory_starts svc cfg vault w
      (mkInv (iw_trust w) (iw_sessions w ++ [mkSessionRef (sp_owner_id p) (sp_id p)])) (Ret tt).

Lemma inventory_safe_starts {Cr : AuthCrypto} {Lo : PgLower} {Co : PgCollation} {Ae : Aead} {Sk : SshKeys} {Db : RustDebug} {Rs : Russh}
  svc cfg vault w w' p :
  inventory_starts svc cfg vault w w' p -> inv_ok w -> inv_ok w' /\ inv_step w w' /\ IWP p w' (fun _ _ => True).
Proof.
  intros [w1 h q|w1 h id q|w1 h q|w1 t c a|w1 pr Hp] Hw.
  - split; [done|]. split; [done|]. apply isafe_bind; [apply isafe_serve|done].
  - split; [done|]. split; [done|]. apply isafe_on_trust, all_acts_bind; [apply frame_trust_serve|done].
  - split; [done|]. split; [done|]. apply isafe_on_trust, all_on_auth, all_acts_bind; [apply frame_auth_serve|done].
  - destruct (frame_with_auth (mkAuthDb (a_users (aw_db a)) (a_passwords (aw_db a))
      (a_sessions (aw_db a)) (a_audit (aw_db a)) c (a_next_uuid (aw_db a)) (a_faults (aw_db a))) (iw_db w1))
      as [H1 H2]; [by split|by apply (ii_known_ids _ _ Hw)|].
    destruct (frame_keeps_inventory _ _ _ H2 H1 Hw) as [K1 K2]. split; [exact K1|]. split; [|done].
    split; [exact K2|done].
  - split; [|split; [|done]]; [|split; [done|by apply prefix_app_r]].
    destruct Hw. split; try done. cbn. apply Forall_app. split; [done|]. apply Forall_singleton.
    by exists pr.
Qed.

(** C18: in every state that any interleaving of inventory, host-key and authentication requests and of
    launches reaches, with requests dropped at any await and statements failing anywhere: every profile
    refers to a host and an identity that exist and belong to the profile's owner; profile names are
    unique per owner, and so are the fingerprints of identities; every name, host name, port, user name
    and tag list in the tables is one that its validator accepts; a session's profile exists and has the
    session's owner; a pin's host exists.  And since boot no row changed its owner, no identity its key,
    nothing that was deleted came back under its identifier, a pin was removed only together with its
    host, and the audit log only grew. *)
Theorem inventory_history {Cr : AuthCrypto} {Lo : PgLower} {Co : PgCollation} {Ae : Aead} {Sk : SshKeys} {Db : RustDebug} {Rs : Russh}
  svc cfg vault w0 c :
  inv_ok w0 -> reachable (inventory_starts svc cfg vault) w0 c ->
  inv_ok (p_world c) /\ inv_step w0 (p_world c).
Proof.
  intros Hw Hr. by destruct (pool_sound inv_ok inv_step _ w0 c (inventory_safe_starts svc cfg vault) Hw Hr)
    as (? & ? & _).
Qed.
