(* ===== verification/TrustSafety.v ===== *)
(** * Safety of the pinned host keys under every interleaving

    The invariant of the pinned host keys and of the signatures that were sent, the guarantee each
    request gives the others, and that every action of the four host-key routes keeps both. *)

From stdpp Require Import sorting.
From S2P Require Import Prelude Core PgSession Throttle Prog AuthStore Auth AuthRoutes AuthSafety Inventory.
From S2P Require Import Vault HostKey TrustRoutes.

(** ** Invariant and guarantee *)

(** The two audit rows of the replacement of [r] by the entry [n]. *)
Definition replacement_audited (r : KnownHostEntryRow) (n : Uuid) (log : list AuditEventRow) : Prop :=
  exists input a b,
    rp_host_id input = kr_host_id r /\ rp_expected_old_fingerprint input = kr_fingerprint_sha256 r
    /\ a ∈ log /\ b ∈ log
    /\ ar_kind a = "host_key_revoked"%string /\ ar_actor_id a = kr_revoked_by r
    /\ ar_payload a = replace_payload input (kr_id r) n
    /\ ar_kind b = "host_key_accepted"%string /\ ar_actor_id b = kr_revoked_by r
    /\ ar_payload b = replace_payload input n (kr_id r).

Record known_inv (d : TrustDb) : Prop := {
  ki_ids : map_Forall (fun id r => kr_id r = id) (td_known d);
  ki_unique : forall i j r s, td_known d !! i = Some r -> td_known d !! j = Some s ->
    kr_host_id r = kr_host_id s -> kr_fingerprint_sha256 r = kr_fingerprint_sha256 s -> i = j;
  ki_checks : map_Forall (fun _ r => known_check r = None) (td_known d);
  ki_replaced : map_Forall (fun _ r => forall n, kr_replaced_by_id r = Some n ->
      is_Some (kr_revoked_at r)
      /\ (exists r', td_known d !! n = Some r' /\ kr_host_id r' = kr_host_id r)
      /\ replacement_audited r n (a_audit (td_auth d))) (td_known d)
}.

(** What never changes of an entry, and that trust and revocation are stamped once. *)
Record entry_kept (r r' : KnownHostEntryRow) : Prop := {
  ek_id : kr_id r' = kr_id r;
  ek_host : kr_host_id r' = kr_host_id r;
  ek_key_type : kr_key_type r' = kr_key_type r;
  ek_fingerprint : kr_fingerprint_sha256 r' = kr_fingerprint_sha256 r;
  ek_public_key : kr_public_key r' = kr_public_key r;
  ek_first_seen : kr_first_seen_at r' = kr_first_seen_at r;
  ek_trusted : forall t, kr_trusted_at r = Some t -> kr_trusted_at r' = Some t;
  ek_revoked : forall t, kr_revoked_at r = Some t ->
    kr_revoked_at r' = Some t /\ kr_revoked_by r' = kr_revoked_by r
    /\ kr_revoked_reason_code r' = kr_revoked_reason_code r /\ kr_replaced_by_id r' = kr_replaced_by_id r
}.

#[export] Instance entry_kept_pre : PreOrder entry_kept.
Proof.
  split; [by split|]. intros r s t [] []. split; try congruence; [by auto|].
  intros x Hx. destruct (ek_revoked0 x Hx) as (H1 & H2 & H3 & H4).
  destruct (ek_revoked1 x H1) as (K1 & K2 & K3 & K4). split_and!; congruence.
Qed.

Section safety.
Context {Cr : AuthCrypto} {Lo : PgLower}.

Record trust_db_inv (d : TrustDb) : Prop := { ti_auth : db_inv (td_auth d); ti_known : known_inv d }.
Record trust_db_guar (d d' : TrustDb) : Prop := {
  tg_auth : db_guar (td_auth d) (td_auth d');
  tg_known : kept entry_kept (td_known d) (td_known d')
}.

#[export] Instance trust_db_guar_pre : PreOrder trust_db_guar.
Proof. split; [by split|]. intros d1 d2 d3 [] []. split; by etransitivity. Qed.

(** ** Tables that stay as they are *)

Record same_trust (d d' : TrustDb) : Prop := {
  st_auth : same_auth (td_auth d) (td_auth d');
  st_clock : a_clock (td_auth d') = a_clock (td_auth d);
  st_hosts : td_hosts d' = td_hosts d;
  st_identities : td_identities d' = td_identities d;
  st_profiles : td_profiles d' = td_profiles d;
  st_known : td_known d' = td_known d
}.

#[export] Instance same_trust_equiv : Equivalence same_trust.
Proof.
  split; [by split|intros d d' []; split; congruence||by symmetry|].
  intros d1 d2 d3 [] []. split; congruence || by etransitivity.
Qed.

Lemma known_inv_frame d d' :
  td_known d' = td_known d -> a_audit (td_auth d) `prefix_of` a_audit (td_auth d') ->
  known_inv d -> known_inv d'.
Proof.
  intros E [l Hl] []. split; rewrite ?E; try done.
  intros id r Hr n Hn. destruct (ki_replaced0 id r Hr n Hn) as (H1 & H2 & H3). split_and!; [done|done|].
  destruct H3 as (i & a & b & ? & ? & Ha & Hb & ?). exists i, a, b.
  rewrite Hl. split_and!; first [assumption|apply elem_of_app; left; assumption|tauto].
Qed.

Lemma same_trust_inv d d' : same_trust d d' -> trust_db_inv d -> trust_db_inv d'.
Proof.
  intros [Ha _ _ _ _ Hk] [H1 H2]. split; [by apply (same_auth_inv (td_auth d))|].
  apply (known_inv_frame d); [done| |done]. by rewrite (sa_audit _ _ Ha).
Qed.

Lemma same_trust_guar d d' : same_trust d d' -> trust_db_guar d d'.
Proof. intros [Ha _ _ _ _ Hk]. split; [by apply same_auth_guar|by rewrite Hk]. Qed.

Lemma trust_execute_cases {A} (f : TrustDb -> result RepositoryError A * TrustDb) d :
  exists d1, same_trust d d1 /\ a_next_uuid (td_auth d1) = a_next_uuid (td_auth d)
    /\ (a_faults (td_auth d) = [] -> d1 = d)
    /\ ((exists e, a_faults (td_auth d) <> [] /\ trust_execute f d = (Err e, d1)) \/ trust_execute f d = f d1).
Proof.
  unfold trust_execute, auth_next_fault. destruct (a_faults (td_auth d)) as [|[e|] rest] eqn:E.
  - exists d. split_and!; try done. right. by destruct d.
  - eexists. split; [|split; [|split; [|left; exists e; split; [done|reflexivity]]]]; [by split|done..].
  - eexists. split; [|split; [|split; [|right; reflexivity]]]; [by split|done..].
Qed.

(** ** The repositories keep both *)

Definition tkeeps {A} (f : TrustDb -> result RepositoryError A * TrustDb) : Prop :=
  forall d, trust_db_inv d -> trust_db_inv (f d).2 /\ trust_db_guar d (f d).2.

Lemma tkeeps_execute {A} (f : TrustDb -> result RepositoryError A * TrustDb) :
  tkeeps f -> tkeeps (trust_execute f).
Proof.
  intros Hf d Hd. destruct (trust_execute_cases f d) as (d1 & Hs & _ & _ & [(e & _ & ->)| ->]).
  - split; [by apply (same_trust_inv d)|by apply same_trust_guar].
  - destruct (Hf d1) as [H1 H2]; [by apply (same_trust_inv d)|]. split; [done|].
    transitivity d1; [by apply same_trust_guar|done].
Qed.

Lemma tkeeps_read {A} (f : TrustDb -> result RepositoryError A) : tkeeps (trust_execute (fun d => (f d, d))).
Proof. apply tkeeps_execute. intros d Hd. by split. Qed.

Lemma tkeeps_then {A B} (p : TrustDb -> result RepositoryError A * TrustDb)
    (k : A -> TrustDb -> result RepositoryError B * TrustDb) :
  tkeeps p -> (forall a, tkeeps (k a)) -> tkeeps (trust_then p k).
Proof.
  intros Hp Hk d Hd. unfold trust_then. destruct (Hp d Hd) as [H1 H2].
  destruct (p d) as [[a|e] d']; cbn [fst snd] in *; [|done].
  destruct (Hk a d' H1) as [K1 K2]. split; [done|by transitivity d'].
Qed.

Lemma tkeeps_pure {A} (f : TrustDb -> result RepositoryError A) : tkeeps (fun d => (f d, d)).
Proof. intros d Hd. by split. Qed.

Lemma same_trust_new_v4 d : same_trust d (trust_new_v4 d).2.
Proof. by split. Qed.

(** *** Inserting and updating entries *)

Lemma known_by_fingerprint_Some host fp d r :
  known_by_fingerprint host fp d = Some r ->
  kr_host_id r = host /\ kr_fingerprint_sha256 r = fp /\ exists id, td_known d !! id = Some r.
Proof. unfold known_by_fingerprint. by intros [[<- <-] [id Hid]]%head_filter_Some; eauto. Qed.

Lemma known_by_fingerprint_None host fp d id r :
  known_by_fingerprint host fp d = None -> td_known d !! id = Some r ->
  kr_host_id r = host -> kr_fingerprint_sha256 r <> fp.
Proof.
  unfold known_by_fingerprint. intros Hn Hr Hh Hf.
  assert (Hin : r ∈ filter (fun r => kr_host_id r = host /\ kr_fingerprint_sha256 r = fp) (map_to_list (td_known d)).*2).
  { apply list_elem_of_filter. split; [done|]. apply list_elem_of_fmap. exists (id, r).
    split; [done|by apply elem_of_map_to_list]. }
  destruct (filter _ _); [by apply not_elem_of_nil in Hin|done].
Qed.

(** A new entry that no check, key or index refuses. *)
Lemma known_inv_insert d id r :
  known_inv d -> td_known d !! id = None -> kr_id r = id -> known_check r = None ->
  known_by_fingerprint (kr_host_id r) (kr_fingerprint_sha256 r) d = None -> kr_replaced_by_id r = None ->
  known_inv (set_known <[id := r]> d).
Proof.
  intros [H1 H2 H3 H4] Hid Hr Hc Hf Hn. split; cbn [td_known set_known td_auth].
  - by apply map_Forall_insert_2.
  - intros i j s t [[<- <-]|[Hi Hs]]%lookup_insert_Some [[<- <-]|[Hj Ht]]%lookup_insert_Some Eh Ef; [done|..].
    + by destruct (known_by_fingerprint_None _ _ _ _ _ Hf Ht).
    + by destruct (known_by_fingerprint_None _ _ _ _ _ Hf Hs).
    + by eapply H2.
  - by apply map_Forall_insert_2.
  - intros i s [[<- <-]|[Hi Hs]]%lookup_insert_Some n Hsn; [by rewrite Hn in Hsn|].
    destruct (H4 i s Hs n Hsn) as (A & (r' & B & B') & C). split_and!; [done| |done].
    exists r'. split; [|done]. rewrite lookup_insert_ne; [done|]. by intros ->; simplify_eq.
Qed.

(** An entry that changes as [entry_kept] allows, without being replaced. *)
Lemma known_inv_update d id r r' :
  known_inv d -> td_known d !! id = Some r -> entry_kept r r' -> known_check r' = None ->
  kr_replaced_by_id r' = kr_replaced_by_id r -> kr_revoked_by r' = kr_revoked_by r ->
  known_inv (set_known <[id := r']> d).
Proof.
  intros [H1 H2 H3 H4] Hr Hk Hc Hrep Hby.
  assert (Hlift : forall i s, <[id := r']> (td_known d) !! i = Some s -> exists s0, td_known d !! i = Some s0
            /\ kr_host_id s = kr_host_id s0 /\ kr_fingerprint_sha256 s = kr_fingerprint_sha256 s0).
  { intros i s [[<- <-]|[Hi Hs]]%lookup_insert_Some; [exists r; split_and!; [done|apply Hk..]|by exists s]. }
  split; cbn [td_known set_known td_auth].
  - apply map_Forall_insert_2; [|done]. rewrite (ek_id _ _ Hk). by apply H1.
  - intros i j s t (s0 & Hs & E1 & E2)%Hlift (t0 & Ht & F1 & F2)%Hlift Eh Ef. apply (H2 i j s0 t0); congruence.
  - by apply map_Forall_insert_2.
  - assert (Hthere : forall n q h, td_known d !! n = Some q /\ kr_host_id q = h ->
              exists q', <[id := r']> (td_known d) !! n = Some q' /\ kr_host_id q' = h).
    { intros n q h [Hq <-]. destruct (decide (n = id)) as [->|Hne].
      - exists r'. rewrite lookup_insert_eq. simplify_eq. split; [done|apply Hk].
      - exists q. by rewrite lookup_insert_ne. }
    intros i s [[<- <-]|[Hi Hs]]%lookup_insert_Some n Hsn.
    + rewrite Hrep in Hsn. destruct (H4 _ r Hr n Hsn) as ([t Ht] & (q & Hq) & C). split_and!.
      * exists t. by apply (ek_revoked _ _ Hk).
      * rewrite (ek_host _ _ Hk). by eapply Hthere.
      * unfold replacement_audited. rewrite (ek_host _ _ Hk), (ek_fingerprint _ _ Hk), (ek_id _ _ Hk), Hby. exact C.
    + destruct (H4 i s Hs n Hsn) as (A & (q & Hq) & C). split_and!; [done|by eapply Hthere|done].
Qed.

Lemma tkeeps_insert (mk : TrustDb -> KnownHostEntryRow) :
  (forall d, kr_replaced_by_id (mk d) = None) -> tkeeps (fun d => insert_known (mk d) d).
Proof.
  intros Hn d [Ha Hk]. unfold insert_known. destruct (known_insert_error (mk d) d) as [e|] eqn:E; [split; [by split|done]|].
  unfold known_insert_error in E. destruct (known_check (mk d)) eqn:Ec; [done|].
  destruct (bool_decide (is_Some (td_known d !! kr_id (mk d)))) eqn:E1; [done|].
  destruct (bool_decide (is_Some (known_by_fingerprint _ _ d))) eqn:E2; [done|]. bool_props.
  apply eq_None_not_Some in E1, E2. cbn [fst snd]. split.
  - split; [done|]. by apply known_inv_insert.
  - split; [done|]. apply kept_insert; [apply _|]. intros x. by rewrite E1.
Qed.

Lemma coalesce_kept now r : entry_kept r (coalesce_trusted now r).
Proof. split; try done. by intros t; cbn; intros ->. Qed.

Lemma tkeeps_upsert id input : tkeeps (PgKnownHostEntryRepository.upsert_trusted id input).
Proof.
  unfold PgKnownHostEntryRepository.upsert_trusted. apply tkeeps_execute. intros d Hd.
  destruct (known_by_fingerprint _ _ d) as [r|] eqn:E.
  - apply known_by_fingerprint_Some in E as (_ & _ & i & Hi). case_bool_decide; [done|]. cbn [fst snd].
    destruct Hd as [Ha Hk]. pose proof (ki_ids _ Hk i r Hi) as <-.
    pose proof (coalesce_kept (td_now d) r) as Hc. pose proof (ki_checks _ Hk _ _ Hi) as Hchk. split.
    + split; [done|]. by apply (known_inv_update d _ r).
    + split; [done|]. apply kept_insert; [apply _|]. intros x Hx. by simplify_eq.
  - match goal with |- context [insert_known ?row d] =>
      pose proof (tkeeps_insert (fun _ => row) ltac:(done) d Hd) as H end.
    cbn beta in H. by destruct (insert_known _ d) as [[] ?].
Qed.

Lemma tkeeps_new_v4 {A} (f : Uuid -> TrustDb -> result RepositoryError A * TrustDb) :
  (forall id, tkeeps (f id)) -> tkeeps (fun d => let '(id, d) := trust_new_v4 d in f id d).
Proof.
  intros Hf d Hd. pose proof (same_trust_new_v4 d) as Hs. destruct (trust_new_v4 d) as [id d1]. cbn [snd] in Hs.
  destruct (Hf id d1) as [H1 H2]; [by apply (same_trust_inv d)|]. split; [done|].
  transitivity d1; [by apply same_trust_guar|done].
Qed.

Lemma tkeeps_record_trusted input : tkeeps (PgKnownHostEntryRepository.record_trusted input).
Proof.
  unfold PgKnownHostEntryRepository.record_trusted. apply tkeeps_new_v4. intros id.
  apply tkeeps_then; [apply tkeeps_upsert|]. intros o. apply tkeeps_pure.
Qed.

(** *** The replacement transaction *)

Lemma execute_ok {A} (f : TrustDb -> result RepositoryError A * TrustDb) d a d' :
  trust_execute f d = (Ok a, d') -> exists d1, same_trust d d1 /\ f d1 = (Ok a, d').
Proof. destruct (trust_execute_cases f d) as (d1 & Hs & _ & _ & [(e & _ & ->)| ->]); [done|by exists d1]. Qed.

Lemma then_ok {A B} (p : TrustDb -> result RepositoryError A * TrustDb)
    (k : A -> TrustDb -> result RepositoryError B * TrustDb) d b d' :
  trust_then p k d = (Ok b, d') -> exists a d1, p d = (Ok a, d1) /\ k a d1 = (Ok b, d').
Proof. unfold trust_then. destruct (p d) as [[a|e] d1]; [eauto|done]. Qed.

Definition pin_row (input : ReplaceActivePin) (new_id : Uuid) (now : Z) : KnownHostEntryRow :=
  new_known_row new_id (rp_host_id input) (rp_new_key_type input) (rp_new_fingerprint_sha256 input)
    (rp_new_public_key input) (Some now) now.

Definition unpinned_row (input : ReplaceActivePin) (new_id : Uuid) (now : Z) (old : KnownHostEntryRow)
  : KnownHostEntryRow :=
  revoke_known now (rp_revoked_by input) (reason_as_str (rp_reason_code input)) new_id old.

(** [d'] is [d] with other pins and another audit log. *)
Record shaped (d : TrustDb) (k : gmap KnownHostEntryId KnownHostEntryRow) (l : list AuditEventRow) (d' : TrustDb)
  : Prop := {
  sh_known : td_known d' = k;
  sh_audit : a_audit (td_auth d') = l;
  sh_users : a_users (td_auth d') = a_users (td_auth d);
  sh_passwords : a_passwords (td_auth d') = a_passwords (td_auth d);
  sh_sessions : a_sessions (td_auth d') = a_sessions (td_auth d);
  sh_clock : a_clock (td_auth d') = a_clock (td_auth d);
  sh_hosts : td_hosts d' = td_hosts d;
  sh_identities : td_identities d' = td_identities d;
  sh_profiles : td_profiles d' = td_profiles d
}.

Lemma shaped_same d d' : same_trust d d' <-> shaped d (td_known d) (a_audit (td_auth d)) d'.
Proof. split; [by intros [[]]; split|]. intros []. by split. Qed.

Lemma shaped_then d k l d' d'' : shaped d k l d' -> same_trust d' d'' -> shaped d k l d''.
Proof. intros [] [[]]. split; congruence. Qed.

Lemma shaped_after d0 d k l d' : same_trust d0 d -> shaped d k l d' -> shaped d0 k l d'.
Proof. intros [[]] []. split; congruence. Qed.

Lemma shaped_insert d k l d' id r : shaped d k l d' -> shaped d (<[id := r]> k) l (set_known <[id := r]> d').
Proof. intros []. split; try done. cbn. congruence. Qed.

Lemma shaped_push d k l d' row :
  shaped d k l d' -> shaped d k (l ++ [row]) (with_auth (push_audit row (td_auth d')) d').
Proof. intros []. split; try done. cbn. congruence. Qed.

(** The active pin [old] was replaced by the entry [new_id], and both audit rows were written. *)
Record pin_replaced (input : ReplaceActivePin) (old : KnownHostEntryRow) (new_id : Uuid) (d d' : TrustDb) : Prop := {
  rpl_old : td_known d !! kr_id old = Some old;
  rpl_host : kr_host_id old = rp_host_id input;
  rpl_fingerprint : kr_fingerprint_sha256 old = rp_expected_old_fingerprint input;
  rpl_active : row_active old = true;
  rpl_fresh_fingerprint : known_by_fingerprint (rp_host_id input) (rp_new_fingerprint_sha256 input) d = None;
  rpl_fresh_id : td_known d !! new_id = None;
  rpl_actor : is_Some (a_users (td_auth d) !! rp_revoked_by input);
  rpl_tables : exists i j, shaped d
    (<[kr_id old := unpinned_row input new_id (td_now d) old]>
       (<[new_id := pin_row input new_id (td_now d)]> (td_known d)))
    (a_audit (td_auth d) ++
       [mkAuditRow i (Some (rp_revoked_by input)) "host_key_revoked"
          (replace_payload input (kr_id old) new_id) None (td_now d);
        mkAuditRow j (Some (rp_revoked_by input)) "host_key_accepted"
          (replace_payload input new_id (kr_id old)) None (td_now d)]) d'
}.

Lemma pin_replaced_frame input old new_id d0 d d' d1 :
  same_trust d0 d -> same_trust d' d1 -> pin_replaced input old new_id d d' -> pin_replaced input old new_id d0 d1.
Proof.
  intros H0 H1 [A1 A2 A3 A4 A5 A6 A7 (i & j & A8)].
  pose proof (shaped_after _ _ _ _ _ H0 (shaped_then _ _ _ _ _ A8 H1)) as A9. clear A8.
  destruct H0 as [[Hu _ _ Ha] Hc _ _ _ Hk].
  unfold td_now, known_by_fingerprint in *. rewrite Hc, Hu, Ha, Hk in *. split; try done. by exists i, j.
Qed.

Lemma select_active_ok input d old d1 :
  PgKnownHostEntryRepository.select_active input d = (Ok old, d1) ->
  same_trust d d1 /\ kr_host_id old = rp_host_id input
  /\ kr_fingerprint_sha256 old = rp_expected_old_fingerprint input /\ row_active old = true
  /\ exists id, td_known d !! id = Some old.
Proof.
  intros (o & d2 & H1 & [= Ho ->])%then_ok. apply execute_ok in H1 as (d3 & Hs & [= Hh ->]).
  apply ok_or_ok in Ho as ->. apply head_filter_Some in Hh as [(? & ? & ?) [id Hid]].
  rewrite (st_known _ _ Hs) in Hid. split_and!; [done..|by exists id].
Qed.

Lemma refuse_existing_ok input d d1 :
  PgKnownHostEntryRepository.refuse_existing input d = (Ok tt, d1) ->
  same_trust d d1 /\ known_by_fingerprint (rp_host_id input) (rp_new_fingerprint_sha256 input) d = None.
Proof.
  intros (o & d2 & H1 & Ho)%then_ok. apply execute_ok in H1 as (d3 & Hs & [= Hh ->]).
  destruct o; [done|]. simplify_eq. split; [done|]. unfold known_by_fingerprint in *.
  by rewrite <- (st_known _ _ Hs).
Qed.

Lemma insert_known_ok r d r' d1 :
  insert_known r d = (Ok r', d1) ->
  r' = r /\ d1 = set_known <[kr_id r := r]> d /\ td_known d !! kr_id r = None /\ known_check r = None.
Proof.
  unfold insert_known, known_insert_error. intros H. destruct (known_check r) eqn:Ec; [done|].
  destruct (bool_decide (is_Some (td_known d !! kr_id r))) eqn:E1; [done|].
  destruct (bool_decide (is_Some (known_by_fingerprint _ _ d))); [done|].
  destruct (negb _); [done|]. simplify_eq. bool_props. by apply eq_None_not_Some in E1.
Qed.

Lemma insert_audit_ok id actor kind payload d0 k l d d1 :
  shaped d0 k l d -> insert_audit id actor kind payload d = (Ok tt, d1) ->
  is_Some (a_users (td_auth d0) !! actor)
  /\ shaped d0 k (l ++ [mkAuditRow id (Some actor) (audit_as_str kind) payload None (td_now d0)]) d1.
Proof.
  intros Hsh (d2 & Hs & H)%execute_ok. pose proof (shaped_then _ _ _ _ _ Hsh Hs) as P. cbn beta zeta in H.
  destruct (negb (audit_kind_chk _)); [done|]. destruct (bool_decide (id ∈ _)); [done|].
  destruct (bool_decide (is_Some (a_users _ !! actor))) eqn:E; [|done]. cbn [negb] in H. bool_props.
  rewrite (sh_users _ _ _ _ P) in E. split; [done|]. simplify_eq.
  rewrite (sh_clock _ _ _ _ P). by apply shaped_push.
Qed.

Lemma update_old_ok old_id new_id input d0 k l d r d1 :
  shaped d0 k l d -> PgKnownHostEntryRepository.update_old old_id new_id input d = (Ok r, d1) ->
  exists old, k !! old_id = Some old /\ r = unpinned_row input new_id (td_now d0) old
    /\ shaped d0 (<[old_id := r]> k) l d1.
Proof.
  intros Hsh (d2 & Hs & H)%execute_ok. pose proof (shaped_then _ _ _ _ _ Hsh Hs) as P.
  rewrite (sh_known _ _ _ _ P) in H. destruct (k !! old_id) as [old|]; [|done]. cbn zeta in H.
  destruct (known_check _); [done|]. destruct (negb _); [done|]. simplify_eq.
  exists old. split_and!; [done| |by apply shaped_insert].
  unfold unpinned_row, td_now. by rewrite (sh_clock _ _ _ _ P).
Qed.

Lemma fresh_id_ok d id d1 : fresh_id d = (Ok id, d1) -> same_trust d d1.
Proof. unfold fresh_id. pose proof (same_trust_new_v4 d) as Hs. destruct (trust_new_v4 d). by intros [= -> ->]. Qed.

(** If the body of the transaction answers, it replaced the pin. *)
Lemma replace_body_ok input d old' new d' :
  known_inv d -> PgKnownHostEntryRepository.replace_body input d = (Ok (old', new), d') ->
  exists old new_id, pin_replaced input old new_id d d'
    /\ old' = unpinned_row input new_id (td_now d) old /\ new = pin_row input new_id (td_now d).
Proof.
  intros Hinv H. unfold PgKnownHostEntryRepository.replace_body in H.
  apply then_ok in H as (old & d1 & (S1 & Eh & Ef & Ea & i0 & Hi0)%select_active_ok & H).
  pose proof (ki_ids _ Hinv _ _ Hi0) as <-.
  apply then_ok in H as ([] & d2 & (S2 & Hfree)%refuse_existing_ok & H).
  apply then_ok in H as (new_id & d3 & S3%fresh_id_ok & H).
  apply then_ok in H as (new0 & d4 & (d3' & S4 & (-> & -> & Hnew & _)%insert_known_ok)%execute_ok & H).
  assert (S : same_trust d d3') by (do 3 (etransitivity; [eassumption|]); done).
  change (new_known_row _ _ _ _ _ _ _) with (pin_row input new_id (td_now d3')) in *.
  assert (Hn : td_now d3' = td_now d) by apply S. cbn [kr_id pin_row new_known_row] in *. rewrite Hn in *.
  rewrite (st_known _ _ S) in Hnew. assert (Hne : new_id <> kr_id old) by (intros ->; congruence).
  pose proof (shaped_insert _ _ _ _ new_id (pin_row input new_id (td_now d)) (proj1 (shaped_same _ _) S)) as P.
  apply then_ok in H as (old1 & d5 & (old0 & Hold & -> & P5)%(update_old_ok _ _ _ _ _ _ _ _ _ P) & H).
  rewrite lookup_insert_ne in Hold by done. rewrite Hi0 in Hold. injection Hold as <-.
  apply then_ok in H as (a1 & d6 & S6%fresh_id_ok & H).
  apply then_ok in H as ([] & d7 & (Hu & P7)%(insert_audit_ok _ _ _ _ _ _ _ _ _ (shaped_then _ _ _ _ _ P5 S6)) & H).
  apply then_ok in H as (a2 & d8 & S8%fresh_id_ok & H).
  apply then_ok in H as ([] & d9 & (_ & P9)%(insert_audit_ok _ _ _ _ _ _ _ _ _ (shaped_then _ _ _ _ _ P7 S8)) & [= <- <- <-]).
  exists old, new_id. split_and!; [|done|done]. split; try done.
  - unfold known_by_fingerprint in *. by rewrite <- (st_known _ _ S1).
  - exists a1, a2. by rewrite <- app_assoc in P9.
Qed.

(** All or nothing: whichever statement of the transaction fails. *)
Lemma trust_transaction_cases {A} (body : TrustDb -> result RepositoryError A * TrustDb) d :
  match trust_transaction body d with
  | (Ok a, d') => exists d1 d2, same_trust d d1 /\ body d1 = (Ok a, d2) /\ same_trust d2 d'
  | (Err _, d') => same_trust d d'
  end.
Proof.
  unfold trust_transaction.
  destruct (trust_execute_cases (fun d => (Ok tt : result RepositoryError unit, d)) d) as (d1 & S1 & _ & _ & [(e & _ & ->)| ->]); [done|].
  destruct (body d1) as [[a|e] d2] eqn:Eb; [|transitivity d1; [done|by split]].
  destruct (trust_execute_cases (fun d => (Ok tt : result RepositoryError unit, d)) d2) as (d3 & S3 & _ & _ & [(e & _ & ->)| ->]).
  - transitivity d1; [done|by split].
  - by exists d1, d2.
Qed.

Lemma key_type_roundtrip t : key_type_from_str_tag (key_type_as_str t) = Some t.
Proof. by destruct t. Qed.
Lemma reason_roundtrip r : reason_from_str_tag (reason_as_str r) = Some r.
Proof. by destruct r. Qed.

(** A stored entry can be read. *)
Lemma known_check_reads r : known_check r = None -> exists e, known_try_into_domain r = Ok e.
Proof.
  unfold known_check, known_try_into_domain, known_key_type_chk, known_reason_chk. intros H.
  destruct (bool_decide (kr_key_type r ∈ _)) eqn:E1; [|done]. cbn [negb] in H. bool_props.
  assert (exists t, key_type_from_str_tag (kr_key_type r) = Some t) as [t ->].
  { unfold key_type_from_str_tag. repeat case_decide; eauto. set_solver. }
  cbn [ok_or result_bind]. destruct (kr_revoked_reason_code r) as [c|]; [|cbn; eauto].
  destruct (bool_decide (c ∈ _)) eqn:E2; [|done]. bool_props.
  assert (exists q, reason_from_str_tag c = Some q) as [q ->].
  { unfold reason_from_str_tag. repeat case_decide; eauto. set_solver. }
  cbn. eauto.
Qed.

Lemma unpinned_check input n now old : known_check old = None -> known_check (unpinned_row input n now old) = None.
Proof.
  unfold known_check. change (known_key_type_chk (unpinned_row input n now old)) with (known_key_type_chk old).
  destruct (known_key_type_chk old); [|done]. intros _. cbn [negb].
  assert (known_reason_chk (unpinned_row input n now old) = true) as -> by (by destruct input as [??????[]]).
  done.
Qed.

Lemma pin_row_check input n now : known_check (pin_row input n now) = None.
Proof. by destruct input as [??[] ????]. Qed.

Lemma pin_row_reads input n now : exists e, known_try_into_domain (pin_row input n now) = Ok e
  /\ kh_id e = n /\ kh_key_type e = rp_new_key_type input
  /\ kh_fingerprint_sha256 e = rp_new_fingerprint_sha256 input /\ kh_trusted_at e = Some now.
Proof.
  unfold known_try_into_domain, pin_row. cbn [new_known_row kr_key_type kr_revoked_reason_code].
  rewrite key_type_roundtrip. cbn. eexists. split; [reflexivity|done].
Qed.

Lemma unpinned_kept input n now old : kr_revoked_at old = None -> entry_kept old (unpinned_row input n now old).
Proof. intros Hr. split; try done. intros t Ht. congruence. Qed.

Lemma row_active_revoked r : row_active r = true -> kr_revoked_at r = None /\ is_Some (kr_trusted_at r).
Proof. unfold row_active. intros H. by bool_props. Qed.

Lemma replaced_known_inv input old new_id d d' :
  pin_replaced input old new_id d d' -> known_inv d -> known_inv d'.
Proof.
  intros [A1 A2 A3 A4 A5 A6 A7 (i & j & A8)] Hd. pose proof (row_active_revoked _ A4) as [Hrev _].
  set (new := pin_row input new_id (td_now d)) in *. set (old' := unpinned_row input new_id (td_now d) old) in *.
  assert (Hd1 : known_inv (set_known <[new_id := new]> d)) by (apply known_inv_insert; [done..|apply pin_row_check|done|done]).
  assert (Hne : new_id <> kr_id old) by (intros ->; congruence).
  destruct Hd1 as [H1 H2 H3 H4]. cbn [td_known set_known td_auth] in *.
  assert (Hlift : forall k s, <[kr_id old := old']> (<[new_id := new]> (td_known d)) !! k = Some s ->
    exists s0, <[new_id := new]> (td_known d) !! k = Some s0
      /\ kr_host_id s = kr_host_id s0 /\ kr_fingerprint_sha256 s = kr_fingerprint_sha256 s0).
  { intros k s [[<- <-]|[Hk Hs]]%lookup_insert_Some; [|by exists s].
    exists old. by rewrite lookup_insert_ne. }
  assert (Hback : forall n q, <[new_id := new]> (td_known d) !! n = Some q ->
    exists q', <[kr_id old := old']> (<[new_id := new]> (td_known d)) !! n = Some q' /\ kr_host_id q' = kr_host_id q).
  { intros n q Hq. destruct (decide (n = kr_id old)) as [->|Hn].
    - exists old'. rewrite lookup_insert_eq. rewrite lookup_insert_ne in Hq by done. by simplify_eq.
    - exists q. by rewrite lookup_insert_ne. }
  split; rewrite ?(sh_known _ _ _ _ A8).
  - apply map_Forall_insert_2; done.
  - intros k k' s t (s0 & Hs & E1 & E2)%Hlift (t0 & Ht & F1 & F2)%Hlift Eh Ef. apply (H2 k k' s0 t0); congruence.
  - apply map_Forall_insert_2; [|done]. apply unpinned_check. by apply (ki_checks _ Hd (kr_id old)).
  - rewrite (sh_audit _ _ _ _ A8). intros k s [[<- <-]|[Hk Hs]]%lookup_insert_Some n Hsn.
    + injection Hsn as <-. split_and!; [done| |].
      * destruct (Hback new_id new) as (q & Hq & Hh); [by rewrite lookup_insert_eq|]. exists q.
        split; [done|]. by rewrite Hh.
      * eexists input, _, _. split_and!; [done|done|apply elem_of_app; right; left|apply elem_of_app; right; right; left|done..].
    + destruct (H4 k s Hs n Hsn) as (B1 & (q & Hq & Hh) & (inp & a & b & C1 & C2 & C3 & C4 & C5)). split_and!; [done| |].
      * destruct (Hback n q Hq) as (q' & ? & Hh'). exists q'. split; [done|congruence].
      * exists inp, a, b. split_and!; first [assumption|apply elem_of_app; left; assumption|tauto].
Qed.

Lemma replaced_keeps input old new_id d d' :
  pin_replaced input old new_id d d' -> trust_db_inv d -> trust_db_inv d' /\ trust_db_guar d d'.
Proof.
  intros Hp [[B1 B2 B3 B4 B5 B6] Hk]. pose proof (replaced_known_inv _ _ _ _ _ Hp Hk) as Hk'.
  destruct Hp as [A1 A2 A3 A4 A5 A6 A7 (i & j & A8)]. pose proof (row_active_revoked _ A4) as [Hrev _].
  split; (split; [|try done]).
  - destruct A8. split; rewrite ?sh_users0, ?sh_passwords0, ?sh_sessions0, ?sh_audit0; try done.
    apply Forall_app. split; [done|]. repeat constructor; cbn; try done; by intros u [= <-].
  - destruct A8. split; rewrite ?sh_users0, ?sh_passwords0, ?sh_sessions0, ?sh_audit0; try done.
    by apply prefix_app_r.
  - rewrite (sh_known _ _ _ _ A8). assert (Hne : new_id <> kr_id old) by (intros ->; congruence).
    transitivity (<[new_id := pin_row input new_id (td_now d)]> (td_known d)).
    + apply kept_insert; [apply _|]. intros x. by rewrite A6.
    + apply kept_insert; [apply _|]. intros x. rewrite lookup_insert_ne by done. rewrite A1. intros [= <-].
      by apply unpinned_kept.
Qed.

Lemma replace_active_pin_cases input d :
  trust_db_inv d ->
  match PgKnownHostEntryRepository.replace_active_pin input d with
  | (Ok rk, d') => exists old new_id, pin_replaced input old new_id d d'
      /\ known_try_into_domain (unpinned_row input new_id (td_now d) old) = Ok (rk_revoked_old rk)
      /\ known_try_into_domain (pin_row input new_id (td_now d)) = Ok (rk_trusted_new rk)
  | (Err _, d') => same_trust d d'
  end.
Proof.
  intros [Ha Hk]. unfold PgKnownHostEntryRepository.replace_active_pin, trust_then.
  pose proof (trust_transaction_cases (PgKnownHostEntryRepository.replace_body input) d) as Hc.
  destruct (trust_transaction _ d) as [[[o n]|e] d']; [|done].
  destruct Hc as (d1 & d2 & S1 & Hb & S2). destruct (same_trust_inv _ _ S1 ltac:(by split)) as [_ Hk1].
  apply replace_body_ok in Hb as (old & new_id & Hp & -> & ->); [|done].
  apply (pin_replaced_frame _ _ _ d _ _ d') in Hp; [|done|done].
  assert (Hn : td_now d1 = td_now d) by apply S1. rewrite Hn. cbn [fst snd].
  destruct (known_check_reads (unpinned_row input new_id (td_now d) old)) as [e1 E1].
  { apply unpinned_check. apply (ki_checks _ Hk (kr_id old)), Hp. }
  destruct (known_check_reads (pin_row input new_id (td_now d)) (pin_row_check _ _ _)) as [e2 E2].
  rewrite E1, E2. cbn [result_bind]. by exists old, new_id.
Qed.

Lemma tkeeps_replace input : tkeeps (PgKnownHostEntryRepository.replace_active_pin input).
Proof.
  intros d Hd. pose proof (replace_active_pin_cases input d Hd) as H.
  destruct (PgKnownHostEntryRepository.replace_active_pin input d) as [[rk|e] d']; cbn [snd].
  - destruct H as (old & n & Hp & _). by apply (replaced_keeps input old n).
  - split; [by apply (same_trust_inv d)|by apply same_trust_guar].
Qed.

End safety.

(** ** Requests are safe under interference *)

Section interleaving.
Context {Cr : AuthCrypto} {Lo : PgLower}.

(** The server a signature went to had presented a key that is pinned for the host and was
    confirmed. *)
Definition signed_to_pin (w : TrustWorld) (s : Signature) : Prop :=
  exists id r k c, tw_known w !! id = Some r /\ kr_host_id r = sg_host_id s /\ is_Some (kr_trusted_at r)
    /\ sg_server s = Some k /\ capture k = Some c
    /\ kr_key_type r = key_type_as_str (cp_key_type c) /\ kr_fingerprint_sha256 r = cp_fingerprint_sha256 c.

Record trust_inv (w : TrustWorld) : Prop := {
  twi_db : trust_db_inv (tw_db w);
  twi_signed : Forall (signed_to_pin w) (tw_signed w)
}.

Record trust_guar (w w' : TrustWorld) : Prop := {
  twg_db : trust_db_guar (tw_db w) (tw_db w');
  twg_signed : tw_signed w `prefix_of` tw_signed w'
}.

#[export] Instance trust_guar_pre : PreOrder trust_guar.
Proof. split; [by split|]. intros w1 w2 w3 [] []. split; by etransitivity. Qed.

Abbreviation TWP := (wp trust_inv trust_guar).

Definition tsafe {A} (p : prog TrustWorld A) : Prop := forall w0, TWP p w0 (fun _ _ => True).

(** Pins that were read from the table, trusted; they stay there. *)
Definition pins_ok (host : HostId) (pins : list (SshKeyType * rstr)) (w : TrustWorld) : Prop :=
  Forall (fun p => exists id r, tw_known w !! id = Some r /\ kr_host_id r = host /\ is_Some (kr_trusted_at r)
                    /\ kr_key_type r = key_type_as_str p.1 /\ kr_fingerprint_sha256 r = p.2) pins.

Lemma pins_ok_later host pins w w' : trust_guar w w' -> pins_ok host pins w -> pins_ok host pins w'.
Proof.
  intros [[_ Hk] _] Hp. eapply Forall_impl; [exact Hp|]. intros [t fp] (id & r & Hr & H1 & [x Hx] & H3 & H4).
  destruct (Hk id r Hr) as (r' & Hr' & []). exists id, r'. split_and!; [done|congruence| |congruence..].
  exists x. auto.
Qed.

Lemma signed_later w w' s : kept entry_kept (tw_known w) (tw_known w') -> signed_to_pin w s -> signed_to_pin w' s.
Proof.
  intros Hk (id & r & k & c & Hr & H1 & [x Hx] & H3 & H4 & H5 & H6).
  destruct (Hk id r Hr) as (r' & Hr' & []). exists id, r', k, c. split_and!; try done; try congruence.
  exists x. auto.
Qed.

Lemma tsafe_ret {A} (a : A) : tsafe (Ret a).
Proof. done. Qed.

Lemma tsafe_bind {A B} (p : prog TrustWorld A) (k : A -> prog TrustWorld B) :
  tsafe p -> (forall a, tsafe (k a)) -> tsafe (bind p k).
Proof. intros Hp Hk w0. apply wp_bind. eapply wp_mono; [|apply Hp]. intros a w _. apply Hk. Qed.

Lemma tsafe_try {E A B} (p : prog TrustWorld (result E A)) (k : A -> prog TrustWorld (result E B)) :
  tsafe p -> (forall a, tsafe (k a)) -> tsafe (try_bind p k).
Proof. intros Hp Hk. apply tsafe_bind; [done|]. intros [a|e]; [apply Hk|done]. Qed.

(** An action on the tables. *)
Lemma step_db (f : TrustDb -> TrustDb) w :
  trust_inv w -> trust_db_inv (f (tw_db w)) -> trust_db_guar (tw_db w) (f (tw_db w)) ->
  trust_inv (set_tw_db (f (tw_db w)) w) /\ trust_guar w (set_tw_db (f (tw_db w)) w).
Proof.
  intros [_ Hs] H1 H2. assert (Hdb : forall d, tw_db (set_tw_db d w) = d) by (by intros []).
  split; (split; [by rewrite Hdb|try done]).
  eapply Forall_impl; [exact Hs|]. intros s. apply signed_later. destruct H2 as [_ H2]. exact H2.
Qed.

Lemma wp_trepo {A} (f : TrustDb -> result RepositoryError A * TrustDb) w0 (Q : result RepositoryError A -> TrustWorld -> Prop) :
  tkeeps f ->
  (forall w, trust_inv w -> trust_guar w0 w -> Q (f (tw_db w)).1 (set_tw_db (f (tw_db w)).2 w)) ->
  TWP (trepo f) w0 Q.
Proof.
  intros Hf HQ. apply wp_act. intros w Hw HG. destruct (Hf (tw_db w) (twi_db _ Hw)) as [H1 H2].
  specialize (HQ w Hw HG).
  destruct (step_db (fun d => (f d).2) w Hw H1 H2) as [K1 K2]. cbn beta in *.
  destruct (f (tw_db w)) as [r d]. by split_and!.
Qed.

Lemma tsafe_trepo {A} (f : TrustDb -> result RepositoryError A * TrustDb) : tkeeps f -> tsafe (trepo f).
Proof. intros Hf w0. by apply wp_trepo. Qed.

Lemma tsafe_repo {A} (f : TrustDb -> result RepositoryError A * TrustDb) : tkeeps f -> tsafe (TrustRoutes.repo f).
Proof. intros Hf. apply tsafe_bind; [by apply tsafe_trepo|done]. Qed.

(** An action that touches neither the tables nor the signatures. *)
Lemma tsafe_act {A} (f : TrustWorld -> A * TrustWorld) :
  (forall w, tw_db (f w).2 = tw_db w /\ tw_signed (f w).2 = tw_signed w) -> tsafe (act f).
Proof.
  intros Hf w0 w [Hd Hs] _. destruct (Hf w) as [E1 E2]. split_and!; [|split; by rewrite ?E1, ?E2|done].
  split; [by rewrite E1|]. rewrite E2. eapply Forall_impl; [exact Hs|]. intros s. apply signed_later.
  change (tw_known w) with (td_known (tw_db w)). change (tw_known (f w).2) with (td_known (tw_db (f w).2)).
  by rewrite E1.
Qed.

(** The authentication programs, on their part of the state. *)
Lemma wp_on_auth {A} (p : prog AuthWorld A) w0 Q :
  wp auth_inv auth_guar p (tw_auth w0) Q -> TWP (on_auth p) w0 (fun a w => Q a (tw_auth w)).
Proof.
  revert w0. induction p as [a|X f k IH]; intros w0; [done|]. cbn [on_auth wp]. intros H w Hw HG.
  destruct (H (tw_auth w)) as (H1 & H2 & H3); [apply Hw|apply HG|].
  destruct (f (tw_auth w)) as [x a]. cbn [fst snd] in *. destruct Hw as [[Hd Hk] Hs].
  split_and!; [| |by apply (IH x)].
  - split; [split; [exact H1|]|].
    + apply (known_inv_frame (tw_db w)); [done|apply H2|done].
    + eapply Forall_impl; [exact Hs|]. intros s. by apply signed_later.
  - split; [split; [exact H2|done]|done].
Qed.

Lemma tsafe_on_auth {A} (p : prog AuthWorld A) : safe p -> tsafe (on_auth p).
Proof. intros Hp w0. eapply wp_mono; [|apply wp_on_auth, Hp]. done. Qed.

Lemma wp_cut {A} n (p : prog TrustWorld A) w0 : TWP p w0 (fun _ _ => True) -> TWP (cut n p) w0 (fun _ _ => True).
Proof.
  revert n w0. induction p as [a|X f k IH]; intros n w0; [done|]. destruct n as [|n]; [done|].
  cbn. intros H w Hw HG. destruct (H w Hw HG) as (? & ? & ?). by split_and!; [..|apply IH].
Qed.

(** *** What the routes ask of the network *)

Class SshHostKeyProbeLaws {Pb : SshHostKeyProbe} :=
  probe_safe hostname port : tsafe (capture_host_key hostname port).
Class SshAuthCheckerLaws {Ck : SshAuthChecker} :=
  checker_safe target w0 : pins_ok (at_host_id target) (at_accept_pins target) w0 ->
    TWP (run_auth_check target) w0 (fun _ _ => True).

Lemma pinned_In pins c : pinned pins c = true <-> (cp_key_type c, cp_fingerprint_sha256 c) ∈ pins.
Proof.
  unfold pinned. rewrite existsb_exists. split.
  - intros ([t fp] & Hin & H). bool_props. cbn in *. subst. by apply list_elem_of_In.
  - intros Hin%list_elem_of_In. eexists. split; [exact Hin|]. cbn. by rewrite !bool_decide_eq_true_2.
Qed.

Lemma check_server_key_pinned pins key :
  hd_pin_match (check_server_key pins key) = true ->
  exists k c, key = Some k /\ capture k = Some c /\ hd_captured (check_server_key pins key) = Some c
    /\ (cp_key_type c, cp_fingerprint_sha256 c) ∈ pins.
Proof.
  unfold check_server_key. destruct key as [k|]; [|done]. destruct (capture k) as [c|] eqn:E; [|done].
  cbn. intros H%pinned_In. by exists k, c.
Qed.

(** A signature to a server whose key is pinned. *)
Lemma wp_sign pins n host user key w0 :
  pins_ok host pins w0 -> hd_pin_match (check_server_key pins key) = true ->
  TWP (act (sign (mkSignature n host user key))) w0 (fun _ _ => True).
Proof.
  intros Hp (k & c & -> & Hc & _ & Hin)%check_server_key_pinned. apply wp_act. intros w [Hd Hs] HG.
  apply (pins_ok_later _ _ _ _ HG) in Hp. unfold pins_ok in Hp. rewrite Forall_forall in Hp.
  destruct (Hp _ Hin) as (id & r & Hr & H1 & H2 & H3 & H4). split_and!; [|split; [done|by apply prefix_app_r]|done].
  split; [exact Hd|]. apply Forall_app. split; [|apply Forall_singleton].
  - eapply Forall_impl; [exact Hs|]. intros s. by apply signed_later.
  - by exists id, r, k, c.
Qed.

Section russh.
Context {Rs : Russh}.

#[export] Instance russh_probe_laws : SshHostKeyProbeLaws (Pb := RusshHostKeyProbe).
Proof. intros hostname port. apply tsafe_bind; [by apply tsafe_act|done]. Qed.

#[export] Instance russh_checker_laws : SshAuthCheckerLaws (Ck := RusshAuthChecker).
Proof.
  intros target w0 Hp. unfold run_auth_check, RusshAuthChecker, russh_auth_check. case_match; [done|].
  apply wp_bind, wp_act. intros w Hw HG. cbn [fst snd dial].
  destruct (tsafe_act dial ltac:(done) w0 w Hw HG) as (H1 & H2 & _). split_and!; [done|done|]. cbn zeta.
  case_match; [done|]. case_match; [|done]. destruct (hd_pin_match _) eqn:Em; [|done]. cbn [negb].
  apply wp_try. cbn [wp]. case_match; [|done]. apply wp_bind. eapply wp_mono; [|eapply wp_sign; [|exact Em]]; [done|].
  apply (pins_ok_later _ _ w); [done|]. by apply (pins_ok_later _ _ w0).
Qed.

End russh.

(** *** The routes, against these interfaces *)

Lemma collect_known_elem rows es e :
  collect_known rows = Ok es -> e ∈ es -> exists r, r ∈ rows /\ known_try_into_domain r = Ok e.
Proof.
  revert es. induction rows as [|r rows IH]; intros es; cbn.
  { intros [= <-] H. by apply not_elem_of_nil in H. }
  intros (e0 & He0 & (es0 & Hes0 & [= <-])%result_bind_ok)%result_bind_ok [->|Hin]%elem_of_cons.
  - exists r. split; [left|done].
  - destruct (IH _ Hes0 Hin) as (r' & Hr' & ?). exists r'. split; [by right|done].
Qed.

Lemma rows_of_host_elem host d r :
  r ∈ PgKnownHostEntryRepository.rows_of_host host d <-> kr_host_id r = host /\ exists id, td_known d !! id = Some r.
Proof.
  unfold PgKnownHostEntryRepository.rows_of_host. rewrite merge_sort_Permutation, list_elem_of_filter. split.
  - intros [? ([k y] & -> & Hk%elem_of_map_to_list)%list_elem_of_fmap]. by eauto.
  - intros [? [id Hid]]. split; [done|]. apply list_elem_of_fmap. exists (id, r).
    split; [done|by apply elem_of_map_to_list].
Qed.

Lemma key_type_tag_parse v t : key_type_from_str_tag v = Some t -> v = key_type_as_str t.
Proof. unfold key_type_from_str_tag. intros H. by repeat case_decide; simplify_eq. Qed.

(** What a row becomes when it is read. *)
Lemma known_read_fields r e :
  known_try_into_domain r = Ok e ->
  kh_id e = kr_id r /\ kh_host_id e = kr_host_id r /\ kr_key_type r = key_type_as_str (kh_key_type e)
  /\ kh_fingerprint_sha256 e = kr_fingerprint_sha256 r /\ kh_trusted_at e = kr_trusted_at r
  /\ kh_revoked_at e = kr_revoked_at r.
Proof.
  unfold known_try_into_domain. intros (t & Ht & (q & _ & [= <-])%result_bind_ok)%result_bind_ok.
  apply ok_or_ok, key_type_tag_parse in Ht. done.
Qed.

Lemma listed_pins_ok host w known :
  collect_known (PgKnownHostEntryRepository.rows_of_host host (tw_db w)) = Ok known ->
  pins_ok host (accept_pins known) w.
Proof.
  intros Hc. apply Forall_forall. intros p Hp. unfold accept_pins in Hp.
  apply list_elem_of_In, in_map_iff in Hp as (e & <- & He%list_elem_of_In). apply list_elem_of_filter in He as [Hact He].
  bool_props. destruct (collect_known_elem _ _ _ Hc He) as (r & Hr & Hd).
  apply rows_of_host_elem in Hr as [Hh [id Hid]]. destruct (known_read_fields _ _ Hd) as (_ & _ & Ht & Hf & Htr & _).
  exists id, r. rewrite <- Htr. split_and!; done.
Qed.

Section routes.
Context {Ae : Aead} {Rs : Russh} {Pb : SshHostKeyProbe} {Ck : SshAuthChecker}.
Context {Pl : SshHostKeyProbeLaws} {Cl : SshAuthCheckerLaws}.
Context (cfg : AuthRoutesConfig) (vault : option (list Byte.byte)).

Lemma tsafe_csrf h : tsafe (TrustRoutes.csrf_guard cfg h).
Proof. by apply tsafe_on_auth. Qed.

Lemma tsafe_user h : tsafe (TrustRoutes.authenticated_user h).
Proof. apply tsafe_on_auth, safe_authenticated. Qed.

Lemma tsafe_resolve user id : tsafe (TrustRoutes.resolve_owned_profile user id).
Proof.
  unfold TrustRoutes.resolve_owned_profile.
  repeat (apply tsafe_try; [first [apply tsafe_ret | apply tsafe_repo, tkeeps_read]|intros ?]). apply tsafe_ret.
Qed.

(** The pins that a route has read are pins of the table. *)
Lemma wp_load_target user id w0 :
  TWP (TrustRoutes.load_target vault user id) w0 (fun r w =>
    match r with
    | Ok (_, _, _, req, known) => pins_ok (pf_host_id req) (accept_pins known) w
    | Err _ => True
    end).
Proof.
  unfold TrustRoutes.load_target. apply wp_try. eapply wp_mono; [|apply tsafe_resolve].
  intros [[[profile host] identity]|e] w1 _; [|done]. destruct (is_disabled profile); [done|].
  apply wp_try. cbn [wp]. destruct (TrustRoutes.decrypt_identity vault identity); [|done].
  apply wp_try. unfold TrustRoutes.repo. apply wp_bind, wp_trepo; [apply tkeeps_read|].
  intros w Hw HG. unfold PgKnownHostEntryRepository.list_for_host.
  destruct (trust_execute_cases (fun d => (collect_known (PgKnownHostEntryRepository.rows_of_host (ho_id host) d), d))
    (tw_db w)) as (d1 & Hs & _ & _ & [(e & _ & ->)| ->]); cbn [fst snd]; [done|].
  destruct (collect_known _) as [known|e] eqn:Ec; [|done]. cbn [map_err wp pf_host_id].
  apply listed_pins_ok. destruct d1. exact Ec.
Qed.

Lemma tsafe_load user id : tsafe (TrustRoutes.load_target vault user id).
Proof. intros w0. eapply wp_mono; [|apply wp_load_target]. done. Qed.

Lemma tsafe_preflight req known : tsafe (TrustRoutes.run_preflight req known).
Proof.
  unfold TrustRoutes.run_preflight, preflight. apply tsafe_bind; [|done]. case_match; [done|].
  apply tsafe_bind; [apply probe_safe|done].
Qed.

Ltac tsafe_step :=
  lazymatch goal with
  | |- tsafe (Ret _) => apply tsafe_ret
  | |- tsafe (TrustRoutes.csrf_guard _ _) => apply tsafe_csrf
  | |- tsafe (TrustRoutes.authenticated_user _) => apply tsafe_user
  | |- tsafe (TrustRoutes.load_target _ _ _) => apply tsafe_load
  | |- tsafe (TrustRoutes.run_preflight _ _) => apply tsafe_preflight
  | |- tsafe (try_bind _ _) => apply tsafe_try; [|intros ?]
  | |- tsafe (bind _ _) => apply tsafe_bind; [|intros ?]
  | |- tsafe (match ?x with _ => _ end) => destruct x
  | |- tsafe (let '(_, _) := ?x in _) => destruct x
  end.

Lemma tsafe_trust h id fp : tsafe (TrustRoutes.trust_host_key cfg vault h id fp).
Proof.
  unfold TrustRoutes.trust_host_key. cbv zeta. repeat tsafe_step. apply tsafe_repo, tkeeps_record_trusted.
Qed.

Lemma tsafe_replace h id req : tsafe (TrustRoutes.replace_host_key cfg vault h id req).
Proof.
  unfold TrustRoutes.replace_host_key. cbv zeta. repeat tsafe_step. apply tsafe_trepo, tkeeps_replace.
Qed.

Lemma tsafe_host_key_preflight h id : tsafe (TrustRoutes.host_key_preflight cfg vault h id).
Proof. unfold TrustRoutes.host_key_preflight. cbv zeta. repeat tsafe_step. Qed.

Lemma wp_auth_check_service req known w0 :
  pins_ok (pf_host_id req) (accept_pins known) w0 -> TWP (HostKey.auth_check req known) w0 (fun _ _ => True).
Proof.
  intros Hp. unfold HostKey.auth_check. case_match; [done|]. cbv zeta. apply wp_bind.
  assert (Hact : forall A (f : TrustWorld -> A * TrustWorld) w, pins_ok (pf_host_id req) (accept_pins known) w ->
    (forall w, tw_db (f w).2 = tw_db w /\ tw_signed (f w).2 = tw_signed w) ->
    TWP (act f) w (fun _ w => pins_ok (pf_host_id req) (accept_pins known) w)).
  { intros A f w Hw Hf. apply wp_act. intros w' Hw' HG. destruct (tsafe_act f Hf w w' Hw' HG) as (H1 & H2 & _).
    split_and!; [done|done|]. apply (pins_ok_later _ _ w'); [done|]. by apply (pins_ok_later _ _ w). }
  eapply wp_mono; [|apply Hact; [exact Hp|]]; [|intros w; unfold try_acquire; by case_match].
  intros permit w1 Hp1. destruct permit; [|done]. cbn [negb]. apply wp_bind. eapply wp_mono; [|by apply Hact].
  intros budget w2 Hp2. apply wp_bind. eapply wp_mono; [|apply wp_cut, checker_safe; exact Hp2].
  intros o w3 _. apply tsafe_bind; [by apply tsafe_act|done].
Qed.

Lemma tsafe_auth_check h id : tsafe (TrustRoutes.auth_check cfg vault h id).
Proof.
  unfold TrustRoutes.auth_check. do 2 (apply tsafe_try; [tsafe_step|intros ?]). intros w0. apply wp_try.
  eapply wp_mono; [|apply wp_load_target]. intros [[[[[profile host] identity] req] known]|e] w Hp; [|done].
  apply wp_bind. eapply wp_mono; [|by apply wp_auth_check_service]. intros r w' _.
  apply tsafe_try; [done|]. intros status. apply tsafe_bind; [by apply tsafe_on_auth, asafe_act|done].
Qed.

Lemma tsafe_serve h id q : tsafe (TrustRoutes.serve cfg vault h id q).
Proof.
  destruct q; [apply tsafe_host_key_preflight|apply tsafe_trust|apply tsafe_replace|apply tsafe_auth_check].
Qed.

End routes.

(** What can happen between two actions: a host-key request or an authentication request arrives, time
    passes, or the inventory of hosts, identities and profiles is edited. *)
Inductive trust_starts `{!Aead, !Russh} (svc : AuthService.t) (cfg : AuthRoutesConfig) (vault : option (list Byte.byte))
  : TrustWorld -> TrustWorld -> prog TrustWorld unit -> Prop :=
| start_host_key w h id q :
    trust_starts svc cfg vault w w
      (do! _ <- TrustRoutes.serve (Pb := RusshHostKeyProbe) (Ck := RusshAuthChecker) cfg vault h id q; Ret tt)
| start_auth w a p : auth_starts svc cfg (tw_auth w) a p -> trust_starts svc cfg vault w (set_tw_auth a w) (on_auth p)
| start_inventory w hosts identities profiles :
    trust_starts svc cfg vault w
      (mkTrustWorld (tw_auth w) hosts identities profiles (tw_known w) (tw_permits w) (tw_conns w) (tw_signed w))
      (Ret tt).

Lemma trust_safe_starts `{!Aead, !Russh} svc cfg vault w w' p :
  trust_starts svc cfg vault w w' p -> trust_inv w -> trust_inv w' /\ trust_guar w w' /\ TWP p w' (fun _ _ => True).
Proof.
  intros [w1 h id q|w1 a p1 Hs|w1 hosts ids profiles] Hw.
  - split_and!; [done|done|]. apply tsafe_bind; [apply tsafe_serve|done].
  - destruct Hw as [[Ha Hk] Hsg]. destruct (auth_safe_starts _ _ _ _ _ Hs Ha) as (H1 & H2 & H3). split_and!.
    + split; [split; [exact H1|]|].
      * apply (known_inv_frame (tw_db w1)); [done|apply H2|done].
      * eapply Forall_impl; [exact Hsg|]. intros s. by apply signed_later.
    + by split; [split|].
    + eapply wp_mono; [|apply wp_on_auth, H3]. done.
  - destruct Hw as [[Ha Hk] Hsg]. split_and!; [|by split; [split|]|done]. split; [split; [exact Ha|]|].
    + by apply (known_inv_frame (tw_db w1)).
    + eapply Forall_impl; [exact Hsg|]. intros s. by apply signed_later.
Qed.


End interleaving.
