(* ===== verification/TrustSpec.v ===== *)
(** * What the host-key routes do

    That the two notions of a trusted key agree, that no client lets a signature out to a server
    whose key is not pinned, the exact effect of trusting and of replacing a key, and the one
    promise of a comment in the code that does not hold. *)

From stdpp Require Import sorting.
From S2P Require Import Prelude Core PgSession Throttle Prog AuthStore Auth AuthRoutes AuthSafety AuthSpec Inventory.
From S2P Require Import Vault HostKey TrustRoutes TrustSafety.

(** ** Two notions of a trusted key *)

(** The entries of a host, as the routes read them. *)
Definition entries_of (host : HostId) (d : TrustDb) : result RepositoryError (list KnownHostEntry) :=
  collect_known (PgKnownHostEntryRepository.rows_of_host host d).

Lemma entries_of_elem host d known e :
  entries_of host d = Ok known -> e ∈ known ->
  exists id r, td_known d !! id = Some r /\ kr_host_id r = host /\ known_try_into_domain r = Ok e.
Proof.
  intros Hk He. destruct (collect_known_elem _ _ _ Hk He) as (r & [Hr [id Hid]]%rows_of_host_elem & Hd).
  by exists id, r.
Qed.

Lemma collect_known_mem rows es r e :
  collect_known rows = Ok es -> r ∈ rows -> known_try_into_domain r = Ok e -> e ∈ es.
Proof.
  revert es. induction rows as [|r1 rows IH]; intros es; cbn; [by intros _ ?%not_elem_of_nil|].
  intros (e0 & He0 & (es0 & Hes & [= <-])%result_bind_ok)%result_bind_ok [->|Hin]%elem_of_cons He.
  - replace e with e0 by congruence. left.
  - right. by apply IH.
Qed.

Lemma entries_of_readable host d : known_inv d -> exists known, entries_of host d = Ok known.
Proof.
  intros Hi. unfold entries_of.
  assert (Hall : Forall (fun r => known_check r = None) (PgKnownHostEntryRepository.rows_of_host host d)).
  { apply Forall_forall. intros r [_ [id Hid]]%rows_of_host_elem. by apply (ki_checks _ Hi id). }
  induction Hall as [|r rows Hr _ [es IH]]; [by eexists|]. cbn.
  destruct (known_check_reads r Hr) as [e ->]. cbn. rewrite IH. by eexists.
Qed.

Lemma entries_of_unique host d known e e' :
  known_inv d -> entries_of host d = Ok known -> e ∈ known -> e' ∈ known ->
  kh_fingerprint_sha256 e = kh_fingerprint_sha256 e' -> e = e'.
Proof.
  intros Hi Hk He He' Hf. destruct (entries_of_elem _ _ _ _ Hk He) as (i & r & Hr & Hh & Hd).
  destruct (entries_of_elem _ _ _ _ Hk He') as (j & r' & Hr' & Hh' & Hd').
  destruct (known_read_fields _ _ Hd) as (_ & _ & _ & F & _), (known_read_fields _ _ Hd') as (_ & _ & _ & F' & _).
  assert (i = j) as -> by (eapply (ki_unique _ Hi i j r r'); congruence). congruence.
Qed.

Lemma elem_head_filter {A} (P : A -> Prop) `{!forall x, Decision (P x)} (l : list A) x :
  head (filter P l) = Some x -> P x /\ x ∈ l.
Proof.
  intros Hh. assert (Hx : x ∈ filter P l) by (destruct (filter P l); [done|]; cbn in Hh; simplify_eq; left).
  by apply list_elem_of_filter in Hx.
Qed.

Lemma head_filter_none {A} (P : A -> Prop) `{!forall x, Decision (P x)} (l : list A) x :
  head (filter P l) = None -> x ∈ l -> ~ P x.
Proof.
  intros Hh Hx HP. assert (Hin : x ∈ filter P l) by (by apply list_elem_of_filter).
  destruct (filter P l); [by apply not_elem_of_nil in Hin|done].
Qed.

Lemma accept_pins_elem known c :
  pinned (accept_pins known) c = true <->
  exists e, e ∈ known /\ matches c e = true /\ not_revoked e = true /\ is_Some (kh_trusted_at e).
Proof.
  rewrite pinned_In, list_elem_of_In. unfold accept_pins. rewrite in_map_iff. split.
  - intros (e & [= H1 H2] & He%list_elem_of_In). apply list_elem_of_filter in He as [Ha He]. bool_props.
    exists e. split_and!; try done. unfold matches. by rewrite !bool_decide_eq_true_2.
  - intros (e & He & Hm & Hn & Ht). unfold matches in Hm. bool_props. exists e. split; [congruence|].
    apply list_elem_of_In, list_elem_of_filter. rewrite Hn, bool_decide_eq_true_2 by done. done.
Qed.

Lemma classify_agrees host d known c :
  known_inv d -> entries_of host d = Ok known ->
  (classify_host_key c known = HkTrusted <-> pinned (accept_pins known) c = true)
  /\ (classify_host_key c known = HkChanged <->
      (forall e, e ∈ known -> not_revoked e = true -> matches c e = false)
      /\ exists e, e ∈ known /\ not_revoked e = true /\ kh_key_type e = cp_key_type c).
Proof.
  intros Hi Hk. rewrite accept_pins_elem. unfold classify_host_key. cbv zeta.
  destruct (head (filter (fun e => matches c e = true) _)) as [m|] eqn:Eh.
  - apply elem_head_filter in Eh as [Hm [Hn Hin]%list_elem_of_filter].
    assert (Huniq : forall e, e ∈ known -> matches c e = true -> e = m).
    { intros e He Hme. apply (entries_of_unique host d known); try done. unfold matches in Hm, Hme. bool_props. congruence. }
    split; [split|split].
    + intros H. exists m. split_and!; try done. by case_bool_decide.
    + intros (e & He & Hme & _ & Ht). by rewrite <- (Huniq e He Hme), bool_decide_eq_true_2.
    + intros H. by case_bool_decide.
    + intros [H _]. by rewrite (H m Hin Hn) in Hm.
  - assert (Hno : forall e, e ∈ known -> not_revoked e = true -> matches c e = false).
    { intros e He Hn. apply not_true_iff_false. apply (head_filter_none _ _ e Eh). by apply list_elem_of_filter. }
    split; [split|].
    + intros H. by destruct (existsb _ _).
    + intros (e & He & Hm & Hn & _). by rewrite Hno in Hm.
    + destruct (existsb _ _) eqn:Ex; (split; [intros H; [> try done ..]|]).
      * split; [done|]. apply existsb_exists in Ex as (e & He%list_elem_of_In & Ht). bool_props.
        apply list_elem_of_filter in He as [Hn He]. by exists e.
      * done.
      * intros [_ (e & He & Hn & Ht)]. exfalso. apply not_true_iff_false in Ex. apply Ex, existsb_exists.
        exists e. split; [by apply list_elem_of_In, list_elem_of_filter|]. pose proof (Hno e He Hn) as Hm.
        unfold matches in Hm. rewrite bool_decide_eq_true_2 in * by done. cbn in *. by rewrite Hm.
Qed.

(** C26: the classifier of the preflight and the pins that the clients accept agree: for the entries of a
    host in tables that satisfy their constraints, a captured key is [Trusted] exactly when it is one
    of the accepted pins, so the branch of the credential check that a comment calls unreachable is;
    and it is [Changed] exactly when no unrevoked entry has it while one has another key of its type. *)
Theorem trust_predicates_agree host d known c :
  known_inv d -> entries_of host d = Ok known ->
  (classify_host_key c known = HkTrusted <-> pinned (accept_pins known) c = true)
  /\ (classify_host_key c known = HkChanged <->
      (forall e, e ∈ known -> not_revoked e = true -> matches c e = false)
      /\ exists e, e ∈ known /\ not_revoked e = true /\ kh_key_type e = cp_key_type c).
Proof. apply classify_agrees. Qed.

(** ** Signatures *)

Section network.
Context {Rs : Russh}.

(** Every request to authenticate between [w] and [w'] went to a server whose key is one of [pins]. *)
Definition signs_only (pins : list (SshKeyType * rstr)) (w w' : TrustWorld) : Prop :=
  exists l, tw_signed w' = tw_signed w ++ l
    /\ Forall (fun s => exists k c, sg_server s = Some k /\ capture k = Some c
                         /\ (cp_key_type c, cp_fingerprint_sha256 c) ∈ pins) l.

Lemma signs_nothing pins w w' : tw_signed w' = tw_signed w -> signs_only pins w w'.
Proof. intros E. exists []. by rewrite app_nil_r. Qed.

Lemma signs_one pins n host user key w :
  hd_pin_match (check_server_key pins key) = true ->
  signs_only pins w (sign (mkSignature n host user key) (dial w).2).2.
Proof.
  intros (k & c & -> & Hc & _ & Hin)%check_server_key_pinned. eexists. split; [reflexivity|].
  apply Forall_singleton. by exists k, c.
Qed.

(** The start of a terminal signs for pinned servers only. *)
Lemma pty_start_signs_only target w : signs_only (pt_accept_pins target) w (run (pty_start target) w).2.
Proof.
  unfold pty_start. case_match; [by apply signs_nothing|]. cbn [bind act run dial]. cbv zeta.
    case_match; [by apply signs_nothing|]. case_match; [|by apply signs_nothing].
    destruct (hd_pin_match _) eqn:Em; [|by apply signs_nothing]. by apply signs_one.
Qed.

(** Neither the credential check, wherever its time runs out, nor the start of a terminal sends a
    request to authenticate to a server whose host key is not one of the pins it was given, whatever
    the network and the SSH library do. *)
Theorem no_signature_without_pin :
  (forall target n w, signs_only (at_accept_pins target) w (run (cut n (russh_auth_check target)) w).2)
  /\ (forall target w, signs_only (pt_accept_pins target) w (run (pty_start target) w).2).
Proof.
  split.
  - intros target n w. unfold russh_auth_check. case_match; [by apply signs_nothing|].
    destruct n as [|n]; [by apply signs_nothing|]. cbn [bind act cut run dial]. cbv zeta.
    case_match; [by apply signs_nothing|]. case_match; [|by apply signs_nothing].
    destruct (hd_pin_match _) eqn:Em; [|by apply signs_nothing]. cbn [negb].
    destruct (check_server_key_pinned _ _ Em) as (k & c & _ & _ & -> & _). cbn [ok_or try_bind bind act].
    destruct n as [|n]; [by apply signs_nothing|]. cbn [cut run]. by apply signs_one.
  - apply pty_start_signs_only.
Qed.

End network.

(** ** Replacing a pin *)

Section replace.
Context {Cr : AuthCrypto} {Lo : PgLower}.

(** A database that answers and whose drawn identifiers are fresh. *)
Record trust_answering (d : TrustDb) : Prop := {
  ta_auth : answering (td_auth d);
  ta_known : map_Forall (fun id _ => id < a_next_uuid (td_auth d)) (td_known d)
}.

Lemma trust_execute_answers {A} (f : TrustDb -> result RepositoryError A * TrustDb) d :
  a_faults (td_auth d) = [] -> trust_execute f d = f d.
Proof. unfold trust_execute, auth_next_fault. intros ->. by destruct d. Qed.

(** What a replacement needs. *)
Record replaceable (input : ReplaceActivePin) (old : KnownHostEntryRow) (d : TrustDb) : Prop := {
  rb_old : td_known d !! kr_id old = Some old;
  rb_host : kr_host_id old = rp_host_id input;
  rb_fingerprint : kr_fingerprint_sha256 old = rp_expected_old_fingerprint input;
  rb_active : row_active old = true;
  rb_fresh : known_by_fingerprint (rp_host_id input) (rp_new_fingerprint_sha256 input) d = None;
  rb_actor : is_Some (a_users (td_auth d) !! rp_revoked_by input);
  rb_host_row : is_Some (td_hosts d !! rp_host_id input)
}.

Lemma select_active_answers input old d :
  known_inv d -> a_faults (td_auth d) = [] -> replaceable input old d ->
  PgKnownHostEntryRepository.select_active input d = (Ok old, d).
Proof.
  intros Hi Hf [H1 H2 H3 H4 _ _ _]. unfold PgKnownHostEntryRepository.select_active, trust_then.
  rewrite trust_execute_answers by done.
  rewrite (head_filter_unique _ _ (kr_id old) old); [done|done|done|].
  intros j r Hr (E1 & E2 & _). eapply (ki_unique _ Hi j (kr_id old) r old); congruence.
Qed.

Lemma answering_audit (d : AuthDb) i : answering d -> a_next_uuid d <= i -> i ∉ map ar_row_id (a_audit d).
Proof.
  intros [_ _ _ Ha] Hi (r & <- & Hr%list_elem_of_In)%list_elem_of_In%in_map_iff.
  rewrite Forall_forall in Ha. specialize (Ha r Hr). lia.
Qed.

Lemma insert_audit_answers id actor kind payload d :
  a_faults (td_auth d) = [] -> audit_kind_chk (audit_as_str kind) = true ->
  id ∉ map ar_row_id (a_audit (td_auth d)) -> is_Some (a_users (td_auth d) !! actor) ->
  insert_audit id actor kind payload d
  = (Ok tt, with_auth (push_audit (mkAuditRow id (Some actor) (audit_as_str kind) payload None (td_now d)) (td_auth d)) d).
Proof.
  intros Hf Hk Hid Hu. unfold insert_audit. rewrite trust_execute_answers by done.
  by rewrite Hk, bool_decide_eq_false_2, bool_decide_eq_true_2.
Qed.

Lemma then_answers {A B} (p : TrustDb -> result RepositoryError A * TrustDb)
    (k : A -> TrustDb -> result RepositoryError B * TrustDb) d a d1 :
  p d = (Ok a, d1) -> trust_then p k d = k a d1.
Proof. unfold trust_then. by intros ->. Qed.

Lemma insert_known_answers r d :
  known_check r = None -> td_known d !! kr_id r = None ->
  known_by_fingerprint (kr_host_id r) (kr_fingerprint_sha256 r) d = None -> is_Some (td_hosts d !! kr_host_id r) ->
  insert_known r d = (Ok r, set_known <[kr_id r := r]> d).
Proof.
  intros Hc Hid Hf Hh. unfold insert_known, known_insert_error. rewrite Hc, Hid, Hf.
  rewrite !bool_decide_eq_false_2 by (by intros []). by rewrite bool_decide_eq_true_2.
Qed.

Lemma update_old_answers old_id new_id input old d :
  a_faults (td_auth d) = [] -> td_known d !! old_id = Some old -> known_check old = None ->
  is_Some (a_users (td_auth d) !! rp_revoked_by input) ->
  PgKnownHostEntryRepository.update_old old_id new_id input d
  = (Ok (unpinned_row input new_id (td_now d) old), set_known <[old_id := unpinned_row input new_id (td_now d) old]> d).
Proof.
  intros Hf Hold Hc Hu. unfold PgKnownHostEntryRepository.update_old. rewrite trust_execute_answers by done.
  rewrite Hold. cbv zeta. fold (unpinned_row input new_id (td_now d) old). rewrite unpinned_check by done.
  by rewrite bool_decide_eq_true_2.
Qed.

Lemma replace_body_answers input old d :
  known_inv d -> trust_answering d -> replaceable input old d ->
  exists x d', PgKnownHostEntryRepository.replace_body input d = (Ok x, d') /\ a_faults (td_auth d') = [].
Proof.
  intros Hi [Ha A5] Hr. pose proof Ha as [A1 A2 A3 A4]. unfold PgKnownHostEntryRepository.replace_body.
  erewrite then_answers by (by apply (select_active_answers input old)). destruct Hr as [R1 R2 R3 R4 R5 R6 R7].
  assert (Hid : td_known d !! a_next_uuid (td_auth d) = None).
  { destruct (td_known d !! a_next_uuid (td_auth d)) eqn:E; [|done]. apply A5 in E. lia. }
  assert (Hlt : kr_id old < a_next_uuid (td_auth d)) by (by apply (A5 _ old)).
  erewrite then_answers.
  2: { unfold PgKnownHostEntryRepository.refuse_existing. erewrite then_answers by (by rewrite trust_execute_answers).
       by rewrite R5. }
  erewrite then_answers by reflexivity. erewrite then_answers.
  2: { rewrite trust_execute_answers by done. apply insert_known_answers; try done. apply (pin_row_check input). }
  erewrite then_answers.
  2: { apply update_old_answers; [done| |by apply (ki_checks _ Hi (kr_id old))|done].
       cbn. rewrite lookup_insert_ne by lia. exact R1. }
  erewrite then_answers by reflexivity. erewrite then_answers.
  2: { apply insert_audit_answers; [done|done| |done]. apply (answering_audit (td_auth d)); [done|cbn; lia]. }
  erewrite then_answers by reflexivity. erewrite then_answers.
  2: { apply insert_audit_answers; [done|done| |done]. cbn. rewrite map_app. intros [Hin|Hin]%elem_of_app.
       - revert Hin. apply (answering_audit (td_auth d)); [done|cbn; lia].
       - apply list_elem_of_singleton in Hin. cbn in Hin. lia. }
  by eexists _, _.
Qed.

(** C24: replacing a pin is all or nothing, whichever statement of its transaction fails.  If it
    answers, the pin of that host with that fingerprint was active and is revoked, with the operator,
    the reason and its successor, the new key is confirmed under an identifier and a fingerprint that
    were free, two audit rows that name both were appended, and nothing else changed; if it fails, no
    table changed.  With a database that answers it succeeds whenever the pin is active, no entry has
    the new fingerprint, and the operator and the host exist. *)
Theorem replace_active_pin_atomic input d :
  trust_db_inv d ->
  match PgKnownHostEntryRepository.replace_active_pin input d with
  | (Ok rk, d') => exists old new_id, pin_replaced input old new_id d d'
      /\ kh_id (rk_revoked_old rk) = kr_id old /\ kh_id (rk_trusted_new rk) = new_id
      /\ kh_trusted_at (rk_trusted_new rk) = Some (td_now d)
  | (Err _, d') => same_trust d d'
  end
  /\ forall old, trust_answering d -> replaceable input old d ->
       exists rk d', PgKnownHostEntryRepository.replace_active_pin input d = (Ok rk, d').
Proof.
  intros Hd. split.
  - pose proof (replace_active_pin_cases input d Hd) as H.
    destruct (PgKnownHostEntryRepository.replace_active_pin input d) as [[rk|e] d']; [|done].
    destruct H as (old & n & Hp & H1 & H2). exists old, n. split; [done|].
    destruct (known_read_fields _ _ H1) as (-> & _), (known_read_fields _ _ H2) as (-> & _ & _ & _ & -> & _). done.
  - intros old Ha Hr. destruct (replace_body_answers input old d (ti_known _ Hd) Ha Hr) as ([o n] & d2 & Hb & Hf).
    pose proof (replace_body_ok _ _ _ _ _ (ti_known _ Hd) Hb) as (old0 & id & Hp & -> & ->).
    unfold PgKnownHostEntryRepository.replace_active_pin. erewrite then_answers.
    2: { unfold trust_transaction. rewrite trust_execute_answers by apply Ha. rewrite Hb.
         by rewrite trust_execute_answers. }
    cbn [fst snd]. destruct (known_check_reads (unpinned_row input id (td_now d) old0)) as [e1 ->].
    { apply unpinned_check, (ki_checks _ (ti_known _ Hd) (kr_id old0)), Hp. }
    destruct (known_check_reads (pin_row input id (td_now d)) (pin_row_check _ _ _)) as [e2 ->]. by eexists _, _.
Qed.

(** At most one active pin per host and key type, which the preflight route relies on to name the pin
    that a changed key would replace. *)
Definition single_pin (d : TrustDb) : Prop :=
  forall i j r s, td_known d !! i = Some r -> td_known d !! j = Some s -> row_active r = true -> row_active s = true ->
    kr_host_id r = kr_host_id s -> kr_key_type r = kr_key_type s -> i = j.

Lemma replaced_single_pin input old new_id d d' :
  pin_replaced input old new_id d d' -> single_pin d ->
  (single_pin d' <->
   forall i r, td_known d !! i = Some r -> row_active r = true -> kr_host_id r = rp_host_id input ->
     kr_key_type r = key_type_as_str (rp_new_key_type input) -> i = kr_id old).
Proof.
  intros [A1 A2 A3 A4 A5 A6 A7 (i0 & j0 & A8)] Hs. assert (Hne : new_id <> kr_id old) by (intros ->; congruence).
  unfold single_pin. rewrite (sh_known _ _ _ _ A8). split.
  - intros H i r Hr Ha Hh Ht. destruct (decide (i = kr_id old)) as [|Hi]; [done|]. exfalso.
    assert (Hin : i <> new_id) by (intros ->; congruence). apply Hin.
    eapply (H i new_id r (pin_row input new_id (td_now d))); try done.
    + by rewrite !lookup_insert_ne.
    + by rewrite lookup_insert_ne, lookup_insert_eq.
  - intros H i j r s [[<- <-]|[Hi [[<- <-]|[Hi' Hr]]%lookup_insert_Some]]%lookup_insert_Some
      [[<- <-]|[Hj [[<- <-]|[Hj' Hsj]]%lookup_insert_Some]]%lookup_insert_Some Ha Hb Eh Et; try done.
    + exfalso. apply Hj. symmetry. by eapply H.
    + exfalso. apply Hi. symmetry. by eapply H.
    + by eapply Hs.
Qed.

(** A replacement that succeeds keeps at most one active pin per host and key type if and only if no
    active pin of the host other than the one it revokes has the type of the new key.  The code does
    not ask for that, so a replacement across key types can leave a host with two active pins of one type. *)
Theorem replace_single_pin input d rk d' :
  trust_db_inv d -> PgKnownHostEntryRepository.replace_active_pin input d = (Ok rk, d') -> single_pin d ->
  (single_pin d' <->
   forall i r, td_known d !! i = Some r -> row_active r = true -> kr_host_id r = rp_host_id input ->
     kr_key_type r = key_type_as_str (rp_new_key_type input) -> i = kh_id (rk_revoked_old rk)).
Proof.
  intros Hd Hr. pose proof (replace_active_pin_cases input d Hd) as H. rewrite Hr in H.
  destruct H as (old & n & Hp & H1 & _). destruct (known_read_fields _ _ H1) as (-> & _).
  exact (replaced_single_pin input old n d d' Hp).
Qed.

End replace.

(** ** Trusting a key *)

Section trust.
Context {Cr : AuthCrypto} {Lo : PgLower} {Ae : Aead} {Rs : Russh}.
Context (cfg : AuthRoutesConfig) (vault : option (list Byte.byte)).

Lemma run_on_auth {A} (p : prog AuthWorld A) w :
  run (on_auth p) w = ((run p (tw_auth w)).1, set_tw_auth (run p (tw_auth w)).2 w).
Proof.
  revert w. induction p as [a|X f k IH]; intros w; cbn.
  - by destruct w.
  - destruct (f (tw_auth w)) as [x a]. rewrite IH. cbn. by destruct (run (k x) a).
Qed.

Lemma set_tw_db_id w : set_tw_db (tw_db w) w = w.
Proof. destruct w as [[] ???????]. done. Qed.

Lemma run_trust_repo {A} (f : TrustDb -> result RepositoryError A * TrustDb) w :
  run (TrustRoutes.repo f) w = (map_err api_of_repository (f (tw_db w)).1, set_tw_db (f (tw_db w)).2 w).
Proof. unfold TrustRoutes.repo, trepo. cbn. by destruct (f (tw_db w)). Qed.

(** A query of a database that answers. *)
Lemma run_query {A} (f : TrustDb -> result RepositoryError A) w :
  a_faults (aw_db (tw_auth w)) = [] ->
  run (TrustRoutes.repo (trust_execute (fun d => (f d, d)))) w = (map_err api_of_repository (f (tw_db w)), w).
Proof. intros Hf. rewrite run_trust_repo, trust_execute_answers by done. cbn [fst snd]. by rewrite set_tw_db_id. Qed.

(** The profile [id] of the user [u] leads to [host]: everything is owned by [u], enabled, readable and
    decrypts, and [known] are the entries of the host. *)
Record leads_to (u : User) (id : ServerProfileId) (p : ServerProfile) (host : Host) (identity : SshIdentity)
  (req : HostKeyPreflightRequest) (known : list KnownHostEntry) (w : TrustWorld) : Prop := {
  lt_profile : tw_profiles w !! id = Some p;
  lt_profile_owner : sp_owner_id p = us_id u;
  lt_enabled : is_disabled p = false;
  lt_host : exists row, tw_hosts w !! sp_host_id p = Some row /\ host_try_into_domain row = Ok host;
  lt_host_id : ho_id host = sp_host_id p;
  lt_host_owner : ho_owner_id host = us_id u;
  lt_identity : exists row, tw_identities w !! sp_ssh_identity_id p = Some row /\ identity_try_into_domain row = Ok identity;
  lt_identity_owner : si_owner_id identity = us_id u;
  lt_request : exists pem, TrustRoutes.decrypt_identity vault identity = Ok pem /\ ssh_key_parses pem = true
    /\ req = mkPreflight (ho_id host) (ho_hostname host) (ho_port host) (TrustRoutes.effective_username p host) pem;
  lt_known : entries_of (ho_id host) (tw_db w) = Ok known
}.

Lemma run_load_target u id p host identity req known w :
  a_faults (aw_db (tw_auth w)) = [] -> leads_to u id p host identity req known w ->
  run (TrustRoutes.load_target vault (us_id u) id) w = (Ok (p, host, identity, req, known), w).
Proof.
  intros Hf [L1 L2 L3 (hr & L4 & L4') L5 L6 (ir & L7 & L7') L8 (pem & L9 & L9' & ->) L10].
  unfold TrustRoutes.load_target, TrustRoutes.resolve_owned_profile. rewrite run_try.
  assert (Htrio : run (TrustRoutes.resolve_owned_profile (us_id u) id) w = (Ok (p, host, identity), w)).
  { unfold TrustRoutes.resolve_owned_profile, PgServerProfileRepository.get, PgHostRepository.get, PgSshIdentityRepository.get.
    rewrite run_try, run_query by done. cbn [tw_db td_profiles map_err]. rewrite L1, run_try. cbn [run TrustRoutes.owned].
    rewrite L2, Z.eqb_refl, run_try, run_query by done. cbn [tw_db td_hosts]. rewrite L4. cbn [transpose_row].
    rewrite L4'. cbn [result_bind map_err]. rewrite run_try. cbn [run TrustRoutes.owned].
    rewrite L6, Z.eqb_refl, run_try, run_query by done. cbn [tw_db td_identities]. rewrite L7. cbn [transpose_row].
    rewrite L7'. cbn [result_bind map_err]. rewrite run_try. cbn [run TrustRoutes.owned]. by rewrite L8, Z.eqb_refl. }
  fold (TrustRoutes.resolve_owned_profile (us_id u) id). rewrite Htrio, L3, run_try. cbn [run]. rewrite L9, run_try.
  unfold PgKnownHostEntryRepository.list_for_host. rewrite run_query by done. unfold entries_of in L10. by rewrite L10.
Qed.

(** The host key that the [n]-th connection captures. *)
Definition probed (n : nat) (hostname : rstr) (port : Z) : result ProbeError CapturedHostKey :=
  match connect_outcome n (hd_verdict (capture_server_key (kex_key n hostname port))) with
  | Elapsed => Err PrTimeout
  | InTime (Err e) => Err (map_russh_error e)
  | InTime (Ok _) => ok_or (hd_captured (capture_server_key (kex_key n hostname port))) PrBadHostKey
  end.

Lemma run_russh_preflight req known w :
  ssh_key_parses (pf_private_key_pem req) = true ->
  run (TrustRoutes.run_preflight (Pb := RusshHostKeyProbe) req known) w =
  (match probed (tw_conns w) (pf_hostname req) (pf_port req) with
   | Ok c => Ok (mkPreflightResult c (classify_host_key c known))
   | Err e => Err (api_of_preflight (PfProbe e))
   end, (dial w).2).
Proof.
  intros Hp. unfold TrustRoutes.run_preflight, preflight. rewrite Hp. cbn [negb]. rewrite run_bind, run_bind.
  cbn. unfold probed. repeat case_match; simplify_eq/=; done.
Qed.

(** The reasons not to trust a captured key. *)
Definition refuses (expected : rstr) (c : CapturedHostKey) (known : list KnownHostEntry) : bool :=
  (bool_decide (classify_host_key c known = HkChanged) || negb (bool_decide (cp_fingerprint_sha256 c = expected)))
  || TrustRoutes.revoked_before c known.

(** The state in which a signed-in request has probed the host. *)
Definition probed_world (s : UserSession) (w : TrustWorld) : TrustWorld :=
  (dial (set_tw_auth (touched (se_id s) s (tw_auth w)) w)).2.

(** The entry [r] is stored under [i]: a new one, or the one that was there, confirmed. *)
Definition pins_entry (host : HostId) (c : CapturedHostKey) (i : KnownHostEntryId) (r : KnownHostEntryRow) (d : TrustDb) : Prop :=
  (td_known d !! i = None
   /\ r = new_known_row i host (cp_key_type c) (cp_fingerprint_sha256 c) (cp_public_key c) (Some (td_now d)) (td_now d))
  \/ exists r0, td_known d !! i = Some r0 /\ kr_revoked_at r0 = None /\ kr_host_id r0 = host
       /\ kr_fingerprint_sha256 r0 = cp_fingerprint_sha256 c /\ r = coalesce_trusted (td_now d) r0.

Lemma run_extractors h s u (k : _ -> prog TrustWorld (result ApiError TrustResponse)) w :
  signed_in cfg h s u (tw_auth w) ->
  run (do? _ <- TrustRoutes.csrf_guard cfg h; do? user <- TrustRoutes.authenticated_user h; k user) w
  = run (k (mkAuthenticated u (se_id s))) (set_tw_auth (touched (se_id s) s (tw_auth w)) w).
Proof.
  intros Hsi. rewrite run_try. unfold TrustRoutes.csrf_guard. rewrite run_on_auth. unfold Routes.csrf_guard.
  cbn [run fst snd]. rewrite (si_origin _ _ _ _ _ Hsi). rewrite run_try. unfold TrustRoutes.authenticated_user.
  rewrite run_on_auth. assert (Hw : set_tw_auth (tw_auth w) w = w) by (by destruct w). rewrite Hw.
  by rewrite (proj1 (run_signed_in _ _ _ _ _ Hsi)).
Qed.

Lemma by_fingerprint_found d i r :
  known_inv d -> td_known d !! i = Some r ->
  known_by_fingerprint (kr_host_id r) (kr_fingerprint_sha256 r) d = Some r.
Proof.
  intros Hi Hr. unfold known_by_fingerprint. apply (head_filter_unique _ _ i); [done|done|].
  intros j r' Hr' [E1 E2]. by eapply (ki_unique _ Hi j i r' r).
Qed.

Lemma pins_entry_fields host c i r d :
  known_inv d -> pins_entry host c i r d ->
  (forall r, known_by_fingerprint host (cp_fingerprint_sha256 c) d = Some r -> kr_key_type r = key_type_as_str (cp_key_type c)) ->
  kr_id r = i /\ kr_host_id r = host /\ kr_fingerprint_sha256 r = cp_fingerprint_sha256 c
  /\ kr_key_type r = key_type_as_str (cp_key_type c) /\ kr_revoked_at r = None /\ is_Some (kr_trusted_at r).
Proof.
  intros Hi [[_ ->]|(r0 & Hr & Hrev & Hh & Hf & ->)] Hty; [done|]. cbn. rewrite Hrev, Hf, Hh.
  split_and!; try done; [by apply (ki_ids _ Hi i r0)|]. apply Hty.
  rewrite <- Hh, <- Hf. by apply (by_fingerprint_found d i).
Qed.

(** [record_trusted] on a database that answers. *)
Lemma record_trusted_answers host c d :
  trust_answering d -> known_inv d -> is_Some (td_hosts d !! host) ->
  (forall r, known_by_fingerprint host (cp_fingerprint_sha256 c) d = Some r -> kr_revoked_at r = None) ->
  exists i r e d', pins_entry host c i r d /\ known_try_into_domain r = Ok e
    /\ PgKnownHostEntryRepository.record_trusted (mkCreateKnown host (cp_key_type c) (cp_fingerprint_sha256 c) (cp_public_key c)) d = (Ok e, d')
    /\ shaped d (<[i := r]> (td_known d)) (a_audit (td_auth d)) d'.
Proof.
  intros [[A1 A2 A3 A4] A5] Hi Hh Hrev. unfold PgKnownHostEntryRepository.record_trusted.
  pose proof (same_trust_new_v4 d) as Hs. set (d1 := (trust_new_v4 d).2) in *.
  change (trust_new_v4 d) with (a_next_uuid (td_auth d), d1). cbn iota beta.
  unfold trust_then, PgKnownHostEntryRepository.upsert_trusted. rewrite trust_execute_answers by done.
  cbn [ck_host_id ck_fingerprint_sha256 ck_key_type ck_public_key].
  change (known_by_fingerprint host (cp_fingerprint_sha256 c) d1) with (known_by_fingerprint host (cp_fingerprint_sha256 c) d).
  change (td_now d1) with (td_now d).
  destruct (known_by_fingerprint host (cp_fingerprint_sha256 c) d) as [r0|] eqn:Ef.
  - specialize (Hrev r0 eq_refl). apply known_by_fingerprint_Some in Ef as (Eh & Efp & i & Hr0).
    pose proof (ki_ids _ Hi i r0 Hr0) as <-. rewrite Hrev. rewrite bool_decide_eq_false_2 by (by intros []). cbn iota beta.
    destruct (known_check_reads (coalesce_trusted (td_now d) r0)) as [e He]; [exact (ki_checks _ Hi (kr_id r0) r0 Hr0)|].
    exists (kr_id r0), (coalesce_trusted (td_now d) r0), e. eexists. rewrite He. split_and!; [right; by exists r0|done|done|].
    apply shaped_insert. by apply shaped_same.
  - set (row := new_known_row (a_next_uuid (td_auth d)) host (cp_key_type c) (cp_fingerprint_sha256 c) (cp_public_key c)
      (Some (td_now d)) (td_now d)).
    assert (Hc : known_check row = None) by (unfold row; by destruct (cp_key_type c)).
    assert (Hid : td_known d !! a_next_uuid (td_auth d) = None).
    { destruct (td_known d !! a_next_uuid (td_auth d)) eqn:E; [|done]. apply A5 in E. lia. }
    rewrite (insert_known_answers row d1) by done. destruct (known_check_reads row Hc) as [e He].
    exists (a_next_uuid (td_auth d)), row, e. eexists. rewrite He. split_and!; [by left|done|done|].
    apply (shaped_insert d _ _ d1 (kr_id row) row). by apply shaped_same.
Qed.

Lemma key_type_as_str_inj t t' : key_type_as_str t = key_type_as_str t' -> t = t'.
Proof. intros H. apply (f_equal key_type_from_str_tag) in H. rewrite !key_type_roundtrip in H. congruence. Qed.

Lemma revoked_row_captured host c d known r :
  known_inv d -> entries_of host d = Ok known -> known_by_fingerprint host (cp_fingerprint_sha256 c) d = Some r ->
  kr_key_type r = key_type_as_str (cp_key_type c) -> TrustRoutes.revoked_before c known = false -> kr_revoked_at r = None.
Proof.
  intros Hi Hk Hr Ht Hb. apply known_by_fingerprint_Some in Hr as (Hh & Hf & id & Hid).
  destruct (known_check_reads r (ki_checks _ Hi _ _ Hid)) as [e He].
  assert (Hin : e ∈ known).
  { apply (collect_known_mem _ _ r e Hk); [apply rows_of_host_elem; eauto|done]. }
  destruct (known_read_fields _ _ He) as (_ & _ & Ht' & Hf' & _ & Hrev). rewrite <- Hrev.
  destruct (kh_revoked_at e) eqn:E; [|done]. exfalso.
  apply not_true_iff_false in Hb. apply Hb, existsb_exists. exists e. split; [by apply list_elem_of_In|].
  unfold matches, not_revoked. rewrite E.
  assert (kh_key_type e = cp_key_type c) as -> by (apply key_type_as_str_inj; congruence).
  rewrite Hf', Hf. do 2 (rewrite bool_decide_eq_true_2 by done). done.
Qed.

Lemma touched_inv h s u w : signed_in cfg h s u w -> auth_inv (touched (se_id s) s w).
Proof.
  intros Hsi. destruct (wp_run auth_inv auth_guar _ w _ (safe_authenticated h w) (si_inv _ _ _ _ _ Hsi)) as (H & _).
  by rewrite (proj1 (run_signed_in _ _ _ _ _ Hsi)) in H.
Qed.

(** A stored, active entry of a captured key makes it trusted. *)
Lemma stored_is_trusted host c d i row e :
  known_inv d -> td_known d !! i = Some row -> kr_host_id row = host -> known_try_into_domain row = Ok e ->
  matches c e = true -> kr_revoked_at row = None -> is_Some (kr_trusted_at row) ->
  exists known, entries_of host d = Ok known /\ classify_host_key c known = HkTrusted.
Proof.
  intros Hi Hr Hh He Hm Hrev Htr. destruct (entries_of_readable host d Hi) as [known Hkn]. exists known. split; [done|].
  destruct (known_read_fields _ _ He) as (_ & _ & _ & _ & Etr & Er).
  apply (classify_agrees host d); [done|done|]. apply accept_pins_elem. exists e. split_and!; [|done| |by rewrite Etr].
  - apply (collect_known_mem _ _ row e Hkn); [|done]. apply rows_of_host_elem. by eauto.
  - unfold not_revoked. by rewrite Er, Hrev, bool_decide_eq_true_2.
Qed.

(** Trusting a host key, by a signed-in owner, on a database that answers.  The key the server
    presents now is pinned exactly when it has the expected fingerprint, no active pin of its type has
    another one, and it was not revoked before: its entry is confirmed, the original time kept, and
    from then on the key is classified [Trusted].  Otherwise the answer is a 409 and no pin changes.
    Neither way is anything signed. *)
Theorem trust_host_key_effect h s u id p host identity req known fp expected c w :
  trust_inv w -> trust_answering (tw_db w) -> signed_in cfg h s u (tw_auth w) ->
  leads_to u id p host identity req known w -> validated_expected_fingerprint fp = Ok expected ->
  probed (tw_conns w) (pf_hostname req) (pf_port req) = Ok c ->
  (forall r, known_by_fingerprint (ho_id host) (cp_fingerprint_sha256 c) (tw_db w) = Some r ->
     kr_key_type r = key_type_as_str (cp_key_type c)) ->
  let r := run (TrustRoutes.trust_host_key (Pb := RusshHostKeyProbe) cfg vault h id fp) w in
  if refuses expected c known then r = (Err (Conflict "host_key" None), probed_world s w)
  else exists i row e w', r = (Ok (RTrust i (ho_id host) (cp_key_type c) expected (default (td_now (tw_db w)) (kh_trusted_at e))), w')
    /\ pins_entry (ho_id host) c i row (tw_db w) /\ known_try_into_domain row = Ok e
    /\ tw_known w' = <[i := row]> (tw_known w) /\ tw_signed w' = tw_signed w
    /\ exists known', entries_of (ho_id host) (tw_db w') = Ok known' /\ classify_host_key c known' = HkTrusted.
Proof.
  intros Hw Ha Hsi Hl Hv Hc Hty r. unfold r, TrustRoutes.trust_host_key. clear r.
  rewrite (run_extractors h s u) by done. set (w1 := set_tw_auth (touched (se_id s) s (tw_auth w)) w).
  rewrite run_try, Hv. cbn [run]. rewrite run_try. unfold TrustRoutes.user_id. cbn [au_user].
  assert (Hl1 : leads_to u id p host identity req known w1) by (destruct Hl; by split).
  rewrite (run_load_target u id p host identity req known w1); [|apply (answering_touched _ _ _ _ _ Hsi)|done].
  rewrite run_try, run_russh_preflight; [|by destruct (lt_request _ _ _ _ _ _ _ _ Hl) as (pem & _ & Hpem & ->)].
  change (tw_conns w1) with (tw_conns w). rewrite Hc. cbv zeta. cbn [pr_status pr_captured].
  unfold refuses. destruct (bool_decide (classify_host_key c known = HkChanged) || _) eqn:E1; [done|].
  destruct (TrustRoutes.revoked_before c known) eqn:E2; [done|]. cbn [orb]. bool_props.
  rewrite run_try, run_trust_repo. change (tw_db (dial w1).2) with (tw_db w1).
  assert (Hk1 : known_inv (tw_db w1)) by (apply (known_inv_frame (tw_db w)); [done|done|apply Hw]).
  destruct (record_trusted_answers (ho_id host) c (tw_db w1)) as (i & row & e & d' & Hpin & He & Hrec & Hsh).
  { split; [apply (answering_touched _ _ _ _ _ Hsi)|apply Ha]. }
  { done. }
  { rewrite (lt_host_id _ _ _ _ _ _ _ _ Hl). destruct (lt_host _ _ _ _ _ _ _ _ Hl) as (hr & Hhr & _). by exists hr. }
  { intros r Hr. apply (revoked_row_captured (ho_id host) c (tw_db w1) known); [done|apply Hl|done|by apply Hty|done]. }
  rewrite Hrec. destruct (pins_entry_fields _ _ _ _ _ Hk1 Hpin Hty) as (F1 & F2 & F3 & F4 & F5 & [t F6]).
  destruct (known_read_fields _ _ He) as (Eid & Eh & Et & Ef & Etr & Er). cbn [fst snd map_err].
  match goal with |- context [set_tw_db d' ?x] => set (w' := set_tw_db d' x) end.
  assert (Hdb : tw_db w' = d') by (by destruct d').
  rewrite Etr, F6, run_try. cbn [run ok_or]. exists i, row, e, w'. assert (E0 : cp_fingerprint_sha256 c = expected) by done.
  assert (Ekt : kh_key_type e = cp_key_type c) by (apply key_type_as_str_inj; congruence).
  rewrite Etr, F6, Eid, F1, Eh, F2, Ekt, Ef, F3, E0. cbn [default].
  split_and!; [done|done|done|exact (sh_known _ _ _ _ Hsh)|done|]. rewrite Hdb.
  apply (stored_is_trusted _ _ _ i row e); [|by rewrite (sh_known _ _ _ _ Hsh), lookup_insert_eq|done|done| |done|by rewrite F6].
  - pose proof (tkeeps_record_trusted (mkCreateKnown (ho_id host) (cp_key_type c) (cp_fingerprint_sha256 c) (cp_public_key c))
      (tw_db w1)) as Hkeep. rewrite Hrec in Hkeep. apply Hkeep. split; [by apply (touched_inv h s u)|done].
  - unfold matches. rewrite Ekt, Ef, F3. by rewrite !bool_decide_eq_true_2.
Qed.

End trust.

(** ** A deployment *)

#[local] Existing Instance toy_crypto.
#[local] Existing Instance toy_lower.

#[local] Instance toy_aead : Aead := {|
  aead_encrypt _ _ plaintext := Some (plaintext ++ replicate 16 Byte.x00);
  aead_decrypt _ _ c := Some (take (length c - 16) c)
|}.

Lemma toy_aead_laws : AeadLaws.
Proof.
  split.
  - intros key nonce pt c H. assert (c = pt ++ replicate 16 Byte.x00) as -> by (by injection H).
    change (Some (take (length (pt ++ replicate 16 Byte.x00) - 16) (pt ++ replicate 16 Byte.x00)) = Some pt).
    rewrite length_app, length_replicate, Nat.add_sub. by rewrite take_app_length.
  - intros key nonce pt c H. assert (c = pt ++ replicate 16 Byte.x00) as -> by (by injection H).
    by rewrite len_app.
Qed.

(** A server that presents an Ed25519 key, a library that obeys the handler. *)
#[local] Instance toy_russh : Russh := {|
  ssh_key_parses _ := true;
  russh_key_parses _ := true;
  kex_key _ _ _ := Some (mkServerKey AlgEd25519 (lit "SHA256:new-key") (Some [Byte.x01]));
  connect_outcome _ verdict :=
    match verdict with Some true => InTime (Ok tt) | _ => InTime (Err RusshOther) end;
  auth_outcome _ _ := InTime (Ok true);
  channel_opens _ := true; pty_granted _ := true; shell_starts _ := true;
  auth_check_budget _ := 100%nat
|}.

Definition toy_nonce : list Byte.byte := replicate 24 Byte.x02.
Definition toy_master : list Byte.byte := replicate 32 Byte.x03.
Definition toy_vault : option (list Byte.byte) := Some toy_master.
Definition toy_blob : list Byte.byte :=
  MAGIC ++ [VERSION_XCHACHA20POLY1305_DIRECT] ++ toy_nonce ++ [Byte.x41; Byte.x42] ++ replicate 16 Byte.x00.

Definition toy_profile : ServerProfile := mkServerProfile 70 1 (lit "prod") 50 60 None [] 0 0 None None.
Definition toy_host_row : HostRow := mkHostRow 50 1 (lit "web") (lit "web.example.com") 22 (lit "deploy") 0 0.
Definition toy_identity_row : SshIdentityRow :=
  mkSshIdentityRow 60 1 (lit "key") "ed25519" [] toy_blob (lit "SHA256:client") 0 None.
Definition toy_host : Host := mkHost 50 1 (lit "web") (lit "web.example.com") 22 (lit "deploy") 0 0.
Definition toy_identity : SshIdentity := mkSshIdentity 60 1 (lit "key") Ed25519 [] toy_blob (lit "SHA256:client") 0 None.

Definition pin80 : KnownHostEntryRow := mkKnownRow 80 50 "ed25519" (lit "SHA256:old-key") [] 10 (Some 10) None None None None.
Definition pin81 : KnownHostEntryRow := mkKnownRow 81 50 "rsa" (lit "SHA256:rsa-key") [] 20 (Some 20) None None None None.

Definition toy_trust (known : gmap KnownHostEntryId KnownHostEntryRow) : TrustWorld :=
  mkTrustWorld (toy_world toy_db) {[ 50 := toy_host_row ]} {[ 60 := toy_identity_row ]} {[ 70 := toy_profile ]} known 4 0 [].

Definition two_pins : gmap KnownHostEntryId KnownHostEntryRow := {[ 80 := pin80; 81 := pin81 ]}.
Definition rsa_pin : gmap KnownHostEntryId KnownHostEntryRow := {[ 81 := pin81 ]}.

Definition pins_consistent (known : gmap KnownHostEntryId KnownHostEntryRow) : Prop :=
  map_Forall (fun id r => kr_id r = id) known
  /\ map_Forall (fun i r => map_Forall (fun j s => kr_host_id r = kr_host_id s ->
       kr_fingerprint_sha256 r = kr_fingerprint_sha256 s -> i = j) known) known
  /\ map_Forall (fun _ r => known_check r = None /\ kr_replaced_by_id r = None) known.

Lemma toy_trust_inv known : pins_consistent known -> trust_inv (toy_trust known).
Proof.
  intros (H1 & H2 & H3). split; [|constructor]. split; [exact toy_inv|]. split; cbn [td_known tw_db tw_known toy_trust].
  - exact H1.
  - intros i j r s Hr Hs. exact (H2 i r Hr j s Hs).
  - intros i r Hr. by apply (H3 i).
  - intros i r Hr n Hn. destruct (H3 i r Hr). congruence.
Qed.

Lemma two_pins_consistent : pins_consistent two_pins.
Proof. unfold pins_consistent. split_and!; toy_compute. Qed.
Lemma rsa_pin_consistent : pins_consistent rsa_pin.
Proof. unfold pins_consistent. split_and!; toy_compute. Qed.

Lemma toy_leads_to known entries :
  entries_of 50 (tw_db (toy_trust known)) = Ok entries ->
  leads_to toy_vault alice 70 toy_profile toy_host toy_identity
    (mkPreflight 50 (lit "web.example.com") 22 (lit "deploy") [Byte.x41; Byte.x42]) entries (toy_trust known).
Proof.
  intros H. split; try done; [by exists toy_host_row|by exists toy_identity_row|].
  exists [Byte.x41; Byte.x42]. by vm_compute.
Qed.

Lemma toy_trust_answering known :
  map_Forall (fun id _ => id < 100) known -> trust_answering (tw_db (toy_trust known)).
Proof. intros H. split; [exact toy_answering|exact H]. Qed.

Definition entry81 : KnownHostEntry := mkKnownHost 81 50 Rsa (lit "SHA256:rsa-key") [] 20 (Some 20) None None None None.

Lemma trust_host_key_effect_witness :
  exists resp w', run (TrustRoutes.trust_host_key (Pb := RusshHostKeyProbe) toy_cfg toy_vault alice_browser 70 (lit "SHA256:new-key"))
    (toy_trust rsa_pin) = (Ok resp, w') /\ tw_signed w' = [].
Proof.
  pose proof (trust_host_key_effect toy_cfg toy_vault alice_browser alice_session alice 70 toy_profile toy_host toy_identity
    (mkPreflight 50 (lit "web.example.com") 22 (lit "deploy") [Byte.x41; Byte.x42]) [entry81] (lit "SHA256:new-key")
    (lit "SHA256:new-key") (mkCaptured Ed25519 (lit "SHA256:new-key") [Byte.x01]) (toy_trust rsa_pin)
    (toy_trust_inv _ rsa_pin_consistent)) as H.
  destruct H as (i & row & e & w' & Hrun & _ & _ & _ & Hsg & _).
  - apply toy_trust_answering. toy_compute.
  - exact toy_signed_in.
  - apply toy_leads_to. by vm_compute.
  - by vm_compute.
  - by vm_compute.
  - intros r. by vm_compute.
  - eexists _, w'. split; [exact Hrun|exact Hsg].
Defined.

Definition alice_trusts : prog TrustWorld unit :=
  do! _ <- TrustRoutes.serve (Pb := RusshHostKeyProbe) (Ck := RusshAuthChecker) toy_cfg toy_vault alice_browser 70
             TrustRoutes.QAuthCheck; Ret tt.


Lemma trust_predicates_agree_witness :
  classify_host_key (mkCaptured Rsa (lit "SHA256:rsa-key") []) [entry81] = HkTrusted.
Proof.
  apply (trust_predicates_agree 50 (tw_db (toy_trust rsa_pin)) [entry81]); [|by vm_compute|by vm_compute].
  apply (toy_trust_inv _ rsa_pin_consistent).
Defined.

(** Replace the RSA pin by the Ed25519 key that the server presents. *)
Definition cross_type : ReplaceActivePin :=
  mkReplacePin 50 (lit "SHA256:rsa-key") Ed25519 (lit "SHA256:new-key") [Byte.x01] 1 HostKeyRotated.

Lemma cross_type_replaceable : replaceable cross_type pin81 (tw_db (toy_trust two_pins)).
Proof. split; try by vm_compute; by eexists. Qed.

Lemma two_pins_answering : trust_answering (tw_db (toy_trust two_pins)).
Proof. apply toy_trust_answering. toy_compute. Qed.

Lemma replace_active_pin_atomic_witness :
  exists rk d', PgKnownHostEntryRepository.replace_active_pin cross_type (tw_db (toy_trust two_pins)) = (Ok rk, d').
Proof.
  destruct (replace_active_pin_atomic cross_type (tw_db (toy_trust two_pins))
    (twi_db _ (toy_trust_inv _ two_pins_consistent))) as [_ H].
  exact (H pin81 two_pins_answering cross_type_replaceable).
Defined.

Lemma two_single : single_pin (tw_db (toy_trust two_pins)).
Proof.
  assert (H : map_Forall (fun i r => map_Forall (fun j s => row_active r = true -> row_active s = true ->
    kr_host_id r = kr_host_id s -> kr_key_type r = kr_key_type s -> i = j) two_pins) two_pins) by toy_compute.
  intros i j r s Hr Hs. exact (H i r Hr j s Hs).
Qed.

Definition cross_type_outcome : result RepositoryError ReplacedKnownHostEntries * TrustDb :=
  PgKnownHostEntryRepository.replace_active_pin cross_type (tw_db (toy_trust two_pins)).

Lemma replace_single_pin_witness :
  is_ok cross_type_outcome.1 = true /\ single_pin (tw_db (toy_trust two_pins)) /\ ~ single_pin cross_type_outcome.2.
Proof.
  assert (Hid : match cross_type_outcome.1 with Ok rk => kh_id (rk_revoked_old rk) = 81 | Err _ => False end)
    by (vm_compute; reflexivity).
  split; [vm_compute; reflexivity|]. split; [exact two_single|]. intros Hbad.
  destruct cross_type_outcome as [[rk|e] d'] eqn:E; cbn [fst snd] in *; [|done].
  pose proof (proj1 (replace_single_pin cross_type _ rk d' (twi_db _ (toy_trust_inv _ two_pins_consistent)) E two_single)
    Hbad 80 pin80) as H. rewrite Hid in H. discriminate H; vm_compute; reflexivity.
Defined.

(** The same through the route: the operator names the RSA pin, the server presents its Ed25519 key. *)
Definition cross_type_request : ReplaceHostKeyRequest :=
  mkReplaceRequest (lit "SHA256:rsa-key") (lit "SHA256:new-key") "host_key_rotated".

Definition active_types (d : TrustDb) : list (KnownHostEntryId * string) :=
  map (fun x => (x.1, kr_key_type x.2)) (filter (fun x => row_active x.2 = true) (map_to_list (td_known d))).

Example cross_type_route :
  let '(r, w') := run (TrustRoutes.replace_host_key (Pb := RusshHostKeyProbe) toy_cfg toy_vault alice_browser 70
                        cross_type_request) (toy_trust two_pins) in
  is_ok r = true /\ active_types (tw_db w') ≡ₚ [(80, "ed25519"); (100, "ed25519")].
Proof. vm_compute. split; [done|]. apply Permutation_refl || apply Permutation_swap. Qed.

Lemma vault_roundtrip_witness : decrypt_private_key toy_master toy_blob = Ok [Byte.x41; Byte.x42].
Proof. apply (vault_roundtrip toy_master toy_nonce [Byte.x41; Byte.x42] toy_blob toy_aead_laws); by vm_compute. Defined.
