(* ===== verification/InventorySpec.v ===== *)
(** * What the inventory routes do

    One request at a time over a database that answers: a row of somebody else is a row that does not
    exist, deletion spares what is referred to, an update changes exactly the fields it names.  And the
    interleaving in which a host takes a pin with it. *)

From stdpp Require Import sorting.
From S2P Require Import Prelude Validation Utf8 Core PgSession Throttle Prog AuthStore Auth AuthRoutes AuthSafety AuthSpec.
From S2P Require Import Inventory Vault HostKey KeyVault TrustRoutes InventoryRoutes Frames InventorySafety TrustSafety TrustSpec.

Section spec.
Context {Cr : AuthCrypto} {Lo : PgLower} {Co : PgCollation} {Ae : Aead} {Sk : SshKeys} {Db : RustDebug}.
Context (cfg : AuthRoutesConfig) (vault : option (list Byte.byte)).

(** ** Running the handlers *)

Definition iw_auth (w : InvWorld) : AuthWorld := tw_auth (iw_trust w).
Definition set_iw_auth (a : AuthWorld) (w : InvWorld) : InvWorld := mkInv (set_tw_auth a (iw_trust w)) (iw_sessions w).
Definition set_iw_db (d : TrustDb) (w : InvWorld) : InvWorld := mkInv (set_tw_db d (iw_trust w)) (iw_sessions w).

(** The state in which the extractors have let a request in. *)
Definition entered (s : UserSession) (w : InvWorld) : InvWorld := set_iw_auth (touched (se_id s) s (iw_auth w)) w.

Lemma run_iw_trust {A} (p : prog TrustWorld A) w :
  run (InventoryRoutes.on_trust p) w = ((run p (iw_trust w)).1, mkInv (run p (iw_trust w)).2 (iw_sessions w)).
Proof. unfold InventoryRoutes.on_trust. by rewrite run_embed by (by intros; try destruct v). Qed.

Lemma run_iw_repo {A} (f : TrustDb -> result RepositoryError A * TrustDb) w :
  run (InventoryRoutes.repo f) w = (map_err api_of_repository (f (iw_db w)).1, set_iw_db (f (iw_db w)).2 w).
Proof. unfold InventoryRoutes.repo. by rewrite run_iw_trust, run_trust_repo. Qed.

Lemma set_iw_db_id w : set_iw_db (iw_db w) w = w.
Proof. destruct w as [t s]. unfold set_iw_db, iw_db. cbn. by rewrite set_tw_db_id. Qed.

Definition answers (w : InvWorld) : Prop := a_faults (aw_db (iw_auth w)) = [].

Lemma run_iw_query {A} (f : TrustDb -> result RepositoryError A) w :
  answers w ->
  run (InventoryRoutes.repo (trust_execute (fun d => (f d, d)))) w = (map_err api_of_repository (f (iw_db w)), w).
Proof. intros Hf. rewrite run_iw_repo, trust_execute_answers by done. cbn [fst snd]. by rewrite set_iw_db_id. Qed.

Lemma run_reader h s u {A} (k : UserId -> prog InvWorld (result ApiError A)) w :
  signed_in cfg h s u (iw_auth w) ->
  run (do? user_id <- InventoryRoutes.authenticated_user h; k user_id) w = run (k (us_id u)) (entered s w).
Proof.
  intros Hsi. rewrite run_try. unfold InventoryRoutes.authenticated_user. rewrite run_try, run_iw_trust.
  unfold TrustRoutes.authenticated_user. rewrite run_on_auth. change (tw_auth (iw_trust w)) with (iw_auth w).
  by rewrite (proj1 (run_signed_in _ _ _ _ _ Hsi)).
Qed.

Lemma run_writer h s u {A} (k : UserId -> prog InvWorld (result ApiError A)) w :
  signed_in cfg h s u (iw_auth w) ->
  run (do? _ <- InventoryRoutes.csrf_guard cfg h; do? user_id <- InventoryRoutes.authenticated_user h; k user_id) w
  = run (k (us_id u)) (entered s w).
Proof.
  intros Hsi. rewrite run_try.
  change (run (InventoryRoutes.csrf_guard cfg h) w) with (check_origin h (allowed_origins cfg), w).
  rewrite (si_origin _ _ _ _ _ Hsi). by apply run_reader.
Qed.

Lemma entered_answers h s u w : signed_in cfg h s u (iw_auth w) -> answers (entered s w).
Proof. intros Hsi. apply (answering_touched cfg h s u). exact Hsi. Qed.

Lemma entered_inv s w : inv_ok w -> inv_ok (entered s w).
Proof.
  intros Hw. destruct (frame_with_auth (aw_db (touched (se_id s) s (iw_auth w))) (iw_db w)) as [H1 H2].
  - by split.
  - apply (ii_known_ids _ _ Hw).
  - by destruct (frame_keeps_inventory _ _ _ H2 H1 Hw).
Qed.

(** ** Rows that are not the user's *)

Definition foreign {R} (owner : R -> UserId) (u : UserId) (m : gmap Z R) (id : Z) : Prop :=
  forall r, m !! id = Some r -> owner r <> u.
Definition foreign_host u id w := foreign hr_owner_id u (td_hosts (iw_db w)) id.
Definition foreign_identity u id w := foreign ir_owner_id u (td_identities (iw_db w)) id.
Definition foreign_profile u id w := foreign sp_owner_id u (td_profiles (iw_db w)) id.

Lemma host_row_reads d id r : host_row_ok d id r -> exists ho, host_try_into_domain r = Ok ho /\ ho_owner_id ho = hr_owner_id r.
Proof.
  intros []. unfold port_wf in *. unfold host_try_into_domain, u16_try_from.
  destruct ((0 <=? hr_port r) && (hr_port r <=? u16_max)) eqn:E; [|lia]. cbn.
  destruct (hr_port r =? 0) eqn:E0; bool_props; [lia|]. by eexists.
Qed.

Lemma identity_row_reads d id r :
  identity_row_ok d id r -> exists i, identity_try_into_domain r = Ok i /\ si_owner_id i = ir_owner_id r.
Proof. intros [? ? ? [t Ht] ?]. unfold identity_try_into_domain. rewrite Ht. cbn. by eexists. Qed.

Lemma run_owned_host_foreign u id w :
  answers w -> inv_ok w -> foreign_host u id w ->
  run (InventoryRoutes.owned_host u id) w = (Err (ApiNotFound HOST_ENTITY), w).
Proof.
  intros Ha Hw Hf. unfold InventoryRoutes.owned_host, PgHostRepository.get. rewrite run_try, run_iw_query by done.
  destruct (td_hosts (iw_db w) !! id) as [r|] eqn:E; [|done]. cbn [transpose_row].
  destruct (host_row_reads _ _ _ (ii_hosts _ _ Hw id r E)) as (ho & -> & Ho). cbn.
  rewrite Ho, (proj2 (Z.eqb_neq _ _) (Hf r E)). done.
Qed.

Lemma run_owned_identity_foreign u id w :
  answers w -> inv_ok w -> foreign_identity u id w ->
  run (InventoryRoutes.owned_identity u id) w = (Err (ApiNotFound IDENTITY_ENTITY), w).
Proof.
  intros Ha Hw Hf. unfold InventoryRoutes.owned_identity, PgSshIdentityRepository.get.
  rewrite run_try, run_iw_query by done.
  destruct (td_identities (iw_db w) !! id) as [r|] eqn:E; [|done]. cbn [transpose_row].
  destruct (identity_row_reads _ _ _ (ii_identities _ _ Hw id r E)) as (i & -> & Hi). cbn.
  rewrite Hi, (proj2 (Z.eqb_neq _ _) (Hf r E)). done.
Qed.

Lemma run_owned_profile_foreign u id w :
  answers w -> foreign_profile u id w ->
  run (InventoryRoutes.owned_profile u id) w = (Err (ApiNotFound SERVER_PROFILE_ENTITY), w).
Proof.
  intros Ha Hf. unfold InventoryRoutes.owned_profile, PgServerProfileRepository.get. rewrite run_try, run_iw_query by done.
  cbn [map_err]. destruct (td_profiles (iw_db w) !! id) as [p|] eqn:E; [|done]. cbn.
  by rewrite (proj2 (Z.eqb_neq _ _) (Hf p E)).
Qed.

Lemma run_owned_host u id r w :
  answers w -> inv_ok w -> td_hosts (iw_db w) !! id = Some r -> hr_owner_id r = u ->
  exists ho, run (InventoryRoutes.owned_host u id) w = (Ok ho, w).
Proof.
  intros Ha Hw Hr Hu. unfold InventoryRoutes.owned_host, PgHostRepository.get. rewrite run_try, run_iw_query by done.
  rewrite Hr. cbn [transpose_row]. destruct (host_row_reads _ _ _ (ii_hosts _ _ Hw id r Hr)) as (ho & -> & Ho). cbn.
  rewrite Ho, Hu, Z.eqb_refl. by exists ho.
Qed.

Lemma run_owned_identity u id r w :
  answers w -> inv_ok w -> td_identities (iw_db w) !! id = Some r -> ir_owner_id r = u ->
  exists i, run (InventoryRoutes.owned_identity u id) w = (Ok i, w) /\ identity_try_into_domain r = Ok i.
Proof.
  intros Ha Hw Hr Hu. unfold InventoryRoutes.owned_identity, PgSshIdentityRepository.get.
  rewrite run_try, run_iw_query by done. rewrite Hr. cbn [transpose_row].
  destruct (identity_row_reads _ _ _ (ii_identities _ _ Hw id r Hr)) as (i & -> & Ho). cbn.
  rewrite Ho, Hu, Z.eqb_refl. by exists i.
Qed.

Lemma run_owned_profile u id p w :
  answers w -> td_profiles (iw_db w) !! id = Some p -> sp_owner_id p = u ->
  run (InventoryRoutes.owned_profile u id) w = (Ok p, w).
Proof.
  intros Ha Hp Hu. unfold InventoryRoutes.owned_profile, PgServerProfileRepository.get. rewrite run_try, run_iw_query by done.
  cbn [map_err]. rewrite Hp. cbn. by rewrite Hu, Z.eqb_refl.
Qed.

(** The request [q] of [u] is about a row that does not exist or is not [u]'s; the first one it looks up
    is an [entity]. *)
Inductive hidden_target (u : UserId) (w : InvWorld) : InventoryRoutes.InvRequest -> string -> Prop :=
| hidden_get_host id : foreign_host u id w -> hidden_target u w (InventoryRoutes.QGetHost id) HOST_ENTITY
| hidden_update_host id req input : host_into_update req = Ok input -> foreign_host u id w ->
    hidden_target u w (InventoryRoutes.QUpdateHost id req) HOST_ENTITY
| hidden_delete_host id : foreign_host u id w -> hidden_target u w (InventoryRoutes.QDeleteHost id) HOST_ENTITY
| hidden_get_identity id : foreign_identity u id w ->
    hidden_target u w (InventoryRoutes.QGetIdentity id) IDENTITY_ENTITY
| hidden_update_identity id name v : validate_identity_name name = Ok v -> foreign_identity u id w ->
    hidden_target u w (InventoryRoutes.QUpdateIdentity id name) IDENTITY_ENTITY
| hidden_delete_identity id : foreign_identity u id w ->
    hidden_target u w (InventoryRoutes.QDeleteIdentity id) IDENTITY_ENTITY
| hidden_get_profile id : foreign_profile u id w ->
    hidden_target u w (InventoryRoutes.QGetProfile id) SERVER_PROFILE_ENTITY
| hidden_update_profile id req input : profile_into_update req = Ok input -> foreign_profile u id w ->
    hidden_target u w (InventoryRoutes.QUpdateProfile id req) SERVER_PROFILE_ENTITY
| hidden_delete_profile id : foreign_profile u id w ->
    hidden_target u w (InventoryRoutes.QDeleteProfile id) SERVER_PROFILE_ENTITY
| hidden_disable id : foreign_profile u id w -> hidden_target u w (InventoryRoutes.QDisable id) SERVER_PROFILE_ENTITY
| hidden_enable id : foreign_profile u id w -> hidden_target u w (InventoryRoutes.QEnable id) SERVER_PROFILE_ENTITY
| hidden_create_on_host req input : profile_into_create req u = Ok input -> foreign_host u (np_host_id input) w ->
    hidden_target u w (InventoryRoutes.QCreateProfile req) HOST_ENTITY
| hidden_create_with_identity req input r : profile_into_create req u = Ok input ->
    td_hosts (iw_db w) !! np_host_id input = Some r -> hr_owner_id r = u ->
    foreign_identity u (np_ssh_identity_id input) w ->
    hidden_target u w (InventoryRoutes.QCreateProfile req) IDENTITY_ENTITY
| hidden_move_to_host id req input p hid : profile_into_update req = Ok input ->
    td_profiles (iw_db w) !! id = Some p -> sp_owner_id p = u ->
    up_host_id input = Some hid -> foreign_host u hid w ->
    hidden_target u w (InventoryRoutes.QUpdateProfile id req) HOST_ENTITY
| hidden_switch_identity id req input p iid : profile_into_update req = Ok input ->
    td_profiles (iw_db w) !! id = Some p -> sp_owner_id p = u -> up_host_id input = None ->
    up_ssh_identity_id input = Some iid -> foreign_identity u iid w ->
    hidden_target u w (InventoryRoutes.QUpdateProfile id req) IDENTITY_ENTITY.


(** ** Deleting *)

(** What refers to a row. *)
Definition profile_uses_host (id : HostId) (w : InvWorld) : Prop :=
  exists pid p, td_profiles (iw_db w) !! pid = Some p /\ sp_host_id p = id.
Definition pin_of_host (id : HostId) (w : InvWorld) : Prop :=
  exists kid r, td_known (iw_db w) !! kid = Some r /\ kr_host_id r = id.
Definition profile_uses_identity (id : SshIdentityId) (w : InvWorld) : Prop :=
  exists pid p, td_profiles (iw_db w) !! pid = Some p /\ sp_ssh_identity_id p = id.

Definition session_of_profile (id : ServerProfileId) (w : InvWorld) : Prop :=
  exists s, In s (iw_sessions w) /\ sr_server_profile_id s = id.

Lemma exists_some {A} (f : A -> bool) (m : gmap Z A) id x :
  m !! id = Some x -> f x = true -> existsb f (map_to_list m).*2 = true.
Proof.
  intros Hx Hf. apply existsb_exists. exists x. split; [|done]. apply list_elem_of_In, list_elem_of_fmap.
  exists (id, x). split; [done|]. by apply elem_of_map_to_list.
Qed.

Lemma existsb_map_ext {A} (f g : A -> bool) (m : gmap Z A) :
  (forall id x, m !! id = Some x -> f x = g x) -> existsb f (map_to_list m).*2 = existsb g (map_to_list m).*2.
Proof.
  intros H. assert (Hl : Forall (fun kx => f kx.2 = g kx.2) (map_to_list m)).
  { apply Forall_forall. intros [id x] Hx%elem_of_map_to_list. by apply (H id). }
  induction Hl as [|kx l E _ IH]; [done|]. cbn. by rewrite E, IH.
Qed.

Lemma exists_none_of {A} (f : A -> bool) (m : gmap Z A) :
  (forall id x, m !! id = Some x -> f x = false) -> existsb f (map_to_list m).*2 = false.
Proof.
  intros H. apply existsb_Forall, Forall_forall. intros x ([id y] & -> & Hy)%list_elem_of_fmap.
  apply elem_of_map_to_list in Hy. by apply (H id).
Qed.

(** The state after an audit row was appended. *)
Definition audited_iw (actor : UserId) (kind : AuditEventKind) (payload : json) (w : InvWorld) : InvWorld :=
  set_iw_auth (audited (Some actor) kind payload (iw_auth w)) w.

Lemma run_iw_audit u kind payload w :
  answering (aw_db (iw_auth w)) -> is_Some (a_users (aw_db (iw_auth w)) !! u) ->
  run (InventoryRoutes.audit u kind payload) w = (Ok tt, audited_iw u kind payload w).
Proof.
  intros Ha Hu. unfold InventoryRoutes.audit. rewrite run_bind, run_iw_trust, run_on_auth, run_arepo.
  change (tw_auth (iw_trust w)) with (iw_auth w).
  destruct (audit_create_answers (Some u) kind payload (aw_db (iw_auth w))) as (ev & ->); [done|naive_solver|].
  done.
Qed.

Lemma entered_user h s u w : signed_in cfg h s u (iw_auth w) ->
  answering (aw_db (iw_auth (entered s w))) /\ is_Some (a_users (aw_db (iw_auth (entered s w))) !! us_id u).
Proof.
  intros Hsi. split; [apply (answering_touched cfg h s u), Hsi|].
  rewrite (proj2 (run_signed_in _ _ _ _ _ Hsi)). exists u. apply (si_user _ _ _ _ _ Hsi).
Qed.

Lemma run_iw_update {A} (f : TrustDb -> result RepositoryError A * TrustDb) w :
  answers w ->
  run (InventoryRoutes.repo (trust_execute f)) w
  = (map_err api_of_repository (f (iw_db w)).1, set_iw_db (f (iw_db w)).2 w).
Proof. intros Hf. by rewrite run_iw_repo, trust_execute_answers. Qed.

Lemma run_iw_sessions {A} (f : list SessionRef -> TrustDb -> result RepositoryError A * TrustDb) w :
  answers w ->
  run (InventoryRoutes.repo_sessions (fun s => trust_execute (f s))) w
  = (map_err api_of_repository (f (iw_sessions w) (iw_db w)).1, set_iw_db (f (iw_sessions w) (iw_db w)).2 w).
Proof.
  intros Hf. unfold InventoryRoutes.repo_sessions. rewrite run_bind, run_act, trust_execute_answers by done.
  change (tw_db (iw_trust w)) with (iw_db w). by destruct (f (iw_sessions w) (iw_db w)).
Qed.

(** The foreign keys and the pre-checks, which also compare the owner, find the same references. *)
Lemma host_references id r u w :
  inv_ok w -> td_hosts (iw_db w) !! id = Some r -> hr_owner_id r = u ->
  existsb (fun p => (sp_host_id p =? id) && (sp_owner_id p =? u)) (map_to_list (td_profiles (iw_db w))).*2
  = existsb (fun p => sp_host_id p =? id) (map_to_list (td_profiles (iw_db w))).*2.
Proof.
  intros Hw Hr Hu. apply existsb_map_ext. intros pid p Hp.
  destruct (pk_host _ _ _ (ii_profiles _ _ Hw pid p Hp)) as (r' & Hr' & Ho).
  destruct (sp_host_id p =? id) eqn:E; [|done]. bool_props. subst id. rewrite Hr in Hr'. simplify_eq.
  rewrite Ho. apply Z.eqb_refl.
Qed.

Lemma identity_references id r u w :
  inv_ok w -> td_identities (iw_db w) !! id = Some r -> ir_owner_id r = u ->
  existsb (fun p => (sp_ssh_identity_id p =? id) && (sp_owner_id p =? u)) (map_to_list (td_profiles (iw_db w))).*2
  = existsb (fun p => sp_ssh_identity_id p =? id) (map_to_list (td_profiles (iw_db w))).*2.
Proof.
  intros Hw Hr Hu. apply existsb_map_ext. intros pid p Hp.
  destruct (pk_identity _ _ _ (ii_profiles _ _ Hw pid p Hp)) as (r' & Hr' & Ho).
  destruct (sp_ssh_identity_id p =? id) eqn:E; [|done]. bool_props. subst id. rewrite Hr in Hr'. simplify_eq.
  rewrite Ho. apply Z.eqb_refl.
Qed.

Lemma profile_references id p u w :
  inv_ok w -> td_profiles (iw_db w) !! id = Some p -> sp_owner_id p = u ->
  existsb (fun s => (sr_server_profile_id s =? id) && (sr_owner_id s =? u)) (iw_sessions w)
  = existsb (fun s => sr_server_profile_id s =? id) (iw_sessions w).
Proof.
  intros Hw Hp Hu. pose proof (ii_sessions _ _ Hw) as Hs. induction Hs as [|s l (p' & Hp' & Ho) _ IH]; [done|].
  cbn. rewrite IH. destruct (sr_server_profile_id s =? id) eqn:E; [|done]. bool_props. subst id.
  rewrite Hp in Hp'. simplify_eq. by rewrite Ho, Z.eqb_refl.
Qed.

Lemma cascade_known_none id known :
  map_Forall (fun _ r => kr_host_id r <> id) known -> cascade_known id known = known.
Proof.
  intros Hn. unfold cascade_known. rewrite map_filter_id by (intros i r Hr; by apply (Hn i)).
  apply map_eq. intros i. rewrite lookup_fmap. destruct (known !! i) as [r|] eqn:E; [|done]. cbn. f_equal.
  destruct (kr_replaced_by_id r) as [n|]; [|done]. rewrite bool_decide_eq_false_2; [done|].
  destruct (known !! n) as [r'|] eqn:En; [|done]. intros [=]. by apply (Hn n r').
Qed.

(** One's own rows, and what [delete] answers about them. *)
Lemma run_delete_host h s u id r w :
  signed_in cfg h s u (iw_auth w) -> inv_ok w -> td_hosts (iw_db w) !! id = Some r -> hr_owner_id r = us_id u ->
  run (InventoryRoutes.delete_host cfg h id) w
  = if existsb (fun p => sp_host_id p =? id) (map_to_list (td_profiles (iw_db w))).*2
       || existsb (fun k => kr_host_id k =? id) (map_to_list (td_known (iw_db w))).*2
    then (Err (Conflict HOST_ENTITY (Some "referenced"%string)), entered s w)
    else (Ok RNoContent,
          set_iw_db (set_hosts (base.delete id) (set_known (cascade_known id) (iw_db (entered s w)))) (entered s w)).
Proof.
  intros Hsi Hw Hr Hu. pose proof (entered_answers h s u w Hsi) as Ha. pose proof (entered_inv s w Hw) as Hw'.
  unfold InventoryRoutes.delete_host. rewrite (run_writer h s u), run_try by done.
  destruct (run_owned_host (us_id u) id r (entered s w)) as [ho ->]; [done..|]. rewrite run_try.
  unfold PgHostRepository.any_dependents_for_user. rewrite run_iw_query by done. cbn [map_err].
  rewrite (host_references id r) by done.
  change (td_profiles (iw_db (entered s w))) with (td_profiles (iw_db w)).
  change (td_known (iw_db (entered s w))) with (td_known (iw_db w)).
  destruct (existsb _ _) eqn:Ep; [done|]. cbn [orb].
  destruct (existsb (fun k => kr_host_id k =? id) _) eqn:Ek; [done|].
  rewrite run_try. unfold PgHostRepository.delete. rewrite run_iw_update by done.
  change (td_hosts (iw_db (entered s w))) with (td_hosts (iw_db w)). rewrite Hr. cbn [owned_row]. rewrite Hu, Z.eqb_refl.
  change (td_profiles (iw_db (entered s w))) with (td_profiles (iw_db w)). by rewrite Ep.
Qed.

Lemma run_delete_identity h s u id r i w :
  signed_in cfg h s u (iw_auth w) -> inv_ok w -> td_identities (iw_db w) !! id = Some r ->
  identity_try_into_domain r = Ok i -> ir_owner_id r = us_id u ->
  run (InventoryRoutes.delete_identity cfg h id) w
  = if existsb (fun p => sp_ssh_identity_id p =? id) (map_to_list (td_profiles (iw_db w))).*2
    then (Err (Conflict IDENTITY_ENTITY (Some "referenced"%string)), entered s w)
    else let w1 := audited_iw (us_id u) SshIdentityDeleted (JObj (identity_payload i)) (entered s w) in
         (Ok RNoContent, set_iw_db (set_identities (base.delete id) (iw_db w1)) w1).
Proof.
  intros Hsi Hw Hr Hi Hu. pose proof (entered_answers h s u w Hsi) as Ha. pose proof (entered_inv s w Hw) as Hw'.
  destruct (entered_user h s u w Hsi) as [Ha1 Ha2].
  unfold InventoryRoutes.delete_identity. rewrite (run_writer h s u), run_try by done.
  destruct (run_owned_identity (us_id u) id r (entered s w)) as (i' & -> & Hi'); [done..|]. rewrite run_try.
  rewrite Hi in Hi'. injection Hi' as <-.
  unfold PgSshIdentityRepository.any_dependents_for_user. rewrite run_iw_query by done. cbn [map_err].
  rewrite (identity_references id r) by done.
  change (td_profiles (iw_db (entered s w))) with (td_profiles (iw_db w)).
  destruct (existsb _ _) eqn:Ep; [done|]. cbv zeta. rewrite run_try.
  unfold InventoryRoutes.write_ssh_identity_delete_audit. rewrite run_iw_audit by done. set (w1 := audited_iw _ _ _ _).
  rewrite run_try. unfold PgSshIdentityRepository.delete. rewrite run_iw_update by apply Ha.
  change (td_identities (iw_db w1)) with (td_identities (iw_db w)). rewrite Hr. cbn [owned_row]. rewrite Hu, Z.eqb_refl.
  change (td_profiles (iw_db w1)) with (td_profiles (iw_db w)). by rewrite Ep.
Qed.

Lemma run_delete_profile h s u id p w :
  signed_in cfg h s u (iw_auth w) -> inv_ok w -> td_profiles (iw_db w) !! id = Some p -> sp_owner_id p = us_id u ->
  run (InventoryRoutes.delete_profile cfg h id) w
  = if existsb (fun s => sr_server_profile_id s =? id) (iw_sessions w)
    then (Err (Conflict SERVER_PROFILE_ENTITY (Some "referenced"%string)), entered s w)
    else let w1 := audited_iw (us_id u) ServerProfileDeleted (lifecycle_payload p) (entered s w) in
         (Ok RNoContent, set_iw_db (set_profiles (base.delete id) (iw_db w1)) w1).
Proof.
  intros Hsi Hw Hp Hu. pose proof (entered_answers h s u w Hsi) as Ha. pose proof (entered_inv s w Hw) as Hw'.
  destruct (entered_user h s u w Hsi) as [Ha1 Ha2].
  unfold InventoryRoutes.delete_profile. rewrite (run_writer h s u), run_try by done.
  rewrite (run_owned_profile _ _ p) by done. rewrite run_try.
  unfold PgServerProfileRepository.any_dependents_for_user. rewrite run_iw_sessions by done. cbn [map_err fst snd].
  rewrite (profile_references id p), set_iw_db_id by done.
  change (iw_sessions (entered s w)) with (iw_sessions w).
  destruct (existsb _ _) eqn:Ep; [done|]. cbv zeta. rewrite run_try.
  unfold InventoryRoutes.write_lifecycle_audit. rewrite run_iw_audit by done. set (w1 := audited_iw _ _ _ _).
  rewrite run_try. unfold PgServerProfileRepository.delete. rewrite run_iw_sessions by apply Ha.
  change (td_profiles (iw_db w1)) with (td_profiles (iw_db w)). rewrite Hp. cbn [owned_row]. rewrite Hu, Z.eqb_refl.
  change (iw_sessions w1) with (iw_sessions w). by rewrite Ep.
Qed.

(** C20: a row goes only when nothing refers to it.  Deleting a host of one's own is refused with the
    reason [referenced], and changes nothing, while a profile uses it or a pin of it is stored; otherwise
    the host goes and nothing else.  Deleting an identity is refused while a profile uses it; otherwise it
    goes, its encrypted key with it, after one audit row with its public metadata.  Deleting a profile is
    refused while a terminal session, live or closed, was opened with it; otherwise it goes after one
    audit row. *)
Theorem delete_spares_references h s u id w :
  signed_in cfg h s u (iw_auth w) -> inv_ok w ->
  (forall r, td_hosts (iw_db w) !! id = Some r -> hr_owner_id r = us_id u ->
    let rw := run (InventoryRoutes.delete_host cfg h id) w in
    (profile_uses_host id w \/ pin_of_host id w ->
      rw = (Err (Conflict HOST_ENTITY (Some "referenced"%string)), entered s w))
    /\ (~ profile_uses_host id w -> ~ pin_of_host id w ->
      rw = (Ok RNoContent, set_iw_db (set_hosts (base.delete id) (iw_db (entered s w))) (entered s w))))
  /\ (forall r i, td_identities (iw_db w) !! id = Some r -> identity_try_into_domain r = Ok i -> ir_owner_id r = us_id u ->
    let rw := run (InventoryRoutes.delete_identity cfg h id) w in
    (profile_uses_identity id w -> rw = (Err (Conflict IDENTITY_ENTITY (Some "referenced"%string)), entered s w))
    /\ (~ profile_uses_identity id w ->
      let w1 := audited_iw (us_id u) SshIdentityDeleted (JObj (identity_payload i)) (entered s w) in
      rw = (Ok RNoContent, set_iw_db (set_identities (base.delete id) (iw_db w1)) w1)))
  /\ (forall p, td_profiles (iw_db w) !! id = Some p -> sp_owner_id p = us_id u ->
    let rw := run (InventoryRoutes.delete_profile cfg h id) w in
    (session_of_profile id w -> rw = (Err (Conflict SERVER_PROFILE_ENTITY (Some "referenced"%string)), entered s w))
    /\ (~ session_of_profile id w ->
      let w1 := audited_iw (us_id u) ServerProfileDeleted (lifecycle_payload p) (entered s w) in
      rw = (Ok RNoContent, set_iw_db (set_profiles (base.delete id) (iw_db w1)) w1))).
Proof.
  intros Hsi Hw. split; [|split].
  - intros r Hr Hu. cbv zeta. rewrite (run_delete_host h s u id r) by done. split.
    + intros [(pid & p & Hp & E)|(kid & k & Hk & E)]; [erewrite (exists_some _ _ pid p)|erewrite (exists_some _ _ kid k)];
        try done; try (by apply Z.eqb_eq). by rewrite orb_true_r.
    + intros Hp Hk. rewrite !exists_none_of.
      * unfold set_known at 1. rewrite cascade_known_none; [by destruct (iw_db (entered s w))|]. intros kid k E ?. apply Hk. by exists kid, k.
      * intros kid k E. apply Z.eqb_neq. intros ?. apply Hk. by exists kid, k.
      * intros pid p E. apply Z.eqb_neq. intros ?. apply Hp. by exists pid, p.
  - intros r i Hr Hi Hu. cbv zeta. rewrite (run_delete_identity h s u id r i) by done. split.
    + intros (pid & p & Hp & E). erewrite (exists_some _ _ pid p); [done..|]. by apply Z.eqb_eq.
    + intros Hp. rewrite exists_none_of; [done|]. intros pid p E. apply Z.eqb_neq. intros ?. apply Hp. by exists pid, p.
  - intros p Hp Hu. cbv zeta. rewrite (run_delete_profile h s u id p) by done. split.
    + intros (r & Hr & E). rewrite (proj2 (existsb_exists _ _)); [done|]. exists r. split; [done|]. by apply Z.eqb_eq.
    + intros Hs. destruct (existsb _ _) eqn:E; [|done]. apply existsb_exists in E as (r & Hr & E).
      destruct Hs. exists r. split; [done|]. by apply Z.eqb_eq.
Qed.

(** ** Changing a profile *)

(** The bodies that [PATCH] accepts. *)
Record accepted (req : UpdateServerProfileRequest) : Prop := {
  ac_name : forall n, upr_name req = Some n -> label_wf 64 n;
  ac_username : forall v, upr_username_override req = Some (Some v) -> username_wf v;
  ac_tags : forall l, upr_tags req = Some l -> tags_wf l;
  ac_some : is_none (upr_name req) && is_none (upr_host_id req) && is_none (upr_ssh_identity_id req)
            && is_none (upr_username_override req) && is_none (upr_tags req) = false
}.

(** What the row becomes: a field that the body names is replaced, [null] included, the others stay. *)
Definition patched (req : UpdateServerProfileRequest) (now : Z) (p : ServerProfile) : ServerProfile :=
  mkServerProfile (sp_id p) (sp_owner_id p) (default (sp_name p) (upr_name req))
    (default (sp_host_id p) (upr_host_id req)) (default (sp_ssh_identity_id p) (upr_ssh_identity_id req))
    (default (sp_username_override p) (upr_username_override req)) (default (sp_tags p) (upr_tags req))
    (sp_created_at p) now (sp_last_connected_at p) (sp_disabled_at p).

Definition update_input (req : UpdateServerProfileRequest) : UpdateServerProfile :=
  mkUpdateProfile (upr_name req) (upr_host_id req) (upr_ssh_identity_id req)
    (match upr_username_override req with None => Unchanged | Some v => SetTo v end) (upr_tags req).

Lemma patched_coalesce req now p : coalesce_profile (update_input req) now p = patched req now p.
Proof. unfold coalesce_profile, patched, update_input. cbn. by destruct (upr_username_override req). Qed.

Lemma validate_opt_exact {A} (validate : A -> result ValidationError A) (P : A -> Prop) o o' :
  (forall a b, validate a = Ok b <-> b = a /\ P a) ->
  validate_opt validate o = Ok o' <-> o' = o /\ forall a, o = Some a -> P a.
Proof.
  intros Hv. split; [by apply validate_opt_ok|]. intros [-> Ho]. destruct o as [a|]; [|done]. cbn.
  by rewrite (proj2 (Hv a a) (conj eq_refl (Ho a eq_refl))).
Qed.

Lemma override_exact (o : option (option rstr)) v :
  match o with
  | None => Ok Unchanged
  | Some None => Ok (SetTo None)
  | Some (Some raw) => let? u := map_err api_of_validation (validate_ssh_username raw) in Ok (SetTo (Some u))
  end = Ok v
  <-> v = match o with None => Unchanged | Some x => SetTo x end /\ forall u, o = Some (Some u) -> username_wf u.
Proof.
  destruct o as [[raw|]|]; cbn.
  - rewrite result_bind_ok. setoid_rewrite map_err_ok. setoid_rewrite validate_ssh_username_exact. naive_solver.
  - naive_solver.
  - naive_solver.
Qed.

Lemma profile_into_update_exact req input :
  profile_into_update req = Ok input <-> input = update_input req /\ accepted req.
Proof.
  unfold profile_into_update. rewrite result_bind_ok.
  setoid_rewrite (validate_opt_exact _ _ _ _ validate_profile_name_exact).
  setoid_rewrite result_bind_ok. setoid_rewrite override_exact. setoid_rewrite result_bind_ok.
  setoid_rewrite (validate_opt_exact _ _ _ _ validate_tags_exact).
  assert (Hu : is_unchanged (match upr_username_override req with None => Unchanged | Some x => SetTo x end)
               = is_none (upr_username_override req)) by (by destruct (upr_username_override req)).
  split.
  - intros (n & [-> H1] & v & [-> H2] & t & [-> H3] & H). rewrite Hu in H.
    destruct (_ && _) eqn:E; [done|]. injection H as <-. by split.
  - intros [-> [H1 H2 H3 H4]]. eexists. split; [done|]. eexists. split; [done|]. eexists. split; [done|].
    by rewrite Hu, H4.
Qed.

Lemma profile_into_update_refuses req :
  ~ accepted req -> exists detail, profile_into_update req = Err (Validation detail).
Proof.
  intros Hn. destruct (profile_into_update req) as [input|e] eqn:E.
  { by apply profile_into_update_exact in E as [_ ?]. }
  unfold profile_into_update in E. clear Hn.
  destruct (upr_name req) as [n|]; cbn in E; [destruct (validate_profile_name n); cbn in E; [|by simplify_eq; eexists]|];
  (destruct (upr_username_override req) as [[raw|]|]; cbn in E;
   [destruct (validate_ssh_username raw); cbn in E; [|by simplify_eq; eexists]| |]);
  (destruct (upr_tags req) as [l|]; cbn in E; [destruct (validate_tags l); cbn in E; [|by simplify_eq; eexists]|]);
  try destruct (_ && _); simplify_eq; by eexists.
Qed.

(** Another profile of the owner has the name. *)
Definition name_taken (p : ServerProfile) (w : InvWorld) : Prop :=
  exists id q, td_profiles (iw_db w) !! id = Some q /\ id <> sp_id p /\ sp_owner_id q = sp_owner_id p
    /\ sp_name q = sp_name p.

Definition own_host (u : UserId) (w : InvWorld) (id : HostId) : Prop :=
  exists r, td_hosts (iw_db w) !! id = Some r /\ hr_owner_id r = u.
Definition own_identity (u : UserId) (w : InvWorld) (id : SshIdentityId) : Prop :=
  exists r, td_identities (iw_db w) !! id = Some r /\ ir_owner_id r = u.

Lemma run_rebind_host u o w :
  answers w -> inv_ok w -> (forall id, o = Some id -> own_host u w id) ->
  run (match o with
       | Some id => do? _ <- InventoryRoutes.owned_host u id; Ret (Ok tt)
       | None => Ret (Ok tt)
       end : prog InvWorld (result ApiError unit)) w = (Ok tt, w).
Proof.
  intros Ha Hw Ho. destruct o as [id|]; [|done]. destruct (Ho id eq_refl) as (r & Hr & Hu).
  rewrite run_try. by destruct (run_owned_host u id r w Ha Hw Hr Hu) as [ho ->].
Qed.

Lemma run_rebind_identity u o w :
  answers w -> inv_ok w -> (forall id, o = Some id -> own_identity u w id) ->
  run (match o with
       | Some id => do? _ <- InventoryRoutes.owned_identity u id; Ret (Ok tt)
       | None => Ret (Ok tt)
       end : prog InvWorld (result ApiError unit)) w = (Ok tt, w).
Proof.
  intros Ha Hw Ho. destruct o as [id|]; [|done]. destruct (Ho id eq_refl) as (r & Hr & Hu).
  rewrite run_try. by destruct (run_owned_identity u id r w Ha Hw Hr Hu) as (i & -> & _).
Qed.

(** The constraints of [server_profiles] on a row whose owner, host and identity exist. *)
Lemma profile_write_error_exact p w :
  inv_ok w -> user_exists (iw_db w) (sp_owner_id p) -> own_host (sp_owner_id p) w (sp_host_id p) ->
  own_identity (sp_owner_id p) w (sp_ssh_identity_id p) ->
  (name_taken p w -> profile_write_error p (iw_db w) = Some (UniqueViolation (Some "server_profiles_owner_name_key"%string)))
  /\ (~ name_taken p w -> profile_write_error p (iw_db w) = None).
Proof.
  intros Hw Hu (hr & Hh & _) (ir & Hi & _). unfold profile_write_error. split.
  - intros (id & q & Hq & Hne & Ho & Hn). erewrite (exists_some _ _ id q); [done..|]. apply bool_decide_eq_true.
    by rewrite (pk_id _ _ _ (ii_profiles _ _ Hw id q Hq)).
  - intros Hn. rewrite exists_none_of.
    + unfold owner_exists. by rewrite !bool_decide_eq_true_2.
    + intros id q Hq. apply bool_decide_eq_false. intros (H1 & H2 & H3). apply Hn. exists id, q.
      by rewrite <- (pk_id _ _ _ (ii_profiles _ _ Hw id q Hq)) at 2.
Qed.

(** C21: [PATCH] of a profile of one's own.  A body that names no field, or a value that the validators
    refuse, is a 400 that changes nothing.  An accepted body that points at rows of the caller either
    collides with the name of another profile of the caller, a 409 that changes nothing, or changes
    exactly the fields it names, an explicit [null] user name included, and the time of the update, and
    appends one audit row; every other row stays. *)
Theorem profile_patch_exact h s u id p req w :
  signed_in cfg h s u (iw_auth w) -> inv_ok w ->
  td_profiles (iw_db w) !! id = Some p -> sp_owner_id p = us_id u ->
  (forall hid, upr_host_id req = Some hid -> own_host (us_id u) w hid) ->
  (forall iid, upr_ssh_identity_id req = Some iid -> own_identity (us_id u) w iid) ->
  let rw := run (InventoryRoutes.update_profile cfg h id req) w in
  let p' := patched req (td_now (iw_db w)) p in
  (~ accepted req -> exists detail, rw = (Err (Validation detail), entered s w))
  /\ (accepted req -> name_taken p' w -> rw = (Err (Conflict SERVER_PROFILE_ENTITY None), entered s w))
  /\ (accepted req -> ~ name_taken p' w ->
      let w1 := set_iw_db (set_profiles <[id := p']> (iw_db (entered s w))) (entered s w) in
      rw = (Ok (RProfile 200 (profile_response p')),
            audited_iw (us_id u) ServerProfileUpdated (lifecycle_payload p') w1)).
Proof.
  intros Hsi Hw Hp Hu Hh Hi rw p'. pose proof (entered_answers h s u w Hsi) as Ha. pose proof (entered_inv s w Hw) as Hw'.
  destruct (entered_user h s u w Hsi) as [Ha1 Ha2].
  assert (Hrun : accepted req -> rw = run (do? updated <- InventoryRoutes.repo (PgServerProfileRepository.update id (us_id u) (update_input req));
    do? _ <- InventoryRoutes.write_lifecycle_audit (us_id u) ServerProfileUpdated updated;
    Ret (Ok (RProfile 200 (profile_response updated)))) (entered s w)).
  { intros Hacc. unfold rw, InventoryRoutes.update_profile. rewrite (run_writer h s u), run_try by done. cbn [run].
    rewrite (proj2 (profile_into_update_exact req _) (conj eq_refl Hacc)).
    rewrite run_try, (run_owned_profile _ _ p) by done. rewrite run_try, run_rebind_host by done.
    by rewrite run_try, run_rebind_identity by done. }
  assert (Hown : own_host (sp_owner_id p') (entered s w) (sp_host_id p')
                 /\ own_identity (sp_owner_id p') (entered s w) (sp_ssh_identity_id p')).
  { pose proof (ii_profiles _ _ Hw id p Hp) as Hpk. split; unfold p', patched; cbn [sp_owner_id sp_host_id sp_ssh_identity_id].
    - rewrite Hu. destruct (upr_host_id req) as [hid|]; [by apply Hh|]. rewrite <- Hu. apply (pk_host _ _ _ Hpk).
    - rewrite Hu. destruct (upr_ssh_identity_id req) as [iid|]; [by apply Hi|]. rewrite <- Hu. apply (pk_identity _ _ _ Hpk). }
  assert (Hpu : user_exists (iw_db (entered s w)) (sp_owner_id p')) by (cbn; by rewrite Hu).
  destruct (profile_write_error_exact p' (entered s w) Hw' Hpu (proj1 Hown) (proj2 Hown)) as [Ht Hnt].
  unfold PgServerProfileRepository.update, PgServerProfileRepository.update_with in Hrun.
  split; [|split].
  - intros Hn. destruct (profile_into_update_refuses req Hn) as [d E]. exists d.
    unfold rw, InventoryRoutes.update_profile. rewrite (run_writer h s u), run_try by done. cbn [run]. by rewrite E.
  - intros Hacc Htk. rewrite (Hrun Hacc), run_try, run_iw_update by done.
    change (td_profiles (iw_db (entered s w))) with (td_profiles (iw_db w)). rewrite Hp. cbn [owned_row].
    rewrite Hu, Z.eqb_refl, patched_coalesce. change (td_now (iw_db (entered s w))) with (td_now (iw_db w)). fold p'.
    rewrite (Ht Htk). cbn [fst snd map_err]. by rewrite set_iw_db_id.
  - intros Hacc Htk. rewrite (Hrun Hacc), run_try, run_iw_update by done.
    change (td_profiles (iw_db (entered s w))) with (td_profiles (iw_db w)). rewrite Hp. cbn [owned_row].
    rewrite Hu, Z.eqb_refl, patched_coalesce. change (td_now (iw_db (entered s w))) with (td_now (iw_db w)). fold p'.
    rewrite (Hnt Htk). cbn [fst snd map_err]. rewrite run_try. unfold InventoryRoutes.write_lifecycle_audit.
    by rewrite run_iw_audit.
Qed.

End spec.
