(* ===== verification/InventoryScenario.v ===== *)
(** * The inventory routes on a small deployment

    Alice's profile, host and identity, and Bob's requests for them: the theorems of [KeyVault.v],
    [InventorySafety.v] and [InventorySpec.v] at concrete inputs, with toy primitives in the place of the
    SSH key library, of [Debug] and of Postgres' collation. *)

From S2P Require Import Prelude Validation Utf8 Core PgSession Throttle Prog AuthStore Auth AuthRoutes AuthSafety AuthSpec.
From S2P Require Import Inventory Vault HostKey KeyVault TrustRoutes InventoryRoutes Frames InventorySafety TrustSafety TrustSpec.
From S2P Require Import InventorySpec.

#[local] Existing Instance toy_crypto.
#[local] Existing Instance toy_lower.
#[local] Existing Instance toy_aead.
#[local] Existing Instance toy_russh.

#[local] Instance toy_debug : RustDebug := {| char_debug c := [39; c; 39]; str_debug s := 34 :: s ++ [34] |}.
#[local] Instance toy_collation : PgCollation := fun a b => bool_decide (length a <= length b)%nat.

(** A private key is its comment and its text; the text starts with a [K], or a [P] when it is encrypted. *)
#[local] Instance toy_keys : SshKeys := {|
  PrivateKey := (rstr * rstr)%type;
  key_random bytes := Some ([], 75 :: map byte_val bytes);
  key_from_openssh t := match t with 75 :: _ | 80 :: _ => Some ([], t) | _ => None end;
  key_is_encrypted k := bool_decide (head k.2 = Some 80);
  key_algorithm _ := AlgEd25519;
  key_set_comment c k := (c, k.2);
  key_public_openssh k := Some (lit "ssh-ed25519 " ++ k.1);
  key_fingerprint k := lit "SHA256:" ++ k.2;
  key_to_openssh k := Some k.2
|}.

Definition toy_inventory (known : gmap KnownHostEntryId KnownHostEntryRow) (sessions : list SessionRef) : InvWorld :=
  mkInv (toy_trust known) sessions.

Lemma label_ok s : validate_profile_name s = Ok s -> label_wf 64 s.
Proof. by intros [_ ?]%validate_profile_name_exact. Qed.

Lemma toy_host_row_ok known : host_row_ok (tw_db (toy_trust known)) 50 toy_host_row.
Proof.
  split; [done|done|by exists alice| | |done|].
  - refine (proj2 (proj1 (validate_host_display_name_exact _ _) _)). by vm_compute.
  - refine (proj2 (proj1 (validate_hostname_exact _ _) _)). by vm_compute.
  - refine (proj2 (proj1 (validate_ssh_username_exact _ _) _)). by vm_compute.
Qed.

Lemma toy_identity_row_ok known : identity_row_ok (tw_db (toy_trust known)) 60 toy_identity_row.
Proof. split; [done|done|by exists alice|by eexists|]. apply label_ok. by vm_compute. Qed.

Lemma toy_profile_ok known : profile_ok (tw_db (toy_trust known)) 70 toy_profile.
Proof.
  split; [done|done|by exists alice| |done| |by exists toy_host_row|by exists toy_identity_row].
  - apply label_ok. by vm_compute.
  - refine (proj2 (proj1 (validate_tags_exact _ _) _)). by vm_compute.
Qed.

Lemma toy_inventory_ok known sessions :
  map_Forall (fun id r => kr_id r = id /\ kr_host_id r = 50) known ->
  Forall (fun s => sr_server_profile_id s = 70 /\ sr_owner_id s = 1) sessions -> inv_ok (toy_inventory known sessions).
Proof.
  intros Hk Hs. split; cbn [iw_db iw_trust toy_inventory].
  - apply map_Forall_singleton, toy_host_row_ok.
  - apply map_Forall_singleton, toy_identity_row_ok.
  - change (td_identities (iw_db (toy_inventory known sessions))) with ({[ 60 := toy_identity_row ]} : gmap Z SshIdentityRow).
    intros i j r r' [<- _]%lookup_singleton_Some [<- _]%lookup_singleton_Some. done.
  - apply map_Forall_singleton, toy_profile_ok.
  - change (td_profiles (iw_db (toy_inventory known sessions))) with ({[ 70 := toy_profile ]} : gmap Z ServerProfile).
    intros i j r r' [<- _]%lookup_singleton_Some [<- _]%lookup_singleton_Some. done.
  - intros i r Hr. by apply (Hk i).
  - intros i r Hr. destruct (Hk i r Hr) as [_ ->]. by exists toy_host_row.
  - eapply Forall_impl; [exact Hs|]. cbn. intros s [-> ->]. by exists toy_profile.
Qed.

Definition bob_browser : Headers := from_browser (Some (lit "relayterm_session=CCCC")).

Lemma bob_signed_in : signed_in toy_cfg bob_browser bob_session bob (toy_world toy_db).
Proof.
  split; [apply toy_inv|apply toy_answering|by vm_compute| |by vm_compute|by vm_compute|by vm_compute].
  exists (lit "CCCC"). by vm_compute.
Qed.


(** Alice deletes the host that her profile uses. *)
Lemma delete_spares_references_witness :
  run (InventoryRoutes.delete_host toy_cfg alice_browser 50) (toy_inventory rsa_pin [])
  = (Err (Conflict HOST_ENTITY (Some "referenced"%string)), entered alice_session (toy_inventory rsa_pin [])).
Proof.
  destruct (delete_spares_references toy_cfg alice_browser alice_session alice 50 (toy_inventory rsa_pin [])) as [H _].
  - exact toy_signed_in.
  - apply toy_inventory_ok; [toy_compute|constructor].
  - apply (proj1 (H toy_host_row ltac:(by vm_compute) ltac:(done))). left. by exists 70, toy_profile.
Defined.

(** Alice clears the user name of her profile and renames it. *)
Definition rename_request : UpdateServerProfileRequest :=
  mkUpdateProfileReq (Some (lit "staging")) None None (Some None) None.

Lemma profile_patch_exact_witness :
  let p' := patched rename_request 500 toy_profile in
  (run (InventoryRoutes.update_profile toy_cfg alice_browser 70 rename_request) (toy_inventory rsa_pin [])).1
  = Ok (RProfile 200 (profile_response p')).
Proof.
  destruct (profile_patch_exact toy_cfg alice_browser alice_session alice 70 toy_profile rename_request
              (toy_inventory rsa_pin [])) as (_ & _ & H); [exact toy_signed_in| |by vm_compute|done|done|done|].
  - apply toy_inventory_ok; [toy_compute|constructor].
  - assert (Hacc : accepted rename_request).
    { split; [|done|done|done]. intros n [= <-]. apply label_ok. by vm_compute. }
    cbv zeta. rewrite (H Hacc); [done|]. intros (id & q & Hq & Hne & _). 
    change (td_profiles _) with ({[ 70 := toy_profile ]} : gmap Z ServerProfile) in Hq.
    apply lookup_singleton_Some in Hq as [<- <-]. done.
Defined.

Definition alice_creates : prog InvWorld unit :=
  do! _ <- InventoryRoutes.serve toy_cfg toy_vault alice_browser
             (InventoryRoutes.QCreateIdentity (mkCreateIdentityReq (lit "laptop") None)); Ret tt.

Lemma inventory_history_witness :
  exists c, reachable (inventory_starts toy_svc toy_cfg toy_vault) (toy_inventory rsa_pin [mkSessionRef 1 70]) c
    /\ p_threads c <> [] /\ inv_ok (p_world c) /\ inv_step (toy_inventory rsa_pin [mkSessionRef 1 70]) (p_world c).
Proof.
  set (w := toy_inventory rsa_pin [mkSessionRef 1 70]). set (c := mkPool w [alice_creates]).
  assert (Hr : reachable (inventory_starts toy_svc toy_cfg toy_vault) w c).
  { apply rtc_once, (pstep_start _ _ _ []), start_inventory_request. }
  exists c. split; [done|]. split; [done|].
  apply (inventory_history toy_svc toy_cfg toy_vault w c); [|done].
  apply toy_inventory_ok; [toy_compute|by repeat constructor].
Defined.

Lemma vault_keeps_identity_witness :
  exists g, generate_ssh_identity toy_master [Byte.x41] toy_nonce Ed25519 (lit "laptop") = Ok g
    /\ holds_key toy_master g (lit "laptop", lit "KA").
Proof.
  eexists. split; [vm_compute; reflexivity|].
  match goal with |- holds_key _ ?g _ => destruct (vault_keeps_identity toy_master [Byte.x41] toy_nonce [] Ed25519 (lit "laptop") g) as [H _] end.
  - exact toy_aead_laws.
  - done.
  - destruct H as (_ & key & Hk & H); [by vm_compute|]. injection Hk as <-. exact H.
Defined.

(** ** A host that takes a pin with it *)

Definition pins_host : prog InvWorld unit :=
  InventoryRoutes.on_trust
    (do! _ <- TrustRoutes.serve (Pb := RusshHostKeyProbe) (Ck := RusshAuthChecker) toy_cfg toy_vault alice_browser 70
                (TrustRoutes.QTrust (lit "SHA256:new-key")); Ret tt).
Definition drops_profile : prog InvWorld unit :=
  do! _ <- InventoryRoutes.serve toy_cfg toy_vault alice_browser (InventoryRoutes.QDeleteProfile 70); Ret tt.
Definition drops_host : prog InvWorld unit :=
  do! _ <- InventoryRoutes.serve toy_cfg toy_vault alice_browser (InventoryRoutes.QDeleteHost 50); Ret tt.

(** The request that trusts the key is dialling while the profile is deleted and the host is found free. *)
Definition unpinned : InvWorld := toy_inventory ∅ [].
Definition in_flight : prog InvWorld unit * InvWorld := advance 9 pins_host unpinned.
Definition checked : prog InvWorld unit * InvWorld := advance 6 drops_host (run drops_profile in_flight.2).2.
Definition pinned : InvWorld := (run in_flight.1 checked.2).2.
Definition pin_lost : InvWorld := (run checked.1 pinned).2.

Definition live_pins (host : HostId) (w : InvWorld) : list KnownHostEntryId :=
  (filter (fun x => row_active x.2 = true /\ kr_host_id x.2 = host) (map_to_list (td_known (iw_db w)))).*1.

(** The check that no pin of a host is stored is not part of its deletion, and no constraint stands
    behind it: a pin that is written in between goes with the host.  A user deletes a profile and its
    host while a request that trusts the host's key is dialling; the pin is recorded and active, and when
    all three requests have ended the host, and the row of the pin with it, are gone. *)
Theorem host_delete_drops_pin :
  exists c1 c2, reachable (inventory_starts toy_svc toy_cfg toy_vault) unpinned c1
    /\ live_pins 50 (p_world c1) <> []
    /\ rtc (pstep (inventory_starts toy_svc toy_cfg toy_vault)) c1 c2
    /\ td_known (iw_db (p_world c2)) = ∅ /\ td_hosts (iw_db (p_world c2)) !! 50 = None.
Proof.
  exists (mkPool pinned [Ret tt; Ret tt; checked.1]), (mkPool pin_lost [Ret tt; Ret tt; Ret tt]).
  destruct (reachable_overtaken (inventory_starts toy_svc toy_cfg toy_vault) unpinned pins_host drops_profile
    drops_host 9 6 in_flight.2 (run drops_profile in_flight.2).2 checked.2 in_flight.1 checked.1) as [H1 H2].
  - intros w. apply start_trust_request.
  - intros w. apply start_inventory_request.
  - intros w. apply start_inventory_request.
  - apply surjective_pairing.
  - done.
  - apply surjective_pairing.
  - split; [exact H1|]. split; [by vm_compute|]. split; [exact H2|]. split; by vm_compute.
Qed.
