(* ===== verification/Messages.v ===== *)
(** * The messages on a terminal's WebSocket

    The JSON control plane of [crates/relayterm-protocol/src/lib.rs]: what a client sends, what the
    server answers, and the trees that [serde] makes of the answers.  Parsing a client's text is
    [serde_json]'s work and a parameter ([ClientJson]). *)

From S2P Require Import Prelude Core.

(** [ErrorCode] *)
Inductive ErrorCode :=
| EcInvalidMessage | EcInvalidInput | EcPtyNotImplemented | EcPtyNotLive | EcSshStartFailed | EcInternal.

#[export] Instance ErrorCode_eq_dec : EqDecision ErrorCode.
Proof. solve_decision. Defined.

(** [ErrorCode::as_str] *)
Definition error_code_as_str (c : ErrorCode) : string :=
  match c with
  | EcInvalidMessage => "invalid_message"
  | EcInvalidInput => "invalid_input"
  | EcPtyNotImplemented => "pty_not_implemented"
  | EcPtyNotLive => "pty_not_live"
  | EcSshStartFailed => "ssh_start_failed"
  | EcInternal => "internal"
  end.

(** [AckKind] *)
Inductive AckKind := AkResize.

(** [SessionAttachStatus] *)
Inductive SessionAttachStatus := AttachedStub | AttachedActive.

#[export] Instance SessionAttachStatus_eq_dec : EqDecision SessionAttachStatus.
Proof. solve_decision. Defined.

(** [ClientMsg] *)
Inductive ClientMsg :=
| CPing
| CAttach (session_id : option TerminalSessionId) (last_seen_seq : option Z) (client_id : option rstr)
| CInput (data : rstr)
| CResize (cols rows : Z)
| CDetach
| CClose.

(** [ServerMsg] *)
Inductive ServerMsg :=
| SPong
| SSessionAttached (session_id : TerminalSessionId) (attachment_id : TerminalSessionAttachmentId)
    (status : SessionAttachStatus) (message : string)
| SAck (kind : AckKind)
| SOutput (seq : Z) (data : rstr)
| SReplayStart (from_seq to_seq : Z)
| SReplayEnd (latest_seq : Z)
| SReplayWindowLost (requested_seq : Z) (oldest_available_seq : option Z) (latest_seq : Z)
| SSessionDetached (session_id : TerminalSessionId) (attachment_id : TerminalSessionAttachmentId)
| SSessionClosed (session_id : TerminalSessionId)
| SError (code : ErrorCode) (message : string).

(** [serde_json::from_str::<ClientMsg>] *)
Class ClientJson := client_msg_from_str : rstr -> option ClientMsg.

(** A [SeqNo] is a [u64], so a bookmark that parses is in its range. *)
Class ClientJsonLaws {CJ : ClientJson} : Prop :=
  bookmark_u64 text sid b cid : client_msg_from_str text = Some (CAttach sid (Some b) cid) -> is_u64 b.

(** ** The answers as JSON

    [#[serde(tag = "type", rename_all = "snake_case")]]: an object whose first field is the tag. *)

Definition attach_status_json (s : SessionAttachStatus) : json :=
  JStr (lit (match s with AttachedStub => "attached_stub" | AttachedActive => "active" end)).

Definition tagged (tag : string) (fields : list (string * json)) : json :=
  JObj (("type"%string, JStr (lit tag)) :: fields).

Definition server_msg_json (m : ServerMsg) : json :=
  match m with
  | SPong => tagged "pong" []
  | SSessionAttached sid aid status message =>
      tagged "session_attached" [("session_id"%string, JUuid sid); ("attachment_id"%string, JUuid aid);
                                 ("status"%string, attach_status_json status);
                                 ("message"%string, JStr (lit message))]
  | SAck AkResize => tagged "ack" [("kind"%string, JStr (lit "resize"))]
  | SOutput seq data => tagged "output" [("seq"%string, JNum seq); ("data"%string, JStr data)]
  | SReplayStart a b => tagged "replay_start" [("from_seq"%string, JNum a); ("to_seq"%string, JNum b)]
  | SReplayEnd n => tagged "replay_end" [("latest_seq"%string, JNum n)]
  | SReplayWindowLost r o n =>
      tagged "replay_window_lost" [("requested_seq"%string, JNum r);
                                   ("oldest_available_seq"%string, json_opt JNum o);
                                   ("latest_seq"%string, JNum n)]
  | SSessionDetached sid aid =>
      tagged "session_detached" [("session_id"%string, JUuid sid); ("attachment_id"%string, JUuid aid)]
  | SSessionClosed sid => tagged "session_closed" [("session_id"%string, JUuid sid)]
  | SError code message =>
      tagged "error" [("code"%string, JStr (lit (error_code_as_str code)));
                      ("message"%string, JStr (lit message))]
  end.

(** Text literals keep their characters apart. *)
Lemma lit_inj s t : lit s = lit t -> s = t.
Proof.
  unfold lit. intros H. rewrite <- (String.string_of_list_ascii_of_string s), <- (String.string_of_list_ascii_of_string t).
  f_equal. apply (list_fmap_eq_inj (fun a => Z.of_N (Ascii.N_of_ascii a))); [|exact H].
  intros a b Hab. rewrite <- (Ascii.ascii_N_embedding a), <- (Ascii.ascii_N_embedding b).
  f_equal. lia.
Qed.

Lemma error_code_as_str_inj c c' : error_code_as_str c = error_code_as_str c' -> c = c'.
Proof. by destruct c, c'. Qed.
