(* ===== verification/TrustWire.v ===== *)
(** * The answers of the host-key routes on the wire

    Models what [Json] makes of the answers of [TrustRoutes.v]: the wire enums, the messages and the fields of
    [crates/relayterm-api/src/dto/preflight.rs] and [auth_check.rs]. *)

From S2P Require Import Prelude Core Inventory HostKey AuthRoutes TrustRoutes TrustSpec Messages.

(** ** The tags and the messages *)

(** [HostKeyStatusWire], serialised *)
Definition host_key_status_wire (s : HostKeyStatus) : string :=
  match s with HkUnknown => "unknown" | HkTrusted => "trusted" | HkChanged => "changed" end.

(** A dash *)
Definition em_dash : rstr := [8212].

(** [HostKeyPreflightResponse::message_for] *)
Definition preflight_message_for (s : HostKeyStatus) : rstr :=
  match s with
  | HkUnknown => lit "host key not yet pinned; KEX-stage probe only " ++ em_dash
      ++ lit " SSH authentication and session readiness were not validated"
  | HkTrusted => lit "host key matches a trusted pinned entry; KEX-stage probe only " ++ em_dash
      ++ lit " SSH authentication and session readiness were not validated"
  | HkChanged => lit "host key differs from the pinned entry; refusing to trust automatically " ++ em_dash
      ++ lit " pin was NOT updated"
  end.

(** [AuthCheckStatusWire], serialised *)
Definition auth_check_status_wire (s : SshAuthCheckStatus) : string :=
  match s with
  | AcAuthenticationSucceeded => "authentication_succeeded"
  | AcAuthenticationFailed => "authentication_failed"
  | AcHostKeyUnknown => "host_key_unknown"
  | AcHostKeyChanged => "host_key_changed"
  | AcConnectionFailed => "connection_failed"
  end.

(** [AuthCheckResponse::message_for] *)
Definition auth_check_message_for (s : SshAuthCheckStatus) : string :=
  match s with
  | AcAuthenticationSucceeded => "ssh public-key authentication succeeded; no PTY was allocated and no command was executed"
  | AcAuthenticationFailed => "ssh public-key authentication was rejected by the server"
  | AcHostKeyUnknown => "host key is not pinned and trusted; trust the host key first via the trust-host-key endpoint"
  | AcHostKeyChanged => "host key differs from the pinned entry; refusing to authenticate against an unverified peer"
  | AcConnectionFailed => "ssh transport failed before authentication could complete"
  end.

(** ** The bodies *)

Definition text (s : string) : json := JStr (lit s).

(** [Serialize] of the four responses, fields in the order of their declaration *)
Definition trust_response_json (r : TrustResponse) : json :=
  match r with
  | RPreflight profile_id host_id hostname port status key_type fingerprint pin =>
      JObj [("profile_id"%string, JUuid profile_id); ("host_id"%string, JUuid host_id);
            ("hostname"%string, JStr hostname); ("port"%string, JNum port);
            ("host_key_status"%string, text (host_key_status_wire status));
            ("host_key_type"%string, text (key_type_as_str key_type));
            ("host_key_fingerprint"%string, JStr fingerprint);
            ("active_pin_fingerprint"%string, json_opt JStr pin);
            ("message"%string, JStr (preflight_message_for status))]
  | RTrust entry host_id key_type fingerprint trusted_at =>
      JObj [("known_host_entry_id"%string, JUuid entry); ("host_id"%string, JUuid host_id);
            ("host_key_type"%string, text (key_type_as_str key_type));
            ("host_key_fingerprint"%string, JStr fingerprint); ("trusted_at"%string, JTime trusted_at)]
  | RReplace profile_id host_id revoked revoked_fp trusted trusted_fp key_type trusted_at =>
      JObj [("profile_id"%string, JUuid profile_id); ("host_id"%string, JUuid host_id);
            ("revoked_known_host_entry_id"%string, JUuid revoked); ("revoked_fingerprint"%string, JStr revoked_fp);
            ("trusted_known_host_entry_id"%string, JUuid trusted); ("trusted_fingerprint"%string, JStr trusted_fp);
            ("host_key_type"%string, text (key_type_as_str key_type)); ("trusted_at"%string, JTime trusted_at)]
  | RAuthCheck profile_id host_id identity status checked_at =>
      JObj [("profile_id"%string, JUuid profile_id); ("host_id"%string, JUuid host_id);
            ("ssh_identity_id"%string, JUuid identity); ("status"%string, text (auth_check_status_wire status));
            ("message"%string, JStr (lit (auth_check_message_for status))); ("checked_at"%string, JTime checked_at)]
  end.

(** ** Nothing is lost on the wire *)

Lemma host_key_status_wire_inj a b : host_key_status_wire a = host_key_status_wire b -> a = b.
Proof. by destruct a, b. Qed.

Lemma auth_check_status_wire_inj a b : auth_check_status_wire a = auth_check_status_wire b -> a = b.
Proof. by destruct a, b. Qed.

Lemma json_opt_str_inj (a b : option rstr) : json_opt JStr a = json_opt JStr b -> a = b.
Proof. destruct a, b; cbn; congruence. Qed.

(** The body says which of the four answers it is, with everything the answer holds: no two answers look alike
    to a client. *)
Theorem trust_response_json_inj r r' : trust_response_json r = trust_response_json r' -> r = r'.
Proof.
  destruct r, r'; cbn [trust_response_json]; intros H; try discriminate H; injection H; clear H; intros;
    repeat match goal with
    | H : lit _ = lit _ |- _ => apply lit_inj in H
    | H : host_key_status_wire _ = _ |- _ => apply host_key_status_wire_inj in H
    | H : auth_check_status_wire _ = _ |- _ => apply auth_check_status_wire_inj in H
    | H : key_type_as_str _ = _ |- _ => apply key_type_as_str_inj in H
    | H : json_opt JStr _ = _ |- _ => apply json_opt_str_inj in H
    end; by subst.
Qed.
