(* ===== verification/Socket.v ===== *)
(** * The WebSocket task of an attached client

    Models [run_attached_socket] and its handlers of
    [crates/relayterm-api/src/routes/v1/terminal_sessions.rs]: the attach handshake, the replay
    handshake with its floor on live frames, input, resize, detach and close, and the clean-up when
    the socket ends.

    The task runs over the orchestrator's world, what was put on the socket so far and a script that
    says which sends fail.  Its loop consumes the list of what [tokio::select!] delivers; when the
    list ends the peer is gone ([recv] returns [None]). *)

From S2P Require Import Prelude Utf8 Core Replay Binary SessionStore Prog Manager Auth Messages.

(** What is put on the socket: a text message, a binary frame, a close frame. *)
Inductive WireFrame := WText (m : ServerMsg) | WBinary (bytes : list Byte.byte) | WClose.

(** One outcome of the multiplexer: [socket.recv()], or [sub.rx.recv()], which either delivers or
    reports how many frames a slow receiver has missed. *)
Inductive SocketEvent :=
| EvText (text : rstr)
| EvBinary (bytes : list Byte.byte)
| EvPingPong
| EvCloseFrame
| EvTransportError
| EvPty
| EvPtyLagged (missed : nat).

(** [LiveSubscription]: the broadcast channel and how far the receiver has got. *)
Record LiveSubscription := mkSub { ls_tx : nat; ls_pos : nat }.

(** [SocketState]; [ss_view] is [outcome.live], which the task holds until it returns. *)
Record SocketState := mkSocket {
  ss_attachment_id : TerminalSessionAttachmentId;
  ss_detached : bool;
  ss_closed : bool;
  ss_live : option LiveSubscription;
  ss_replay_handshake_done : bool;
  ss_min_live_seq : Z;
  ss_view : option LiveRuntimeView
}.

Definition set_ended (detached closed : bool) (st : SocketState) : SocketState :=
  mkSocket (ss_attachment_id st) detached closed (ss_live st) (ss_replay_handshake_done st)
    (ss_min_live_seq st) (ss_view st).
Definition set_live (l : option LiveSubscription) (st : SocketState) : SocketState :=
  mkSocket (ss_attachment_id st) (ss_detached st) (ss_closed st) l (ss_replay_handshake_done st)
    (ss_min_live_seq st) (ss_view st).
Definition set_handshake (floor : Z) (st : SocketState) : SocketState :=
  mkSocket (ss_attachment_id st) (ss_detached st) (ss_closed st) (ss_live st) true floor (ss_view st).

(** [broadcast::Receiver::recv] of a receiver that did not lag: the next frame; an exhausted channel
    is closed when no sender is left, and otherwise the branch is not ready. *)
Inductive RecvOutcome := RecvOk (frame : OutputFrame) | RecvClosed | RecvPending.

Definition rx_recv (frames : list OutputFrame) (pos : nat) (senders : bool) : RecvOutcome :=
  match frames !! pos with
  | Some frame => RecvOk frame
  | None => if senders then RecvPending else RecvClosed
  end.

Record SocketWorld (DB B R : Type) := mkSocketWorld {
  so_mgr : World DB B R;
  so_out : list WireFrame;
  so_sends : list bool
}.
Arguments mkSocketWorld {DB B R}.
Arguments so_mgr {DB B R}.
Arguments so_out {DB B R}.
Arguments so_sends {DB B R}.

Module Socket.
Section socket.
Context {DB B R : Type} `{!SessionStore DB, !PtyBridge B, !RecordingSink R} {CJ : ClientJson}.
Context (cfg : ManagerConfig).
Abbreviation world := (SocketWorld DB B R).
Implicit Types w : SocketWorld DB B R.

Definition set_mgr (m : World DB B R) w : world := mkSocketWorld m (so_out w) (so_sends w).

(** A program of the orchestrator, run by the socket task. *)
Fixpoint on_mgr {A} (p : prog (World DB B R) A) : prog world A :=
  match p with
  | Ret a => Ret a
  | Atomic f k => Atomic (fun w => let '(x, m) := f (so_mgr w) in (x, set_mgr m w)) (fun x => on_mgr (k x))
  end.

(** [socket.send(..).await.is_ok()] *)
Definition socket_send (f : WireFrame) : prog world bool :=
  act (fun w =>
    match so_sends w with
    | false :: rest => (false, mkSocketWorld (so_mgr w) (so_out w) rest)
    | true :: rest => (true, mkSocketWorld (so_mgr w) (so_out w ++ [f]) rest)
    | [] => (true, mkSocketWorld (so_mgr w) (so_out w ++ [f]) [])
    end).

(** [send_msg]; a [ServerMsg] always serialises. *)
Definition send_msg (m : ServerMsg) : prog world bool := socket_send (WText m).

(** [send_binary_output] *)
Definition send_binary_output (seq : Z) (data : list Byte.byte) : prog world bool :=
  match encode_binary_frame Output seq data with
  | Ok encoded => socket_send (WBinary encoded)
  | Err _ => Ret true
  end.

(** [send_error] *)
Definition error_frame (err : TerminalSessionManagerError) : ErrorCode * string :=
  match err with
  | InvalidDimensions _ _ => (EcInvalidInput, "invalid terminal dimensions"%string)
  | NotFound | SessionClosed => (EcInternal, "internal error"%string)
  | PtyNotLive => (EcPtyNotLive, "no live pty for this session"%string)
  | PtyStart _ => (EcSshStartFailed, "ssh pty error"%string)
  | Repository _ => (EcInternal, "internal error"%string)
  end.
Definition send_error (err : TerminalSessionManagerError) : prog world bool :=
  send_msg (SError (error_frame err).1 (error_frame err).2).

(** [emit_replay_range] *)
Fixpoint emit_frames (frames : list OutputFrame) : prog world bool :=
  match frames with
  | [] => Ret true
  | f :: frames =>
      do! sent <- send_binary_output (f_seq f) (f_data f);
      if (sent : bool) then emit_frames frames else Ret false
  end.

Definition emit_replay_range (range : ReplayRange) : prog world unit :=
  match head (rr_frames range), last (rr_frames range) with
  | Some first, Some last =>
      do! started <- send_msg (SReplayStart (f_seq first) (f_seq last));
      if negb started then Ret tt
      else
        do! sent <- emit_frames (rr_frames range);
        if negb sent then Ret tt
        else do! _ <- send_msg (SReplayEnd (rr_latest_seq range)); Ret tt
  | _, _ => Ret tt
  end.

(** [emit_replay_window_lost] *)
Definition emit_replay_window_lost (lost : ReplayWindowLost) : prog world unit :=
  do! _ <- send_msg (SReplayWindowLost (wl_requested lost) (wl_oldest_available lost) (wl_latest lost));
  Ret tt.

Definition not_live : ServerMsg := SError EcPtyNotLive "no live pty for this session".

(** The [Attach] arm of [handle_text_frame]. *)
Definition handle_attach (session_id : TerminalSessionId) (last_seen_seq : option Z) (st : SocketState)
  : prog world SocketState :=
  if ss_replay_handshake_done st then
    do! _ <- send_msg (SError EcInvalidMessage "already attached"); Ret st
  else
    let st := set_handshake (ss_min_live_seq st) st in
    match last_seen_seq ≫= (fun seq => if 0 <? seq then Some seq else None) with
    | None => Ret st
    | Some bookmark =>
        do! replay <- act (fun w => (TerminalSessionManager.replay_since session_id (Some bookmark) (so_mgr w), w));
        match replay with
        | None => Ret st
        | Some (Ok range) =>
            let st := set_handshake (Z.max (ss_min_live_seq st) (rr_latest_seq range)) st in
            do! _ <- emit_replay_range range; Ret st
        | Some (Err lost) =>
            let st := set_handshake (Z.max (ss_min_live_seq st) (wl_latest lost)) st in
            do! _ <- emit_replay_window_lost lost; Ret st
        end
    end.

(** Input from either plane. *)
Definition handle_input (user_id : UserId) (session_id : TerminalSessionId) (bytes : list Byte.byte)
  (st : SocketState) : prog world unit :=
  match ss_live st with
  | None => do! _ <- send_msg not_live; Ret tt
  | Some _ =>
      do! r <- on_mgr (TerminalSessionManager.write_pty_input user_id session_id bytes);
      match r with
      | Ok _ => Ret tt
      | Err err => do! _ <- send_error err; Ret tt
      end
  end.

(** The [Resize] arm. *)
Definition handle_resize (user_id : UserId) (session_id : TerminalSessionId) (cols rows : Z)
  : prog world unit :=
  do! r <- on_mgr (TerminalSessionManager.resize_session user_id session_id cols rows);
  match r with
  | Err err => do! _ <- send_error err; Ret tt
  | Ok _ =>
      do! r <- on_mgr (TerminalSessionManager.apply_pty_resize user_id session_id cols rows);
      do! _ <- send_msg (match r with
                         | Ok true => SAck AkResize
                         | Ok false => not_live
                         | Err err => SError (error_frame err).1 (error_frame err).2
                         end);
      Ret tt
  end.

(** [handle_text_frame]; the flag says whether the loop goes on. *)
Definition handle_text_frame (user_id : UserId) (session_id : TerminalSessionId) (text : rstr)
  (st : SocketState) : prog world (bool * SocketState) :=
  match client_msg_from_str text with
  | None => do! _ <- send_msg (SError EcInvalidMessage "invalid message"); Ret (true, st)
  | Some CPing => do! _ <- send_msg SPong; Ret (true, st)
  | Some (CAttach _ last_seen_seq _) =>
      do! st <- handle_attach session_id last_seen_seq st; Ret (true, st)
  | Some (CInput data) =>
      do! _ <- handle_input user_id session_id (as_bytes data) st; Ret (true, st)
  | Some (CResize cols rows) =>
      do! _ <- handle_resize user_id session_id cols rows; Ret (true, st)
  | Some CDetach =>
      do! r <- on_mgr (TerminalSessionManager.detach_attachment cfg user_id session_id (ss_attachment_id st) None);
      match r with
      | Ok out =>
          do! _ <- send_msg (SSessionDetached (ts_id (do_session (dt_detach out)))
                               (ta_id (do_attachment (dt_detach out))));
          do! _ <- socket_send WClose;
          Ret (false, set_ended true (ss_closed st) st)
      | Err err => do! _ <- send_error err; Ret (true, st)
      end
  | Some CClose =>
      do! r <- on_mgr (TerminalSessionManager.close_session session_id user_id);
      match r with
      | Ok out =>
          do! _ <- send_msg (SSessionClosed (ts_id (cl_session out)));
          do! _ <- socket_send WClose;
          Ret (false, set_ended true true st)
      | Err err => do! _ <- send_error err; Ret (true, st)
      end
  end.

(** [handle_binary_frame]; a panic of the decoder would end the task. *)
Definition handle_binary_frame (user_id : UserId) (session_id : TerminalSessionId)
  (bytes : list Byte.byte) (st : SocketState) : prog world (bool * SocketState) :=
  match decode_binary_frame bytes with
  | None => Ret (false, st)
  | Some (Err _) => do! _ <- send_msg (SError EcInvalidMessage "invalid binary frame"); Ret (true, st)
  | Some (Ok frame) =>
      match bf_kind frame with
      | Input => do! _ <- handle_input user_id session_id (bf_payload frame) st; Ret (true, st)
      | Output =>
          do! _ <- send_msg (SError EcInvalidMessage "client must not send output frames"); Ret (true, st)
      end
  end.

Definition task_sender (t : Task) : option nat :=
  match t with TForward args => Some (fw_output_tx args) | _ => None end.

(** The senders of a broadcast channel: the registry's, the forwarder's, and the one in the view that
    the task itself holds. *)
Definition has_sender (tx : nat) (held : option LiveRuntimeView) (m : World DB B R) : bool :=
  bool_decide (lv_output_tx <$> held = Some tx)
  || bool_decide (map_Exists (fun _ e => lr_output_tx <$> re_live e = Some tx) (w_runtimes m))
  || bool_decide (map_Exists (fun _ t => task_sender t = Some tx) (w_tasks m)).

(** The broadcast branch of the loop. *)
Definition handle_pty (st : SocketState) : prog world (bool * SocketState) :=
  match ss_live st with
  | None => Ret (true, st)
  | Some sub =>
      do! r <- act (fun w =>
        (rx_recv (default [] (w_channels (so_mgr w) !! ls_tx sub)) (ls_pos sub)
           (has_sender (ls_tx sub) (ss_view st) (so_mgr w)), w));
      match r with
      | RecvOk frame =>
          let st := set_live (Some (mkSub (ls_tx sub) (S (ls_pos sub)))) st in
          if f_seq frame <=? ss_min_live_seq st then Ret (true, st)
          else do! sent <- send_binary_output (f_seq frame) (f_data frame); Ret (sent, st)
      | RecvClosed => Ret (false, st)
      | RecvPending => Ret (true, st)
      end
  end.

(** [RecvError::Lagged]: the receiver goes on after the frames it missed. *)
Definition handle_lagged (missed : nat) (st : SocketState) : SocketState :=
  match ss_live st with
  | Some sub => set_live (Some (mkSub (ls_tx sub) (ls_pos sub + missed))) st
  | None => st
  end.

(** One turn of the loop: [handle_recv_outcome] or the broadcast branch. *)
Definition socket_round (user_id : UserId) (session_id : TerminalSessionId) (st : SocketState)
  (e : SocketEvent) : prog world (bool * SocketState) :=
  match e with
  | EvText text => handle_text_frame user_id session_id text st
  | EvBinary bytes => handle_binary_frame user_id session_id bytes st
  | EvPingPong => Ret (true, st)
  | EvCloseFrame | EvTransportError => Ret (false, st)
  | EvPty => handle_pty st
  | EvPtyLagged missed => Ret (true, handle_lagged missed st)
  end.

Fixpoint socket_loop (user_id : UserId) (session_id : TerminalSessionId) (st : SocketState)
  (events : list SocketEvent) : prog world SocketState :=
  match events with
  | [] => Ret st
  | e :: events =>
      do! r <- socket_round user_id session_id st e;
      if (r.1 : bool) then socket_loop user_id session_id r.2 events else Ret r.2
  end.

(** The clean-up after the loop. *)
Definition socket_cleanup (user_id : UserId) (session_id : TerminalSessionId) (st : SocketState)
  : prog world unit :=
  if negb (ss_detached st) && negb (ss_closed st) then
    do! _ <- on_mgr (TerminalSessionManager.detach_attachment cfg user_id session_id (ss_attachment_id st) None);
    Ret tt
  else Ret tt.

(** [view.output_tx.subscribe()]: a receiver at the end of the channel. *)
Definition subscribe (tx : nat) : prog world LiveSubscription :=
  act (fun w => (mkSub tx (length (default [] (w_channels (so_mgr w) !! tx))), w)).

Definition subscribe_view (view : option LiveRuntimeView) : prog world (option LiveSubscription) :=
  match view with
  | Some view => do! sub <- subscribe (lv_output_tx view); Ret (Some sub)
  | None => Ret None
  end.

(** [run_attached_socket] *)
Definition run_attached_socket (user_id : UserId) (session_id : TerminalSessionId)
  (client_info : option rstr) (events : list SocketEvent) : prog world unit :=
  do! r <- on_mgr (TerminalSessionManager.attach_session (mkAttachReq user_id session_id client_info None));
  match r with
  | Err err => do! _ <- send_error err; do! _ <- socket_send WClose; Ret tt
  | Ok outcome =>
      do! live_subscription <- subscribe_view (ao_live outcome);
      let attach_status := match ao_live outcome with Some _ => AttachedActive | None => AttachedStub end in
      do! sent <- send_msg (SSessionAttached (ts_id (ao_session outcome)) (ta_id (ao_attachment outcome))
                              attach_status (ao_message outcome));
      if negb sent then
        do! _ <- on_mgr (TerminalSessionManager.detach_session user_id session_id (ta_id (ao_attachment outcome)) None);
        Ret tt
      else
        let st := mkSocket (ta_id (ao_attachment outcome)) false false live_subscription false 0
                    (ao_live outcome) in
        do! st <- socket_loop user_id session_id st events;
        socket_cleanup user_id session_id st
  end.

End socket.
End Socket.
