(* ===== verification/SocketSpec.v ===== *)
(** * What a client sees on its socket

    The stream of output frames that a socket task delivers while the forwarder and every other task
    run between its actions, the handshakes, the end of the task, and three defects of the loop. *)

From S2P Require Import Prelude Core Replay Binary SessionStore Prog Manager ManagerInv ManagerSpec Messages Socket.

Import TerminalSessionManager Socket.

Section spec.
Context {DB B R : Type} `{!SessionStore DB, !SessionStoreLaws DB, !PtyBridge B, !RecordingSink R} {CJ : ClientJson}.
Context (cfg : ManagerConfig).
Implicit Types m : World DB B R.
Implicit Types w : SocketWorld DB B R.

(** ** The stream of a session *)

(** The frames of [l] with index from [i] up to [j]. *)
Definition slice_of (i j : nat) (l : list OutputFrame) : list OutputFrame := drop i (take j l).

(** The session [id] streams [log] through the channel [tx] and the ring [buf]: the ring has seen all
    of it, the channel a prefix, and a live entry of the registry points to the two. *)
Record streams (id : TerminalSessionId) (tx buf : nat) (log : list OutputFrame) m : Prop := {
  sm_len : len log <= u64_max;
  sm_ring : exists ring n, w_buffers m !! buf = Some ring /\ ReplaySpec.abs ring (ReplaySpec.mkLog log n);
  sm_chan : exists sent, w_channels m !! tx = Some sent /\ sent `prefix_of` log;
  sm_live : forall l, live_of id m = Some l -> lr_replay l = buf /\ lr_output_tx l = tx
}.

Lemma streams_numbered id tx buf log m : streams id tx buf log m -> ReplaySpec.numbered log.
Proof. intros [_ (ring & n & _ & Ha) _ _]. exact (ReplaySpec.abs_numbered _ _ Ha). Qed.

(** What the other tasks may do between two actions of the socket task: anything, as long as the
    session's log only grows and the socket is left alone. *)
Definition feeds (id : TerminalSessionId) (tx buf : nat) w w' : Prop :=
  so_out w' = so_out w /\ so_sends w' = so_sends w
  /\ forall log, streams id tx buf log (so_mgr w) ->
       exists log', log `prefix_of` log' /\ streams id tx buf log' (so_mgr w').

#[export] Instance feeds_preorder id tx buf : PreOrder (feeds id tx buf).
Proof.
  split; [intros w; split_and!; [done..|]; intros log; by exists log|].
  intros w1 w2 w3 (A1 & A2 & A3) (B1 & B2 & B3). split_and!; [congruence..|].
  intros log (log1 & H1 & S1)%A3. destruct (B3 log1 S1) as (log2 & H2 & S2).
  exists log2. split; [by transitivity log1|done].
Qed.

(** The calls of the task on the orchestrator leave the stream alone. *)
Definition quiet_streams (id : TerminalSessionId) m m' : Prop :=
  w_buffers m' = w_buffers m /\ w_channels m' = w_channels m
  /\ forall l', live_of id m' = Some l' ->
       exists l, live_of id m = Some l /\ lr_replay l = lr_replay l' /\ lr_output_tx l = lr_output_tx l'.

#[export] Instance quiet_streams_refl id : Reflexive (quiet_streams id).
Proof. intros m. split_and!; [done..|]. intros l. by exists l. Qed.

Lemma quiet_streams_keep id tx buf log m m' :
  quiet_streams id m m' -> streams id tx buf log m -> streams id tx buf log m'.
Proof.
  intros (E1 & E2 & E3) [S1 S2 S3 S4]. split; rewrite ?E1, ?E2; try done.
  intros l' (l & Hl & <- & <-)%E3. by apply S4.
Qed.

Lemma quiet_same id m m' :
  w_buffers m' = w_buffers m -> w_channels m' = w_channels m -> w_runtimes m' = w_runtimes m -> quiet_streams id m m'.
Proof. intros E1 E2 E3. split_and!; [done..|]. unfold live_of. rewrite E3. intros l. by exists l. Qed.

Definition quiet_prog {A} (id : TerminalSessionId) (p : prog (World DB B R) A) : Prop :=
  all_acts (quiet_streams id) p.

Lemma quiet_repo {A} id (f : DB -> result RepositoryError A * DB) : quiet_prog id (repo f).
Proof. split; [|done]. intros m. cbn. destruct (f (w_db m)). by apply quiet_same. Qed.

Lemma quiet_read {A} id (f : World DB B R -> A) : quiet_prog id (act (fun m => (f m, m))).
Proof. by split. Qed.

Lemma quiet_pure id (f : World DB B R -> World DB B R) :
  (forall m, quiet_streams id m (f m)) -> quiet_prog id (pure_act f).
Proof. by split. Qed.

Lemma quiet_get_owned id sid owner : quiet_prog id (get_owned sid owner).
Proof. apply all_acts_try; [apply quiet_repo|]. by intros o. Qed.

Lemma quiet_get_session_attachment id aid sid : quiet_prog id (get_session_attachment aid sid).
Proof. apply all_acts_try; [apply quiet_repo|]. by intros o. Qed.

(** An update of one registry entry that keeps its ring and channel, or ends it. *)
Lemma quiet_entry id m m' k e' :
  w_buffers m' = w_buffers m -> w_channels m' = w_channels m -> w_runtimes m' = <[k := e']> (w_runtimes m) ->
  (forall l', re_live e' = Some l' -> exists l, w_runtimes m !! k ≫= re_live = Some l
     /\ lr_replay l = lr_replay l' /\ lr_output_tx l = lr_output_tx l') ->
  quiet_streams id m m'.
Proof.
  intros E1 E2 E3 H. split_and!; [done..|]. intros l'. unfold live_of. rewrite E3.
  destruct (decide (k = id)) as [<-|Hne]; [rewrite lookup_insert_eq; apply H|].
  rewrite lookup_insert_ne by done. intros ->. by exists l'.
Qed.

Lemma quiet_remove id m k : quiet_streams id m (upd_runtimes (delete k) m).
Proof.
  split_and!; [done..|]. intros l'. unfold live_of. cbn.
  destruct (decide (k = id)) as [<-|Hne]; [by rewrite lookup_delete_eq|].
  rewrite lookup_delete_ne by done. intros ->. by exists l'.
Qed.

Lemma drop_live_same (l : option LiveRuntime) m :
  w_buffers (drop_live l m) = w_buffers m /\ w_channels (drop_live l m) = w_channels m
  /\ w_runtimes (drop_live l m) = w_runtimes m.
Proof. destruct l as [l|]; [|done]. cbn. by destruct (lr_forwarder l), (lr_driver l), (dc_handle <$> lr_detach_close l). Qed.

Lemma quiet_shutdown id e : quiet_prog id (shutdown_removed e).
Proof.
  destruct e as [e|]; [|done]. unfold shutdown_removed, shutdown_runtime. destruct (re_live e) as [l|]; [|done].
  apply all_acts_bind; [by apply quiet_pure; intros m; apply quiet_same|]. intros _.
  apply all_acts_bind; [by apply quiet_pure; intros m; apply quiet_same|]. intros _.
  apply all_acts_bind; [apply quiet_read|]. intros last.
  apply all_acts_bind; [apply quiet_pure; intros m; unfold record_shutdown; destruct (lr_recording l); by apply quiet_same|].
  intros _. apply quiet_pure. intros m. apply quiet_same; apply drop_live_same.
Qed.

Lemma quiet_close_session id sid owner : quiet_prog id (close_session sid owner).
Proof.
  apply all_acts_try; [apply quiet_get_owned|]. intros s. case_decide.
  - apply all_acts_bind; [split; [|done]; intros m; apply quiet_remove|]. intros e.
    apply all_acts_bind; [apply quiet_shutdown|]. by intros _.
  - apply all_acts_bind; [apply quiet_read|]. intros now.
    apply all_acts_try; [apply quiet_repo|]. intros _. apply all_acts_try; [apply quiet_repo|]. intros _.
    apply all_acts_try; [apply quiet_get_owned|]. intros updated.
    apply all_acts_bind; [split; [|done]; intros m; apply quiet_remove|]. intros e.
    apply all_acts_bind; [apply quiet_shutdown|]. intros _.
    apply all_acts_bind; [by apply quiet_pure; intros m; apply quiet_same|]. by intros _.
Qed.

Lemma quiet_cancel_pending_close id sid m : quiet_streams id m (cancel_pending_close sid m).2.
Proof.
  unfold cancel_pending_close. destruct (w_runtimes m !! sid) as [[snap [live|] next]|] eqn:E; [|done..].
  destruct (lr_detach_close live) as [d|] eqn:Ed; [|done]. cbn [snd abort].
  eapply (quiet_entry _ _ _ sid); [done..|]. cbn. intros l' [= <-]. rewrite E. by exists live.
Qed.

Lemma quiet_attach_session id req : quiet_prog id (attach_session req).
Proof.
  apply all_acts_try; [apply quiet_get_owned|]. intros s. case_decide; [done|].
  apply all_acts_bind; [split; [|done]; intros m; apply quiet_cancel_pending_close|]. intros was.
  apply all_acts_try; [apply quiet_repo|]. intros att. apply all_acts_bind; [apply quiet_read|]. intros view.
  apply all_acts_try; [apply quiet_repo|]. intros _. apply all_acts_try.
  - destruct was; [|done]. apply all_acts_try; [apply quiet_repo|]. intros _.
    apply all_acts_bind; [apply quiet_repo|]. by intros _.
  - intros _. apply all_acts_bind; [by apply quiet_pure; intros m; apply quiet_same|]. by intros _.
Qed.

Lemma quiet_write_pty_input id owner sid bytes : quiet_prog id (write_pty_input owner sid bytes).
Proof.
  apply all_acts_try; [apply quiet_read|]. intros h. apply all_acts_bind; [|by intros r].
  split; [|done]. intros m. cbn. destruct (pty_write_input h bytes (w_pty m)). by apply quiet_same.
Qed.

Lemma quiet_apply_pty_resize id owner sid cols rows : quiet_prog id (apply_pty_resize owner sid cols rows).
Proof.
  apply all_acts_try; [apply quiet_read|]. intros [h|]; [|done]. apply all_acts_bind; [|by intros r].
  split; [|done]. intros m. cbn. destruct (pty_resize h cols rows (w_pty m)). by apply quiet_same.
Qed.

Lemma quiet_detach_session id owner sid aid seq : quiet_prog id (detach_session owner sid aid seq).
Proof.
  apply all_acts_try; [apply quiet_get_owned|]. intros s. apply all_acts_try; [apply quiet_get_session_attachment|].
  intros a. case_decide.
  - apply all_acts_bind; [by apply quiet_pure; intros m; apply quiet_same|]. by intros _.
  - apply all_acts_bind; [apply quiet_read|]. intros now. apply all_acts_try; [apply quiet_repo|]. intros _.
    apply all_acts_try; [apply quiet_repo|]. intros _. apply all_acts_try; [apply quiet_get_session_attachment|].
    intros updated. apply all_acts_bind; [by apply quiet_pure; intros m; apply quiet_same|]. by intros _.
Qed.

Lemma quiet_install_detach_close id sid info h m : quiet_streams id m (install_detach_close sid info h m).2.
Proof.
  unfold install_detach_close. destruct (w_runtimes m !! sid) as [[snap [live|] next]|] eqn:E; [|by apply quiet_same..].
  destruct (lr_detach_close live) as [d|] eqn:Ed; [by apply quiet_same|]. cbn [snd].
  eapply (quiet_entry _ _ _ sid); [done..|]. cbn. intros l' [= <-]. rewrite E. by exists live.
Qed.

Lemma quiet_detach_attachment id owner sid aid seq : quiet_prog id (detach_attachment cfg owner sid aid seq).
Proof.
  apply all_acts_try; [apply quiet_detach_session|]. intros d. apply all_acts_bind.
  - destruct (do_already_detached d); [done|]. apply all_acts_bind; [apply quiet_read|]. intros any.
    apply all_acts_bind; [apply quiet_read|]. by intros live.
  - intros [|]; [|done]. apply all_acts_bind; [|by intros p]. apply all_acts_bind; [apply quiet_repo|]. intros _.
    apply all_acts_bind; [apply quiet_read|]. intros now. apply all_acts_bind.
    + split; [|done]. intros m. by apply quiet_same.
    + intros h. split; [|done]. intros m. apply quiet_install_detach_close.
Qed.

Lemma quiet_resize_session id owner sid cols rows : quiet_prog id (resize_session owner sid cols rows).
Proof.
  unfold resize_session. apply all_acts_try; [done|]. intros _. apply all_acts_try; [done|]. intros _.
  apply all_acts_try; [apply quiet_get_owned|]. intros s. case_decide; [done|].
  apply all_acts_bind.
  - split; [|done]. intros m. unfold resize_entry. destruct (w_runtimes m !! ts_id s) as [e|] eqn:E; [|done].
    cbn [snd]. eapply (quiet_entry _ _ _ (ts_id s)); [done..|]. cbn. intros l' Hl. rewrite E. by exists l'.
  - intros target. apply all_acts_bind.
    + destruct target as [[writer latest]|]; [|done]. apply quiet_pure. intros m. unfold record_marker.
      destruct writer; by apply quiet_same.
    + intros _. apply all_acts_try; [apply quiet_repo|]. by intros _.
Qed.

(** ** What the task puts on the socket *)

Definition is_binary (f : WireFrame) : bool := match f with WBinary _ => true | _ => false end.
Definition binaries (out : list WireFrame) : list WireFrame := filter (fun f => is_binary f = true) out.

(** The binary frames of a run of output; a frame above the size limit of the envelope has none. *)
Definition wire (fs : list OutputFrame) : list WireFrame :=
  fs ≫= (fun f => match encode_binary_frame Output (f_seq f) (f_data f) with Ok b => [WBinary b] | Err _ => [] end).

Lemma binaries_app out out' : binaries (out ++ out') = binaries out ++ binaries out'.
Proof. apply filter_app. Qed.

Lemma binaries_wire fs : binaries (wire fs) = wire fs.
Proof.
  induction fs as [|f fs IH]; [done|]. cbn. rewrite binaries_app. fold (wire fs). rewrite IH.
  by destruct (encode_binary_frame _ _ _).
Qed.

Lemma wire_app fs gs : wire (fs ++ gs) = wire fs ++ wire gs.
Proof. apply bind_app. Qed.

(** From [w] to [w'] the task has put [fs] on a socket that accepts everything, and the log has grown. *)
Definition puts (id : TerminalSessionId) (tx buf : nat) (fs : list WireFrame) w w' : Prop :=
  so_sends w' = so_sends w /\ so_out w' = so_out w ++ fs
  /\ forall log, streams id tx buf log (so_mgr w) ->
       exists log', log `prefix_of` log' /\ streams id tx buf log' (so_mgr w').

Section rounds.
Context (user : UserId) (id : TerminalSessionId) (tx buf : nat).
Abbreviation env := (feeds id tx buf).
Abbreviation puts' := (puts id tx buf).

Lemma puts_nil w w' : env w w' -> puts' [] w w'.
Proof. intros (H1 & H2 & H3). split_and!; [done|by rewrite app_nil_r|done]. Qed.

Lemma puts_trans fs gs w w1 w2 : puts' fs w w1 -> puts' gs w1 w2 -> puts' (fs ++ gs) w w2.
Proof.
  intros (A1 & A2 & A3) (B1 & B2 & B3). split_and!; [congruence|rewrite B2, A2; by rewrite app_assoc|].
  intros log (log1 & P1 & S1)%A3. destruct (B3 log1 S1) as (log2 & P2 & S2). exists log2. split; [by etransitivity|done].
Qed.

Lemma interfered_on_mgr {A} (p : prog (World DB B R) A) w a w' :
  quiet_prog id p -> interfered env (on_mgr p) w a w' -> puts' [] w w'.
Proof.
  revert w. induction p as [b|X f k IH]; intros w Hq; cbn.
  - intros [_ ->]. by apply puts_nil.
  - intros (w1 & HR & H). destruct Hq as [Hf Hk]. specialize (Hf (so_mgr w1)).
    revert Hf H. destruct (f (so_mgr w1)) as [x m]. cbn [fst snd]. intros Hf H.
    apply (puts_trans [] [] w w1); [by apply puts_nil|].
    apply (puts_trans [] [] w1 (set_mgr m w1)); [|by apply (IH x (set_mgr m w1) (Hk x))].
    split_and!; [done|by rewrite app_nil_r|]. intros log Hs. exists log. split; [done|].
    by apply (quiet_streams_keep _ _ _ _ (so_mgr w1)).
Qed.

Lemma interfered_send f w b w' :
  so_sends w = [] -> interfered env (socket_send f) w b w' -> b = true /\ puts' [f] w w'.
Proof.
  intros Hs (w1 & (E1 & E2 & E3) & -> & ->). cbn. rewrite E2, Hs. split; [done|].
  split_and!; cbn; [done|by rewrite E1|done].
Qed.

Lemma interfered_send_output f w b w' :
  so_sends w = [] -> interfered env (send_binary_output (f_seq f) (f_data f)) w b w' ->
  b = true /\ puts' (wire [f]) w w'.
Proof.
  intros Hs. unfold send_binary_output, wire. cbn. destruct (encode_binary_frame _ _ _) as [bytes|e].
  - by apply interfered_send.
  - intros [-> ->]. split; [done|]. by apply puts_nil.
Qed.

Lemma puts_sends fs w w' : puts' fs w w' -> so_sends w = [] -> so_sends w' = [].
Proof. intros (-> & _). done. Qed.

Lemma interfered_emit_frames frames w b w' :
  so_sends w = [] -> interfered env (emit_frames frames) w b w' -> b = true /\ puts' (wire frames) w w'.
Proof.
  revert w. induction frames as [|f frames IH]; intros w Hs.
  - intros [-> ->]. split; [done|]. by apply puts_nil.
  - cbn [emit_frames]. intros (c & w1 & H1 & H2)%interfered_bind.
    destruct (interfered_send_output f w c w1 Hs H1) as [-> P1].
    destruct (IH w1 (puts_sends _ _ _ P1 Hs) H2) as [-> P2]. split; [done|].
    change (f :: frames) with ([f] ++ frames). rewrite wire_app. by apply (puts_trans _ _ w w1).
Qed.

(** The replay puts the frames between two messages. *)
Lemma interfered_emit_replay range w b w' :
  so_sends w = [] -> interfered env (emit_replay_range range) w b w' ->
  exists fs, puts' fs w w' /\ binaries fs = wire (rr_frames range).
Proof.
  intros Hs. unfold emit_replay_range. destruct (rr_frames range) as [|f frames] eqn:E.
  { intros [_ ->]. exists []. split; [by apply puts_nil|done]. }
  rewrite <- E. destruct (last (rr_frames range)) as [l|] eqn:El; [|by rewrite E, last_None in El].
  cbn [head]. rewrite E at 1. cbn [head].
  intros (c & w1 & H1 & H2)%interfered_bind. destruct (interfered_send _ _ _ _ Hs H1) as [-> P1].
  cbn [negb] in H2. apply interfered_bind in H2 as (c & w2 & H2 & H3).
  destruct (interfered_emit_frames _ _ _ _ (puts_sends _ _ _ P1 Hs) H2) as [-> P2].
  cbn [negb] in H3. apply interfered_bind in H3 as (c & w3 & H3 & [_ ->]).
  destruct (interfered_send _ _ _ _ (puts_sends _ _ _ P2 (puts_sends _ _ _ P1 Hs)) H3) as [_ P3].
  eexists. split; [exact (puts_trans _ _ _ _ _ P1 (puts_trans _ _ _ _ _ P2 P3))|].
  rewrite !binaries_app, binaries_wire. cbn. by rewrite app_nil_r.
Qed.

(** ** The frames delivered so far

    [delivered log pos bm floor fs]: after the receiver got to [pos], with [floor] as the highest
    sequence number that is not sent live any more, the frames [fs] were delivered.  Before a replay
    these are the live ones since the subscription at [n0], when the log was at least [base].  After a replay of the bookmark [b], at
    the moment when the receiver was at [p] and the log had [r] frames, they are the live ones up to
    [p], then the replayed ones (none if the window was lost), then the live ones after [r]. *)
Context (n0 : nat) (base : list OutputFrame).

Inductive delivered (log : list OutputFrame) (pos : nat) : option (nat * nat * bool) -> Z -> list OutputFrame -> Prop :=
| dl_live : delivered log pos None 0 (slice_of n0 pos log)
| dl_replayed p b r :
    (n0 <= p <= pos)%nat -> (p <= r <= length log)%nat ->
    delivered log pos (Some (p, b, true)) (Z.of_nat r) (slice_of n0 p log ++ slice_of b r log ++ slice_of r pos log)
| dl_lost p b r :
    (n0 <= p <= pos)%nat -> (p <= r <= length log)%nat -> (b < r)%nat ->
    delivered log pos (Some (p, b, false)) (Z.of_nat r) (slice_of n0 p log ++ slice_of r pos log).

Lemma slice_prefix i j log log' : log `prefix_of` log' -> (j <= length log)%nat -> slice_of i j log' = slice_of i j log.
Proof. intros [k ->] Hj. unfold slice_of. by rewrite take_app_le. Qed.

Lemma slice_snoc i j log f : log !! j = Some f -> (i <= j)%nat -> slice_of i (S j) log = slice_of i j log ++ [f].
Proof.
  intros Hf Hi. unfold slice_of. rewrite (take_S_r _ _ f Hf). rewrite drop_app_le; [done|].
  rewrite length_take. apply lookup_lt_Some in Hf. lia.
Qed.

Lemma slice_empty i j log : (j <= i)%nat -> slice_of i j log = [].
Proof. intros H. unfold slice_of. apply drop_ge. rewrite length_take. lia. Qed.

Lemma delivered_grows log log' pos bm floor fs :
  log `prefix_of` log' -> (pos <= length log)%nat -> delivered log pos bm floor fs -> delivered log' pos bm floor fs.
Proof.
  intros Hp Hpos H. pose proof (prefix_length _ _ Hp). destruct H as [|p b r H1 H2|p b r H1 H2 H3].
  - rewrite <- (slice_prefix n0 pos log log') by done. constructor.
  - rewrite <- (slice_prefix n0 p log log'), <- (slice_prefix b r log log'), <- (slice_prefix r pos log log') by (done || lia).
    constructor; lia.
  - rewrite <- (slice_prefix n0 p log log'), <- (slice_prefix r pos log log') by (done || lia).
    constructor; [lia|lia|exact H3].
Qed.

(** The next live frame: dropped below the floor, sent otherwise. *)
Lemma delivered_next log pos bm floor fs f :
  ReplaySpec.numbered log -> log !! pos = Some f -> (n0 <= pos)%nat -> delivered log pos bm floor fs ->
  delivered log (S pos) bm floor (if f_seq f <=? floor then fs else fs ++ [f]).
Proof.
  intros Hn Hf Hpos H. rewrite (numbered_lookup _ _ _ Hn Hf). destruct H as [|p b r H1 H2|p b r H1 H2 H3].
  - rewrite (proj2 (Z.leb_gt _ _)) by lia. rewrite <- slice_snoc by done. constructor.
  - destruct (_ <=? _) eqn:E; bool_props.
    + rewrite (slice_empty r pos), <- (slice_empty r (S pos) log) by lia. constructor; lia.
    + rewrite <- !app_assoc, <- slice_snoc by (done || lia). constructor; lia.
  - destruct (_ <=? _) eqn:E; bool_props.
    + rewrite (slice_empty r pos), <- (slice_empty r (S pos) log) by lia. constructor; [lia|lia|exact H3].
    + rewrite <- !app_assoc, <- slice_snoc by (done || lia). constructor; [lia|lia|exact H3].
Qed.

(** The state of the task, against what it has delivered. *)
Record flow (st : SocketState) (fs : list OutputFrame) (pos : nat) (bm : option (nat * nat * bool)) w : Prop := {
  fl_sends : so_sends w = [];
  fl_live : ss_live st = Some (mkSub tx pos);
  fl_start : (n0 <= pos)%nat;
  fl_log : exists log, base `prefix_of` log /\ streams id tx buf log (so_mgr w) /\ (pos <= length log)%nat
             /\ delivered log pos bm (ss_min_live_seq st) fs;
  fl_handshake : ss_replay_handshake_done st = false -> bm = None
}.

Lemma flow_puts st fs pos bm out w w' : flow st fs pos bm w -> puts' out w w' -> flow st fs pos bm w'.
Proof.
  intros [F1 F2 F3 (log & S0 & S1 & S2 & S3) F5] P. pose proof P as (P1 & _ & P3). destruct (P3 log S1) as (log' & Hp & S').
  split; [congruence|done|done| |done]. exists log'. pose proof (prefix_length _ _ Hp).
  split_and!; [by transitivity log|done|lia|by apply (delivered_grows log)].
Qed.

(** *** The handlers *)

(** A handler that only talks: it puts no output frame. *)
Definition talks {A} (p : prog (SocketWorld DB B R) A) : Prop :=
  forall w a w', so_sends w = [] -> interfered env p w a w' -> exists out, puts' out w w' /\ binaries out = [].

Lemma talks_ret {A} (a : A) : talks (Ret a).
Proof. intros w b w' _ [-> ->]. exists []. split; [by apply puts_nil|done]. Qed.

Lemma talks_bind {A C} (p : prog (SocketWorld DB B R) A) (k : A -> prog _ C) :
  talks p -> (forall a, talks (k a)) -> talks (bind p k).
Proof.
  intros Hp Hk w c w' Hs (a & w1 & H1 & H2)%interfered_bind. destruct (Hp w a w1 Hs H1) as (o1 & P1 & B1).
  destruct (Hk a w1 c w' (puts_sends _ _ _ P1 Hs) H2) as (o2 & P2 & B2). exists (o1 ++ o2).
  split; [by apply (puts_trans _ _ w w1)|]. by rewrite binaries_app, B1, B2.
Qed.

Lemma talks_send f : is_binary f = false -> talks (socket_send f).
Proof.
  intros Hf w b w' Hs H. destruct (interfered_send _ _ _ _ Hs H) as [_ P]. exists [f]. split; [done|].
  unfold binaries. cbn. by rewrite Hf.
Qed.

Lemma talks_mgr {A} (p : prog (World DB B R) A) : quiet_prog id p -> talks (on_mgr p).
Proof. intros Hq w a w' _ H. exists []. split; [by apply (interfered_on_mgr p w a)|done]. Qed.

Lemma talks_handle_input sid bytes st : talks (handle_input user sid bytes st).
Proof.
  unfold handle_input. destruct (ss_live st).
  - apply talks_bind; [apply talks_mgr, quiet_write_pty_input|]. intros [u|e]; [apply talks_ret|].
    apply talks_bind; [by apply talks_send|intros; apply talks_ret].
  - apply talks_bind; [by apply talks_send|intros; apply talks_ret].
Qed.

Lemma talks_handle_resize sid cols rows : talks (handle_resize user sid cols rows).
Proof.
  apply talks_bind; [apply talks_mgr, quiet_resize_session|]. intros [u|e].
  - apply talks_bind; [apply talks_mgr, quiet_apply_pty_resize|]. intros r.
    apply talks_bind; [by apply talks_send|intros; apply talks_ret].
  - apply talks_bind; [by apply talks_send|intros; apply talks_ret].
Qed.

(** The state keeps what the stream depends on. *)
Definition same_stream (st st' : SocketState) : Prop :=
  ss_live st' = ss_live st /\ ss_min_live_seq st' = ss_min_live_seq st
  /\ ss_replay_handshake_done st' = ss_replay_handshake_done st.

Lemma flow_same st st' fs pos bm w : same_stream st st' -> flow st fs pos bm w -> flow st' fs pos bm w.
Proof. intros (E1 & E2 & E3) [F1 F2 F3 F4 F5]. split; rewrite ?E1, ?E2, ?E3; done. Qed.

(** What one turn may do; a handshake that is done stays as it was. *)
Definition turns (st : SocketState) (p : prog (SocketWorld DB B R) (bool * SocketState)) : Prop :=
  forall fs pos bm w r w', flow st fs pos bm w -> interfered env p w r w' ->
    exists fs' pos' bm' out, puts' out w w' /\ binaries out = wire fs' /\ flow r.2 (fs ++ fs') pos' bm' w'
      /\ (ss_replay_handshake_done st = true ->
          ss_replay_handshake_done r.2 = true /\ bm' = bm /\ ss_min_live_seq r.2 = ss_min_live_seq st).

Lemma turns_talks {A} st (p : prog (SocketWorld DB B R) A) (k : A -> prog _ (bool * SocketState)) :
  talks p -> (forall a, turns st (k a)) -> turns st (bind p k).
Proof.
  intros Hp Hk fs pos bm w r w' Hf (a & w1 & H1 & H2)%interfered_bind.
  destruct (Hp w a w1 (fl_sends _ _ _ _ _ Hf) H1) as (o1 & P1 & B1).
  destruct (Hk a fs pos bm w1 r w' (flow_puts _ _ _ _ _ _ _ Hf P1) H2) as (fs' & pos' & bm' & o2 & P2 & B2 & Hf').
  exists fs', pos', bm', (o1 ++ o2). split; [by apply (puts_trans _ _ w w1)|]. by rewrite binaries_app, B1, B2.
Qed.

Lemma turns_ret st b st' : same_stream st st' -> turns st (Ret (b, st')).
Proof.
  intros Hs fs pos bm w r w' Hf [-> ->]. exists [], pos, bm, []. split; [by apply puts_nil|]. split; [done|].
  rewrite app_nil_r. split; [by apply (flow_same st)|]. destruct Hs as (_ & Hm & Hs). cbn. by rewrite Hs, Hm.
Qed.

Lemma turns_say st f b : is_binary f = false -> turns st (do! _ <- socket_send f; Ret (b, st)).
Proof. intros Hf. apply turns_talks; [by apply talks_send|]. intros _. by apply turns_ret. Qed.

Lemma turns_handle_binary bytes st : turns st (handle_binary_frame user id bytes st).
Proof.
  unfold handle_binary_frame. destruct (decode_binary_frame bytes) as [[frame|e]|]; [|by apply turns_say|by apply turns_ret].
  destruct (bf_kind frame); [by apply turns_say|]. apply turns_talks; [apply talks_handle_input|]. intros _. by apply turns_ret.
Qed.

(** The receiver moves on by one frame. *)
Lemma flow_next st fs pos bm w log f :
  flow st fs pos bm w -> base `prefix_of` log -> streams id tx buf log (so_mgr w) -> log !! pos = Some f ->
  delivered log pos bm (ss_min_live_seq st) fs ->
  flow (set_live (Some (mkSub tx (S pos))) st)
    (if f_seq f <=? ss_min_live_seq st then fs else fs ++ [f]) (S pos) bm w.
Proof.
  intros [F1 F2 F3 _ F5] S0 S1 Hf Hd. pose proof (streams_numbered _ _ _ _ _ S1) as Hn.
  split; [done|done|lia| |done]. exists log. split; [done|]. split; [done|]. split; [by apply lookup_lt_Some in Hf|].
  by apply delivered_next.
Qed.

Lemma turns_handle_pty st : turns st (handle_pty st).
Proof.
  intros fs pos bm w r w' Hf. unfold handle_pty. rewrite (fl_live _ _ _ _ _ Hf).
  intros (o & w1 & H1 & H2)%interfered_bind. apply interfered_act in H1 as (w0 & He & -> & ->).
  pose proof (puts_nil _ _ He) as P0. pose proof (flow_puts _ _ _ _ _ _ _ Hf P0) as Hf0. cbn [fst snd ls_tx ls_pos] in H2.
  pose proof Hf0 as [_ _ _ (log & S0 & S1 & S2 & S3) _]. destruct (sm_chan _ _ _ _ _ S1) as (sent & Hc & [l Hl]).
  rewrite Hc in H2. unfold rx_recv in H2.
  change (default [] (Some sent)) with sent in H2. revert H2. destruct (sent !! pos) as [f|] eqn:Ef; intros H2.
  - assert (Hlog : log !! pos = Some f) by (rewrite Hl; by apply lookup_app_l_Some).
    pose proof (flow_next _ _ _ _ _ _ _ Hf0 S0 S1 Hlog S3) as Hn. cbn [ss_min_live_seq set_live] in H2.
    revert Hn H2. destruct (f_seq f <=? ss_min_live_seq st); intros Hn H2.
    + destruct H2 as [-> ->]. exists [], (S pos), bm, []. split; [done|]. split; [done|]. by rewrite app_nil_r.
    + apply interfered_bind in H2 as (b & w2 & H2 & [-> ->]).
      destruct (interfered_send_output _ _ _ _ (fl_sends _ _ _ _ _ Hf0) H2) as [-> P1].
      exists [f], (S pos), bm, (wire [f]). split; [by apply (puts_trans [] _ w w0)|]. rewrite binaries_wire.
      split; [done|]. cbn [snd]. split; [by apply (flow_puts _ _ _ _ _ _ _ Hn P1)|done].
  - revert H2. destruct (has_sender _ _ _); intros [-> ->]; exists [], pos, bm, []; rewrite app_nil_r; done.
Qed.

(** The ring's answer to a bookmark, against the log. *)
Lemma streams_replay log m l b :
  streams id tx buf log m -> live_of id m = Some l -> 0 < b -> is_u64 b ->
  (exists range, replay_since id (Some b) m = Some (Ok range) /\ rr_latest_seq range = len log
     /\ rr_frames range = slice_of (Z.to_nat b) (length log) log)
  \/ (exists lost, replay_since id (Some b) m = Some (Err lost) /\ wl_latest lost = len log /\ wl_requested lost = b
       /\ (Z.to_nat b < length log)%nat).
Proof.
  intros [L3 (ring & n & S2 & Ha) _ S4] Hl Hb Hu. destruct (S4 l Hl) as [<- _].
  assert (E : replay_since id (Some b) m = Some (ReplayBuffer.replay_since ring (Some b))).
  { unfold replay_since, runtime_view. fold (live_of id m). rewrite Hl. cbn. by rewrite S2. }
  rewrite E, (replay_refines _ _ b Ha Hu L3). unfold ReplaySpec.replay, slice_of. rewrite firstn_all.
  cbn [ReplaySpec.entries ReplaySpec.evicted]. change (default 0 (Some b)) with b.
  destruct (len log <=? b) eqn:E1; bool_props.
  { left. eexists. split; [done|]. split; [done|]. cbn. symmetry. apply drop_ge. unfold len in *. lia. }
  rewrite (proj2 (Z.eqb_neq b 0)) by lia. destruct (Z.of_nat n <=? b) eqn:E2; bool_props; [left; by eexists|].
  right. eexists. split; [done|]. split_and!; [done|done|unfold len in *; lia].
Qed.

(** The floor after a replay or a lost window. *)
Lemma flow_floor st fs fs' pos log w b served :
  flow st fs pos None w -> base `prefix_of` log -> streams id tx buf log (so_mgr w) -> (pos <= length log)%nat -> fs = slice_of n0 pos log ->
  ss_min_live_seq st = 0 ->
  (if served : bool then fs' = slice_of b (length log) log else fs' = [] /\ (b < length log)%nat) ->
  flow (set_handshake (Z.max (ss_min_live_seq st) (len log)) st) (fs ++ fs') pos (Some (pos, b, served)) w.
Proof.
  intros [F1 F2 F3 _ F5] S0 S1 S2 -> E0 Hfs. split; [done|done|done| |done]. exists log. split_and!; [done|done|done|].
  cbn [ss_min_live_seq set_handshake]. rewrite E0, Z.max_r by apply len_nonneg. unfold len.
  rewrite <- (app_nil_r fs'), <- (slice_empty (length log) pos log) by lia. destruct served.
  - rewrite Hfs. by constructor.
  - destruct Hfs as [-> Hb]. by constructor.
Qed.

Lemma interfered_mono {A} (R1 R2 : SocketWorld DB B R -> SocketWorld DB B R -> Prop) (p : prog _ A) w a w' :
  (forall x y, R1 x y -> R2 x y) -> interfered R1 p w a w' -> interfered R2 p w a w'.
Proof.
  intros HR. revert w. induction p as [b|X f k IH]; intros w; cbn; [done|].
  intros (w1 & H1 & H2). exists w1. auto.
Qed.

(** The first handshake with a bookmark: no PTY is bound, or the ring answers. *)
Lemma first_handshake Rl st fs pos w b st' w' :
  (forall x y, Rl x y -> env x y) -> flow st fs pos None w -> ss_replay_handshake_done st = false -> 0 < b -> is_u64 b ->
  interfered Rl (handle_attach id (Some b) st) w st' w' ->
  ss_replay_handshake_done st' = true
  /\ ((puts' [] w w' /\ flow st' fs pos None w' /\ exists w0, Rl w w0 /\ live_of id (so_mgr w0) = None)
      \/ exists served fs' out, puts' out w w' /\ binaries out = wire fs'
           /\ flow st' (fs ++ fs') pos (Some (pos, Z.to_nat b, served)) w'
           /\ (served = false -> exists o, out = [WText (SReplayWindowLost b o (ss_min_live_seq st'))])
           /\ len base <= ss_min_live_seq st').
Proof.
  intros HR Hf Hh Hb Hu. unfold handle_attach. rewrite Hh. cbn [mbind option_bind].
  rewrite (proj2 (Z.ltb_lt 0 b)) by done. intros (o & w1 & H1 & H2)%interfered_bind.
  apply interfered_act in H1 as (w0 & He0 & -> & ->). cbn [fst snd] in H2. pose proof (HR _ _ He0) as He.
  apply (interfered_mono _ env _ _ _ _ HR) in H2.
  pose proof (puts_nil _ _ He) as P0. pose proof (flow_puts _ _ _ _ _ _ _ Hf P0) as Hf0.
  pose proof Hf0 as [F1 F2 F3 (log & S0 & S1 & S2 & S3) F5].
  assert (E0 : ss_min_live_seq st = 0 /\ fs = slice_of n0 pos log) by (by inversion S3).
  destruct E0 as [E0 Efs].
  assert (Hmono : len base <= len log) by (apply prefix_length in S0; unfold len; lia).
  destruct (live_of id (so_mgr w0)) as [l|] eqn:El.
  2:{ assert (Hr : replay_since id (Some b) (so_mgr w0) = None).
      { unfold replay_since, runtime_view. fold (live_of id (so_mgr w0)). by rewrite El. }
      rewrite Hr in H2. destruct H2 as [-> ->]. split; [done|]. left. split; [done|]. split; [|by exists w0].
      split; [done|done|done| |done]. by exists log. }
  destruct (streams_replay _ _ _ b S1 El Hb Hu) as [(range & Hr & Hl & Hfr)|(lost & Hr & Hl & Hq & Hlt)];
    rewrite Hr in H2; apply interfered_bind in H2 as (u & w2 & H2 & [-> ->]); (split; [done|right]).
  - destruct (interfered_emit_replay _ _ _ _ F1 H2) as (out & P1 & B1). exists true, (rr_frames range), out.
    cbn [ss_min_live_seq set_handshake]. rewrite Hl. split_and!; [by apply (puts_trans [] _ w w0)|done| |done|].
    + eapply flow_puts; [|exact P1]. by apply (flow_floor st fs _ _ log).
    + lia.
  - apply interfered_bind in H2 as (c & w3 & H2 & [-> ->]). destruct (interfered_send _ _ _ _ F1 H2) as [_ P1].
    cbn [ss_min_live_seq set_handshake]. rewrite Hl.
    eexists false, [], _. split_and!; [exact (puts_trans [] _ w w0 w3 P0 P1)|done| | |].
    + eapply flow_puts; [|exact P1]. by apply (flow_floor st fs _ _ log).
    + intros _. exists (wl_oldest_available lost). by rewrite Hq, E0, Hl, Z.max_r by apply len_nonneg.
    + lia.
Qed.

(** A first handshake that asks for nothing. *)
Lemma turns_no_bookmark st b :
  ss_replay_handshake_done st = false -> turns st (Ret (b, set_handshake (ss_min_live_seq st) st)).
Proof.
  intros Hh fs pos bm w r w' Hf [-> ->]. exists [], pos, bm, []. rewrite app_nil_r. split; [by apply puts_nil|].
  split; [done|]. split; [|by rewrite Hh]. destruct Hf as [F1 F2 F3 F4 F5]. by split.
Qed.

Lemma turns_handle_attach st last :
  (forall b, last = Some b -> is_u64 b) -> turns st (do! st' <- handle_attach id last st; Ret (true, st')).
Proof.
  intros Hu. destruct (ss_replay_handshake_done st) eqn:Hh.
  { unfold handle_attach. rewrite Hh. cbn [bind].
    intros fs pos bm w r w' Hf (st1 & w1 & (c & w2 & H1 & [-> ->])%interfered_bind & [-> ->])%interfered_bind.
    apply (turns_say st (WText (SError EcInvalidMessage "already attached")) true eq_refl fs pos bm w); [done|].
    apply interfered_bind. by exists c, w2. }
  destruct (last ≫= (fun seq => if 0 <? seq then Some seq else None)) as [b|] eqn:Eb.
  2:{ unfold handle_attach. rewrite Hh, Eb. by apply turns_no_bookmark. }
  destruct last as [b'|]; [|done]. cbn in Eb. destruct (0 <? b') eqn:Hb; [|done]. injection Eb as ->. bool_props.
  intros fs pos bm w r w' Hf (st' & w1 & H1 & [-> ->])%interfered_bind.
  assert (bm = None) as -> by (by apply (fl_handshake _ _ _ _ _ Hf)).
  destruct (first_handshake env st fs pos w b st' w1 ltac:(done) Hf Hh Hb (Hu b eq_refl) H1)
    as [Hd [(P & F & _)|(served & fs' & out & P & Hbin & F & _ & _)]].
  - exists [], pos, None, []. by rewrite app_nil_r, Hh.
  - exists fs', pos, (Some (pos, Z.to_nat b, served)), out. by rewrite Hh.
Qed.

Lemma turns_handle_text `{!ClientJsonLaws} text st : turns st (handle_text_frame cfg user id text st).
Proof.
  unfold handle_text_frame. destruct (client_msg_from_str text) as [[|sid last cid|data|cols rows| |]|] eqn:Et;
    [by apply turns_say| | | | | |by apply turns_say].
  - apply turns_handle_attach. intros b ->. by apply (bookmark_u64 text sid b cid).
  - apply turns_talks; [apply talks_handle_input|]. intros _. by apply turns_ret.
  - apply turns_talks; [apply talks_handle_resize|]. intros _. by apply turns_ret.
  - apply turns_talks; [apply talks_mgr, quiet_detach_attachment|]. intros [out|e]; [|by apply turns_say].
    apply turns_talks; [by apply talks_send|]. intros _. apply turns_talks; [by apply talks_send|].
    intros _. by apply turns_ret.
  - apply turns_talks; [apply talks_mgr, quiet_close_session|]. intros [out|e]; [|by apply turns_say].
    apply turns_talks; [by apply talks_send|]. intros _. apply turns_talks; [by apply talks_send|].
    intros _. by apply turns_ret.
Qed.

(** No report of missed frames. *)
Definition keeps_up (e : SocketEvent) : bool := match e with EvPtyLagged _ => false | _ => true end.

Lemma turns_round `{!ClientJsonLaws} st e : keeps_up e = true -> turns st (socket_round cfg user id st e).
Proof.
  intros He. destruct e; cbn [socket_round]; try done; [apply turns_handle_text|apply turns_handle_binary|..];
    (by apply turns_ret) || apply turns_handle_pty.
Qed.

Lemma socket_loop_flow `{!ClientJsonLaws} events st fs pos bm w st' w' :
  Forall (fun e => keeps_up e = true) events -> flow st fs pos bm w ->
  interfered env (socket_loop cfg user id st events) w st' w' ->
  exists fs' pos' bm' out, puts' out w w' /\ binaries out = wire fs' /\ flow st' (fs ++ fs') pos' bm' w'
    /\ (ss_replay_handshake_done st = true ->
        ss_replay_handshake_done st' = true /\ bm' = bm /\ ss_min_live_seq st' = ss_min_live_seq st).
Proof.
  intros He. revert st fs pos bm w. induction He as [|e events He _ IH]; intros st fs pos bm w Hf; cbn [socket_loop].
  { intros [-> ->]. exists [], pos, bm, []. rewrite app_nil_r. split; [by apply puts_nil|done]. }
  intros (r & w1 & H1 & H2)%interfered_bind.
  destruct (turns_round st e He fs pos bm w r w1 Hf H1) as (fs1 & pos1 & bm1 & o1 & P1 & B1 & F1 & M1).
  destruct (r.1).
  - destruct (IH r.2 (fs ++ fs1) pos1 bm1 w1 F1 H2) as (fs2 & pos2 & bm2 & o2 & P2 & B2 & F2 & M2).
    exists (fs1 ++ fs2), pos2, bm2, (o1 ++ o2). split; [by apply (puts_trans _ _ w w1)|].
    rewrite binaries_app, wire_app, B1, B2, app_assoc. split_and!; [done|done|].
    intros Hh. destruct (M1 Hh) as (Hh1 & -> & <-). by apply M2.
  - destruct H2 as [-> ->]. by exists fs1, pos1, bm1, o1.
Qed.

(** ** From the attach to the end

    The session stays live as long as the others keep it so. *)
Record serves w w' : Prop := {
  sv_feeds : env w w';
  sv_live : is_Some (live_of id (so_mgr w)) -> is_Some (live_of id (so_mgr w'));
  sv_wf : st_wf (w_db (so_mgr w)) -> st_wf (w_db (so_mgr w'))
}.

#[export] Instance serves_preorder : PreOrder serves.
Proof.
  split; [by intros w|]. intros w1 w2 w3 [A1 A2 A3] [B1 B2 B3]. split; [by transitivity w2|auto|auto].
Qed.

Lemma interfered_on_mgr_bind {A C} Rl (p : prog (World DB B R) A) (k : A -> prog _ C) w b w' :
  interfered Rl (on_mgr (bind p k)) w b w' ->
  exists a w1, interfered Rl (on_mgr p) w a w1 /\ interfered Rl (on_mgr (k a)) w1 b w'.
Proof.
  revert w. induction p as [a|X f k' IH]; intros w; cbn; [by exists a, w|].
  intros (w1 & HR & (a & w2 & H1 & H2)%IH). exists a, w2. split; [by exists w1|done].
Qed.

Definition lively {A} (p : prog (World DB B R) A) : Prop :=
  all_acts (fun m m' => quiet_streams id m m' /\ (is_Some (live_of id m) -> is_Some (live_of id m'))) p.

Lemma lively_on_mgr {A} (p : prog (World DB B R) A) w a w' :
  lively p -> is_Some (live_of id (so_mgr w)) -> interfered serves (on_mgr p) w a w' ->
  puts' [] w w' /\ is_Some (live_of id (so_mgr w')).
Proof.
  revert w. induction p as [b|X f k IH]; intros w Hq Hl; cbn.
  - intros [_ ->]. split; [by apply puts_nil|done].
  - intros (w1 & [He Hk1 _] & H). destruct Hq as [Hf Hk]. specialize (Hf (so_mgr w1)).
    revert Hf H. destruct (f (so_mgr w1)) as [x m]. cbn [fst snd]. intros [Hf Hf'] H.
    destruct (IH x (set_mgr m w1) (Hk x) (Hf' (Hk1 Hl)) H) as [P ?]. split; [|done].
    apply (puts_trans [] [] w w1); [by apply puts_nil|]. apply (puts_trans [] [] w1 (set_mgr m w1)); [|done].
    split_and!; [done|by rewrite app_nil_r|]. intros log Hs. exists log. split; [done|].
    by apply (quiet_streams_keep _ _ _ _ (so_mgr w1)).
Qed.

Lemma lively_repo {A} (f : DB -> result RepositoryError A * DB) : lively (repo f).
Proof. split; [|done]. intros m. cbn. destruct (f (w_db m)). split; [by apply quiet_same|done]. Qed.

Lemma lively_get_owned sid owner : lively (get_owned sid owner).
Proof. apply all_acts_try; [apply lively_repo|]. by intros o. Qed.

Lemma lively_cancel sid : lively (act (cancel_pending_close sid)).
Proof.
  split; [|done]. intros m. split; [apply quiet_cancel_pending_close|].
  unfold cancel_pending_close. destruct (w_runtimes m !! sid) as [[snap [live|] next]|] eqn:E; [|done..].
  destruct (lr_detach_close live); [|done]. cbn [snd abort]. unfold live_of. cbn.
  destruct (decide (sid = id)) as [<-|Hne]; [by rewrite lookup_insert_eq|by rewrite lookup_insert_ne].
Qed.

Lemma interfered_on_mgr_try {E A C} Rl (p : prog (World DB B R) (result E A)) (k : A -> prog _ (result E C)) w c w' :
  interfered Rl (on_mgr (try_bind p k)) w (Ok c) w' ->
  exists a w1, interfered Rl (on_mgr p) w (Ok a) w1 /\ interfered Rl (on_mgr (k a)) w1 (Ok c) w'.
Proof. intros ([a|e] & w1 & H1 & H2)%interfered_on_mgr_bind; [by exists a, w1|]. by destruct H2. Qed.

Lemma lively_attach_session req : lively (attach_session req).
Proof.
  apply all_acts_try; [apply lively_get_owned|]. intros s. case_decide; [done|].
  apply all_acts_bind; [apply lively_cancel|]. intros was.
  apply all_acts_try; [apply lively_repo|]. intros att. apply all_acts_bind; [by split|]. intros view.
  apply all_acts_try; [apply lively_repo|]. intros _. apply all_acts_try.
  - destruct was; [|done]. apply all_acts_try; [apply lively_repo|]. intros _.
    apply all_acts_bind; [apply lively_repo|]. by intros _.
  - intros _. apply all_acts_bind; [|by intros _]. split; [|done]. intros m. split; [by apply quiet_same|done].
Qed.

(** Actions on the socket itself leave the session alone. *)
Lemma serves_act {A} (f : SocketWorld DB B R -> A * SocketWorld DB B R) w a w' :
  (forall w, so_mgr (f w).2 = so_mgr w) -> is_Some (live_of id (so_mgr w)) ->
  interfered serves (act f) w a w' -> is_Some (live_of id (so_mgr w')).
Proof. intros Hf Hl (w1 & [_ Hk _] & -> & ->). rewrite Hf. by apply Hk. Qed.

Lemma socket_send_mgr f w : so_mgr (match so_sends w with
    | false :: rest => (false, mkSocketWorld (so_mgr w) (so_out w) rest)
    | true :: rest => (true, mkSocketWorld (so_mgr w) (so_out w ++ [f]) rest)
    | [] => (true, mkSocketWorld (so_mgr w) (so_out w ++ [f]) [])
    end).2 = so_mgr w.
Proof. by destruct (so_sends w) as [|[] ?]. Qed.

(** The row that an attach finds. *)
Lemma get_owned_key owner w s w' :
  st_wf (w_db (so_mgr w)) -> interfered serves (on_mgr (get_owned id owner)) w (Ok s) w' -> ts_id s = id.
Proof.
  intros Hwf (o & w1 & H1 & [Ho _])%interfered_on_mgr_try. destruct H1 as (w2 & Hs & H1).
  destruct Hs as [_ _ Hwf2]. specialize (Hwf2 Hwf). cbn in H1.
  pose proof (law_get id (w_db (so_mgr w2)) Hwf2) as [Hl _].
  destruct (st_get id (w_db (so_mgr w2))) as [[o'|e] d]; cbn in H1, Hl; [|by destruct H1].
  destruct H1 as [[= ->] _]. destruct Hl as [-> _]. destruct (sv_sessions (w_db (so_mgr w2)) !! id) as [s'|] eqn:E; [|done].
  cbn in Ho. case_decide; [|done]. injection Ho as ->. by apply (law_session_key _ _ _ Hwf2 E).
Qed.

(** Attaching to a live session hands over its channel. *)
Lemma attach_live req w log out w' :
  aq_session_id req = id -> is_Some (live_of id (so_mgr w)) -> streams id tx buf log (so_mgr w) ->
  st_wf (w_db (so_mgr w)) ->
  interfered serves (on_mgr (attach_session req)) w (Ok out) w' ->
  exists view, ao_live out = Some view /\ lv_output_tx view = tx.
Proof.
  intros Hid Hl Hs Hwf (s & w1 & H1 & H2)%interfered_on_mgr_try. rewrite Hid in H1.
  pose proof (get_owned_key _ _ _ _ Hwf H1) as Hkey.
  destruct (lively_on_mgr _ _ _ _ (lively_get_owned id _) Hl H1) as [P1 L1].
  case_decide; [by destruct H2|]. apply interfered_on_mgr_bind in H2 as (was & w2 & H2 & H3).
  destruct (lively_on_mgr _ _ _ _ (lively_cancel (ts_id s)) L1 H2) as [P2 L2].
  apply interfered_on_mgr_try in H3 as (att & w3 & H3 & H4).
  destruct (lively_on_mgr _ _ _ _ (lively_repo _) L2 H3) as [P3 L3].
  apply interfered_on_mgr_bind in H4 as (view & w4 & H4 & H5). destruct H4 as (w5 & [He Hk _] & -> & _).
  destruct (puts_trans _ _ _ _ _ P1 (puts_trans _ _ _ _ _ P2 (puts_trans _ _ _ _ _ P3 (puts_nil _ _ He)))) as (_ & _ & Hg).
  destruct (Hg log Hs) as (log' & _ & S'). destruct (Hk L3) as [l Hlive]. rewrite Hkey in H5. cbn [fst snd] in H5.
  apply interfered_on_mgr_try in H5 as (? & ? & _ & H5). apply interfered_on_mgr_try in H5 as (? & ? & _ & H5).
  apply interfered_on_mgr_bind in H5 as (? & ? & _ & [[= ->] _]). cbn [ao_live].
  unfold runtime_view. fold (live_of id (so_mgr w5)). rewrite Hlive. eexists. split; [done|]. by apply (sm_live _ _ _ _ _ S').
Qed.

End rounds.

(** The state of a task that has just announced a live PTY. *)
Lemma flow_start id tx buf log w aid view :
  streams id tx buf log (so_mgr w) -> so_sends w = [] ->
  let n0 := length (default [] (w_channels (so_mgr w) !! tx)) in
  flow id tx buf n0 log (mkSocket aid false false (Some (mkSub tx n0)) false 0 view) [] n0 None w.
Proof.
  intros Hs Hn n0. split; [done|done|done| |done]. exists log. split; [done|]. split; [done|].
  destruct (sm_chan _ _ _ _ _ Hs) as (sent & Hc & Hp). unfold n0. rewrite Hc. cbn [ss_min_live_seq].
  change (default [] (Some sent)) with sent. split; [by apply prefix_length|].
  pose proof (dl_live (length sent) log (length sent)) as D. by rewrite slice_empty in D by done.
Qed.

(** The frames after a handshake that came first: one run from the bookmark, or from the floor. *)
Lemma delivered_after_handshake n0 log pos b served floor fs :
  delivered n0 log pos (Some (n0, b, served)) floor fs -> (pos <= length log)%nat -> Z.of_nat b <= floor ->
  exists N, (N <= length log)%nat /\ (served = true -> Z.to_nat floor <= N)%nat
    /\ fs = slice_of (if served : bool then b else Z.to_nat floor) N log.
Proof.
  intros H Hpos Hb. inversion H as [|? ? r H1 H2|? ? r H1 H2 H3]; subst; rewrite slice_empty by done; cbn [app].
  - exists (Nat.max r pos). split; [lia|]. split; [lia|]. unfold slice_of at 1 2 3. destruct (decide (pos <= r)%nat).
    + rewrite Nat.max_l by lia. rewrite (drop_ge (take pos log)) by (rewrite length_take; lia). apply app_nil_r.
    + rewrite Nat.max_r by lia. rewrite <- (take_drop r (take pos log)) at 2.
      rewrite take_take, Nat.min_l by lia. rewrite drop_app_le by (rewrite length_take; lia). done.
  - exists pos. split; [done|]. split; [done|]. by rewrite Nat2Z.id.
Qed.

Lemma cleanup_talks user id tx buf st w w' :
  interfered (feeds id tx buf) (socket_cleanup cfg user id st) w tt w' -> puts id tx buf [] w w'.
Proof.
  unfold socket_cleanup. case_match; [|by intros [_ ->]; apply puts_nil].
  intros (r & w1 & H1 & [_ ->])%interfered_bind. by apply (interfered_on_mgr _ _ _ _ _ _ _ (quiet_detach_attachment id user id _ None) H1).
Qed.

(** The loop of a task whose client sends its bookmark first. *)
Lemma loop_after_handshake `{!ClientJsonLaws} user id tx buf log text sid cid b events n0 st w st' w' :
  is_Some (live_of id (so_mgr w)) -> flow id tx buf n0 log st [] n0 None w ->
  ss_replay_handshake_done st = false ->
  client_msg_from_str text = Some (CAttach sid (Some b) cid) -> 0 < b <= len log ->
  Forall (fun e => keeps_up e = true) events ->
  interfered (serves id tx buf) (socket_loop cfg user id st (EvText text :: events)) w st' w' ->
  exists rest log' start N, puts id tx buf rest w w' /\ log `prefix_of` log' /\ streams id tx buf log' (so_mgr w') /\ (N <= length log')%nat
    /\ binaries rest = wire (slice_of start N log')
    /\ (start = Z.to_nat b /\ (length log <= N)%nat \/ exists o, WText (SReplayWindowLost b o (Z.of_nat start)) ∈ rest).
Proof.
  intros Hl Hf Hh Ht Hb He. cbn [socket_loop socket_round]. unfold handle_text_frame. rewrite Ht.
  intros (r & w1 & (st1 & w1' & H1 & [-> ->])%interfered_bind & H2)%interfered_bind. cbn [fst snd] in H2.
  pose proof (fun x y => sv_feeds id tx buf x y) as HR.
  destruct (first_handshake id tx buf n0 log (serves id tx buf) st [] n0 w b st1 w1' HR Hf Hh ltac:(lia)
    (bookmark_u64 _ _ _ _ Ht) H1) as [Hd [(_ & _ & w0 & Hsv & Hnone)|(served & fs1 & o1 & P1 & B1 & F1 & Hlost & Hlen)]].
  { apply (sv_live _ _ _ _ _ Hsv) in Hl. rewrite Hnone in Hl. by destruct Hl. }
  apply (interfered_mono _ (feeds id tx buf) _ _ _ _ HR) in H2.
  destruct (socket_loop_flow user id tx buf n0 log events st1 _ _ _ _ _ _ He F1 H2) as (fs2 & pos2 & bm2 & o2 & P2 & B2 & F2 & M2).
  destruct (M2 Hd) as (_ & -> & Hfloor). destruct F2 as [_ _ _ (log' & S0 & S1 & S2 & S3) _]. rewrite Hfloor in S3. cbn [app] in S3.
  destruct (delivered_after_handshake n0 log' pos2 (Z.to_nat b) served (ss_min_live_seq st1) _ S3 S2) as (N & HN & HN' & Efs);
    [lia|]. exists (o1 ++ o2), log', (if served then Z.to_nat b else Z.to_nat (ss_min_live_seq st1)), N.
  rewrite binaries_app, B1, B2, <- wire_app, Efs. split_and!; [by apply (puts_trans _ _ _ _ _ w w1')|done|done|done|done|].
  destruct served; [left; split; [done|]; specialize (HN' eq_refl); unfold len in *; lia|right]. destruct (Hlost eq_refl) as [o ->]. exists o.
  rewrite Z2Nat.id by lia. apply elem_of_app. left. apply list_elem_of_singleton. done.
Qed.

(** The handshake of a task that attached to a live PTY: the receiver starts at the end of the channel,
    and the acknowledgement is the first thing on the socket. *)
Lemma announced id tx buf log out view w sub w1 sent w2 msg :
  streams id tx buf log (so_mgr w) -> is_Some (live_of id (so_mgr w)) -> so_sends w = [] ->
  ao_live out = Some view -> lv_output_tx view = tx ->
  interfered (serves id tx buf) (subscribe_view (ao_live out)) w sub w1 ->
  interfered (serves id tx buf) (send_msg msg) w1 sent w2 ->
  exists n0 log', sent = true /\ puts id tx buf [WText msg] w w2 /\ is_Some (live_of id (so_mgr w2))
    /\ log `prefix_of` log'
    /\ flow id tx buf n0 log' (mkSocket (ta_id (ao_attachment out)) false false sub false 0 (ao_live out)) [] n0 None w2.
Proof.
  intros Hs Hl Hn Hv Htx. rewrite Hv. cbn [subscribe_view].
  intros (sub' & w1' & H1 & [-> ->])%interfered_bind H2. rewrite Htx in H1.
  assert (L1 : is_Some (live_of id (so_mgr w1'))) by (eapply serves_act; [|exact Hl|exact H1]; done). destruct H1 as (w0 & [He _ _] & -> & ->).
  cbn [fst snd] in *. pose proof (puts_nil id tx buf _ _ He) as P0. pose proof P0 as (_ & _ & G0).
  destruct (G0 log Hs) as (log0 & Hp0 & S0). pose proof (puts_sends id tx buf _ _ _ P0 Hn) as N0.
  assert (L2 : is_Some (live_of id (so_mgr w2))) by (eapply serves_act; [|exact L1|exact H2]; apply socket_send_mgr).
  apply (interfered_mono _ (feeds id tx buf) _ _ _ _ (sv_feeds id tx buf)) in H2.
  destruct (interfered_send id tx buf _ _ _ _ N0 H2) as [-> P2]. eexists _, log0. split_and!; [done| |done|done|].
  - by apply (puts_trans id tx buf [] _ w w0).
  - eapply flow_puts; [|exact P2]. by apply (flow_start id tx buf log0 w0).
Qed.


(** ** The forwarder feeds the socket *)

Lemma feeds_same id tx buf m w :
  w_buffers m = w_buffers (so_mgr w) -> w_channels m = w_channels (so_mgr w) -> w_runtimes m = w_runtimes (so_mgr w) ->
  feeds id tx buf w (set_mgr m w).
Proof.
  intros E1 E2 E3. split_and!; [done..|]. intros log Hs. exists log. split; [done|].
  apply (quiet_streams_keep _ _ _ _ (so_mgr w)); [by apply quiet_same|done].
Qed.

(** The next frame enters the ring. *)
Lemma feeds_push id tx buf ring f w :
  w_buffers (so_mgr w) !! buf = Some ring -> f_seq f = ReplayBuffer.latest_seq ring + 1 -> f_seq f <= u64_max ->
  total_bytes (ReplayBuffer.frames ring) + len (f_data f) <= usize_max ->
  feeds id tx buf w (set_mgr (push_frame buf f (so_mgr w)) w).
Proof.
  intros Hring Hseq Hmax Hcap. split_and!; [done..|]. intros log [S1 (ring' & n & S2 & Ha) (sent & S3 & S3') S4].
  rewrite Hring in S2. injection S2 as <-. pose proof (ReplaySpec.abs_latest _ _ Ha) as Hlat. cbn in Hlat.
  destruct (push_evicts _ _ f Ha) as [k Ha']; [cbn; lia|done|]. exists (log ++ [f]). split; [by eexists|]. split.
  - rewrite len_app. change (len [f]) with 1. lia.
  - cbn. rewrite lookup_alter_eq, Hring. by eexists _, _.
  - exists sent. split; [done|]. by apply prefix_app_r.
  - exact S4.
Qed.

(** The frame the ring has just taken goes out on the channel. *)
Lemma feeds_send id tx buf ring sent f w :
  w_buffers (so_mgr w) !! buf = Some ring -> last (ReplayBuffer.frames ring) = Some f ->
  w_channels (so_mgr w) !! tx = Some sent -> len sent + 1 = ReplayBuffer.latest_seq ring ->
  feeds id tx buf w (set_mgr (send_frame tx f (so_mgr w)) w).
Proof.
  intros Hring Hlast Hsent Hlen. split_and!; [done..|]. intros log [S1 (ring' & n & S2 & Ha) (sent' & S3 & [rest S3']) S4].
  rewrite Hring in S2. injection S2 as <-. rewrite Hsent in S3. injection S3 as <-.
  pose proof (ReplaySpec.abs_latest _ _ Ha) as Hlat. rewrite (ReplaySpec.abs_frames _ _ Ha) in Hlast. cbn in Hlat, Hlast.
  exists log. split; [done|]. split; [done|by exists ring, n| |done].
  assert (rest = [f]) as ->.
  { assert (Hr : length rest = 1%nat) by (rewrite S3', len_app in Hlat; unfold len in *; lia).
    destruct rest as [|g [|h rest]]; [done| |done]. f_equal. subst log.
    pose proof (ReplaySpec.abs_retains _ _ Ha) as Hn. cbn in Hn. specialize (Hn ltac:(by destruct sent)).
    rewrite drop_app_le, last_snoc in Hlast by (rewrite length_app in Hn; cbn in Hn; lia). congruence. }
  exists (sent ++ [f]). cbn. rewrite lookup_alter_eq, Hsent. split; [done|]. by rewrite S3'.
Qed.

(** Every action of the forwarder on a chunk of output is one that [reconnect_stream_exact] lets the
    others do, as long as it stamps with its own counter and the ring's accounting does not saturate. *)
Lemma forwarder_feeds id args bytes ring sent w :
  let m := so_mgr w in
  w_buffers m !! fw_replay args = Some ring -> w_channels m !! fw_output_tx args = Some sent ->
  len sent = ReplayBuffer.latest_seq ring -> load (fw_next_seq args) m = ReplayBuffer.latest_seq ring + 1 -> ReplayBuffer.latest_seq ring + 1 <= u64_max ->
  total_bytes (ReplayBuffer.frames ring) + len bytes <= usize_max ->
  stepwise (feeds id (fw_output_tx args) (fw_replay args)) (on_mgr (forward_output args bytes)) w.
Proof.
  intros m Hring Hsent Hlen Hload Hmax Hcap. cbn. fold m. rewrite Hload. split; [by apply feeds_same|].
  split; [apply (feeds_push _ _ _ ring (mkFrame (ReplayBuffer.latest_seq ring + 1) bytes) (set_mgr _ w)); done|].
  split.
  { apply (feeds_send _ _ _ (ReplayBuffer.push ring (mkFrame (ReplayBuffer.latest_seq ring + 1) bytes)) sent _ (set_mgr _ w)).
    - cbn. by rewrite lookup_alter_eq, Hring.
    - apply push_last.
    - done.
    - rewrite (proj2 (push_last _ _)). cbn. lia. }
  split; [by apply feeds_same|]. split; [|done]. unfold record_output. destruct (fw_recording args); by apply feeds_same.
Qed.

(** ** The end of a PTY *)

(** The outcomes of the broadcast receiver. *)
Definition from_pty (e : SocketEvent) : bool := match e with EvPty | EvPtyLagged _ => true | _ => false end.

(** The task's own view holds a sender of the channel it receives from. *)
Definition holds_sender (st : SocketState) : Prop := ls_tx <$> ss_live st = lv_output_tx <$> ss_view st.

Lemma pty_round_goes_on (Rl : SocketWorld DB B R -> SocketWorld DB B R -> Prop) user id e st w r w' :
  (forall x y, Rl x y -> so_sends x = [] -> so_sends y = []) ->
  from_pty e = true -> holds_sender st -> so_sends w = [] ->
  interfered Rl (socket_round cfg user id st e) w r w' -> r.1 = true /\ holds_sender r.2 /\ so_sends w' = [].
Proof.
  intros HR He Hh Hn. destruct e; try done; cbn [socket_round]; unfold holds_sender in *.
  2:{ intros [-> ->]. unfold handle_lagged. destruct (ss_live st) as [sub|] eqn:El; cbn in *; by rewrite ?El. }
  unfold handle_pty. destruct (ss_live st) as [sub|] eqn:El; [|intros [-> ->]; cbn; by rewrite <- Hh, El].
  intros (o & w1 & (w0 & H0 & -> & ->) & H2)%interfered_bind. apply HR in H0; [|done]. cbn [fst snd] in H2.
  assert (Hs : has_sender (ls_tx sub) (ss_view st) (so_mgr w0) = true).
  { unfold has_sender. by rewrite (bool_decide_true (lv_output_tx <$> ss_view st = _)) by (by rewrite <- Hh). }
  rewrite Hs in H2. unfold rx_recv in H2. revert H2. destruct (_ !! ls_pos sub) as [f|]; intros H2.
  2:{ destruct H2 as [-> ->]. cbn. by rewrite El. }
  cbn [ss_min_live_seq set_live] in H2. revert H2. destruct (f_seq f <=? _); intros H2; [by destruct H2 as [-> ->]|].
  apply interfered_bind in H2 as (b & w2 & H2 & [-> ->]). unfold send_binary_output in H2.
  destruct (encode_binary_frame _ _ _); [|by destruct H2 as [-> ->]].
  destruct H2 as (w3 & H3 & -> & ->). apply HR in H3; [|done]. by rewrite H3.
Qed.

(** C34: The socket outlives its PTY.  [outcome.live], which the task keeps to its end, holds a sender of the
    broadcast channel, so the receiver never reports that the channel is closed: whatever the others
    do, and however often the branch of the PTY fires, it does not end the loop, which goes on with
    what the client sends next. *)
Theorem socket_outlives_pty (Rl : SocketWorld DB B R -> SocketWorld DB B R -> Prop) user id aid view pos ptys events w st' w' :
  (forall x y, Rl x y -> so_sends x = [] -> so_sends y = []) -> so_sends w = [] ->
  Forall (fun e => from_pty e = true) ptys ->
  interfered Rl (socket_loop cfg user id
    (mkSocket aid false false (Some (mkSub (lv_output_tx view) pos)) false 0 (Some view)) (ptys ++ events)) w st' w' ->
  exists st1 w1, interfered Rl (socket_loop cfg user id st1 events) w1 st' w'.
Proof.
  intros HR Hn He. assert (Hh : holds_sender (mkSocket aid false false (Some (mkSub (lv_output_tx view) pos)) false 0 (Some view))) by done.
  revert Hh. generalize (mkSocket aid false false (Some (mkSub (lv_output_tx view) pos)) false 0 (Some view)) as st.
  revert w Hn. induction He as [|e ptys He _ IH]; intros w Hn st Hh; [by exists st, w|].
  cbn [app socket_loop]. intros (r & w1 & H1 & H2)%interfered_bind.
  destruct (pty_round_goes_on _ _ _ _ _ _ _ _ HR He Hh Hn H1) as (E1 & Hh1 & Hn1). rewrite E1 in H2. by apply (IH w1 Hn1 r.2).
Qed.

(** ** A failed acknowledgement *)

(** No client is registered for the session. *)
Definition unwatched (id : TerminalSessionId) m : Prop := map_Forall (fun _ a => ar_session_id a <> id) (w_attachments m).

Lemma run_on_mgr {A} (p : prog (World DB B R) A) w :
  run (on_mgr p) w = let '(a, m) := run p (so_mgr w) in (a, set_mgr m w).
Proof.
  revert w. induction p as [a|X f k IH]; intros w; cbn; [by destruct w|].
  destruct (f (so_mgr w)) as [x m] eqn:E. rewrite IH. by cbn.
Qed.

Lemma seq_run {A} (p : prog (World DB B R) A) m Q : seq p m Q -> exists a m', run p m = (a, m') /\ Q a m'.
Proof. unfold seq. destruct (run p m) as [a m']. intros H. by exists a, m'. Qed.

(** A client comes back to a detached session in its last window and the acknowledgement cannot be
    sent: the attach has withdrawn the pending close, and the task leaves through [detach_session],
    which schedules none.  The session stays [Active] with a live PTY, without a client and without a
    deadline. *)
Theorem failed_ack_leaks_session user id ci s l c events rest w :
  let req := mkAttachReq user id ci None in
  attachable req s (so_mgr w) -> live_of id (so_mgr w) = Some l -> lr_detach_close l = Some c ->
  unwatched id (so_mgr w) -> so_sends w = false :: rest ->
  exists w', run (run_attached_socket cfg user id ci events) w = (tt, w')
    /\ so_out w' = so_out w
    /\ (exists seen, sv_sessions (w_db (so_mgr w')) !! id = Some (with_status s Active None seen))
    /\ live_of id (so_mgr w') = Some (set_detach_close None l) /\ detach_state id (so_mgr w') = None
    /\ w_tasks (so_mgr w') = delete (dc_handle c) (w_tasks (so_mgr w))
    /\ unwatched id (so_mgr w').
Proof.
  intros req Hat Hl Hc Hnone Hsend. unfold run_attached_socket. rewrite run_bind, run_on_mgr. fold req.
  destruct (seq_run (attach_session req) (so_mgr w) (fun r m' => exists a, reattached req s l c a (so_mgr w) m' /\
    r = Ok (attach_out s a (Some (mkView (lr_handle l) (lr_output_tx l) (lr_replay l)))))) as (r & m1 & -> & a & Hre & ->).
  { apply (seq_reattach req s l c); [done..|]. intros a m' H. by exists a. }
  destruct Hre as [Hup Hnew Hof (seen & Hs) Ha _ Hreg Hlive Ht _]. cbn [attach_out ao_live subscribe_view].
  destruct w as [m0 out0 sends0]. cbn [so_mgr so_sends so_out] in *. subst sends0.
  rewrite !run_bind. cbn -[detach_session]. rewrite run_bind, run_on_mgr. cbn [so_mgr].
  destruct (seq_run (detach_session user id (ta_id a) None) m1 (fun _ m' =>
    sv_sessions (w_db m') = sv_sessions (w_db m1) /\ w_runtimes m' = w_runtimes m1 /\ w_tasks m' = w_tasks m1
    /\ w_attachments m' = delete (ta_id a) (w_attachments m1))) as (r2 & m2 & -> & E1 & E2 & E3 & E4).
  { apply (seq_detach_session_up id user (ta_id a) None (with_status s Active None seen) a).
    - split; [done|rewrite Hs; apply lookup_insert_eq|apply Hat|apply Hat|rewrite Ha; apply lookup_insert_eq|apply Hof|done].
    - apply Hof.
    - intros d e _ Es _ _ _. done. }
  eexists. split; [done|]. cbn [so_mgr so_out set_mgr]. split; [done|]. rewrite E1, E3, Ht. cbn in Hs.
  assert (Hl2 : live_of id m2 = Some (set_detach_close None l)) by (unfold live_of; rewrite E2; exact Hlive).
  split_and!; [exists seen; rewrite Hs; apply lookup_insert_eq|done| |done|].
  - unfold detach_state. fold (live_of id m2). by rewrite Hl2.
  - unfold unwatched. rewrite E4, Hreg, delete_insert_eq. intros k x Hx. apply lookup_delete_Some in Hx as [_ Hx]. by apply (Hnone k).
Qed.

(** ** Output that comes before the bookmark *)

(** The fresh state of a task whose receiver is at [pos]. *)
Definition fresh_at (aid : TerminalSessionAttachmentId) (tx pos : nat) (view : option LiveRuntimeView) : SocketState :=
  mkSocket aid false false (Some (mkSub tx pos)) false 0 view.

(** Live frames go out one by one. *)
Lemma run_live_frames user id tx log aid view rest k pos w :
  ReplaySpec.numbered log -> w_channels (so_mgr w) !! tx = Some log -> so_sends w = [] -> (pos + k <= length log)%nat ->
  run (socket_loop cfg user id (fresh_at aid tx pos view) (repeat EvPty k ++ rest)) w
  = run (socket_loop cfg user id (fresh_at aid tx (pos + k) view) rest)
      (mkSocketWorld (so_mgr w) (so_out w ++ wire (slice_of pos (pos + k) log)) []).
Proof.
  intros Hnum Hc Hn. revert pos w Hc Hn. induction k as [|k IH]; intros pos w Hc Hn Hk.
  { rewrite Nat.add_0_r, slice_empty, app_nil_r by done. cbn. by rewrite <- Hn; destruct w. }
  destruct (lookup_lt_is_Some_2 log pos ltac:(lia)) as [f Hf].
  assert (Hsl : slice_of pos (pos + S k) log = f :: slice_of (S pos) (pos + S k) log).
  { unfold slice_of. apply drop_S. rewrite lookup_take_lt by lia. done. }
  cbn [repeat app socket_loop socket_round handle_pty fresh_at ss_live]. rewrite !run_bind.
  cbn [run act ls_tx ls_pos]. rewrite Hc. change (default [] (Some log)) with log. unfold rx_recv. rewrite Hf.
  change (ss_min_live_seq (set_live (Some (mkSub tx (S pos))) (fresh_at aid tx pos view))) with 0.
  change (set_live (Some (mkSub tx (S pos))) (fresh_at aid tx pos view)) with (fresh_at aid tx (S pos) view).
  rewrite (proj2 (Z.leb_gt (f_seq f) 0)) by (rewrite (numbered_lookup _ _ _ Hnum Hf); lia).
  rewrite !run_bind, Hsl. unfold send_binary_output. cbn [wire mbind list_bind].
  destruct (encode_binary_frame Output (f_seq f) (f_data f)) as [bytes|e].
  - cbn [run socket_send act]. rewrite Hn. cbn [fst snd].
    specialize (IH (S pos) (mkSocketWorld (so_mgr w) (so_out w ++ [WBinary bytes]) []) Hc eq_refl ltac:(lia)).
    cbn [so_mgr so_out] in IH. rewrite <- app_assoc in IH.
    replace (S pos + k)%nat with (pos + S k)%nat in IH by lia. exact IH.
  - cbn [run fst snd app]. specialize (IH (S pos) w Hc Hn ltac:(lia)).
    replace (S pos + k)%nat with (pos + S k)%nat in IH by lia. exact IH.
Qed.

(** Output that the shell writes between the acknowledgement and the client's [Attach] frame is
    delivered live and then once more by the replay: the floor is only raised by the handshake, and
    the handshake replays from the bookmark.  (Unless the ring has lost the bookmark.) *)
Theorem late_handshake_duplicates `{!ClientJsonLaws} user id tx buf log l n0 aid view text sid cid b w :
  streams id tx buf log (so_mgr w) -> live_of id (so_mgr w) = Some l -> w_channels (so_mgr w) !! tx = Some log ->
  so_sends w = [] -> client_msg_from_str text = Some (CAttach sid (Some b) cid) -> 0 < b ->
  (Z.to_nat b <= n0 < length log)%nat ->
  let w' := (run (socket_loop cfg user id (fresh_at aid tx n0 view) (repeat EvPty (length log - n0) ++ [EvText text])) w).2 in
  exists replayed, so_out w' = so_out w ++ wire (slice_of n0 (length log) log) ++ replayed
    /\ (binaries replayed = wire (slice_of (Z.to_nat b) n0 log) ++ wire (slice_of n0 (length log) log)
        \/ exists o, WText (SReplayWindowLost b o (len log)) ∈ replayed).
Proof.
  intros Hs Hl Hc Hn Ht Hb Hn0. cbv zeta. rewrite (run_live_frames user id tx log) by (done || lia || by eapply streams_numbered).
  replace (n0 + (length log - n0))%nat with (length log) by lia.
  set (w1 := mkSocketWorld (so_mgr w) (so_out w ++ wire (slice_of n0 (length log) log)) []).
  cbn [socket_loop socket_round]. unfold handle_text_frame. rewrite Ht, !run_bind. unfold handle_attach.
  cbn [fresh_at ss_replay_handshake_done mbind option_bind]. rewrite (proj2 (Z.ltb_lt 0 b)) by done. rewrite run_bind.
  change (run (act _) w1) with (replay_since id (Some b) (so_mgr w), w1).
  assert (Hu : is_u64 b) by (by eapply bookmark_u64). cbv beta iota.
  destruct (streams_replay id tx buf log (so_mgr w) l b Hs Hl Hb Hu)
    as [(range & -> & _ & Hfr)|(lost & -> & Hlat & Hreq & _)]; rewrite run_bind.
  - pose proof (interfered_run (feeds id tx buf) (emit_replay_range range) w1) as He.
    destruct (run (emit_replay_range range) w1) as [u w2]. cbn in He.
    destruct (interfered_emit_replay id tx buf range w1 u w2 eq_refl He) as (out & (_ & Eo & _) & Eb).
    exists out. cbn. rewrite Eo. cbn. split; [by rewrite <- app_assoc|]. left. rewrite Eb, Hfr, <- wire_app. f_equal.
    unfold slice_of. rewrite firstn_all, <- drop_app_le by (rewrite length_take; lia). by rewrite take_drop.
  - cbn. eexists. split; [by rewrite <- app_assoc|]. right. exists (wl_oldest_available lost).
    rewrite Hlat, Hreq. by apply list_elem_of_singleton.
Qed.

End spec.
