(* ===== verification/SocketScenario.v ===== *)
(** * Sockets of the concrete deployment

    The deployment of [Scenario.v] with a client that comes back while the shell is writing.  The
    theorems about the socket task are applied to its states, and two of its runs are computed. *)

From S2P Require Import Prelude Core Replay Binary SessionStore PgSession Prog Manager ManagerInv ManagerSpec.
From S2P Require Import Scenario Messages Socket SocketSpec.
Import TerminalSessionManager Socket.

(** A parser that knows one message: an [Attach] with bookmark 1. *)
Definition attach_text : rstr := lit "attach after 1".
#[export] Instance one_message : ClientJson := fun text =>
  if decide (text = attach_text) then Some (CAttach None (Some 1) None) else None.
#[export] Instance one_message_laws : ClientJsonLaws.
Proof. intros text sid b cid. unfold client_msg_from_str, one_message. case_decide; [|done]. intros [= _ <- _]. by unfold is_u64. Qed.

Abbreviation sworld := (SocketWorld PgDb Loopback SeqSink).

(** The shell has written two chunks; the first client is gone. *)
Definition chunk1 : list Byte.byte := bytes_of [104; 105].
Definition chunk2 : list Byte.byte := bytes_of [10].
Definition chunk3 : list Byte.byte := bytes_of [36; 32].
Definition m_two_chunks : world :=
  (run (forward_output fw chunk2) (run (forward_output fw chunk1) w_detached).2).2.
Definition two_chunks : list OutputFrame := [mkFrame 1 chunk1; mkFrame 2 chunk2].
Definition ring2 : ReplayBuffer.t := ReplayBuffer.push_all (ReplayBuffer.new replay_config_default) two_chunks.
Definition sw : sworld := mkSocketWorld m_two_chunks [] [].

Lemma sw_streams : streams 100 1 2 two_chunks (so_mgr sw).
Proof.
  destruct (push_all_abs replay_config_default two_chunks) as [n Hn]; [by vm_compute|by vm_compute|].
  split; [by vm_compute| | |].
  - eexists _, n. split; [|exact Hn]. by vm_compute.
  - exists two_chunks. split; [by vm_compute|done].
  - intros l Hl. vm_compute in Hl. by injection Hl as <-.
Qed.

Lemma sw_up : up (w_db (so_mgr sw)).
Proof. apply db_up_sound. vm_compute. reflexivity. Qed.

(** The forwarder writes its third chunk, as one action of the others. *)
Definition third (w : sworld) : sworld := (run (on_mgr (forward_output fw chunk3)) w).2.

Lemma third_serves (w : sworld) ring sent :
  w_buffers (so_mgr w) !! 2%nat = Some ring -> w_channels (so_mgr w) !! 1%nat = Some sent ->
  len sent = 2 -> ReplayBuffer.latest_seq ring = 2 -> load 0 (so_mgr w) = 3 ->
  total_bytes (ReplayBuffer.frames ring) + 2 <= usize_max -> serves 100 1 2 w (third w).
Proof.
  intros H1 H2 H3 H4 H5 H6. split; [|by unfold third; cbn|by unfold third; cbn].
  apply (stepwise_run (feeds 100 1 2)). apply (forwarder_feeds 100 fw chunk3 ring sent); rewrite ?H4; done.
Qed.

(** The task up to its loop, and from the loop on. *)
Definition opened : result TerminalSessionManagerError AttachSessionOutcome * sworld :=
  run (on_mgr (attach_session (mkAttachReq user 100 None None))) sw.
Definition view1 : LiveRuntimeView := mkView 7 1 2.
Definition attached_msg : ServerMsg := SSessionAttached 100 105 AttachedActive LIVE_PTY_ATTACH_MESSAGE.
Definition announced_sw : sworld := (run (send_msg attached_msg) opened.2).2.
Definition st1 : SocketState := mkSocket 105 false false (Some (mkSub 1 2)) false 0 (Some view1).
Definition client_events : list SocketEvent := [EvText attach_text; EvPty; EvPty].

(** The third chunk arrives after the acknowledgement and before the bookmark is read. *)
Definition looped : SocketState * sworld := run (socket_loop cfg user 100 st1 client_events) (third announced_sw).

Definition out1 : AttachSessionOutcome :=
  mkAttachOut s_detached (mkAttachment 105 100 1000 None None None None) LIVE_PTY_ATTACH_MESSAGE (Some view1).

Lemma opened_runs : interfered (serves 100 1 2) (on_mgr (attach_session (mkAttachReq user 100 None None))) sw (Ok out1) opened.2.
Proof.
  assert (E : Ok out1 = opened.1) by (vm_compute; done). rewrite E.
  exact (interfered_run _ (on_mgr (attach_session (mkAttachReq user 100 None None))) sw).
Qed.

Lemma looped_runs : interfered (serves 100 1 2) (socket_loop cfg user 100 st1 client_events) announced_sw looped.1 looped.2.
Proof.
  apply (interfered_later (serves 100 1 2)
    (fun w => (TerminalSessionManager.replay_since 100 (Some 1) (so_mgr w), w)) _ announced_sw (third announced_sw)).
  - apply (third_serves announced_sw ring2 two_chunks); vm_compute; done.
  - exact (interfered_run _ (socket_loop cfg user 100 st1 client_events) (third announced_sw)).
Qed.

Lemma subscribed_runs (w : sworld) :
  length (default [] (w_channels (so_mgr w) !! 1%nat)) = 2%nat ->
  interfered (serves 100 1 2) (subscribe_view (Some view1)) w (Some (mkSub 1 2)) w.
Proof. intros H. exists w. split; [reflexivity|]. cbn. by rewrite H. Qed.

Definition ended : sworld := (run (socket_cleanup cfg user 100 looped.1) looped.2).2.

Lemma unit_runs (p : prog sworld unit) w : interfered (serves 100 1 2) p w tt (run p w).2.
Proof. pose proof (interfered_run (serves 100 1 2) p w) as H. by destruct (run p w) as [[] w']. Qed.

Lemma task_runs : interfered (serves 100 1 2) (run_attached_socket cfg user 100 None client_events) sw tt ended.
Proof.
  apply interfered_bind. exists (Ok out1), opened.2. split; [exact opened_runs|].
  apply interfered_bind. exists (Some (mkSub 1 2)), opened.2. split; [apply subscribed_runs; vm_compute; reflexivity|].
  apply interfered_bind. exists true, announced_sw. split.
  { exact (interfered_run (serves 100 1 2) (send_msg attached_msg) opened.2). }
  cbn [negb]. apply interfered_bind. exists looped.1, looped.2. split; [exact looped_runs|].
  exact (unit_runs (socket_cleanup cfg user 100 looped.1) looped.2).
Qed.


(** ** The defects *)

Lemma late_handshake_duplicates_witness :
  let w' := (run (socket_loop cfg user 100 (fresh_at 105 1 2 (Some view1)) [EvPty; EvText attach_text]) (third announced_sw)).2 in
  exists replayed, so_out w' = so_out (third announced_sw) ++ wire [mkFrame 3 chunk3] ++ replayed
    /\ (binaries replayed = wire [mkFrame 2 chunk2] ++ wire [mkFrame 3 chunk3]
        \/ exists o, WText (SReplayWindowLost 1 o 3) ∈ replayed).
Proof.
  apply (late_handshake_duplicates cfg user 100 1 2 (two_chunks ++ [mkFrame 3 chunk3]) (set_detach_close None l_live) 2 105 (Some view1)
    attach_text None None 1 (third announced_sw)).
  - destruct (push_all_abs replay_config_default (two_chunks ++ [mkFrame 3 chunk3])) as [n Hn]; [by vm_compute|by vm_compute|].
    split; [by vm_compute|eexists _, n; split; [|exact Hn]; vm_compute; reflexivity
           |exists (two_chunks ++ [mkFrame 3 chunk3]); split; [vm_compute; reflexivity|done]|].
    intros l Hl. vm_compute in Hl. injection Hl as <-. done.
  - vm_compute. reflexivity.
  - vm_compute. reflexivity.
  - reflexivity.
  - vm_compute. reflexivity.
  - lia.
  - cbn. lia.
Defined.

(** The session is closed and its forwarder has ended: every sender but the task's own is gone. *)
Definition torn_down : sworld :=
  mkSocketWorld (upd_tasks (delete 4%nat) (run (close_session 100 user) (so_mgr (third announced_sw))).2) [] [].
Example only_own_sender : has_sender 1 None (so_mgr torn_down) = false /\ has_sender 1 (Some view1) (so_mgr torn_down) = true.
Proof. split; vm_compute; reflexivity. Qed.

Lemma socket_outlives_pty_witness :
  exists st1 w1, interfered eq (socket_loop cfg user 100 st1 [EvCloseFrame]) w1
    (run (socket_loop cfg user 100 (fresh_at 105 1 2 (Some view1)) [EvPty; EvPty; EvCloseFrame]) torn_down).1
    (run (socket_loop cfg user 100 (fresh_at 105 1 2 (Some view1)) [EvPty; EvPty; EvCloseFrame]) torn_down).2.
Proof.
  apply (socket_outlives_pty cfg eq user 100 105 view1 2 [EvPty; EvPty] [EvCloseFrame] torn_down).
  - intros x y ->. exact (fun H => H).
  - reflexivity.
  - repeat constructor.
  - exact (interfered_run eq (socket_loop cfg user 100 (fresh_at 105 1 2 (Some view1)) [EvPty; EvPty; EvCloseFrame]) torn_down).
Defined.

Lemma failed_ack_leaks_session_witness :
  exists w', run (run_attached_socket cfg user 100 None []) (mkSocketWorld w_detached [] [false]) = (tt, w')
    /\ detach_state 100 (so_mgr w') = None /\ live_of 100 (so_mgr w') = Some (set_detach_close None l_detached).
Proof.
  destruct (failed_ack_leaks_session cfg user 100 None s_detached l_detached
    (mkDetachClose (mkDetachInfo 5000 (5000 + DETACHED_LIVE_PTY_TTL)) 5) [] [] (mkSocketWorld w_detached [] [false]))
    as (w' & Hrun & _ & _ & Hl & Hst & _).
  - split; [by apply db_up_sound; vm_compute|vm_compute; reflexivity|reflexivity|reflexivity|discriminate].
  - vm_compute. reflexivity.
  - vm_compute. reflexivity.
  - by_compute.
  - reflexivity.
  - exists w'. split; [exact Hrun|]. split; [exact Hst|exact Hl].
Defined.
