(* ===== verification/SessionRoutes.v ===== *)
(** * The terminal-session routes

    Models the HTTP handlers of [crates/relayterm-api/src/routes/v1/terminal_sessions.rs] ([create] with
    its gates, quotas and the start of the PTY, [list], [get_by_id], [close] and the gate of
    [ws_attach]) with [dto/terminal_session.rs] and the error conversion of [error.rs] they use.  They
    run over the inventory and the network of [HostKey.v] and over the orchestrator of [Manager.v];
    the task behind an upgraded socket is in [Socket.v]. *)

From S2P Require Import Prelude Core SessionStore PgSession Reconcile Prog Manager AuthStore Auth AuthRoutes.
From S2P Require Import Inventory Vault HostKey TrustRoutes.

Definition SESSION_ENTITY : string := "terminal_session".
Definition MAX_CLIENT_INFO_LEN : nat := 256.
Definition LIVE_PTY_CREATE_MESSAGE : string := "ssh pty started; replay across reconnects is not yet implemented".

(** ** [dto/terminal_session.rs] *)

Definition DEFAULT_COLS : Z := 80.
Definition DEFAULT_ROWS : Z := 24.

(** [CreateTerminalSessionRequest] of the API, with the defaults of its fields *)
Record CreateBody := mkCreateBody { cb_server_profile_id : ServerProfileId; cb_cols : Z; cb_rows : Z }.
Definition create_body (profile : ServerProfileId) (cols rows : option Z) : CreateBody :=
  mkCreateBody profile (default DEFAULT_COLS cols) (default DEFAULT_ROWS rows).

(** [TerminalSessionResponse] and its [From<TerminalSession>] *)
Record TerminalSessionResponse := mkSessionResponse {
  tr_id : TerminalSessionId; tr_server_profile_id : ServerProfileId; tr_status : TerminalSessionStatus;
  tr_cols : Z; tr_rows : Z; tr_created_at : Z; tr_last_seen_at : Z; tr_closed_at : option Z
}.
Definition session_response (s : TerminalSession) : TerminalSessionResponse :=
  mkSessionResponse (ts_id s) (ts_server_profile_id s) (ts_status s) (ts_cols s) (ts_rows s) (ts_created_at s)
    (ts_last_seen_at s) (ts_closed_at s).

(** [CreateTerminalSessionResponse] and [CloseTerminalSessionResponse] *)
Record CreateTerminalSessionResponse := mkCreateResponse {
  ctr_session : TerminalSessionResponse; ctr_message : string; ctr_pty_live : bool }.
Record CloseTerminalSessionResponse := mkCloseResponse {
  clr_session : TerminalSessionResponse; clr_already_closed : bool }.

(** ** Errors *)

(** [SshPtyError]'s [Display] *)
Definition pty_error_display (e : SshPtyError) : string :=
  match e with
  | InvalidIdentity => "ssh identity material is malformed"
  | Transport detail => "ssh transport: " +:+ detail
  | HostKeyNotTrusted => "host key not trusted"
  | AuthenticationFailed => "ssh authentication failed"
  | PtyStartFailed => "ssh pty/shell start failed"
  | BridgeClosed => "ssh pty bridge is closed"
  end.

(** [From<TerminalSessionManagerError> for ApiError] *)
Definition api_of_manager (e : TerminalSessionManagerError) : ApiError :=
  match e with
  | InvalidDimensions field message => Validation (lit (field +:+ ": " +:+ message))
  | NotFound => ApiNotFound "terminal_session"
  | SessionClosed => Conflict "terminal_session" None
  | PtyNotLive => Conflict "pty_runtime" None
  | PtyStart inner => Internal (lit ("ssh pty: " +:+ pty_error_display inner))
  | Repository e => api_of_repository e
  end.

(** [map_pty_start_error] *)
Definition map_pty_start_error (err : SshPtyError) : ApiError * string :=
  match err with
  | InvalidIdentity => (Internal (lit "ssh identity material is malformed"), "invalid_identity"%string)
  | Transport _ => (BadGateway (lit "ssh transport failure during pty start"), "transport"%string)
  | HostKeyNotTrusted => (Conflict "host_key" None, "host_key_not_trusted"%string)
  | AuthenticationFailed => (Conflict "ssh_auth" None, "authentication_failed"%string)
  | PtyStartFailed => (BadGateway (lit "ssh pty/shell start failed"), "pty_alloc"%string)
  | BridgeClosed => (Internal (lit "bridge closed before start completed"), "bridge_closed"%string)
  end.

(** ** The state *)

(** [AppState]: the inventory with the network, and the orchestrator *)
Record AppWorld (DB B R : Type) := mkApp { ap_trust : TrustWorld; ap_mgr : World DB B R }.
Arguments mkApp {DB B R}.
Arguments ap_trust {DB B R}.
Arguments ap_mgr {DB B R}.

(** [list_for_user] of the session repository, which the orchestrator does not use. *)
Class SessionListing (DB : Type) :=
  st_list_for_user : UserId -> DB -> result RepositoryError (list TerminalSession) * DB.
#[export] Instance pg_session_listing : SessionListing PgDb := list_for_user.

(** ** The handlers *)

Module SessionRoutes.
Section routes.
Context {DB B R : Type} `{!SessionStore DB, !SessionListing DB, !PtyBridge B, !RecordingSink R}.
Context {Cr : AuthCrypto} {Lo : PgLower} {Ae : Aead} {Rs : Russh}.
Context (cfg : AuthRoutesConfig) (vault : option (list Byte.byte)) (mcfg : ManagerConfig).
Abbreviation world := (AppWorld DB B R).
Abbreviation io A := (prog (AppWorld DB B R) (result ApiError A)).

Definition on_trust {A} (p : prog TrustWorld A) : prog world A :=
  embed ap_trust (fun t w => mkApp t (ap_mgr w)) p.
Definition on_manager {A} (p : prog (World DB B R) A) : prog world A :=
  embed ap_mgr (fun m w => mkApp (ap_trust w) m) p.

(** [?] on a call of the orchestrator, and on a repository call of the inventory. *)
Definition manager {A} (p : prog (World DB B R) (result TerminalSessionManagerError A)) : io A :=
  do! r <- on_manager p; Ret (map_err api_of_manager r).
Definition repo {A} (f : TrustDb -> result RepositoryError A * TrustDb) : io A := on_trust (TrustRoutes.repo f).

(** A call of the session repository from a route. *)
Definition session_repo {A} (f : DB -> result RepositoryError A * DB) : io A :=
  do! r <- on_manager (act (fun w => let '(r, d) := f (w_db w) in (r, set_db d w)));
  Ret (map_err api_of_repository r).

(** [.filter(|x| x.owner_id == user_id).ok_or(NotFound)] *)
Definition owned {A} (owner : A -> UserId) (user_id : UserId) (o : option A) : result ApiError A :=
  match o with
  | Some a => if owner a =? user_id then Ok a else Err (ApiNotFound SESSION_ENTITY)
  | None => Err (ApiNotFound SESSION_ENTITY)
  end.

(** A read of the registry. *)
Definition registry {A} (f : World DB B R -> A) : prog world A := on_manager (act (fun w => (f w, w))).

(** The ceilings of [create], each read before it is compared. *)
Definition quotas (user_id : UserId) : io unit :=
  do! current <- registry (TerminalSessionManager.count_live_pty_for_user user_id);
  if mc_max_live_pty_per_user mcfg <=? Z.of_nat current then Ret (Err TooManySessions) else
  do! deployment_current <- registry TerminalSessionManager.count_live_pty_total;
  if mc_max_live_pty_per_deployment mcfg <=? Z.of_nat deployment_current then Ret (Err TooManySessionsDeployment) else
  do! starting_current <- registry (TerminalSessionManager.count_starting_for_user user_id);
  if mc_max_starting_per_user mcfg <=? Z.of_nat starting_current then Ret (Err TooManyStartingSessions) else
  Ret (Ok tt).

(** The vault of [create] *)
Definition decrypt_for_pty (identity : SshIdentity) : result ApiError (list Byte.byte) :=
  let? master_key := ok_or vault
    (ServiceUnavailable (lit "vault disabled " ++ [8212] ++ lit " pty start not available")) in
  map_err api_of_vault (decrypt_private_key master_key (si_encrypted_private_key identity)).

(** What [create] establishes before it changes anything. *)
Definition launch_target (user_id : UserId) (profile_id : ServerProfileId)
  : io (ServerProfile * SshPtyTarget) :=
  do? p <- repo (PgServerProfileRepository.get profile_id);
  do? profile <- Ret (owned sp_owner_id user_id p);
  if is_disabled profile then Ret (Err (Conflict "server_profile" (Some "disabled"%string))) else
  do? h <- repo (PgHostRepository.get (sp_host_id profile));
  do? host <- Ret (owned ho_owner_id user_id h);
  do? i <- repo (PgSshIdentityRepository.get (sp_ssh_identity_id profile));
  do? identity <- Ret (owned si_owner_id user_id i);
  do? known <- repo (PgKnownHostEntryRepository.list_for_host (ho_id host));
  let pins := accept_pins known in
  if bool_decide (pins = []) then Ret (Err (Conflict "host_key" None)) else
  do? _ <- quotas user_id;
  do? pem <- Ret (decrypt_for_pty identity);
  Ret (Ok (profile, mkPtyTarget (ho_id host) (ho_hostname host) (ho_port host)
                      (TrustRoutes.effective_username profile host) pins pem)).

(** [state.pty_bridge.start(target)]: the network part, then the spawn of the driver. *)
Definition bridge_start (target : SshPtyTarget) : prog world (result SshPtyError SshPtyStart) :=
  do! r <- on_trust (pty_start target);
  match r with
  | Err e => Ret (Err e)
  | Ok handle => do! driver <- on_manager (act (spawn TDriver)); Ret (Ok (mkPtyStart handle (Some driver)))
  end.

(** From the row to the live PTY. *)
Definition launch (user_id : UserId) (profile_id : ServerProfileId) (cols rows : Z) (target : SshPtyTarget)
  : io CreateTerminalSessionResponse :=
  do? create_outcome <- manager (TerminalSessionManager.create_session (mkCreateReq user_id profile_id cols rows));
  let session_id := ts_id (co_session create_outcome) in
  do! started <- bridge_start target;
  match started with
  | Err err =>
      let '(api_err, category) := map_pty_start_error err in
      do! _ <- on_manager (TerminalSessionManager.record_pty_start_failed user_id session_id (lit category));
      Ret (Err api_err)
  | Ok start =>
      do? session <- manager (TerminalSessionManager.start_live_pty mcfg user_id session_id start);
      Ret (Ok (mkCreateResponse (session_response session) LIVE_PTY_CREATE_MESSAGE true))
  end.

(** [create] *)
Definition create (h : Headers) (req : CreateBody) : io CreateTerminalSessionResponse :=
  do? _ <- on_trust (TrustRoutes.csrf_guard cfg h);
  do? user <- on_trust (TrustRoutes.authenticated_user h);
  let user_id := TrustRoutes.user_id user in
  do? target <- launch_target user_id (cb_server_profile_id req);
  launch user_id (sp_id target.1) (cb_cols req) (cb_rows req) target.2.

(** [list] *)
Definition list_sessions (h : Headers) : io (list TerminalSessionResponse) :=
  do? user <- on_trust (TrustRoutes.authenticated_user h);
  do? sessions <- session_repo (st_list_for_user (TrustRoutes.user_id user));
  Ret (Ok (map session_response sessions)).

(** The row that [get_by_id] and [ws_attach] read. *)
Definition owned_session (user_id : UserId) (id : TerminalSessionId) : io TerminalSession :=
  do? s <- session_repo (st_get id);
  Ret (owned ts_owner_id user_id s).

(** [get_by_id] *)
Definition get_by_id (h : Headers) (id : TerminalSessionId) : io TerminalSessionResponse :=
  do? user <- on_trust (TrustRoutes.authenticated_user h);
  do? session <- owned_session (TrustRoutes.user_id user) id;
  Ret (Ok (session_response session)).

(** [close] *)
Definition close (h : Headers) (id : TerminalSessionId) : io CloseTerminalSessionResponse :=
  do? _ <- on_trust (TrustRoutes.csrf_guard cfg h);
  do? user <- on_trust (TrustRoutes.authenticated_user h);
  do? outcome <- manager (TerminalSessionManager.close_session id (TrustRoutes.user_id user));
  Ret (Ok (mkCloseResponse (session_response (cl_session outcome)) (cl_already_closed outcome))).

(** [HeaderValue::to_str]: visible ASCII and the tab *)
Definition header_to_str (value : list Byte.byte) : option rstr :=
  if forallb (fun b => ((32 <=? byte_val b) && (byte_val b <=? 126)) || (byte_val b =? 9)) value
  then Some (map byte_val value) else None.

(** The [User-Agent], cut to its cap; the bytes of such a string are its characters, so the cut is at a
    character boundary. *)
Definition client_info (user_agent : option (list Byte.byte)) : option rstr :=
  (fun s => if bool_decide (MAX_CLIENT_INFO_LEN < length s)%nat then take MAX_CLIENT_INFO_LEN s else s)
    <$> (user_agent ≫= header_to_str).

(** What the closure of [ws.on_upgrade] captures: the arguments of [run_attached_socket]. *)
Record Upgrade := mkUpgrade { ug_user_id : UserId; ug_session_id : TerminalSessionId; ug_client_info : option rstr }.

(** [ws_attach] *)
Definition ws_attach (h : Headers) (user_agent : option (list Byte.byte)) (id : TerminalSessionId) : io Upgrade :=
  do? user <- on_trust (TrustRoutes.authenticated_user h);
  do? session <- owned_session (TrustRoutes.user_id user) id;
  if decide (ts_status session = Closed) then Ret (Err (Conflict SESSION_ENTITY None))
  else Ret (Ok (mkUpgrade (TrustRoutes.user_id user) (ts_id session) (client_info user_agent))).

End routes.
End SessionRoutes.
