(* ===== verification/LaunchSpec.v ===== *)
(** * Launching a terminal

    What [POST /terminal-sessions] needs before it does anything ([create_gates]), what it does
    ([create_effect]), and two defects of its ceilings. *)

From S2P Require Import Prelude Core Replay SessionStore PgSession Prog Manager ManagerInv ManagerSpec.
From S2P Require Import AuthStore Auth AuthRoutes AuthSafety AuthSpec Inventory Vault HostKey TrustRoutes TrustSafety TrustSpec.
From S2P Require Import SessionRoutes.
Import TerminalSessionManager.

Section launch.
Context {DB B R : Type} `{!SessionStore DB, !SessionStoreLaws DB, !SessionListing DB, !PtyBridge B, !RecordingSink R}.
Context {Cr : AuthCrypto} {Lo : PgLower} {Ae : Aead} {Rs : Russh}.
Context (cfg : AuthRoutesConfig) (vault : option (list Byte.byte)) (mcfg : ManagerConfig).
Implicit Types w : AppWorld DB B R.

(** ** What the gates leave alone *)

(** Everything but the authentication tables and the faults of the database. *)
Record calm (t t' : TrustWorld) : Prop := {
  cm_hosts : tw_hosts t' = tw_hosts t;
  cm_identities : tw_identities t' = tw_identities t;
  cm_profiles : tw_profiles t' = tw_profiles t;
  cm_known : tw_known t' = tw_known t;
  cm_permits : tw_permits t' = tw_permits t;
  cm_conns : tw_conns t' = tw_conns t;
  cm_signed : tw_signed t' = tw_signed t
}.

(** No connection was opened, nothing signed, nothing stored, and the orchestrator is as it was. *)
Record still w w' : Prop := { st_calm : calm (ap_trust w) (ap_trust w'); st_mgr : ap_mgr w' = ap_mgr w }.

#[local] Instance calm_preorder : PreOrder calm.
Proof. split; [by intros t|]. intros t1 t2 t3 [] []. split; congruence. Qed.
#[local] Instance still_preorder : PreOrder still.
Proof.
  split; [by intros w; split|]. intros w1 w2 w3 [A1 A2] [B1 B2]. split; [by transitivity (ap_trust w2)|congruence].
Qed.

Lemma run_on_trust {A} (p : prog TrustWorld A) w :
  run (SessionRoutes.on_trust p) w = ((run p (ap_trust w)).1, mkApp (run p (ap_trust w)).2 (ap_mgr w)).
Proof. apply (run_embed ap_trust (fun t w => mkApp t (ap_mgr w))); [done|by intros []|done]. Qed.

Lemma run_on_manager {A} (p : prog (World DB B R) A) w :
  run (SessionRoutes.on_manager p) w = ((run p (ap_mgr w)).1, mkApp (ap_trust w) (run p (ap_mgr w)).2).
Proof. apply (run_embed ap_mgr (fun m w => mkApp (ap_trust w) m)); [done|by intros []|done]. Qed.

Lemma run_registry {A} (f : World DB B R -> A) w : run (SessionRoutes.registry f) w = (f (ap_mgr w), w).
Proof. unfold SessionRoutes.registry. rewrite run_on_manager. cbn. by destruct w. Qed.

(** [passes w0 p Q]: from any state that differs from [w0] only by harmless steps, [p] is harmless and
    its result, if there is one, satisfies [Q]. *)
Definition passes {A} w0 (p : prog (AppWorld DB B R) (result ApiError A)) (Q : A -> Prop) : Prop :=
  forall w, still w0 w -> still w0 (run p w).2 /\ forall a, (run p w).1 = Ok a -> Q a.

Lemma passes_ret {A} w0 (r : result ApiError A) (Q : A -> Prop) : (forall a, r = Ok a -> Q a) -> passes w0 (Ret r) Q.
Proof. by intros HQ w Hw. Qed.

Lemma passes_try {A C} w0 (p : prog (AppWorld DB B R) (result ApiError A)) (k : A -> prog _ (result ApiError C)) P Q :
  passes w0 p P -> (forall a, P a -> passes w0 (k a) Q) -> passes w0 (try_bind p k) Q.
Proof.
  intros Hp Hk w Hw. destruct (Hp w Hw) as [H1 H2]. rewrite run_try. destruct (run p w) as [[a|e] w']; [|done].
  by apply (Hk a (H2 a eq_refl)).
Qed.

Lemma passes_trust {A} w0 (p : prog TrustWorld (result ApiError A)) (Q : A -> Prop) :
  (forall t, calm (ap_trust w0) t -> calm t (run p t).2 /\ forall a, (run p t).1 = Ok a -> Q a) ->
  passes w0 (SessionRoutes.on_trust p) Q.
Proof.
  intros H w [H1 H2]. rewrite run_on_trust. destruct (H (ap_trust w) H1) as [H3 H4]. split; [|done].
  split; [by transitivity (ap_trust w)|done].
Qed.

Lemma passes_on_auth {A} w0 (p : prog AuthWorld (result ApiError A)) :
  passes w0 (SessionRoutes.on_trust (on_auth p)) (fun _ => True).
Proof. apply passes_trust. intros t _. rewrite run_on_auth. by split. Qed.

(** A query of the inventory: its answer is that of the tables. *)
Lemma passes_query {A} w0 (f : TrustDb -> result RepositoryError A) (Q : A -> Prop) :
  (forall t a, calm (ap_trust w0) t -> f (tw_db t) = Ok a -> Q a) ->
  passes w0 (SessionRoutes.repo (trust_execute (fun d => (f d, d)))) Q.
Proof.
  intros HQ. apply passes_trust. intros t Ht. rewrite run_trust_repo.
  destruct (trust_execute_cases (fun d => (f d, d)) (tw_db t)) as (d1 & [_ _ Hh Hi Hp Hk] & _ & _ & Hx).
  assert (Hcalm : calm t (set_tw_db d1 t)) by (by split).
  destruct Hx as [(e & _ & ->)| ->]; cbn [fst snd map_err]; (split; [done|]); [done|].
  intros a Hr. destruct (f d1) as [a'|] eqn:E; [|done]. injection Hr as ->.
  apply (HQ (set_tw_db d1 t) a); [by transitivity t|]. by destruct d1.
Qed.

(** ** The gates *)

(** The profile [id] is [p], belongs to [u], is enabled, and leads to a host and an identity of [u]; the
    host has at least one trusted pin, [u] and the deployment are below their ceilings, and the key
    decrypts.  [target] is what the bridge is handed. *)
Record gates (u : UserId) (id : ServerProfileId) (p : ServerProfile) (target : SshPtyTarget) w : Prop := {
  ga_profile : tw_profiles (ap_trust w) !! id = Some p;
  ga_owner : sp_owner_id p = u;
  ga_enabled : is_disabled p = false;
  ga_host : exists row host, tw_hosts (ap_trust w) !! sp_host_id p = Some row /\ host_try_into_domain row = Ok host
    /\ ho_owner_id host = u /\ pt_host_id target = ho_id host /\ pt_hostname target = ho_hostname host
    /\ pt_port target = ho_port host /\ pt_username target = TrustRoutes.effective_username p host;
  ga_identity : exists row identity, tw_identities (ap_trust w) !! sp_ssh_identity_id p = Some row
    /\ identity_try_into_domain row = Ok identity /\ si_owner_id identity = u
    /\ SessionRoutes.decrypt_for_pty vault identity = Ok (pt_private_key_pem target);
  ga_pins : exists known, entries_of (pt_host_id target) (tw_db (ap_trust w)) = Ok known
    /\ pt_accept_pins target = accept_pins known /\ accept_pins known <> [];
  ga_live : Z.of_nat (count_live_pty_for_user u (ap_mgr w)) < mc_max_live_pty_per_user mcfg;
  ga_total : Z.of_nat (count_live_pty_total (ap_mgr w)) < mc_max_live_pty_per_deployment mcfg;
  ga_starting : Z.of_nat (count_starting_for_user u (ap_mgr w)) < mc_max_starting_per_user mcfg
}.

Lemma passes_quotas w0 u :
  passes w0 (SessionRoutes.quotas mcfg u) (fun _ =>
    Z.of_nat (count_live_pty_for_user u (ap_mgr w0)) < mc_max_live_pty_per_user mcfg
    /\ Z.of_nat (count_live_pty_total (ap_mgr w0)) < mc_max_live_pty_per_deployment mcfg
    /\ Z.of_nat (count_starting_for_user u (ap_mgr w0)) < mc_max_starting_per_user mcfg).
Proof.
  intros w Hw. unfold SessionRoutes.quotas. pose proof (st_mgr _ _ Hw) as Hm.
  rewrite run_bind, run_registry, Hm; cbv beta iota. destruct (mc_max_live_pty_per_user mcfg <=? _) eqn:E1; [done|].
  rewrite run_bind, run_registry, Hm; cbv beta iota. destruct (mc_max_live_pty_per_deployment mcfg <=? _) eqn:E2; [done|].
  rewrite run_bind, run_registry, Hm; cbv beta iota. destruct (mc_max_starting_per_user mcfg <=? _) eqn:E3; [done|]. bool_props. by split.
Qed.

Lemma owned_ok {A} (owner : A -> UserId) u o a : SessionRoutes.owned owner u o = Ok a -> o = Some a /\ owner a = u.
Proof. unfold SessionRoutes.owned. destruct o as [a'|]; [|done]. destruct (_ =? _) eqn:E; [|done]. intros [= ->]. bool_props. done. Qed.

Lemma transpose_ok {X A} (conv : X -> result RepositoryError A) o a :
  transpose_row conv o = Ok (Some a) -> exists x, o = Some x /\ conv x = Ok a.
Proof. destruct o as [x|]; [|done]. cbn. destruct (conv x) as [a'|e] eqn:E; [|done]. intros [= ->]. by exists x. Qed.

Lemma passes_launch_target w0 u id :
  passes w0 (SessionRoutes.launch_target vault mcfg u id) (fun pt => gates u id pt.1 pt.2 w0).
Proof.
  eapply passes_try; [apply (passes_query w0 (fun d => Ok (td_profiles d !! id)) (fun o => o = tw_profiles (ap_trust w0) !! id))|].
  { intros t a [] [= <-]. cbn. congruence. }
  intros o Ho. eapply passes_try; [apply (passes_ret w0 _ (fun p => o = Some p /\ sp_owner_id p = u)), owned_ok|].
  intros p [-> Hpo]. destruct (is_disabled p) eqn:Ed; [by apply passes_ret|].
  eapply passes_try; [apply (passes_query w0 _ (fun o => forall host, o = Some host -> exists row,
    tw_hosts (ap_trust w0) !! sp_host_id p = Some row /\ host_try_into_domain row = Ok host))|].
  { intros t a [] Ha host ->. apply transpose_ok in Ha as (row & Hr & Hc). cbn in Hr. exists row. split; [congruence|done]. }
  intros oh Hh. eapply passes_try; [apply (passes_ret w0 _ (fun h => oh = Some h /\ ho_owner_id h = u)), owned_ok|].
  intros host [-> Hho]. destruct (Hh host eq_refl) as (hrow & Hh1 & Hh2).
  eapply passes_try; [apply (passes_query w0 _ (fun o => forall i, o = Some i -> exists row,
    tw_identities (ap_trust w0) !! sp_ssh_identity_id p = Some row /\ identity_try_into_domain row = Ok i))|].
  { intros t a [] Ha i ->. apply transpose_ok in Ha as (row & Hr & Hc). cbn in Hr. exists row. split; [congruence|done]. }
  intros oi Hi. eapply passes_try; [apply (passes_ret w0 _ (fun i => oi = Some i /\ si_owner_id i = u)), owned_ok|].
  intros identity [-> Hio]. destruct (Hi identity eq_refl) as (irow & Hi1 & Hi2).
  eapply passes_try; [apply (passes_query w0 _ (fun known => entries_of (ho_id host) (tw_db (ap_trust w0)) = Ok known))|].
  { intros t a [] Ha. unfold entries_of, PgKnownHostEntryRepository.rows_of_host in *. cbn in *. congruence. }
  intros known Hk. cbv zeta. case_bool_decide as Hpins; [by apply passes_ret|].
  eapply passes_try; [apply passes_quotas|]. intros _ (Q1 & Q2 & Q3).
  eapply passes_try; [apply (passes_ret w0 _ (fun pem => SessionRoutes.decrypt_for_pty vault identity = Ok pem)); done|].
  intros pem Hpem. apply passes_ret. intros pt [= <-]. split; cbn; try done.
  - by exists hrow, host.
  - by exists irow, identity.
  - by exists known.
Qed.

(** The SSH part of a launch touches the network only. *)
Lemma launch_signs u id cols rows target w :
  signs_only (pt_accept_pins target) (ap_trust w) (ap_trust (run (SessionRoutes.launch mcfg u id cols rows target) w).2).
Proof.
  unfold SessionRoutes.launch. rewrite run_try. unfold SessionRoutes.manager at 1. rewrite run_bind, run_on_manager. cbn [run].
  destruct (run (create_session _) (ap_mgr w)) as [[out|e] m1]; cbn [fst snd map_err]; [|by apply signs_nothing].
  rewrite run_bind. unfold SessionRoutes.bridge_start. rewrite run_bind, run_on_trust. cbn [ap_trust ap_mgr].
  pose proof (pty_start_signs_only target (ap_trust w)) as Hs. destruct (run (pty_start target) (ap_trust w)) as [[n|e] t1]; cbn [fst snd] in *.
  - rewrite run_bind, run_on_manager. cbn [run]. rewrite run_try. unfold SessionRoutes.manager. rewrite run_bind, run_on_manager.
    cbn [run ap_trust]. by destruct (run (start_live_pty _ _ _ _) _) as [[]].
  - cbn [run]. destruct (map_pty_start_error e) as [api category]. rewrite run_bind, run_on_manager. exact Hs.
Qed.

(** C5: Nothing is launched past a closed gate.  Whatever a request to create a terminal does, either it
    is refused and has opened no connection, signed nothing, stored nothing and left the orchestrator
    alone, or it comes from a signed-in user and an allowed origin, and then the profile, its host and
    its identity belong to that user, the profile is enabled, the host has a trusted pin, the user and
    the deployment were below their three ceilings and the key decrypts; and even then the private key
    signs only for a server that presents one of those pins. *)
Theorem create_gates h req w :
  let rw := run (SessionRoutes.create cfg vault mcfg h req) w in
  (still w rw.2 /\ exists e, rw.1 = Err e)
  \/ exists user p target, (run (Routes.csrf_guard cfg h) (tw_auth (ap_trust w))).1 = Ok tt
       /\ (run (Routes.authenticated_user h) (tw_auth (ap_trust w))).1 = Ok user
       /\ gates (TrustRoutes.user_id user) (cb_server_profile_id req) p target w
       /\ signs_only (pt_accept_pins target) (ap_trust w) (ap_trust rw.2).
Proof.
  cbv zeta. unfold SessionRoutes.create. rewrite run_try.
  change (run (SessionRoutes.on_trust (TrustRoutes.csrf_guard cfg h)) w) with (check_origin h (allowed_origins cfg), w).
  change (run (Routes.csrf_guard cfg h) (tw_auth (ap_trust w))).1 with (check_origin h (allowed_origins cfg)).
  destruct (check_origin h (allowed_origins cfg)) as [[]|e]; [|left; split; [reflexivity|by exists e]].
  rewrite run_try. pose proof (proj1 (passes_on_auth w (Routes.authenticated_user h) w (reflexivity w))) as C1.
  unfold TrustRoutes.authenticated_user. rewrite run_on_trust, run_on_auth in *. cbn [fst snd] in *.
  destruct (run (Routes.authenticated_user h) (tw_auth (ap_trust w))) as [[user|e] a1]; cbn [fst snd] in *;
    [|left; split; [done|by exists e]].
  rewrite run_try. destruct (passes_launch_target w (TrustRoutes.user_id user) (cb_server_profile_id req) _ C1) as [C2 G].
  destruct (run (SessionRoutes.launch_target vault mcfg _ _) _) as [[[p target]|e] w2]; cbn [fst snd] in *;
    [|left; split; [done|by exists e]].
  right. exists user, p, target. specialize (G _ eq_refl). split_and!; [done|done|done|].
  destruct (launch_signs (TrustRoutes.user_id user) (sp_id p) (cb_cols req) (cb_rows req) target w2) as (l & Hl & Hall).
  exists l. split; [|done]. cbn [fst snd] in Hl. by rewrite Hl, (cm_signed _ _ (st_calm _ _ C2)).
Qed.

(** ** The orchestrator's part *)

Implicit Types m : World DB B R.
Abbreviation rows m := (sv_sessions (w_db m)).
Abbreviation log m := (sv_events (w_db m)).

Definition created_event (s : TerminalSession) : CreateSessionEvent :=
  mkCreateEvent (ts_id s) EvCreated (JObj [("cols"%string, JNum (ts_cols s)); ("rows"%string, JNum (ts_rows s));
                                           ("stub"%string, JBool true)]).
Definition start_failed_event (id : TerminalSessionId) (category : rstr) : CreateSessionEvent :=
  mkCreateEvent id EvClosed (JObj [("reason"%string, JStr (lit "ssh_start_failed")); ("category"%string, JStr category)]).

(** A new row in [Starting] with its event and its registry entry. *)
Record created (req : CreateTerminalSessionRequest) (s : TerminalSession) m m' : Prop := {
  cd_up : up (w_db m');
  cd_new : rows m !! ts_id s = None;
  cd_owner : ts_owner_id s = cr_owner_id req;
  cd_profile : ts_server_profile_id s = cr_server_profile_id req;
  cd_status : ts_status s = Starting;
  cd_dims : ts_cols s = cr_cols req /\ ts_rows s = cr_rows req;
  cd_rows : rows m' = <[ts_id s := s]> (rows m);
  cd_events : exists e, log m' = log m ++ [e] /\ event_of (created_event s) e;
  cd_entry : exists snap c, w_runtimes m' = <[ts_id s := mkEntry snap None c]> (w_runtimes m)
    /\ rt_owner_id snap = cr_owner_id req;
  cd_rest : w_attachments m' = w_attachments m /\ w_now m' = w_now m /\ w_pty m' = w_pty m
}.

Lemma dim_accepted f v : MIN_DIM <= v <= MAX_DIM -> validate_dim f v = Ok tt.
Proof. intros H. unfold validate_dim. by rewrite (proj2 (Z.leb_le _ _)), (proj2 (Z.leb_le _ _)) by lia. Qed.

Lemma seq_create_session_up req m Q :
  up (w_db m) -> MIN_DIM <= cr_cols req <= MAX_DIM -> MIN_DIM <= cr_rows req <= MAX_DIM ->
  st_admits (mkCreateSession (cr_owner_id req) (cr_server_profile_id req) Starting (cr_cols req) (cr_rows req)) (w_db m) ->
  (forall s m', created req s m m' -> Q (Ok (mkCreateOut s STUB_PTY_NOT_IMPLEMENTED_MESSAGE false)) m') ->
  seq (create_session req) m Q.
Proof.
  intros [Hwf Hh] Hc Hr Had HQ. unfold create_session. apply seq_try, seq_ret. rewrite dim_accepted by done.
  apply seq_try, seq_ret. rewrite dim_accepted by done. apply seq_try, seq_repo.
  pose proof (law_create (mkCreateSession (cr_owner_id req) (cr_server_profile_id req) Starting (cr_cols req) (cr_rows req))
    (w_db m) Hwf) as (Hl & Hwf' & Hh').
  destruct (st_create _ (w_db m)) as [[s|e] d1]; cbn [fst snd map_err] in *; [|by destruct Hl as [_ Hno]; destruct (Hno Hh)].
  destruct Hl as (Hnew & H1 & H2 & H3 & H4 & H5 & _ & Es & Ea & Ee). cbn in H1, H2, H3, H4, H5.
  apply seq_try. apply (seq_create_event_up _ s); [split; auto|cbn; rewrite Es; apply lookup_insert_eq|].
  intros d2 ev Hd2 Ea2 Es2 Ee2 Hev. cbn [w_db set_db] in *. apply seq_bind, seq_act, seq_ret. apply HQ.
  split; cbn; try done; try congruence.
  - exists ev. split; [congruence|done].
  - eexists _, _. split; [done|]. done.
Qed.

(** The PTY is bound to the entry. *)
Record bound (id : TerminalSessionId) (s : TerminalSession) (seen : Z) (start : SshPtyStart) m m' : Prop := {
  bd_up : up (w_db m');
  bd_rows : rows m' = <[id := with_status s Active None seen]> (rows m);
  bd_events : log m' = log m;
  bd_entry : exists snap next live, w_runtimes m' = <[id := mkEntry (set_rt_status RtLive snap) (Some live) next]> (w_runtimes m)
    /\ re_snapshot <$> w_runtimes m !! id = Some snap
    /\ lr_handle live = ps_handle start /\ lr_driver live = ps_driver start /\ lr_detach_close live = None;
  bd_rest : w_attachments m' = w_attachments m /\ w_pty m' = w_pty m
}.

Lemma spawn_writer_frame id m : exists wr rc, spawn_writer mcfg id m = (wr, set_rec rc m).
Proof.
  unfold spawn_writer. destruct (mc_recording mcfg); [|exists None, (w_rec m); by destruct m].
  destruct (rec_writer_for id (w_rec m)) as [r rc]. by exists (Some r), rc.
Qed.

Lemma seq_start_live_up id owner s snap next start m Q :
  up (w_db m) -> rows m !! id = Some s -> ts_owner_id s = owner -> ts_status s <> Closed ->
  w_runtimes m !! id = Some (mkEntry snap None next) ->
  (forall seen m', bound id s seen start m m' -> Q (Ok (with_status s Active None seen)) m') ->
  seq (start_live_pty mcfg owner id start) m Q.
Proof.
  intros Hup Hs Ho Hst He HQ. unfold start_live_pty.
  apply seq_try. apply (seq_get_owned_up id owner s); [done..|]. intros d1 Hd1 (E1 & E1' & E1'').
  rewrite decide_False by done. apply seq_bind, seq_act. cbn [fst snd new_fanout fresh].
  apply seq_bind, seq_act. unfold next_seq_of. cbn [fst snd w_runtimes upd_channels upd_buffers set_db]. rewrite He.
  apply seq_try, seq_ret. cbn [ok_or fmap option_fmap option_map]. apply seq_bind, seq_act. cbn [fst snd new_counter fresh].
  apply seq_bind, seq_act. match goal with |- context [spawn_writer mcfg id ?x] => destruct (spawn_writer_frame id x) as (wr & rc & ->) end.
  cbn [fst snd]. apply seq_bind, seq_act. cbn [fst snd spawn fresh].
  apply seq_try. apply (seq_set_status_up _ s); [done|cbn; congruence|]. intros d2 seen Hd2 Ea2 Ee2 Es2. cbn [w_db set_db] in *.
  apply seq_try. apply (seq_get_owned_up id owner (with_status s Active None seen));
    [done|cbn; rewrite Es2; apply lookup_insert_eq|done|]. intros d3 Hd3 (E3 & E3' & E3''). cbn [w_db set_db] in *.
  apply seq_bind, seq_act. unfold install_live. cbn. rewrite He. cbn. apply seq_ret. apply HQ.
  split; cbn; try done; try congruence.
  - cbn in Es2. congruence.
  - cbn in Ee2. congruence.
  - eexists _, _, _. split; [reflexivity|]. by rewrite He.
Qed.

(** The row is closed with the category of the failure, and the entry is gone. *)
Record start_failed (id : TerminalSessionId) (s : TerminalSession) (category : rstr) m m' : Prop := {
  sf_rows : exists seen, rows m' = <[id := with_status s Closed (Some (w_now m)) seen]> (rows m);
  sf_events : exists e, log m' = log m ++ [e] /\ event_of (start_failed_event id category) e;
  sf_entry : w_runtimes m' = delete id (w_runtimes m)
}.

Lemma seq_start_failed_up id owner s snap next category m Q :
  up (w_db m) -> rows m !! id = Some s -> ts_owner_id s = owner -> ts_status s <> Closed ->
  w_runtimes m !! id = Some (mkEntry snap None next) ->
  (forall m', start_failed id s category m m' -> Q (Ok tt) m') -> seq (record_pty_start_failed owner id category) m Q.
Proof.
  intros Hup Hs Ho Hst He HQ. unfold record_pty_start_failed. apply seq_bind, seq_act. cbn [fst snd].
  unfold end_entry. rewrite He. cbn [re_live drop_live re_snapshot re_next_seq].
  apply seq_try. apply (seq_get_owned_up id owner s); [done..|]. intros d1 Hd1 (E1 & E1' & E1''). cbn [w_db upd_runtimes] in *.
  rewrite decide_False by done. apply seq_bind, seq_act. cbn [fst snd].
  apply seq_try. apply (seq_set_status_up _ s); [done|cbn; congruence|]. intros d2 seen Hd2 Ea2 Ee2 Es2. cbn [w_db set_db] in *.
  apply seq_bind. apply (seq_create_event_up _ (with_status s Closed (Some (w_now m)) seen));
    [done|cbn; rewrite Es2; apply lookup_insert_eq|]. intros d3 ev Hd3 Ea3 Es3 Ee3 Hev. cbn [w_db set_db] in *.
  apply seq_bind, seq_act, seq_bind, seq_act, seq_bind, seq_act, seq_ret. apply HQ. cbn [fst snd remove_runtime].
  cbn. rewrite lookup_insert_eq. cbn. split; cbn.
  - exists seen. cbn in Es2. congruence.
  - exists ev. cbn in *. split; [congruence|done].
  - by rewrite delete_insert_eq.
Qed.

(** ** The whole request *)

(** With the gates open and a database that answers, the target is found and nothing has changed. *)
Lemma run_launch_target u id p target w :
  a_faults (aw_db (tw_auth (ap_trust w))) = [] -> gates u id p target w ->
  run (SessionRoutes.launch_target vault mcfg u id) w = (Ok (p, target), w).
Proof.
  intros Hf [L1 L2 L3 (hrow & host & L4 & L4' & L5 & T1 & T2 & T3 & T4) (irow & identity & L7 & L7' & L8 & T6) (known & L9 & T5 & Hne) Q1 Q2 Q3].
  assert (Hq : forall (A : Type) (f : TrustDb -> result RepositoryError A),
    run (SessionRoutes.repo (trust_execute (fun d => (f d, d)))) w = (map_err api_of_repository (f (tw_db (ap_trust w))), w)).
  { intros A f. unfold SessionRoutes.repo. rewrite run_on_trust, run_query by done. cbn [fst snd]. by destruct w. }
  unfold SessionRoutes.launch_target, PgServerProfileRepository.get, PgHostRepository.get, PgSshIdentityRepository.get,
    PgKnownHostEntryRepository.list_for_host.
  rewrite run_try, Hq. cbn [tw_db td_profiles map_err]. rewrite L1, run_try. cbn [run SessionRoutes.owned].
  rewrite L2, Z.eqb_refl, L3, run_try, Hq. cbn [tw_db td_hosts]. rewrite L4. cbn [transpose_row]. rewrite L4'.
  cbn [result_bind map_err]. rewrite run_try. cbn [run SessionRoutes.owned]. rewrite L5, Z.eqb_refl, run_try, Hq.
  cbn [tw_db td_identities]. rewrite L7. cbn [transpose_row]. rewrite L7'. cbn [result_bind map_err]. rewrite run_try.
  cbn [run SessionRoutes.owned]. rewrite L8, Z.eqb_refl, run_try, Hq. unfold entries_of in L9. rewrite <- T1, L9. cbn [map_err].
  cbv zeta. rewrite bool_decide_eq_false_2 by done. rewrite run_try. unfold SessionRoutes.quotas.
  rewrite run_bind, run_registry; cbv beta iota. rewrite (proj2 (Z.leb_gt _ _) Q1).
  rewrite run_bind, run_registry; cbv beta iota. rewrite (proj2 (Z.leb_gt _ _) Q2).
  rewrite run_bind, run_registry; cbv beta iota. rewrite (proj2 (Z.leb_gt _ _) Q3). cbn [run].
  rewrite run_try. cbn [run]. rewrite T6, <- T2, <- T3, <- T4, <- T5. by destruct target.
Qed.

(** The outcome on the network depends on the connection only. *)
Lemma pty_start_conn target t t' :
  tw_conns t = tw_conns t' -> (run (pty_start target) t).1 = (run (pty_start target) t').1.
Proof.
  intros E. unfold pty_start. destruct (negb _); [done|]. cbn. rewrite E.
  destruct (connect_outcome _ _) as [|[[]|e]]; [done| |done]. destruct (negb _); [done|]. cbn. done.
Qed.

Lemma count_live_insert u id snap live next m m' :
  w_runtimes m' = <[id := mkEntry snap (Some live) next]> (w_runtimes m) -> w_runtimes m !! id = None -> rt_owner_id snap = u ->
  count_live_pty_for_user u m' = S (count_live_pty_for_user u m).
Proof.
  intros E Hn Ho. unfold count_live_pty_for_user. rewrite E, map_filter_insert_True by (cbn; eauto).
  rewrite map_size_insert_None; [done|]. by rewrite map_lookup_filter, Hn.
Qed.

(** What the client finds after its request: a live terminal, or a closed row that says why. *)
Definition launched (u : UserId) (s : TerminalSession) (handle : nat) (resp : CreateTerminalSessionResponse) w w' : Prop :=
  exists seen e live, let row := with_status s Active None seen in
    resp = mkCreateResponse (session_response row) LIVE_PTY_CREATE_MESSAGE true
    /\ rows (ap_mgr w') = <[ts_id s := row]> (rows (ap_mgr w))
    /\ log (ap_mgr w') = log (ap_mgr w) ++ [e] /\ event_of (created_event s) e
    /\ live_of (ts_id s) (ap_mgr w') = Some live /\ lr_handle live = handle /\ lr_detach_close live = None
    /\ count_live_pty_for_user u (ap_mgr w') = S (count_live_pty_for_user u (ap_mgr w)).

Definition not_launched (s : TerminalSession) (err : SshPtyError) w w' : Prop :=
  exists seen e1 e2, rows (ap_mgr w') = <[ts_id s := with_status s Closed (Some (w_now (ap_mgr w))) seen]> (rows (ap_mgr w))
    /\ log (ap_mgr w') = log (ap_mgr w) ++ [e1; e2] /\ event_of (created_event s) e1
    /\ event_of (start_failed_event (ts_id s) (lit (map_pty_start_error err).2)) e2
    /\ w_runtimes (ap_mgr w') = w_runtimes (ap_mgr w).

(** From the new row to the live PTY. *)
Lemma run_start_live u id cols rws s handle m m1 :
  created (mkCreateReq u id cols rws) s m m1 -> w_runtimes m !! ts_id s = None ->
  exists seen e live m3, run (start_live_pty mcfg u (ts_id s) (mkPtyStart handle (Some (spawn TDriver m1).1))) (spawn TDriver m1).2
      = (Ok (with_status s Active None seen), m3)
    /\ rows m3 = <[ts_id s := with_status s Active None seen]> (rows m)
    /\ log m3 = log m ++ [e] /\ event_of (created_event s) e
    /\ live_of (ts_id s) m3 = Some live /\ lr_handle live = handle /\ lr_detach_close live = None
    /\ count_live_pty_for_user u m3 = S (count_live_pty_for_user u m).
Proof.
  intros [Hup1 Hnew Ho Hp Hst _ Hrows (e & Hlog & Hev) (snap & c & Hrt & Hso) _] Hfree. cbn [cr_owner_id] in *.
  set (m2 := (spawn TDriver m1).2). set (start := mkPtyStart handle (Some (spawn TDriver m1).1)).
  assert (H2 : seq (start_live_pty mcfg u (ts_id s) start) m2 (fun r m' => exists seen, r = Ok (with_status s Active None seen)
    /\ bound (ts_id s) s seen start m2 m')).
  { apply (seq_start_live_up _ _ s snap c); [done|by cbn; rewrite Hrows, lookup_insert_eq|done|by rewrite Hst| |].
    - cbn. by rewrite Hrt, lookup_insert_eq.
    - intros seen m' H. by exists seen. }
  unfold seq in H2. destruct (run (start_live_pty _ _ _ _) m2) as [r2 m3]. cbn [fst snd] in H2.
  destruct H2 as (seen & -> & [_ Hrows2 Hlog2 (snap2 & next2 & live & Hrt2 & Hsn & Hh & _ & Hdc) _]). cbn in Hrows2, Hlog2, Hrt2, Hsn.
  rewrite Hrt, lookup_insert_eq in Hsn. injection Hsn as <-. rewrite Hrt, insert_insert_eq in Hrt2.
  exists seen, e, live, m3. split_and!; [done|by rewrite Hrows2, Hrows, insert_insert_eq|congruence|done| |done|done|].
  - unfold live_of. by rewrite Hrt2, lookup_insert_eq.
  - by apply (count_live_insert u (ts_id s) (set_rt_status RtLive snap) live next2).
Qed.

(** From the new row to a closed one. *)
Lemma run_start_failed u id cols rws s category m m1 :
  created (mkCreateReq u id cols rws) s m m1 -> w_runtimes m !! ts_id s = None ->
  exists seen e1 e2 m3, run (record_pty_start_failed u (ts_id s) category) m1 = (Ok tt, m3)
    /\ rows m3 = <[ts_id s := with_status s Closed (Some (w_now m)) seen]> (rows m)
    /\ log m3 = log m ++ [e1; e2] /\ event_of (created_event s) e1 /\ event_of (start_failed_event (ts_id s) category) e2
    /\ w_runtimes m3 = w_runtimes m.
Proof.
  intros [Hup1 Hnew Ho Hp Hst _ Hrows (e & Hlog & Hev) (snap & c & Hrt & Hso) (_ & Hnow & _)] Hfree. cbn [cr_owner_id] in *.
  assert (H2 : seq (record_pty_start_failed u (ts_id s) category) m1 (fun r m' => r = Ok tt /\ start_failed (ts_id s) s category m1 m')).
  { apply (seq_start_failed_up _ _ s snap c); [done|by rewrite Hrows, lookup_insert_eq|done|by rewrite Hst| |done].
    by rewrite Hrt, lookup_insert_eq. }
  unfold seq in H2. destruct (run (record_pty_start_failed _ _ _) m1) as [r2 m3]. cbn [fst snd] in H2.
  destruct H2 as (-> & [(seen & Hrows2) (e2 & Hlog2 & Hev2) Hrt2]). exists seen, e, e2, m3.
  split_and!; [done|by rewrite Hrows2, Hrows, insert_insert_eq, Hnow|by rewrite Hlog2, Hlog, <- app_assoc|done|done|].
  by rewrite Hrt2, Hrt, delete_insert_id.
Qed.

Lemma run_create_row u id cols rws m :
  inv m -> up (w_db m) -> MIN_DIM <= cols <= MAX_DIM -> MIN_DIM <= rws <= MAX_DIM ->
  st_admits (mkCreateSession u id Starting cols rws) (w_db m) ->
  exists s m1, run (create_session (mkCreateReq u id cols rws)) m = (Ok (mkCreateOut s STUB_PTY_NOT_IMPLEMENTED_MESSAGE false), m1)
    /\ created (mkCreateReq u id cols rws) s m m1 /\ w_runtimes m !! ts_id s = None.
Proof.
  intros Hinv Hup Hc Hr Had.
  assert (H1 : seq (create_session (mkCreateReq u id cols rws)) m (fun r m' => exists s,
    r = Ok (mkCreateOut s STUB_PTY_NOT_IMPLEMENTED_MESSAGE false) /\ created (mkCreateReq u id cols rws) s m m')).
  { apply seq_create_session_up; [done..|]. intros s m' H. by exists s. }
  unfold seq in H1. destruct (run (create_session _) m) as [r1 m1]. cbn [fst snd] in H1. destruct H1 as (s & -> & Hcd).
  exists s, m1. split_and!; [done|done|]. destruct (w_runtimes m !! ts_id s) as [en|] eqn:E; [|done].
  destruct (inv_runtimes _ Hinv _ _ E) as [_ _ (s' & Hs' & _) _ _]. pose proof (cd_new _ _ _ _ Hcd). congruence.
Qed.

(** A launch whose row is there, by the outcome of the bridge. *)
Lemma run_launch u id cols rws target w s m1 :
  run (create_session (mkCreateReq u id cols rws)) (ap_mgr w) = (Ok (mkCreateOut s STUB_PTY_NOT_IMPLEMENTED_MESSAGE false), m1) ->
  run (SessionRoutes.launch mcfg u id cols rws target) w =
  match run (pty_start target) (ap_trust w) with
  | (Ok handle, t2) =>
      match run (start_live_pty mcfg u (ts_id s) (mkPtyStart handle (Some (spawn TDriver m1).1))) (spawn TDriver m1).2 with
      | (Ok row, m3) => (Ok (mkCreateResponse (session_response row) LIVE_PTY_CREATE_MESSAGE true), mkApp t2 m3)
      | (Err e, m3) => (Err (api_of_manager e), mkApp t2 m3)
      end
  | (Err err, t2) => (Err (map_pty_start_error err).1,
      mkApp t2 (run (record_pty_start_failed u (ts_id s) (lit (map_pty_start_error err).2)) m1).2)
  end.
Proof.
  intros Hc. unfold SessionRoutes.launch. rewrite run_try. unfold SessionRoutes.manager at 1. rewrite run_bind, run_on_manager.
  cbn [run]. rewrite Hc. cbn [fst snd map_err co_session]. rewrite run_bind. unfold SessionRoutes.bridge_start.
  rewrite run_bind, run_on_trust. cbn [ap_trust ap_mgr]. destruct (run (pty_start target) (ap_trust w)) as [[handle|err] t2]; cbn [fst snd].
  - rewrite run_bind, run_on_manager, run_act. cbn [ap_trust ap_mgr run]. rewrite run_try. unfold SessionRoutes.manager.
    rewrite run_bind, run_on_manager. cbn [ap_mgr ap_trust]. by destruct (run (start_live_pty _ _ _ _) _) as [[] m3].
  - cbn [run]. destruct (map_pty_start_error err) as [api category]. by rewrite run_bind, run_on_manager.
Qed.

(** C6: What a request to create a terminal does once its gates are open, with a database that answers.
    A new row and its [Created] event are written.  If the bridge delivers a PTY, the row is [Active],
    the answer shows it, the PTY is bound with no deadline and the user has one more live session.  If
    the bridge fails, the answer is the status of the failure, the row is [Closed] at once with one
    event that names its category, and the registry is as it was before. *)
Theorem create_effect h s0 u req p target w :
  signed_in cfg h s0 u (tw_auth (ap_trust w)) -> gates (us_id u) (cb_server_profile_id req) p target w ->
  inv (ap_mgr w) -> up (w_db (ap_mgr w)) ->
  MIN_DIM <= cb_cols req <= MAX_DIM -> MIN_DIM <= cb_rows req <= MAX_DIM ->
  st_admits (mkCreateSession (us_id u) (sp_id p) Starting (cb_cols req) (cb_rows req)) (w_db (ap_mgr w)) ->
  exists s w', rows (ap_mgr w) !! ts_id s = None /\ ts_owner_id s = us_id u /\ ts_server_profile_id s = sp_id p
    /\ match (run (pty_start target) (ap_trust w)).1 with
       | Ok handle => exists resp, run (SessionRoutes.create cfg vault mcfg h req) w = (Ok resp, w')
           /\ launched (us_id u) s handle resp w w'
       | Err err => run (SessionRoutes.create cfg vault mcfg h req) w = (Err (map_pty_start_error err).1, w')
           /\ not_launched s err w w'
       end.
Proof.
  intros Hsi Hg Hinv Hup Hc Hr Had. set (t1 := set_tw_auth (touched (se_id s0) s0 (tw_auth (ap_trust w))) (ap_trust w)).
  assert (Hpre : run (SessionRoutes.create cfg vault mcfg h req) w
    = run (SessionRoutes.launch mcfg (us_id u) (sp_id p) (cb_cols req) (cb_rows req) target) (mkApp t1 (ap_mgr w))).
  { unfold SessionRoutes.create. rewrite run_try.
    change (run (SessionRoutes.on_trust (TrustRoutes.csrf_guard cfg h)) w) with (check_origin h (allowed_origins cfg), w).
    rewrite (si_origin _ _ _ _ _ Hsi), run_try. unfold TrustRoutes.authenticated_user. rewrite run_on_trust, run_on_auth.
    rewrite (proj1 (run_signed_in _ _ _ _ _ Hsi)). cbn [fst snd]. fold t1. rewrite run_try.
    rewrite (run_launch_target (us_id u) _ p target); [done|apply (an_faults _ (answering_touched _ _ _ _ _ Hsi))|].
    destruct Hg. by split. }
  destruct (run_create_row (us_id u) (sp_id p) (cb_cols req) (cb_rows req) (ap_mgr w)) as (s & m1 & Hcs & Hcd & Hfree); [done..|].
  rewrite Hpre, (run_launch _ _ _ _ target (mkApp t1 (ap_mgr w)) s m1 Hcs), (pty_start_conn target (ap_trust w) t1) by done.
  exists s. cbn [ap_trust]. destruct (run (pty_start target) t1) as [[handle|err] t2]; cbn [fst].
  - destruct (run_start_live _ _ _ _ s handle _ _ Hcd Hfree) as (seen & e & live & m3 & -> & Hfacts).
    eexists. split_and!; [exact (cd_new _ _ _ _ Hcd)|exact (cd_owner _ _ _ _ Hcd)|exact (cd_profile _ _ _ _ Hcd)|]. eexists. split; [reflexivity|]. by exists seen, e, live.
  - destruct (run_start_failed _ _ _ _ s (lit (map_pty_start_error err).2) _ _ Hcd Hfree) as (seen & e1 & e2 & m3 & -> & Hfacts).
    eexists. split_and!; [exact (cd_new _ _ _ _ Hcd)|exact (cd_owner _ _ _ _ Hcd)|exact (cd_profile _ _ _ _ Hcd)|reflexivity|].
    by exists seen, e1, e2.
Qed.

(** ** The ceilings *)

(** What the three ceilings are compared with. *)
Definition slots (u : UserId) m : nat * nat * nat :=
  (count_live_pty_for_user u m, count_live_pty_total m, count_starting_for_user u m).

Lemma teardown_keeps_registry args reason m : w_runtimes (run (pty_teardown args reason) m).2 = w_runtimes m.
Proof.
  unfold pty_teardown, repo, utc_now. cbn. destruct (st_get _ _) as [[[s|]|e] d]; cbn; [|done|done].
  case_decide; [|done]. cbn. destruct (st_set_status _ _ _ _) as [r2 d2]. cbn. by destruct (st_create_event _ _).
Qed.

(** A shell that exits does not give its slot back.  The forwarder closes the row, but the registry
    keeps the runtime, and the three counters that the ceilings of [create] read do not change, so a
    user at the ceiling is still refused. *)
Theorem remote_exit_keeps_slot args evts u m :
  slots u (run (forward_pty_output args evts None) m).2 = slots u m.
Proof.
  assert (E : w_runtimes (run (forward_pty_output args evts None) m).2 = w_runtimes m).
  { apply (seq_forward_to_teardown args evts None m (fun _ m' => w_runtimes m' = w_runtimes m)).
    intros m1 (_ & Hr & _). unfold seq. by rewrite teardown_keeps_registry. }
  unfold slots, count_live_pty_for_user, count_live_pty_total, count_starting_for_user. by rewrite E.
Qed.

(** ** The other routes *)

Lemma run_user h s0 u {A} (k : AuthenticatedUser -> prog (AppWorld DB B R) (result ApiError A)) w :
  signed_in cfg h s0 u (tw_auth (ap_trust w)) ->
  run (do? user <- SessionRoutes.on_trust (TrustRoutes.authenticated_user h); k user) w
  = run (k (mkAuthenticated u (se_id s0)))
      (mkApp (set_tw_auth (touched (se_id s0) s0 (tw_auth (ap_trust w))) (ap_trust w)) (ap_mgr w)).
Proof.
  intros Hsi. rewrite run_try. unfold TrustRoutes.authenticated_user. rewrite run_on_trust, run_on_auth.
  by rewrite (proj1 (run_signed_in _ _ _ _ _ Hsi)).
Qed.

(** Reading a row that is missing or foreign. *)
Lemma run_foreign_row u id w :
  up (w_db (ap_mgr w)) -> ~ ManagerSpec.owned (rows (ap_mgr w)) id u ->
  exists d, run (SessionRoutes.owned_session u id) w = (Err (ApiNotFound "terminal_session"), mkApp (ap_trust w) (set_db d (ap_mgr w)))
    /\ store_eq (w_db (ap_mgr w)) d.
Proof.
  intros [Hwf Hh] Hno. unfold SessionRoutes.owned_session, SessionRoutes.session_repo. rewrite run_try, run_bind, run_on_manager, run_act.
  pose proof (law_get id (w_db (ap_mgr w)) Hwf) as (Hl & _ & _). destruct (st_get id (w_db (ap_mgr w))) as [[o|e] d]; cbn [fst snd] in *.
  2:{ destruct Hl as [_ Hbad]. by destruct (Hbad Hh). }
  destruct Hl as [-> Heq]. exists d. split; [|done]. cbn. f_equal. destruct (rows (ap_mgr w) !! id) as [s|] eqn:Es; [|done].
  cbn. destruct (ts_owner_id s =? u) eqn:E; [|done]. bool_props. destruct Hno. by exists s.
Qed.

(** The answer to a request on a session that does not exist, and no trace of it. *)
Definition hidden {A} w (rw : result ApiError A * AppWorld DB B R) : Prop :=
  rw.1 = Err (ApiNotFound "terminal_session")
  /\ exists d, ap_mgr rw.2 = set_db d (ap_mgr w) /\ store_eq (w_db (ap_mgr w)) d.

Lemma run_foreign_get_owned u id m :
  up (w_db m) -> ~ ManagerSpec.owned (rows m) id u ->
  exists d, run (get_owned id u) m = (Err NotFound, set_db d m) /\ store_eq (w_db m) d.
Proof.
  intros [Hwf Hh] Hno. pose proof (seq_get_owned_denied id u m Hwf Hno) as H. unfold seq in H.
  destruct (run (get_owned id u) m) as [r m'] eqn:E. destruct H as (e & d & Hr & Hm & Heq & Hk). cbn [fst snd] in *. subst.
  exists d. split; [|done]. destruct (Hk Hh) as [->|(f & msg & ->)]; [done|]. exfalso.
  unfold get_owned, repo in E. rewrite run_try, run_act in E. destruct (st_get id (w_db m)) as [[o|e'] d']; [|done].
  cbn in E. destruct (o ≫= _) in E; done.
Qed.

(** A session of someone else does not exist for a signed-in user: reading it, closing it and opening
    its socket all answer the 404 of a missing session, and rows, events and registry stay as they
    are. *)
Theorem foreign_session_hidden h s0 u id ua w :
  signed_in cfg h s0 u (tw_auth (ap_trust w)) -> up (w_db (ap_mgr w)) ->
  ~ ManagerSpec.owned (rows (ap_mgr w)) id (us_id u) ->
  hidden w (run (SessionRoutes.get_by_id h id) w) /\ hidden w (run (SessionRoutes.close cfg h id) w)
  /\ hidden w (run (SessionRoutes.ws_attach h ua id) w).
Proof.
  intros Hsi Hup Hno. set (w1 := mkApp (set_tw_auth (touched (se_id s0) s0 (tw_auth (ap_trust w))) (ap_trust w)) (ap_mgr w)).
  destruct (run_foreign_row (us_id u) id w1 Hup Hno) as (d & Hrow & Hd). split; [|split]; unfold hidden.
  - unfold SessionRoutes.get_by_id. rewrite (run_user h s0 u) by done. rewrite run_try. fold w1. unfold TrustRoutes.user_id. cbn [au_user].
    rewrite Hrow. by split; [|exists d].
  - unfold SessionRoutes.close. rewrite run_try.
    change (run (SessionRoutes.on_trust (TrustRoutes.csrf_guard cfg h)) w) with (check_origin h (allowed_origins cfg), w).
    rewrite (si_origin _ _ _ _ _ Hsi), (run_user h s0 u) by done. fold w1. rewrite run_try. unfold SessionRoutes.manager.
    rewrite run_bind, run_on_manager. cbn [run].
    unfold TrustRoutes.user_id. cbn [au_user w1 ap_mgr]. destruct (run_foreign_get_owned (us_id u) id (ap_mgr w) Hup Hno) as (d2 & Hg & Hd2).
    unfold close_session. rewrite run_try, Hg. by split; [|exists d2].
  - unfold SessionRoutes.ws_attach. rewrite (run_user h s0 u) by done. rewrite run_try. fold w1. unfold TrustRoutes.user_id. cbn [au_user].
    rewrite Hrow. by split; [|exists d].
Qed.

End launch.
