(* ===== verification/LaunchScenario.v ===== *)
(** * Launches of the concrete deployment

    The deployments of [Scenario.v] and [TrustSpec.v] side by side: one user, one profile whose host
    presents a pinned key.  The theorems of [LaunchSpec.v] are applied to it, and the race of two
    requests against a ceiling is computed. *)

From S2P Require Import Prelude Core Replay SessionStore PgSession Prog Manager ManagerInv ManagerSpec Scenario.
From S2P Require Import AuthStore Auth AuthRoutes AuthSafety AuthSpec Inventory Vault HostKey TrustRoutes TrustSafety TrustSpec.
From S2P Require Import SessionRoutes LaunchSpec.
Import TerminalSessionManager.

#[local] Existing Instance toy_crypto.
#[local] Existing Instance toy_lower.
#[local] Existing Instance toy_aead.
#[local] Existing Instance toy_russh.

Abbreviation aworld := (AppWorld PgDb Loopback SeqSink).

(** The host presents the key of this pin. *)
Definition pin82 : KnownHostEntryRow := mkKnownRow 82 50 "ed25519" (lit "SHA256:new-key") [] 30 (Some 30) None None None None.
Definition entry82 : KnownHostEntry := mkKnownHost 82 50 Ed25519 (lit "SHA256:new-key") [] 30 (Some 30) None None None None.

Definition db70 : PgDb := mkPgDb {[ 1 ]} {[ 70 ]} empty empty [] 1000 100 [].
Definition m0 : World PgDb Loopback SeqSink := boot db70 5000 (mkLoopback [] [] []) [].
Definition app0 : aworld := mkApp (toy_trust {[ 82 := pin82 ]}) m0.
Definition target0 : SshPtyTarget :=
  mkPtyTarget 50 (lit "web.example.com") 22 (lit "deploy") [(Ed25519, lit "SHA256:new-key")] [Byte.x41; Byte.x42].
Definition body0 : CreateBody := create_body 70 None None.

(** One live session per user and in all. *)
Definition one_each : ManagerConfig := mkManagerConfig DETACHED_LIVE_PTY_TTL 1 4 1 true.

Lemma app0_gates : gates toy_vault one_each 1 70 toy_profile target0 app0.
Proof.
  split; try done.
  - exists toy_host_row, toy_host. by vm_compute.
  - exists toy_identity_row, toy_identity. by vm_compute.
  - exists [entry82]. by vm_compute.
Qed.

Lemma inv_m0 : inv m0.
Proof.
  apply inv_boot; [by apply (db_up_sound db70)| |apply map_Forall_empty|by constructor].
  cbn. rewrite omap_empty. apply map_Forall_empty.
Qed.

Lemma create_effect_witness :
  exists s w' resp, run (SessionRoutes.create toy_cfg toy_vault one_each alice_browser body0) app0 = (Ok resp, w')
    /\ launched (us_id alice) s 0 resp app0 w'.
Proof.
  destruct (create_effect toy_cfg toy_vault one_each alice_browser alice_session alice body0 toy_profile target0 app0)
    as (s & w' & _ & _ & _ & H).
  - exact toy_signed_in.
  - exact app0_gates.
  - exact inv_m0.
  - apply db_up_sound. vm_compute. reflexivity.
  - by vm_compute.
  - by vm_compute.
  - by vm_compute.
  - assert (E : (run (pty_start target0) (ap_trust app0)).1 = Ok 0%nat) by (vm_compute; reflexivity).
    rewrite E in H. destruct H as (resp & H1 & H2). exists s, w', resp. split; [exact H1|exact H2].
Defined.

(** ** Two requests against one ceiling *)

(** A request to create a terminal may arrive at any time. *)
Inductive launch_starts (mcfg : ManagerConfig) : aworld -> aworld -> prog aworld unit -> Prop :=
| start_create h req w :
    launch_starts mcfg w w (do! _ <- SessionRoutes.create toy_cfg toy_vault mcfg h req; Ret tt).

Definition request : prog aworld unit :=
  do! _ <- SessionRoutes.create toy_cfg toy_vault one_each alice_browser body0; Ret tt.

(** The first request is dialling when the second one arrives and is served. *)
Definition dialling : prog aworld unit * aworld := advance 16 request app0.
Definition both_live : aworld := (run dialling.1 (run request dialling.2).2).2.

(** The ceilings are not exact.  A request reads the live counters before its own session counts
    towards them, and nothing holds the slot while the PTY starts: two requests of one user, in a
    deployment whose ceilings are one live session per user and one in all, both succeed and leave two
    live sessions. *)
Theorem live_ceiling_exceeded :
  exists c, reachable (launch_starts one_each) app0 c
    /\ mc_max_live_pty_per_user one_each < Z.of_nat (count_live_pty_for_user 1 (ap_mgr (p_world c)))
    /\ mc_max_live_pty_per_deployment one_each < Z.of_nat (count_live_pty_total (ap_mgr (p_world c))).
Proof.
  exists (mkPool both_live [Ret tt; Ret tt]). split; [|split; vm_compute; reflexivity].
  apply (reachable_interrupted (launch_starts one_each) app0 request request 16); intros w; apply start_create.
Qed.

(** ** Reading other people's sessions *)

(** Session 7 belongs to someone else. *)
Definition db_foreign : PgDb := mkPgDb {[ 1; 2 ]} {[ 70 ]}
  {[ 7 := mkSessionRow 7 2 70 "active" 80 24 1000 1000 None ]} empty [] 1000 100 [].
Definition app_foreign : aworld := mkApp (toy_trust {[ 82 := pin82 ]}) (boot db_foreign 5000 (mkLoopback [] [] []) []).

Lemma foreign_session_hidden_witness :
  (run (SessionRoutes.get_by_id alice_browser 7) app_foreign).1 = Err (ApiNotFound "terminal_session").
Proof.
  apply (foreign_session_hidden toy_cfg alice_browser alice_session alice 7 None app_foreign).
  - exact toy_signed_in.
  - apply db_up_sound. vm_compute. reflexivity.
  - intros (s & Hs & Ho). vm_compute in Hs. injection Hs as <-. discriminate Ho.
Defined.
