(* ===== verification/ReadRoutes.v ===== *)
(** * Reading recordings, the audit trail and the session policy

    Models [crates/relayterm-api/src/routes/v1/terminal_recordings.rs] with [dto/terminal_recording.rs],
    [routes/v1/audit_events.rs] with [dto/audit_event.rs], and [routes/v1/session_policy.rs] with its DTO: the
    handlers that give recorded output and audit rows back to their owner, and the limits in force.  The values of a query string arrive parsed.  Base64, the text of identifiers and
    the text of instants are third-party code ([RecordingText]). *)

From stdpp Require Import pretty sorting.
From S2P Require Import Prelude Core Throttle SessionStore PgSession Recording PgRecording Prog Manager AuthStore Auth AuthRoutes.

(** ** Text *)

(** [BASE64.encode] (as [output_data_encode]), [Uuid]'s and [DateTime<Utc>]'s serialised forms, and
    [DateTime::parse_from_rfc3339] *)
Class RecordingText := {
  output_data_encode : list Byte.byte -> rstr;
  uuid_text : Uuid -> rstr;
  rfc3339_text : Z -> rstr;
  parse_from_rfc3339 : rstr -> option Z
}.

(** Base64 loses nothing, and an instant that was serialised parses back. *)
Class RecordingTextLaws `{RecordingText} : Prop := {
  law_encode_inj : Inj (=) (=) output_data_encode;
  law_rfc3339 t : parse_from_rfc3339 (rfc3339_text t) = Some t
}.

(** [Value::get] of an object, and [Value::as_str] *)
Fixpoint get_field (field : string) (fields : list (string * json)) : option json :=
  match fields with
  | [] => None
  | (k, v) :: fields => if String.eqb k field then Some v else get_field field fields
  end.
Definition json_get (field : string) (j : json) : option json :=
  match j with JObj fields => get_field field fields | _ => None end.
Definition json_as_str `{RecordingText} (j : json) : option rstr :=
  match j with
  | JStr s => Some s
  | JUuid u => Some (uuid_text u)
  | JTime t => Some (rfc3339_text t)
  | _ => None
  end.

(** ** State *)

(** The tables that the two routers read: those of authentication, and the session and recording tables. *)
Record ReadWorld := mkReadWorld { rd_auth : AuthWorld; rd_rec : PgRec }.

(** ** [dto/terminal_recording.rs] *)

Record TerminalRecordingMetadataResponse := mkMetadataResponse {
  mr_terminal_session_id : TerminalSessionId; mr_has_recording : bool; mr_chunk_count : Z; mr_marker_count : Z;
  mr_first_seq : option Z; mr_last_seq : option Z; mr_first_recorded_at : option Z; mr_last_recorded_at : option Z
}.
Definition metadata_response (m : TerminalRecordingMetadata) : TerminalRecordingMetadataResponse :=
  mkMetadataResponse (md_session m) (has_recording m) (md_chunk_count m) (md_marker_count m) (md_first_seq m)
    (md_last_seq m) (md_first_recorded_at m) (md_last_recorded_at m).

Record TerminalRecordingChunkResponse := mkChunkResponse {
  cr_seq_start : Z; cr_seq_end : Z; cr_byte_len : Z; cr_data_b64 : rstr; cr_encryption : string;
  cr_compression : string; cr_created_at : Z
}.
Record TerminalRecordingMarkerResponse := mkMarkerResponse {
  kr_kind : TerminalRecordingMarkerKind; kr_seq : Z; kr_payload : json; kr_created_at : Z
}.

(** ** [dto/audit_event.rs] *)

Inductive AuditPayloadSummary :=
| ServerProfileLifecycle (server_profile_id name host_id ssh_identity_id : option rstr) (disabled_at : option Z)
| Generic.

Record AuditEventResponse := mkAuditResponse {
  ar_id : AuditEventId; ar_kind_text : string; ar_recorded : Z; ar_summary : AuditPayloadSummary
}.

Section dto.
Context `{RecordingText}.

Definition chunk_response (c : TerminalRecordingChunk) : TerminalRecordingChunkResponse :=
  mkChunkResponse (rc_seq_start c) (rc_seq_end c) (rc_byte_len c) (output_data_encode (rc_payload c))
    (encryption_as_str (rc_encryption c)) (compression_as_str (rc_compression c)) (rc_created_at c).
Definition marker_response (m : TerminalRecordingMarker) : TerminalRecordingMarkerResponse :=
  mkMarkerResponse (rm_kind m) (rm_seq m) (rm_payload m) (rm_created_at m).

Definition copy_string_field (payload : json) (field : string) : option rstr :=
  json_get field payload ≫= json_as_str.
Definition copy_timestamp_field (payload : json) (field : string) : option Z :=
  raw ← json_get field payload ≫= json_as_str; parse_from_rfc3339 raw.

Definition sanitize_payload (kind : AuditEventKind) (payload : json) : AuditPayloadSummary :=
  match kind with
  | ServerProfileCreated | ServerProfileDisabled | ServerProfileEnabled =>
      ServerProfileLifecycle (copy_string_field payload "server_profile_id") (copy_string_field payload "name")
        (copy_string_field payload "host_id") (copy_string_field payload "ssh_identity_id")
        (copy_timestamp_field payload "disabled_at")
  | _ => Generic
  end.

(** [AuditEventResponse::from_event] *)
Definition from_event (event : AuditEvent) : AuditEventResponse :=
  mkAuditResponse (ae_id event) (audit_as_str (ae_kind event)) (ae_recorded_at event)
    (sanitize_payload (ae_kind event) (ae_payload event)).
End dto.

(** [SessionPolicyResponse] *)
Record SessionPolicyResponse := mkPolicyResponse {
  sy_detached_live_pty_ttl_seconds : Z; sy_max_live_pty_sessions_per_user : Z; sy_max_starting_sessions_per_user : Z
}.

(** ** Query parameters *)

Definition RECORDING_DEFAULT_LIMIT : Z := 256.
Definition RECORDING_MAX_LIMIT : Z := 1024.
Definition AUDIT_DEFAULT_LIMIT : Z := 20.
Definition AUDIT_MAX_LIMIT : Z := 100.

(** [raw.unwrap_or(DEFAULT_LIMIT).clamp(1, MAX_LIMIT)], the [clamp_limit] of either file *)
Definition clamp_page (default_limit max_limit : Z) (raw : option Z) : Z :=
  Z.max 1 (Z.min max_limit (default default_limit raw)).

Definition parse_from_seq (raw : option Z) (default_seq : Z) : result ApiError Z :=
  let v := default default_seq raw in
  if v <? 0 then Err (Validation (lit "from_seq: must be >= 0")) else Ok v.

(** ** The handlers *)

Module ReadRoutes.
Section routes.
Context {Cr : AuthCrypto} {Rt : RecordingText}.

Abbreviation io A := (prog ReadWorld (result ApiError A)).

Definition on_auth {A} (p : prog AuthWorld A) : prog ReadWorld A :=
  embed rd_auth (fun a w => mkReadWorld a (rd_rec w)) p.

(** [?] on a call of the recording repository, and of the session repository of the same database. *)
Definition rec_repo {A} (f : PgRec -> result RepositoryError A * PgRec) : io A :=
  do! r <- act (fun w => let '(r, d) := f (rd_rec w) in (r, mkReadWorld (rd_auth w) d));
  Ret (map_err api_of_repository r).
Definition session_repo {A} (f : PgDb -> result RepositoryError A * PgDb) : io A :=
  rec_repo (fun d => let '(r, db) := f (pr_db d) in (r, with_db db d)).

Definition RECORDING_SESSION_ENTITY : string := "terminal_session".

Definition resolve_owned_session (user : AuthenticatedUser) (id : TerminalSessionId) : io unit :=
  do? s <- session_repo (PgTerminalSessionRepository.get id);
  Ret (match s with
       | Some s => if ts_owner_id s =? Routes.user_id user then Ok tt else Err (ApiNotFound RECORDING_SESSION_ENTITY)
       | None => Err (ApiNotFound RECORDING_SESSION_ENTITY)
       end).

Definition get_metadata (h : Headers) (id : TerminalSessionId) : io TerminalRecordingMetadataResponse :=
  do? user <- on_auth (Routes.authenticated_user h);
  do? _ <- resolve_owned_session user id;
  do? metadata <- rec_repo (PgTerminalRecordingRepository.get_metadata id);
  Ret (Ok (metadata_response metadata)).

Definition list_chunks (h : Headers) (id : TerminalSessionId) (from_seq limit : option Z)
  : io (list TerminalRecordingChunkResponse) :=
  do? user <- on_auth (Routes.authenticated_user h);
  do? _ <- resolve_owned_session user id;
  do? from_seq <- Ret (parse_from_seq from_seq 1);
  do? chunks <- rec_repo (PgTerminalRecordingRepository.list_chunks id from_seq
                            (clamp_page RECORDING_DEFAULT_LIMIT RECORDING_MAX_LIMIT limit));
  Ret (Ok (map chunk_response chunks)).

Definition list_markers (h : Headers) (id : TerminalSessionId) (from_seq limit : option Z)
  : io (list TerminalRecordingMarkerResponse) :=
  do? user <- on_auth (Routes.authenticated_user h);
  do? _ <- resolve_owned_session user id;
  do? from_seq <- Ret (parse_from_seq from_seq 0);
  do? markers <- rec_repo (PgTerminalRecordingRepository.list_markers id from_seq
                             (clamp_page RECORDING_DEFAULT_LIMIT RECORDING_MAX_LIMIT limit));
  Ret (Ok (map marker_response markers)).

(** [recent] of [audit_events.rs] *)
Definition recent (h : Headers) (limit : option Z) : io (list AuditEventResponse) :=
  do? user <- on_auth (Routes.authenticated_user h);
  do? events <- on_auth (Routes.repo (PgAuditEventRepository.recent_for_actor (Routes.user_id user)
                                        (clamp_page AUDIT_DEFAULT_LIMIT AUDIT_MAX_LIMIT limit)));
  Ret (Ok (map from_event events)).

(** [session_policy], on the configuration of the running orchestrator *)
Definition session_policy (mcfg : ManagerConfig) (h : Headers) : io SessionPolicyResponse :=
  do? _ <- on_auth (Routes.authenticated_user h);
  Ret (Ok (mkPolicyResponse (mc_detach_ttl mcfg / nanos_per_second) (mc_max_live_pty_per_user mcfg)
             (mc_max_starting_per_user mcfg))).

End routes.
End ReadRoutes.
