(* ===== verification/ReadSpec.v ===== *)
(** * What reading recordings and the audit trail gives

    A client that pages through the chunks of a recording gets every byte that the writer kept, in order and
    once; recordings of others look missing; the audit feed shows a user the own rows and of their payloads
    only the fields that are meant to be public.  The last section applies the theorems to the deployments of
    [AuthSpec.v] and [PgRecording.v]. *)

From stdpp Require Import pretty sorting.
From S2P Require Import Prelude Core SessionStore PgSession Recording PgRecording Prog AuthStore Auth AuthRoutes.
From S2P Require Import Throttle Manager AuthSafety AuthSpec Inventory InventoryRoutes Config Boot ReadRoutes.

(** ** Lists in order *)

(** Sorting a list by what a function keeps of it. *)
Section merge_sort_map.
Context {A B} (f : A -> B) (R : relation A) (S : relation B).
Context `{!forall x y, Decision (R x y)} `{!forall x y, Decision (S x y)}.
Context (HRS : forall x y, R x y <-> S (f x) (f y)).

Lemma list_merge_map l1 l2 : map f (list_merge R l1 l2) = list_merge S (map f l1) (map f l2).
Proof.
  revert l2. induction l1 as [|x1 l1 IH1]; intros l2; [by destruct l2|].
  induction l2 as [|x2 l2 IH2]; [done|]. cbn.
  destruct (decide (R x1 x2)) as [Hr|Hr], (decide (S (f x1) (f x2))) as [Hs|Hs];
    try (by destruct Hs; apply HRS); try (by destruct Hr; apply HRS); cbn; f_equal; [apply IH1|apply IH2].
Qed.

Lemma merge_list_to_stack_map st l :
  map (fmap (map f)) (merge_list_to_stack R st l) = merge_list_to_stack S (map (fmap (map f)) st) (map f l).
Proof.
  revert l. induction st as [|[l'|] st IH]; intros l; cbn; [done| |done].
  by rewrite IH, list_merge_map.
Qed.

Lemma merge_stack_map st : map f (merge_stack R st) = merge_stack S (map (fmap (map f)) st).
Proof. induction st as [|[l|] st IH]; cbn; [done| |done]. by rewrite list_merge_map, IH. Qed.

Lemma merge_sort_map l : map f (merge_sort R l) = merge_sort S (map f l).
Proof.
  unfold merge_sort. change (@nil (option (list B))) with (map (fmap (M := option) (map f)) []).
  generalize (@nil (option (list A))). induction l as [|x l IH]; intros st; cbn; [by rewrite merge_stack_map|].
  by rewrite IH, merge_list_to_stack_map.
Qed.
End merge_sort_map.

Lemma clamp_page_bounds d m raw : 1 <= m -> 1 <= clamp_page d m raw <= m.
Proof. unfold clamp_page. lia. Qed.

(** ** Recorded chunks in order *)

Definition covered (r : TerminalRecordingChunkRow) : list Z := rangeZ (cw_seq_start r) (cw_seq_end r).
Definition precedes (a b : TerminalRecordingChunkRow) : Prop := cw_seq_end a < cw_seq_start b.
Definition spanning (r : TerminalRecordingChunkRow) : Prop := cw_seq_start r <= cw_seq_end r.

(** What the gap markers of a recording account for. *)
Definition gap_covered (row : RecordingRow) : list Z :=
  match row with RowMarker _ => row_covers row | RowChunk _ => [] end.

Lemma chunk_rows_cons id r db l a :
  chunk_rows id (mkPgRec db (r :: l) a)
  = (match chunk_row r with Some c => if decide (cw_session_id c = id) then [c] else [] | None => [] end)
    ++ chunk_rows id (mkPgRec db l a).
Proof.
  unfold chunk_rows. cbn [pr_rows omap list_omap]. destruct (chunk_row r) as [c|]; [|done].
  rewrite filter_cons. by case_decide.
Qed.

Lemma rows_of_cons id r db l a :
  rows_of id (mkPgRec db (r :: l) a)
  = (if decide (row_session (sr_row r) = id) then [sr_row r] else []) ++ rows_of id (mkPgRec db l a).
Proof. unfold rows_of. cbn [pr_rows map]. rewrite filter_cons. by case_decide. Qed.

Lemma chunk_rows_covered id d :
  (chunk_rows id d ≫= covered) `sublist_of` rows_cover (rows_of id d)
  /\ (chunk_rows id d ≫= covered) ++ (rows_of id d ≫= gap_covered) ≡ₚ rows_cover (rows_of id d).
Proof.
  destruct d as [db l a]. induction l as [|r l [IH1 IH2]]; [done|].
  rewrite chunk_rows_cons, rows_of_cons. unfold rows_cover, chunk_row in *.
  destruct (sr_row r) as [c|m] eqn:Er; cbn [row_session cw_session_id].
  - case_decide; cbn [app]; [|done]. rewrite !bind_cons. cbn [gap_covered app]. split; [by apply sublist_app|].
    rewrite <- app_assoc. by f_equiv.
  - case_decide; cbn [app]; [|done]. rewrite !bind_cons. split; [by apply sublist_inserts_l|].
    rewrite Permutation_app_swap_app. by f_equiv.
Qed.

Lemma chunk_rows_exact cfg data id d :
  Forall (chunk_exact cfg data) (rows_of id d) ->
  Forall (fun r => spanning r /\ cw_payload r = covered r ≫= data) (chunk_rows id d).
Proof.
  destruct d as [db l a]. induction l as [|r l IH]; [constructor|].
  rewrite chunk_rows_cons, rows_of_cons, !Forall_app. unfold chunk_row.
  intros [Hr Hl]. split; [|by apply IH]. destruct (sr_row r) as [c|m]; [|constructor].
  cbn [row_session cw_session_id] in *. case_decide; [|constructor].
  apply Forall_singleton in Hr as (H1 & H2 & _). apply Forall_singleton. split; [unfold spanning; cbn; lia|done].
Qed.

Lemma rangeZ_sorted a b : StronglySorted Z.lt (rangeZ a b).
Proof.
  unfold rangeZ. remember (Z.to_nat (b - a + 1)) as n eqn:En. revert a b En.
  induction n as [|n IH]; intros a b En.
  - rewrite seqZ_nil by lia. constructor.
  - rewrite seqZ_cons by lia. replace (Z.pred (b - a + 1)) with (b - Z.succ a + 1) by lia.
    constructor; [by apply IH; lia|]. apply Forall_forall. intros x Hx%elem_of_seqZ. lia.
Qed.

Lemma sublist_sorted {A} (R : relation A) l k : l `sublist_of` k -> StronglySorted R k -> StronglySorted R l.
Proof.
  induction 1 as [|x l k Hs IH|x l k Hs IH]; intros Hk; [constructor| |]; apply StronglySorted_cons in Hk as [Hx Hk];
    [|by auto]. constructor; [by auto|]. rewrite Forall_forall in *. intros y Hy. apply Hx.
  by apply (elem_of_sublist l).
Qed.

(** Chunks whose frames increase do not overlap. *)
Lemma chunks_in_order rs :
  Forall spanning rs -> StronglySorted Z.lt (rs ≫= covered) -> StronglySorted precedes rs.
Proof.
  induction rs as [|r rs IH]; intros Hs Hc; [constructor|]. apply Forall_cons in Hs as [Hr Hs].
  rewrite bind_cons, StronglySorted_app in Hc. destruct Hc as (Hb & _ & Hc). constructor; [by auto|].
  rewrite Forall_forall in *. intros r' Hr'. apply Hb.
  - unfold covered, rangeZ. apply elem_of_seqZ. unfold spanning in Hr. lia.
  - apply list_elem_of_bind. exists r'. split; [|done]. specialize (Hs r' Hr'). unfold spanning in Hs.
    unfold covered, rangeZ. apply elem_of_seqZ. lia.
Qed.

(** The page that follows what a client has already got. *)
Lemma next_page pre post from :
  Forall spanning (pre ++ post) -> StronglySorted precedes (pre ++ post) ->
  Forall (fun r => cw_seq_start r < from) pre -> Forall (fun r => from <= cw_seq_start r) post ->
  merge_sort (by_key cw_seq_start) (filter (fun r => from <= cw_seq_start r) (pre ++ post)) = post.
Proof.
  intros Hsp Hso Hpre Hpost. rewrite filter_app.
  assert (filter (fun r => from <= cw_seq_start r) pre = []) as ->.
  { apply list_filter_none. eapply Forall_impl; [exact Hpre|]. cbn. intros r; lia. }
  assert (filter (fun r => from <= cw_seq_start r) post = post) as -> by (by apply list_filter_all).
  apply StronglySorted_app_1_r in Hso. apply Forall_app in Hsp as [_ Hsp]. cbn [app]. clear Hpre Hpost pre.
  assert (Hst : StronglySorted (by_key cw_seq_start) post).
  { induction Hso as [|r rs Hso IH Hr]; constructor.
    - apply IH. by apply Forall_cons in Hsp as [_ Hsp].
    - apply Forall_cons in Hsp as [Hsr _]. eapply Forall_impl; [exact Hr|]. unfold precedes, by_key, spanning in *.
      intros r'; cbn. lia. }
  apply (StronglySorted_unique_strong (by_key cw_seq_start)).
  - intros x1 x2 H1 H2 H3 H4. rewrite merge_sort_Permutation in H1. unfold by_key in *.
    assert (E : cw_seq_start x1 = cw_seq_start x2) by lia. clear H3 H4 Hst.
    induction Hso as [|r rs Hso IH Hr]; [by inversion H1|].
    apply Forall_cons in Hsp as [Hsr Hsp]. rewrite Forall_forall in Hr. unfold precedes, spanning in *.
    apply elem_of_cons in H1 as [->|H1], H2 as [->|H2]; [done| | |by apply IH].
    + specialize (Hr _ H2). lia.
    + specialize (Hr _ H1). lia.
  - apply StronglySorted_merge_sort; apply _.
  - done.
  - apply merge_sort_Permutation.
Qed.

(** ** A signed-in reader *)

Section reading.
Context {Cr : AuthCrypto} {Lo : PgLower} {Rt : RecordingText} (cfg : AuthRoutesConfig).

Lemma signed_in_touched h s u w :
  signed_in cfg h s u w -> signed_in cfg h (with_last_seen (aw_now w) s) u (touched (se_id s) s w).
Proof.
  intros Hsi. pose proof (answering_touched _ _ _ _ _ Hsi) as Ha. destruct Hsi as [H1 _ H3 H4 H5 H6 H7].
  split; try done.
  - unfold auth_inv, touched. cbn. apply (keeps_session_update (aw_db w) (se_id s) s); try done.
  - cbn. by rewrite lookup_insert_eq.
Qed.

(** The state after a request: the session was seen. *)
Definition visited (s : UserSession) (w : ReadWorld) : ReadWorld :=
  mkReadWorld (touched (se_id s) s (rd_auth w)) (rd_rec w).

Lemma run_rd_on_auth {A} (p : prog AuthWorld A) w :
  run (ReadRoutes.on_auth p) w = ((run p (rd_auth w)).1, mkReadWorld (run p (rd_auth w)).2 (rd_rec w)).
Proof. apply (run_embed rd_auth (fun a w => mkReadWorld a (rd_rec w))); [done|by intros []|done]. Qed.

Lemma run_read_user h s u {A} (k : AuthenticatedUser -> prog ReadWorld (result ApiError A)) w :
  signed_in cfg h s u (rd_auth w) ->
  run (do? user <- ReadRoutes.on_auth (Routes.authenticated_user h); k user) w
  = run (k (mkAuthenticated u (se_id s))) (visited s w).
Proof. intros Hsi. rewrite run_try, run_rd_on_auth. by rewrite (proj1 (run_signed_in _ _ _ _ _ Hsi)). Qed.

Lemma run_rec_query {A} (f : PgRec -> result RepositoryError A) w :
  no_faults (rd_rec w) ->
  run (ReadRoutes.rec_repo (statement (fun d => (f d, d)))) w = (map_err api_of_repository (f (rd_rec w)), w).
Proof.
  intros Hf. unfold ReadRoutes.rec_repo. rewrite run_bind, run_act, statement_no_faults by done. by destruct w.
Qed.

(** The session as the repository reads it. *)
Definition session_of (id : TerminalSessionId) (d : PgRec) : result RepositoryError (option TerminalSession) :=
  match t_sessions (pr_db d) !! id with
  | None => Ok None
  | Some row => let? s := session_try_into_domain row in Ok (Some s)
  end.

Lemma run_session_get id w :
  no_faults (rd_rec w) ->
  run (ReadRoutes.session_repo (PgTerminalSessionRepository.get id)) w
  = (map_err api_of_repository (session_of id (rd_rec w)), w).
Proof.
  intros Hf. unfold ReadRoutes.session_repo, ReadRoutes.rec_repo. rewrite run_bind, run_act.
  unfold PgTerminalSessionRepository.get, execute, next_fault. unfold no_faults in Hf. rewrite Hf. destruct w as [a [[] r l]]. cbn in *. by subst.
Qed.

Definition owned_by (u : UserId) (id : TerminalSessionId) (d : PgRec) : Prop :=
  exists s, session_of id d = Ok (Some s) /\ ts_owner_id s = u.
Definition not_owned_by (u : UserId) (id : TerminalSessionId) (d : PgRec) : Prop :=
  session_of id d = Ok None \/ exists s, session_of id d = Ok (Some s) /\ ts_owner_id s <> u.

Lemma run_resolve u sid id w {A} (k : unit -> prog ReadWorld (result ApiError A)) :
  no_faults (rd_rec w) ->
  (owned_by (us_id u) id (rd_rec w) ->
   run (do? x <- ReadRoutes.resolve_owned_session (mkAuthenticated u sid) id; k x) w = run (k tt) w)
  /\ (not_owned_by (us_id u) id (rd_rec w) ->
      run (do? x <- ReadRoutes.resolve_owned_session (mkAuthenticated u sid) id; k x) w
      = (Err (ApiNotFound "terminal_session"), w)).
Proof.
  intros Hf. unfold ReadRoutes.resolve_owned_session. rewrite !run_try, run_session_get by done.
  split; [intros (s & -> & Ho)|intros [->|(s & -> & Ho)]]; cbn; [|done|]; unfold Routes.user_id; cbn [au_user].
  - by rewrite (proj2 (Z.eqb_eq _ _) Ho).
  - by rewrite (proj2 (Z.eqb_neq _ _) Ho).
Qed.

(** A recording of someone else does not exist for a signed-in user: all three requests answer the 404 of a
    missing session, whatever their parameters, and change nothing. *)
Theorem foreign_recording_hidden h s u id w from_seq limit :
  signed_in cfg h s u (rd_auth w) -> no_faults (rd_rec w) -> not_owned_by (us_id u) id (rd_rec w) ->
  run (ReadRoutes.get_metadata h id) w = (Err (ApiNotFound "terminal_session"), visited s w)
  /\ run (ReadRoutes.list_chunks h id from_seq limit) w = (Err (ApiNotFound "terminal_session"), visited s w)
  /\ run (ReadRoutes.list_markers h id from_seq limit) w = (Err (ApiNotFound "terminal_session"), visited s w).
Proof.
  intros Hsi Hf Hno.
  split_and!; (etransitivity; [by apply (run_read_user h s u)|];
    apply (proj2 (run_resolve u (se_id s) id (visited s w) _ Hf) Hno)).
Qed.

(** *** Chunks *)

Definition page_of (d : PgRec) (id : TerminalSessionId) (from_seq : Z) (limit : option Z)
  : list TerminalRecordingChunkRow :=
  take (Z.to_nat (clamp_page RECORDING_DEFAULT_LIMIT RECORDING_MAX_LIMIT limit))
    (merge_sort (by_key cw_seq_start) (filter (fun r => from_seq <= cw_seq_start r) (chunk_rows id d))).

(** What the client gets of a row. *)
Definition row_response (r : TerminalRecordingChunkRow) : TerminalRecordingChunkResponse :=
  mkChunkResponse (cw_seq_start r) (cw_seq_end r) (cw_byte_len r) (output_data_encode (cw_payload r))
    "none" "none" (cw_created_at r).
Definition chunk_domain (r : TerminalRecordingChunkRow) : TerminalRecordingChunk :=
  mkRecordingChunk (cw_id r) (cw_session_id r) (cw_seq_start r) (cw_seq_end r) (cw_byte_len r) (cw_payload r)
    EncryptionNone CompressionNone (cw_created_at r).

Lemma chunk_row_of_stored id d r :
  r ∈ chunk_rows id d -> cw_session_id r = id /\ chunk_try_into_domain r = Ok (chunk_domain r).
Proof.
  unfold chunk_rows. rewrite list_elem_of_filter, list_elem_of_omap. intros (<- & st & _ & Hr).
  unfold chunk_row in Hr. destruct (sr_row st); [|done]. injection Hr as <-. done.
Qed.

Lemma page_of_rows d id from limit r : r ∈ page_of d id from limit -> r ∈ chunk_rows id d.
Proof.
  unfold page_of. intros Hr. apply elem_of_take in Hr as (i & Hi & _). apply list_elem_of_lookup_2 in Hi.
  rewrite merge_sort_Permutation, list_elem_of_filter in Hi. by apply Hi.
Qed.

Lemma clamp_twice d m raw : 1 <= m <= LIST_LIMIT_CEILING -> clamp_limit (clamp_page d m raw) = clamp_page d m raw.
Proof. intros Hm. pose proof (clamp_page_bounds d m raw ltac:(lia)). unfold clamp_limit. lia. Qed.

Lemma parse_from_seq_some from d : 0 <= from -> parse_from_seq (Some from) d = Ok from.
Proof. intros Hp. unfold parse_from_seq. cbn. by rewrite (proj2 (Z.ltb_ge from 0)). Qed.

Lemma run_list_chunks h s u id w from limit :
  signed_in cfg h s u (rd_auth w) -> no_faults (rd_rec w) -> owned_by (us_id u) id (rd_rec w) -> 0 <= from ->
  run (ReadRoutes.list_chunks h id (Some from) limit) w
  = (Ok (map row_response (page_of (rd_rec w) id from limit)), visited s w).
Proof.
  intros Hsi Hf Ho Hp. etransitivity; [by apply (run_read_user h s u)|].
  etransitivity; [by apply (proj1 (run_resolve u (se_id s) id (visited s w) _ Hf) Ho)|].
  cbv beta. rewrite run_try, parse_from_seq_some by done. cbn [run].
  rewrite run_try. unfold PgTerminalRecordingRepository.list_chunks. rewrite run_rec_query by done.
  rewrite clamp_twice by (unfold RECORDING_MAX_LIMIT, LIST_LIMIT_CEILING; lia).
  fold (page_of (rd_rec (visited s w)) id from limit). change (rd_rec (visited s w)) with (rd_rec w).
  rewrite (collect_ok _ chunk_domain).
  - cbn. f_equal. f_equal. rewrite map_map. done.
  - apply Forall_forall. intros r Hr%page_of_rows. by apply (chunk_row_of_stored id (rd_rec w)).
Qed.

(** A client that pages: from the highest [seq_end] of a page on to the next, until a page is empty. *)
Definition page_end (from : Z) (page : list TerminalRecordingChunkResponse) : Z :=
  foldr (fun c hi => Z.max (cr_seq_end c) hi) from page.
Fixpoint download (fuel : nat) (h : Headers) (id : TerminalSessionId) (limit : option Z) (from : Z) (w : ReadWorld)
  : option (list TerminalRecordingChunkResponse) * ReadWorld :=
  match fuel with
  | O => (None, w)
  | S fuel =>
      match run (ReadRoutes.list_chunks h id (Some from) limit) w with
      | (Err _, w) => (None, w)
      | (Ok [], w) => (Some [], w)
      | (Ok page, w) =>
          let '(rest, w) := download fuel h id limit (page_end from page + 1) w in (app page <$> rest, w)
      end
  end.

Lemma page_end_bounds from (page : list TerminalRecordingChunkRow) :
  from <= page_end from (map row_response page)
  /\ Forall (fun r => cw_seq_end r <= page_end from (map row_response page)) page
  /\ (forall b, from <= b -> Forall (fun r => cw_seq_end r <= b) page -> page_end from (map row_response page) <= b).
Proof.
  induction page as [|r page (IH1 & IH2 & IH3)]; cbn; [split_and!; [lia|constructor|done]|].
  fold (page_end from (map row_response page)). split_and!; [lia| |].
  - constructor; [lia|]. eapply Forall_impl; [exact IH2|]. cbn. intros x; lia.
  - intros b Hb [H1 H2]%Forall_cons. specialize (IH3 b Hb H2). lia.
Qed.

(** What is left to get starts behind the page. *)
Lemma page_advances pre r page rest from :
  Forall spanning (pre ++ r :: page ++ rest) -> StronglySorted precedes (pre ++ r :: page ++ rest) ->
  Forall (fun r => cw_seq_start r < from) pre -> from <= cw_seq_start r ->
  let from' := page_end from (map row_response (r :: page)) + 1 in
  from <= from' /\ Forall (fun r => cw_seq_start r < from') (pre ++ r :: page)
  /\ Forall (fun r => from' <= cw_seq_start r) rest.
Proof.
  cbv zeta. intros Hsp Hso Hpre Hr. destruct (page_end_bounds from (r :: page)) as (B1 & B2 & B3).
  revert B1 B2 B3. generalize (page_end from (map row_response (r :: page))). intros hi B1 B2 B3.
  change (r :: page ++ rest) with ((r :: page) ++ rest) in *. rewrite app_assoc in *.
  apply Forall_app in Hsp as [Hsp _]. apply Forall_app in Hsp as [_ Hsp].
  split_and!; [lia| |].
  - apply Forall_app. split; [eapply Forall_impl; [exact Hpre|]; cbn; intros x; lia|].
    rewrite Forall_forall in *. intros x Hx. specialize (B2 x Hx). specialize (Hsp x Hx). unfold spanning in Hsp. lia.
  - apply Forall_forall. intros x Hx.
    assert (Hb : forall y, y ∈ r :: page -> cw_seq_end y < cw_seq_start x).
    { intros y Hy. apply (StronglySorted_app_1_elem_of precedes _ _ y x Hso); [|done]. apply elem_of_app. by right. }
    assert (hi <= cw_seq_start x - 1); [|lia]. apply B3.
    + assert (H1 := Hb r ltac:(by left)). apply Forall_cons in Hsp as [H2 _]. unfold spanning in H2. lia.
    + apply Forall_forall. intros y Hy. specialize (Hb y Hy). lia.
Qed.

Lemma download_pages fuel h u id limit pre post from w s :
  signed_in cfg h s u (rd_auth w) -> no_faults (rd_rec w) -> owned_by (us_id u) id (rd_rec w) ->
  chunk_rows id (rd_rec w) = pre ++ post -> Forall spanning (pre ++ post) -> StronglySorted precedes (pre ++ post) ->
  Forall (fun r => cw_seq_start r < from) pre -> Forall (fun r => from <= cw_seq_start r) post ->
  0 <= from -> (length post < fuel)%nat ->
  exists w', download fuel h id limit from w = (Some (map row_response post), w') /\ rd_rec w' = rd_rec w.
Proof.
  revert pre post from w s. induction fuel as [|fuel IH]; intros pre post from w s Hsi Hf Ho Er Hsp Hso Hpre Hpost H0 Hl;
    [lia|]. cbn [download]. rewrite (run_list_chunks h s u) by done.
  unfold page_of. rewrite Er, (next_page pre post from) by done.
  assert (Hk := clamp_page_bounds RECORDING_DEFAULT_LIMIT RECORDING_MAX_LIMIT limit ltac:(done)).
  destruct (Z.to_nat (clamp_page RECORDING_DEFAULT_LIMIT RECORDING_MAX_LIMIT limit)) as [|k] eqn:Ek; [lia|].
  destruct post as [|r post]; [by exists (visited s w)|]. cbn [take map].
  apply Forall_cons in Hpost as [Hr _]. rewrite <- (take_drop k post) in Er, Hsp, Hso.
  destruct (page_advances pre r (take k post) (drop k post) from Hsp Hso Hpre Hr) as (H1 & H2 & H3).
  change (row_response r :: map row_response (take k post)) with (map row_response (r :: take k post)).
  destruct (IH (pre ++ r :: take k post) (drop k post)
    (page_end from (map row_response (r :: take k post)) + 1) (visited s w) (with_last_seen (aw_now (rd_auth w)) s))
    as (w' & -> & Hw'); rewrite <- ?app_assoc; cbn [app]; try done.
  - by apply signed_in_touched.
  - lia.
  - cbn [length] in Hl. rewrite length_drop. lia.
  - exists w'. split; [|done]. cbn. f_equal. f_equal. f_equal. by rewrite <- map_app, take_drop.
Qed.

(** C25: Whoever owns a session gets its recording back.  Let the rows of a session account for its first [p]
    frames, as [recording_accounts_for_every_frame] says of whatever the writer leaves in the tables.  Then a
    client that pages through the chunks, with any page size, comes to an end after at most one request more
    than there are chunks, has changed nothing but the time it was last seen, and holds pieces whose data is
    that of the frames they name, which name no frame twice and in ascending order; and a frame that is in none
    of them is in the range of a gap marker, never in both. *)
Theorem recording_reads_back wcfg data p h s u id limit fuel w :
  signed_in cfg h s u (rd_auth w) -> no_faults (rd_rec w) -> owned_by (us_id u) id (rd_rec w) ->
  rows_cover (rows_of id (rd_rec w)) = rangeZ 1 p -> Forall (chunk_exact wcfg data) (rows_of id (rd_rec w)) ->
  (length (chunk_rows id (rd_rec w)) < fuel)%nat ->
  exists got w', download fuel h id limit 1 w = (Some got, w') /\ rd_rec w' = rd_rec w
    /\ Forall (fun c => cr_data_b64 c = output_data_encode (rangeZ (cr_seq_start c) (cr_seq_end c) ≫= data)) got
    /\ (got ≫= fun c => rangeZ (cr_seq_start c) (cr_seq_end c)) `sublist_of` rangeZ 1 p
    /\ (got ≫= fun c => rangeZ (cr_seq_start c) (cr_seq_end c)) ++ (rows_of id (rd_rec w) ≫= gap_covered)
       ≡ₚ rangeZ 1 p.
Proof.
  intros Hsi Hf Ho Hc Hx Hl. apply (chunk_rows_exact wcfg data id) in Hx.
  destruct (chunk_rows_covered id (rd_rec w)) as [Hsub Hperm]. rewrite Hc in Hsub, Hperm.
  assert (Hsp : Forall spanning (chunk_rows id (rd_rec w))) by (eapply Forall_impl; [exact Hx|]; by intros ? []).
  assert (Hso := chunks_in_order _ Hsp (sublist_sorted _ _ _ Hsub (rangeZ_sorted 1 p))).
  assert (H1 : Forall (fun r => 1 <= cw_seq_start r) (chunk_rows id (rd_rec w))).
  { apply Forall_forall. intros r Hr. rewrite Forall_forall in Hsp. specialize (Hsp r Hr). unfold spanning in Hsp.
    assert (Hin : cw_seq_start r ∈ rangeZ 1 p); [|unfold rangeZ in Hin; apply elem_of_seqZ in Hin; lia].
    apply (elem_of_sublist (chunk_rows id (rd_rec w) ≫= covered)); [|done]. apply list_elem_of_bind. exists r.
    split; [|done]. unfold covered, rangeZ. apply elem_of_seqZ. lia. }
  destruct (download_pages fuel h u id limit [] (chunk_rows id (rd_rec w)) 1 w s) as (w' & Hd & Hw); try done.
  exists (map row_response (chunk_rows id (rd_rec w))), w'.
  assert (E : (map row_response (chunk_rows id (rd_rec w)) ≫= fun c => rangeZ (cr_seq_start c) (cr_seq_end c))
              = chunk_rows id (rd_rec w) ≫= covered) by (clear; by induction (chunk_rows id (rd_rec w)) as [|r rs IH];
                cbn; [|f_equal]).
  rewrite E. split_and!; try done. apply Forall_map. eapply Forall_impl; [exact Hx|]. intros r [_ Hr]. cbn. by rewrite Hr.
Qed.

(** *** Markers *)

Definition marker_page (d : PgRec) (id : TerminalSessionId) (from_seq : Z) (limit : option Z)
  : list TerminalRecordingMarkerRow :=
  take (Z.to_nat (clamp_page RECORDING_DEFAULT_LIMIT RECORDING_MAX_LIMIT limit))
    (merge_sort marker_order (filter (fun r => from_seq <= mw_seq r) (marker_rows id d))).

Definition marker_domain (r : TerminalRecordingMarkerRow) : TerminalRecordingMarker :=
  mkRecordingMarker (mw_id r) (mw_session_id r) (default MkStarted (marker_from_str_tag (mw_kind r))) (mw_seq r)
    (mw_payload r) (mw_created_at r).

Lemma marker_row_of_stored id d r : r ∈ marker_rows id d -> marker_try_into_domain r = Ok (marker_domain r).
Proof.
  unfold marker_rows. rewrite list_elem_of_filter, list_elem_of_omap. intros (_ & st & _ & Hr).
  unfold marker_row in Hr. destruct (sr_row st) as [|m]; [done|]. injection Hr as <-.
  unfold marker_try_into_domain, marker_domain. cbn. by destruct (mk_kind m).
Qed.

Lemma run_list_markers h s u id w from limit :
  signed_in cfg h s u (rd_auth w) -> no_faults (rd_rec w) -> owned_by (us_id u) id (rd_rec w) -> 0 <= from ->
  run (ReadRoutes.list_markers h id (Some from) limit) w
  = (Ok (map (fun r => marker_response (marker_domain r)) (marker_page (rd_rec w) id from limit)), visited s w).
Proof.
  intros Hsi Hf Ho Hp. etransitivity; [by apply (run_read_user h s u)|].
  etransitivity; [by apply (proj1 (run_resolve u (se_id s) id (visited s w) _ Hf) Ho)|].
  cbv beta. rewrite run_try, parse_from_seq_some by done. cbn [run].
  rewrite run_try. unfold PgTerminalRecordingRepository.list_markers. rewrite run_rec_query by done.
  rewrite clamp_twice by (unfold RECORDING_MAX_LIMIT, LIST_LIMIT_CEILING; lia).
  fold (marker_page (rd_rec (visited s w)) id from limit). change (rd_rec (visited s w)) with (rd_rec w).
  rewrite (collect_ok _ marker_domain).
  - cbn. by rewrite map_map.
  - apply Forall_forall. intros r Hr. apply (marker_row_of_stored id (rd_rec w)). unfold marker_page in Hr.
    apply elem_of_take in Hr as (i & Hi & _). apply list_elem_of_lookup_2 in Hi.
    rewrite merge_sort_Permutation, list_elem_of_filter in Hi. by apply Hi.
Qed.

#[local] Instance marker_order_total : Total marker_order.
Proof. intros a b. unfold marker_order. lia. Qed.
#[local] Instance marker_order_trans : Transitive marker_order.
Proof. intros a b c. unfold marker_order. lia. Qed.

(** The markers that come before a marker of the same sequence number *)
Definition ahead_of (m r : TerminalRecordingMarkerRow) : Prop :=
  mw_seq r = mw_seq m /\ mw_created_at r < mw_created_at m.
#[local] Instance ahead_of_dec m r : Decision (ahead_of m r).
Proof. unfold ahead_of. apply _. Defined.

Lemma marker_not_on_page d id m from limit :
  RECORDING_MAX_LIMIT <= len (filter (ahead_of m) (marker_rows id d)) -> m ∉ marker_page d id from limit.
Proof.
  intros Hn Hm. unfold marker_page in Hm.
  pose proof (clamp_page_bounds RECORDING_DEFAULT_LIMIT RECORDING_MAX_LIMIT limit ltac:(done)) as Hk.
  revert Hm Hk. generalize (clamp_page RECORDING_DEFAULT_LIMIT RECORDING_MAX_LIMIT limit). intros k Hm Hk.
  set (l := merge_sort marker_order (filter (fun r => from <= mw_seq r) (marker_rows id d))) in *.
  assert (Hperm : l ≡ₚ filter (fun r => from <= mw_seq r) (marker_rows id d)) by apply merge_sort_Permutation.
  assert (Hso : StronglySorted marker_order l) by (apply StronglySorted_merge_sort; apply _).
  assert (Hfrom : from <= mw_seq m).
  { apply elem_of_take in Hm as (i & Hi & _). apply list_elem_of_lookup_2 in Hi. rewrite Hperm in Hi.
    by apply list_elem_of_filter in Hi as [Hi _]. }
  (* everything ahead of [m] is on the page *)
  assert (Hd : filter (ahead_of m) (drop (Z.to_nat k) l) = []).
  { apply list_filter_none, Forall_forall. intros x Hx [Hs Hc].
    assert (Ho : marker_order m x); [|unfold marker_order in Ho; lia].
    rewrite <- (take_drop (Z.to_nat k) l) in Hso. by apply (StronglySorted_app_1_elem_of _ _ _ m x Hso). }
  assert (Hall : filter (ahead_of m) (marker_rows id d) ≡ₚ filter (ahead_of m) (take (Z.to_nat k) l)).
  { trans (filter (ahead_of m) l).
    - rewrite Hperm, list_filter_filter. apply Permutation_refl'. apply list_filter_iff.
      intros x. unfold ahead_of. lia.
    - rewrite <- (take_drop (Z.to_nat k) l) at 1. by rewrite filter_app, Hd, app_nil_r. }
  assert (Hlt : (length (filter (ahead_of m) (take (Z.to_nat k) l)) < length (take (Z.to_nat k) l))%nat).
  { apply (length_filter_lt _ _ m); [done|]. unfold ahead_of. lia. }
  rewrite <- (Permutation_length Hall) in Hlt. rewrite length_take in Hlt.
  unfold len in Hn. lia.
Qed.

(** Paging through markers is not complete: a marker with as many markers of its own sequence number before it
    as a page can hold is in no answer, whatever its owner asks for.  An idle session that is detached and
    attached again stays at one sequence number. *)
Theorem marker_beyond_page_unreachable h s u id m from limit w :
  signed_in cfg h s u (rd_auth w) -> no_faults (rd_rec w) -> owned_by (us_id u) id (rd_rec w) -> 0 <= from ->
  RECORDING_MAX_LIMIT <= len (filter (ahead_of m) (marker_rows id (rd_rec w))) ->
  exists page, (run (ReadRoutes.list_markers h id (Some from) limit) w).1
      = Ok (map (fun r => marker_response (marker_domain r)) page)
    /\ m ∉ page.
Proof.
  intros Hsi Hf Ho H0 Hn. exists (marker_page (rd_rec w) id from limit).
  split; [|by apply marker_not_on_page]. by rewrite (run_list_markers h s u).
Qed.

(** *** The audit feed *)

(** The payload fields that may leave the backend *)
Definition public (kind : string) (payload : json) : option (list (option rstr)) :=
  match audit_from_str_tag kind with
  | Some (ServerProfileCreated | ServerProfileDisabled | ServerProfileEnabled) =>
      Some (map (copy_string_field payload)
              ["server_profile_id"; "name"; "host_id"; "ssh_identity_id"; "disabled_at"]%string)
  | _ => None
  end.

(** Two rows that differ at most in what is not public *)
Definition looks_like (r r' : AuditEventRow) : Prop :=
  ar_row_id r = ar_row_id r' /\ ar_kind r = ar_kind r' /\ ar_recorded_at r = ar_recorded_at r'
  /\ public (ar_kind r) (ar_payload r) = public (ar_kind r') (ar_payload r').

Definition own_rows (u : UserId) (w : AuthWorld) : list AuditEventRow :=
  filter (fun r => ar_actor_id r = Some u) (a_audit (aw_db w)).

Definition feed (u : UserId) (limit : option Z) (w : AuthWorld) : result RepositoryError (list AuditEvent) :=
  PgAuditEventRepository.collect_events (take (Z.to_nat (clamp_page AUDIT_DEFAULT_LIMIT AUDIT_MAX_LIMIT limit))
    (merge_sort PgAuditEventRepository.later_first (own_rows u w))).

Lemma run_recent h s u limit w :
  signed_in cfg h s u (rd_auth w) ->
  run (ReadRoutes.recent h limit) w
  = (match feed (us_id u) limit (rd_auth w) with
     | Ok es => Ok (map from_event es) | Err e => Err (api_of_repository e) end, visited s w).
Proof.
  intros Hsi. etransitivity; [by apply (run_read_user h s u)|]. cbv beta. rewrite run_try, run_rd_on_auth, run_repo.
  pose proof (answering_touched _ _ _ _ _ Hsi) as [Ha _ _ _].
  unfold PgAuditEventRepository.recent_for_actor. rewrite execute_answers by done. cbn [fst snd].
  unfold feed, own_rows, Routes.user_id. cbn [au_user]. change (a_audit _) with (a_audit (aw_db (rd_auth w))).
  destruct (PgAuditEventRepository.collect_events _); reflexivity.
Qed.

(** All of a row that the feed depends on *)
Definition shape : Type := Z * string * Z * option (list (option rstr)).
Definition shape_of (r : AuditEventRow) : shape :=
  (ar_row_id r, ar_kind r, ar_recorded_at r, public (ar_kind r) (ar_payload r)).
Definition shape_later (a b : shape) : Prop :=
  let '(i, _, t, _) := a in let '(j, _, t', _) := b in t' < t \/ (t = t' /\ j <= i).
#[local] Instance shape_later_dec a b : Decision (shape_later a b).
Proof. destruct a as [[[i k] t] p], b as [[[j l] t'] q]. cbn. apply _. Defined.

Definition shape_answer (x : shape) : result RepositoryError AuditEventResponse :=
  let '(id, kind, at_, fields) := x in
  let? k := ok_or (audit_from_str_tag kind)
    (RDatabase ("row integrity: audit_event.kind unknown (" +:+ kind +:+ ")")) in
  Ok (mkAuditResponse id (audit_as_str k) at_
        (match fields with
         | Some [a; b; c; d; e] => ServerProfileLifecycle a b c d (e ≫= parse_from_rfc3339)
         | _ => Generic
         end)).

Lemma looks_like_shape l l' : Forall2 looks_like l l' -> map shape_of l = map shape_of l'.
Proof. induction 1 as [|r r' l l' (H1 & H2 & H3 & H4) _ IH]; [done|]. cbn [map]. rewrite IH. unfold shape_of. by rewrite H4, H1, H2, H3. Qed.

Lemma shape_answer_event r : shape_answer (shape_of r) = let? e := audit_try_into_domain r in Ok (from_event e).
Proof.
  destruct r as [id actor kind payload remote at_]. unfold shape_of, shape_answer, audit_try_into_domain, public.
  cbn [ar_row_id ar_kind ar_recorded_at ar_payload ar_actor_id ar_remote].
  destruct (audit_from_str_tag kind) as [k|]; [|done]. destruct k; try done; cbn;
    unfold copy_string_field, copy_timestamp_field; by destruct (json_get "disabled_at" payload ≫= json_as_str).
Qed.

Lemma shape_answers rows :
  collect (map shape_answer (map shape_of rows))
  = let? es := PgAuditEventRepository.collect_events rows in Ok (map from_event es).
Proof.
  induction rows as [|r rows IH]; [done|]. cbn [map collect PgAuditEventRepository.collect_events].
  rewrite shape_answer_event. destruct (audit_try_into_domain r) as [e|e]; [|done]. cbn [result_bind]. rewrite IH.
  by destruct (PgAuditEventRepository.collect_events rows).
Qed.

Lemma feed_shapes u limit w :
  (let? es := feed u limit w in Ok (map from_event es))
  = collect (map shape_answer (take (Z.to_nat (clamp_page AUDIT_DEFAULT_LIMIT AUDIT_MAX_LIMIT limit))
      (merge_sort shape_later (map shape_of (own_rows u w))))).
Proof.
  unfold feed. rewrite <- shape_answers, <- firstn_map. f_equal. f_equal. f_equal.
  by apply merge_sort_map.
Qed.

(** C29: The feed discloses only what is meant to be public.  Whatever two databases contain, if the rows of which
    a user is the actor agree in identifier, kind and time, and - for the creation, disabling and enabling of a
    profile - in the five public fields of their payload, the user gets the same answer from both: nothing of
    the rows of others, of a remote address, or of any other part of a payload shows. *)
Theorem audit_feed_discloses_only_public h s s' u limit w w' :
  signed_in cfg h s u (rd_auth w) -> signed_in cfg h s' u (rd_auth w') ->
  Forall2 looks_like (own_rows (us_id u) (rd_auth w)) (own_rows (us_id u) (rd_auth w')) ->
  (run (ReadRoutes.recent h limit) w).1 = (run (ReadRoutes.recent h limit) w').1.
Proof.
  intros Hsi Hsi' Hl. rewrite (run_recent h s u), (run_recent h s' u) by done. cbn [fst].
  assert (E := feed_shapes (us_id u) limit (rd_auth w)). rewrite (looks_like_shape _ _ Hl) in E.
  rewrite <- feed_shapes in E. revert E.
  destruct (feed (us_id u) limit (rd_auth w)), (feed (us_id u) limit (rd_auth w')); cbn; congruence.
Qed.

(** What the inventory routes write about a profile is shown in full. *)
Lemma lifecycle_summary `{!RecordingTextLaws} kind p :
  kind = ServerProfileCreated \/ kind = ServerProfileDisabled \/ kind = ServerProfileEnabled ->
  sanitize_payload kind (lifecycle_payload p)
  = ServerProfileLifecycle (Some (uuid_text (sp_id p))) (Some (sp_name p)) (Some (uuid_text (sp_host_id p)))
      (Some (uuid_text (sp_ssh_identity_id p))) (sp_disabled_at p).
Proof.
  intros [->|[->| ->]]; unfold sanitize_payload, lifecycle_payload, copy_timestamp_field; cbn;
    (destruct (sp_disabled_at p) as [t|]; cbn; [by rewrite law_rfc3339|done]).
Qed.

(** The policy route reports the limits that were configured. *)
Theorem policy_reports_configuration `{SocketAddrs} c recording mcfg h s u w :
  manager_config c recording = Some mcfg -> signed_in cfg h s u (rd_auth w) ->
  run (ReadRoutes.session_policy mcfg h) w
  = (Ok (mkPolicyResponse (tc_detached_live_pty_ttl_seconds (cf_terminal_sessions c))
           (tc_max_live_pty_sessions_per_user (cf_terminal_sessions c))
           (tc_max_starting_sessions_per_user (cf_terminal_sessions c))), visited s w).
Proof.
  unfold manager_config, nonzero. intros Hm Hsi. etransitivity; [by apply (run_read_user h s u)|].
  repeat case_match; try done. cbn in Hm. injection Hm as <-. cbn. unfold detached_live_pty_ttl, nanos, nanos_per_second.
  by rewrite Z.div_mul.
Qed.

End reading.

(** ** A concrete deployment *)

#[local] Existing Instance toy_crypto.
#[local] Existing Instance toy_lower.

(** One character per byte, per identifier and per instant *)
#[local] Instance toy_text : RecordingText := {|
  output_data_encode := map byte_val;
  uuid_text u := [u];
  rfc3339_text t := [t];
  parse_from_rfc3339 s := match s with [t] => Some t | _ => None end
|}.

#[local] Instance toy_text_laws : RecordingTextLaws.
Proof.
  split; [|done]. intros a. induction a as [|x a IH]; intros [|y b]; try done.
  intros [= Hx%byte_val_inj Hab]. by rewrite Hx, (IH b).
Qed.

(** Alice reads the recording that [rec_done] left behind: the writer recorded two frames and dropped a third. *)
Definition reader0 : ReadWorld := mkReadWorld (toy_world toy_db) (rc_store rec_done).

Lemma rec_done_recorded :
  rows_cover (rows_of 100 (rc_store rec_done)) = rangeZ 1 2
  /\ Forall (chunk_exact rec_cfg rec_data) (rows_of 100 (rc_store rec_done)).
Proof.
  split; [by vm_compute|].
  destruct (recording_accounted 100 rec_cfg rec_data rec_good rec_good_chunk rec_good_marker rec_good_gaps
    ltac:(by vm_compute) rec_data_pos (rec_db None []) 3 rec_done)
    as [_ _ _ _ (p & q & r & _ & _ & _ & _ & (_ & H & _) & _)];
    [done|by split; [|eexists]|apply recording_done|by vm_compute|exact H].
Qed.

Lemma recording_reads_back_witness :
  exists got w', download 4 alice_browser 100 (Some 1) 1 reader0 = (Some got, w')
    /\ (got ≫= fun c => rangeZ (cr_seq_start c) (cr_seq_end c)) `sublist_of` [1; 2].
Proof.
  destruct (recording_reads_back toy_cfg rec_cfg rec_data 2 alice_browser alice_session alice 100 (Some 1) 4 reader0)
    as (got & w' & H1 & _ & _ & H2 & _).
  - exact toy_signed_in.
  - vm_compute; reflexivity.
  - eexists. split; [vm_compute; reflexivity|vm_compute; reflexivity].
  - exact (proj1 rec_done_recorded).
  - exact (proj2 rec_done_recorded).
  - vm_compute. lia.
  - exists got, w'. split; [exact H1|exact H2].
Defined.

(** Two requests, and what they bring *)
Example download_reader0 :
  map cr_data_b64 (default [] (download 4 alice_browser 100 (Some 1) 1 reader0).1) = [replicate 6 65].
Proof. by vm_compute. Qed.

(** The audit trail of Alice, with and without what must not show *)
Definition trail (payload : json) (remote : option rstr) (others : list AuditEventRow) : AuthDb :=
  mkAuthDb (a_users toy_db) (a_passwords toy_db) (a_sessions toy_db)
    ([mkAuditRow 50 (Some 1) "server_profile_disabled" payload remote 400;
      mkAuditRow 51 (Some 1) "login_succeeded" (JObj [("method"%string, JStr (lit "password"))]) remote 410] ++ others)
    500 100 [].
Definition plain_trail : AuthDb :=
  trail (JObj [("name"%string, JStr (lit "web")); ("disabled_at"%string, JTime 400)]) None [].
Definition secret_trail : AuthDb :=
  trail (JObj [("private_key"%string, JStr (lit "-----BEGIN")); ("name"%string, JStr (lit "web"));
               ("disabled_at"%string, JTime 400)]) (Some (lit "10.0.0.7"))
    [mkAuditRow 52 (Some 2) "login_succeeded" (JObj []) None 420].

Lemma trail_signed_in payload remote others :
  Forall (fun r => ar_row_id r < 100 /\ is_Some (audit_from_str_tag (ar_kind r)) /\ ar_actor_id r = Some 2) others ->
  signed_in toy_cfg alice_browser alice_session alice (toy_world (trail payload remote others)).
Proof.
  intros Ho. destruct toy_signed_in as [[I1 I2 I3 I4 I5 _] [A1 A2 A3 _] H3 H4 H5 H6 H7].
  split; try done; split; try done; cbn [a_audit trail aw_db toy_world].
  - apply Forall_app. split.
    + repeat (apply Forall_cons; split); try apply Forall_nil; try done; cbn; (split; [by eexists|]);
        intros u [= <-]; by eexists.
    + eapply Forall_impl; [exact Ho|]. intros r (_ & Hk & Ha). split; [done|]. intros u. rewrite Ha.
      intros [= <-]. by eexists.
  - apply Forall_app. split.
    + repeat (apply Forall_cons; split); try apply Forall_nil; try done; cbn; lia.
    + eapply Forall_impl; [exact Ho|]. by intros r (? & _).
Qed.

Lemma audit_feed_discloses_only_public_witness :
  (run (ReadRoutes.recent alice_browser None) (mkReadWorld (toy_world plain_trail) (rc_store rec_done))).1
  = (run (ReadRoutes.recent alice_browser None) (mkReadWorld (toy_world secret_trail) (rc_store rec_done))).1.
Proof.
  apply (audit_feed_discloses_only_public toy_cfg alice_browser alice_session alice_session alice).
  - apply trail_signed_in. constructor.
  - apply trail_signed_in. constructor; [|constructor]. split; [vm_compute; reflexivity|]. split; [by eexists|reflexivity].
  - repeat (constructor; [split; [reflexivity|split; [reflexivity|split; reflexivity]]|]); constructor.
Defined.

Example plain_feed :
  (run (ReadRoutes.recent alice_browser None) (mkReadWorld (toy_world plain_trail) (rc_store rec_done))).1
  = Ok [mkAuditResponse 51 "login_succeeded" 410 Generic;
        mkAuditResponse 50 "server_profile_disabled" 400 (ServerProfileLifecycle None (Some (lit "web")) None None (Some 400))].
Proof. by vm_compute. Qed.
