(* ===== verification/Writers.v ===== *)
(** * The recording runtime

    Models [RecordingRuntime] and [RecordingWriter] of [crates/relayterm-terminal/src/recording.rs] as the
    implementation of what the orchestrator asks of a recording ([RecordingSink] of [Manager.v]): any number of
    writers, each with the handle and the task of [Recording.v], over one repository.  A writer whose task was
    aborted at the deadline of [shutdown] stays behind with what it had not written.

    What is proved is isolation: whatever the other writers of the runtime do, a writer sees nothing of it but
    a repository in which other sessions have changed. *)

From S2P Require Import Prelude Core SessionStore Recording Manager.

(** ** The runtime *)

(** [RecordingWriter], enabled: its handle and its task *)
Record RecordingWriter := mkRecordingWriter {
  wr_session_id : TerminalSessionId;
  wr_handle : EnabledHandle;
  wr_task : TaskState;
  wr_aborted : bool
}.

(** [RecordingRuntime], with the writers it has spawned; a writer is known by its place. *)
Record RecordingRuntime (D : Type) := mkRecordingRuntime {
  rn_repository : D;
  rn_config : RecordingWriterConfig;
  rn_writers : list RecordingWriter
}.
Arguments mkRecordingRuntime {D}.
Arguments rn_repository {D}.
Arguments rn_config {D}.
Arguments rn_writers {D}.

Section runtime.
Context {D : Type} `{!RecordingStore D}.
Abbreviation runtime := (RecordingRuntime D).

(** [RecordingRuntime::writer_for] *)
Definition writer_for (session_id : TerminalSessionId) (rt : runtime) : nat * runtime :=
  (length (rn_writers rt),
   mkRecordingRuntime (rn_repository rt) (rn_config rt)
     (rn_writers rt ++ [mkRecordingWriter session_id (enabled (rn_config rt)) (mkTask None 0 Running) false])).

(** A call on the handle of a writer *)
Definition on_writer (f : EnabledHandle -> EnabledHandle) (i : nat) (rt : runtime) : runtime :=
  mkRecordingRuntime (rn_repository rt) (rn_config rt)
    (alter (fun w => mkRecordingWriter (wr_session_id w) (f (wr_handle w)) (wr_task w) (wr_aborted w)) i (rn_writers rt)).

#[export] Instance recording_runtime_sink : RecordingSink runtime := {|
  rec_writer_for := writer_for;
  rec_output i seq bytes := on_writer (fun h => record_output h seq bytes) i;
  rec_marker i kind seq payload := on_writer (fun h => record_marker h kind seq payload) i;
  rec_shutdown i last_seq := on_writer (fun h => shutdown h last_seq) i
|}.

(** The system of [Recording.v] that a writer is *)
Definition recorder_of (w : RecordingWriter) (d : D) : Recorder D := mkRecorder (wr_handle w) (wr_task w) d.

Definition put_recorder (i : nat) (w : RecordingWriter) (r : Recorder D) (rt : runtime) : runtime :=
  mkRecordingRuntime (rc_store r) (rn_config rt)
    (<[i := mkRecordingWriter (wr_session_id w) (rc_handle r) (rc_task r) (wr_aborted w)]> (rn_writers rt)).

(** The task of writer [i] makes a round, unless it was aborted. *)
Definition writer_round (i : nat) (rt : runtime) : runtime :=
  match rn_writers rt !! i with
  | Some w => if wr_aborted w then rt
              else put_recorder i w (task_round (wr_session_id w) (rn_config rt) (recorder_of w (rn_repository rt))) rt
  | None => rt
  end.

(** Every sender of writer [i] is gone. *)
Definition writer_released (i : nat) (rt : runtime) : runtime :=
  match rn_writers rt !! i with
  | Some w =>
      match wr_aborted w, tk_phase (wr_task w), h_queue (wr_handle w) with
      | false, Running, [] =>
          let '(st, d) := finish_dropped (wr_session_id w) (wr_task w) (rn_repository rt) in
          put_recorder i w (mkRecorder (mkHandle [] true (h_gap (wr_handle w)) (h_hard_cap (wr_handle w))) st d) rt
      | _, _, _ => rt
      end
  | None => rt
  end.

(** [task.abort()] at the deadline of [shutdown]; the queue goes with the receiver. *)
Definition writer_aborted (i : nat) (rt : runtime) : runtime :=
  mkRecordingRuntime (rn_repository rt) (rn_config rt)
    (alter (fun w => mkRecordingWriter (wr_session_id w)
       (mkHandle [] true (h_gap (wr_handle w)) (h_hard_cap (wr_handle w))) (wr_task w) true) i (rn_writers rt)).

(** What happens to the writers of a runtime: their tasks run, the orchestrator calls them, a new session gets
    one, a deadline passes. *)
Inductive RuntimeEvent :=
| RtRound (i : nat)
| RtReleased (i : nat)
| RtAborted (i : nat)
| RtOutput (i : nat) (seq : Z) (bytes : list Byte.byte)
| RtMarker (i : nat) (kind : TerminalRecordingMarkerKind) (seq : Z) (payload : json)
| RtShutdown (i : nat) (last_seq : Z)
| RtWriterFor (session_id : TerminalSessionId).

Definition runtime_step (ev : RuntimeEvent) (rt : runtime) : runtime :=
  match ev with
  | RtRound i => writer_round i rt
  | RtReleased i => writer_released i rt
  | RtAborted i => writer_aborted i rt
  | RtOutput i seq bytes => rec_output i seq bytes rt
  | RtMarker i kind seq payload => rec_marker i kind seq payload rt
  | RtShutdown i last_seq => rec_shutdown i last_seq rt
  | RtWriterFor id => (rec_writer_for id rt).2
  end.

End runtime.

(** ** Isolation *)

Section isolation.
Context {D : Type} `{!RecordingStore D, !RecordingStoreLaws D}.
Context (good : D -> Prop).
Context (Hgood_chunk : forall c d, good d -> good (rs_append_chunk c d).2).
Context (Hgood_marker : forall m d, good d -> good (rs_append_marker m d).2).

(** Only rows of session [s] were added. *)
Definition adds_to (s : TerminalSessionId) (d d' : D) : Prop :=
  (good d -> good d') /\ forall t, t <> s -> rs_rows t d' = rs_rows t d.

#[export] Instance adds_to_preorder s : PreOrder (adds_to s).
Proof.
  split; [by split|]. intros d1 d2 d3 [G1 R1] [G2 R2]. split; [by auto|]. intros t Ht. by rewrite R2, R1.
Qed.

Lemma adds_marker m d : adds_to (mk_session m) d (rs_append_marker m d).2.
Proof.
  split; [by auto|]. intros t Ht. rewrite (law_append_marker m d t).
  destruct (rs_append_marker m d).1; [|done]. by rewrite decide_False, app_nil_r.
Qed.

Lemma adds_write_marker s kind seq pl d : adds_to s d (write_marker s kind seq pl d).
Proof. apply (adds_marker (mkMarker s kind seq pl)). Qed.

Lemma adds_replay_gap s g d : adds_to s d (write_replay_gap s g d).
Proof. unfold write_replay_gap. repeat case_match; try done; apply adds_write_marker. Qed.

Lemma adds_chunk s b d : adds_to s d (flush_chunk s b d).
Proof.
  unfold flush_chunk. destruct b as [b|]; [|done]. repeat (case_match; [done|]).
  set (c := mkChunk _ _ _ _ _).
  assert (Hc : adds_to s d (rs_append_chunk c d).2).
  { split; [by auto|]. intros t Ht. rewrite (law_append_chunk c d t).
    destruct (rs_append_chunk c d).1; [|done]. by rewrite decide_False, app_nil_r. }
  destruct (rs_append_chunk c d) as [[u|e] d']; [done|]. etransitivity; [exact Hc|apply adds_replay_gap].
Qed.

(** The same, seen from an earlier store *)
Lemma adds_refl s d : adds_to s d d.
Proof. done. Qed.
Lemma adds_marker_after s kind seq pl d0 d : adds_to s d0 d -> adds_to s d0 (write_marker s kind seq pl d).
Proof. intros H. etransitivity; [exact H|apply adds_write_marker]. Qed.
Lemma adds_gap_after s g d0 d : adds_to s d0 d -> adds_to s d0 (write_replay_gap s g d).
Proof. intros H. etransitivity; [exact H|apply adds_replay_gap]. Qed.
Lemma adds_chunk_after s b d0 d : adds_to s d0 d -> adds_to s d0 (flush_chunk s b d).
Proof. intros H. etransitivity; [exact H|apply adds_chunk]. Qed.

#[local] Hint Resolve adds_refl adds_marker_after adds_gap_after adds_chunk_after : core.

Lemma adds_output s cfg seq data gap st d : adds_to s d (on_output s cfg seq data gap st d).2.
Proof.
  unfold on_output. destruct gap as [g|]; (destruct (_ <? len data); [cbn [snd]; by auto 6|]).
  - destruct (_ <=? _); cbn [snd]; by auto 6.
  - destruct (tk_open st) as [b|]; [destruct (would_overshoot_hard_cap b _ _)|]; destruct (_ <=? _); cbn [snd];
      by auto 6.
Qed.

Lemma adds_command s cfg cmd st d : adds_to s d (on_command s cfg cmd st d).2.
Proof.
  destruct cmd as [seq data g|kind seq pl|last]; [apply adds_output|cbn; by auto|]. cbn. by destruct (tk_phase st).
Qed.

Lemma adds_round s cfg (r : Recorder D) : adds_to s (rc_store r) (rc_store (task_round s cfg r)).
Proof.
  unfold task_round. destruct (tk_phase (rc_task r)), (h_queue (rc_handle r)) as [|cmd q]; try done;
    try (pose proof (adds_command s cfg cmd (rc_task r) (rc_store r)) as H;
      by destruct (on_command s cfg cmd (rc_task r) (rc_store r))).
  unfold finish. cbn. by auto.
Qed.

Lemma adds_dropped s st d : adds_to s d (finish_dropped s st d).2.
Proof. unfold finish_dropped. cbn [snd]. by auto. Qed.

(** *** One writer among others *)

Context (s : TerminalSessionId) (cfg : RecordingWriterConfig) (data : Z -> list Byte.byte) (d0 : D).
Context (Hgaps : forall m d, good d -> mk_session m = s -> mk_kind m = MkReplayGap ->
  1 <= mk_seq m -> is_object (mk_payload m) = true -> exists d', rs_append_marker m d = (Ok tt, d')).
Context (Htarget : chunk_hard_cap_bytes cfg <= i32_max) (Hdata : forall n, 0 < len (data n)).
Context (Hempty : rs_rows s d0 = []) (Hgood : good d0).

Abbreviation recording_of := (recording s cfg data good d0).
Abbreviation rows_upto := (rows_at s cfg data good).

Definition stopped (w : RecordingWriter) : Prop := wr_aborted w = true \/ tk_phase (wr_task w) = Done.

(** What writer [w] is, after [n] frames were handed to it: a run of [Recording.v], or a stopped one, which
    has left a prefix of the frames accounted for. *)
Definition writes (n : Z) (w : RecordingWriter) (d : D) : Prop :=
  (wr_aborted w = false /\ recording_of n (recorder_of w d))
  \/ (stopped w /\ exists p, p <= n /\ rows_upto p d).

(** Writer [i] of the runtime is the only one of its session. *)
Record kept (i : nat) (n : Z) (rt : RecordingRuntime D) : Prop := {
  kp_config : rn_config rt = cfg;
  kp_writer : exists w, rn_writers rt !! i = Some w /\ wr_session_id w = s /\ writes n w (rn_repository rt);
  kp_others : forall j w, j <> i -> rn_writers rt !! j = Some w -> wr_session_id w <> s
}.

Lemma recording_rows n r : recording_of n r -> n <= i64_max -> exists p, p <= n /\ rows_upto p (rc_store r).
Proof.
  intros Hr Hn. destruct (recording_accounted s cfg data good Hgood_chunk Hgood_marker Hgaps Htarget Hdata d0 n r
    Hempty Hgood Hr Hn) as [_ _ _ _ (p & q & r' & H1 & H2 & H3 & H4 & H5 & _)]. exists p. split; [lia|done].
Qed.

Lemma recording_good n r : recording_of n r -> n <= i64_max -> good (rc_store r).
Proof. intros Hr Hn. by destruct (recording_rows n r Hr Hn) as (p & _ & _ & _ & H). Qed.

Lemma writes_rows n w d : writes n w d -> n <= i64_max -> exists p, p <= n /\ rows_upto p d.
Proof. intros [[_ Hr]|[_ H]] Hn; [|done]. by apply (recording_rows n (recorder_of w d)). Qed.

(** The repository changes for other sessions. *)
Lemma writes_elsewhere n w d t d' : writes n w d -> n <= i64_max -> t <> s -> adds_to t d d' -> writes n w d'.
Proof.
  intros Hw Hn Ht [Hg Hr]. destruct Hw as [[Ha H]|[Hs (p & Hp & Hx)]].
  - left. split; [done|]. eapply recording_step; [exact H|].
    apply (rs_others s cfg data good n (recorder_of w d) d'); [by apply Hr|].
    apply Hg. by apply (recording_good n (recorder_of w d)).
  - right. split; [done|]. exists p. split; [done|]. apply (rows_at_same s cfg data good p d); [done|by apply Hr|].
    apply Hg. by destruct Hx as (_ & _ & ?).
Qed.

(** A call on the handle of a writer leaves the others alone. *)
Lemma kept_call i j f n n' rt :
  kept i n rt ->
  (j <> i -> n' = n) ->
  (j = i -> forall w, writes n w (rn_repository rt) ->
   writes n' (mkRecordingWriter (wr_session_id w) (f (wr_handle w)) (wr_task w) (wr_aborted w)) (rn_repository rt)) ->
  kept i n' (on_writer f j rt).
Proof.
  intros [Hc (w & Hw & Hs & Hx) Ho] Hne Heq. split; [done| |].
  - cbn. destruct (decide (j = i)) as [->|Hji].
    + rewrite list_lookup_alter_eq, Hw. eexists. split; [done|]. split; [done|]. by apply Heq.
    + rewrite list_lookup_alter_ne by done. exists w. by rewrite (Hne Hji).
  - intros k v Hk. cbn. destruct (decide (j = k)) as [->|Hjk].
    + rewrite list_lookup_alter_eq. destruct (rn_writers rt !! k) as [v0|] eqn:E; [|done].
      intros [= <-]. by apply (Ho k v0).
    + rewrite list_lookup_alter_ne by done. by apply Ho.
Qed.

(** A writer does something with its task: it is ours, or its rows are of another session. *)
Lemma kept_task i j w r n rt :
  kept i n rt -> n <= i64_max -> rn_writers rt !! j = Some w ->
  adds_to (wr_session_id w) (rn_repository rt) (rc_store r) ->
  (j = i -> writes n (mkRecordingWriter s (rc_handle r) (rc_task r) (wr_aborted w)) (rc_store r)) ->
  kept i n (put_recorder j w r rt).
Proof.
  intros [Hc (v & Hv & Hs & Hx) Ho] Hn Hj Ha Hi. split; [done| |]; cbn.
  - destruct (decide (j = i)) as [->|Hji].
    + rewrite Hj in Hv. injection Hv as <-.
      rewrite list_lookup_insert_eq by (by eapply lookup_lt_Some). eexists. split; [done|]. rewrite Hs. split; [done|by apply Hi].
    + rewrite list_lookup_insert_ne by done. exists v. split; [done|]. split; [done|].
      apply (writes_elsewhere n v (rn_repository rt) (wr_session_id w)); [done..| |done]. by apply (Ho j w).
  - intros k u Hk. destruct (decide (j = k)) as [->|Hjk].
    + rewrite list_lookup_insert_eq by (by eapply lookup_lt_Some). intros [= <-]. cbn. by apply (Ho k w).
    + rewrite list_lookup_insert_ne by done. by apply Ho.
Qed.

(** The frame that the forwarder hands over next *)
Lemma writes_output n w d :
  writes n w d -> n <= i64_max ->
  writes (n + 1) (mkRecordingWriter (wr_session_id w) (record_output (wr_handle w) (n + 1) (data (n + 1)))
                    (wr_task w) (wr_aborted w)) d.
Proof.
  intros Hw Hn. assert (Hp : tk_phase (wr_task w) = Done \/ tk_phase (wr_task w) <> Done)
    by (destruct (tk_phase (wr_task w)); [right|right|left]; done). destruct Hp as [Hd|Hd].
  { right. split; [by right|]. destruct (writes_rows n w d Hw Hn) as (p & Hp & Hx). exists p. split; [lia|done]. }
  destruct Hw as [[Ha H]|[Hs (p & Hp & Hx)]].
  - left. split; [done|]. eapply recording_step; [exact H|].
    by apply (rs_output s cfg data good n (recorder_of w d)).
  - right. split; [by destruct Hs; [left|right]|]. exists p. split; [lia|done].
Qed.

Lemma kept_output i n rt :
  kept i n rt -> n <= i64_max -> kept i (n + 1) (rec_output i (n + 1) (data (n + 1)) rt).
Proof. intros Hk Hn. apply (kept_call i i _ n (n + 1)); [done..|]. intros _ w Hw. by apply writes_output. Qed.

(** A session's first writer *)
Lemma kept_writer_for rt :
  rn_config rt = cfg -> rn_repository rt = d0 -> Forall (fun v => wr_session_id v <> s) (rn_writers rt) ->
  kept (length (rn_writers rt)) 0 (rec_writer_for s rt).2.
Proof.
  intros Hc Hd Hf. split; cbn; [done| |].
  - eexists. split; [by rewrite list_lookup_middle|]. split; [done|]. left. split; [done|].
    unfold recorder_of. cbn. rewrite Hc, Hd. apply recording_start.
  - intros j v Hj Hv. apply lookup_app_Some in Hv as [Hv|[Hle Hv]].
    + exact (proj1 (Forall_lookup _ _) Hf j v Hv).
    + apply list_lookup_singleton_Some in Hv as [Hz <-]. lia.
Qed.

Lemma kept_rows i n rt : kept i n rt -> n <= i64_max -> exists p, p <= n /\ rows_upto p (rn_repository rt).
Proof. intros [_ (w & _ & _ & Hw) _] Hn. by apply (writes_rows n w). Qed.

Lemma writes_marker n w d kind seq pl :
  kind <> MkReplayGap -> 0 <= seq -> writes n w d ->
  writes n (mkRecordingWriter (wr_session_id w) (record_marker (wr_handle w) kind seq pl) (wr_task w) (wr_aborted w)) d.
Proof.
  intros Hk Hs [[Ha H]|H]; [left|by right]. split; [done|]. eapply recording_step; [exact H|].
  by apply (rs_marker s cfg data good n (recorder_of w d)).
Qed.

Lemma writes_shutdown n w d last :
  0 <= last -> writes n w d ->
  writes n (mkRecordingWriter (wr_session_id w) (shutdown (wr_handle w) last) (wr_task w) (wr_aborted w)) d.
Proof.
  intros Hl [[Ha H]|H]; [left|by right]. split; [done|]. eapply recording_step; [exact H|].
  by apply (rs_shutdown s cfg data good n (recorder_of w d)).
Qed.

Lemma writes_round n w d :
  writes n w d -> wr_aborted w = false ->
  let r := task_round s cfg (recorder_of w d) in
  writes n (mkRecordingWriter s (rc_handle r) (rc_task r) (wr_aborted w)) (rc_store r).
Proof.
  intros Hw Ha. cbv zeta. destruct Hw as [[_ H]|[[Hb|Hd] H]]; [|congruence|].
  - left. split; [done|]. destruct (task_round s cfg (recorder_of w d)) as [h st d'] eqn:E.
    eapply recording_step; [exact H|]. unfold recorder_of. cbn. rewrite <- E.
    apply (rs_round s cfg data good n (recorder_of w d)).
  - right. unfold task_round. cbn [recorder_of rc_task]. rewrite Hd. cbn. split; [by right|done].
Qed.

Lemma writes_released n w d st d' :
  writes n w d -> wr_aborted w = false -> tk_phase (wr_task w) = Running -> h_queue (wr_handle w) = [] ->
  finish_dropped s (wr_task w) d = (st, d') ->
  writes n (mkRecordingWriter s (mkHandle [] true (h_gap (wr_handle w)) (h_hard_cap (wr_handle w))) st
              (wr_aborted w)) d'.
Proof.
  intros [[_ H]|[[Hb|Hd] H]] Ha Hp Hq Hf; [|congruence|congruence].
  left. split; [done|]. eapply recording_step; [exact H|].
  by apply (rs_dropped s cfg data good n (recorder_of w d)).
Qed.

(** What may happen besides the output of the forwarder of writer [i] *)
Definition besides (i : nat) (ev : RuntimeEvent) : Prop :=
  match ev with
  | RtOutput j _ _ => j <> i
  | RtMarker j kind seq _ => j = i -> kind <> MkReplayGap /\ 0 <= seq
  | RtShutdown j last_seq => j = i -> 0 <= last_seq
  | RtWriterFor id => id <> s
  | _ => True
  end.

Lemma kept_aborted i j n rt : kept i n rt -> n <= i64_max -> kept i n (writer_aborted j rt).
Proof.
  intros [Hc (w & Hw & Hs & Hx) Ho] Hn. split; [done| |]; cbn.
  - destruct (decide (j = i)) as [->|Hji].
    + rewrite list_lookup_alter_eq, Hw. eexists. split; [done|]. split; [done|]. right. split; [by left|].
      by apply (writes_rows n w).
    + rewrite list_lookup_alter_ne by done. by exists w.
  - intros k v Hk. destruct (decide (j = k)) as [->|Hjk].
    + rewrite list_lookup_alter_eq. destruct (rn_writers rt !! k) as [v0|] eqn:E; [|done].
      intros [= <-]. by apply (Ho k v0).
    + rewrite list_lookup_alter_ne by done. by apply Ho.
Qed.

Lemma kept_step i n rt ev : kept i n rt -> n <= i64_max -> besides i ev -> kept i n (runtime_step ev rt).
Proof.
  intros Hk Hn Hb. pose proof Hk as [Hc (w & Hw & Hs & Hx) Ho].
  destruct ev as [j|j|j|j q b|j kind q pl|j last|id]; cbn [runtime_step rec_output rec_marker rec_shutdown
    rec_writer_for recording_runtime_sink besides] in *.
  - unfold writer_round. destruct (rn_writers rt !! j) as [v|] eqn:Ej; [|done].
    destruct (wr_aborted v) eqn:Ea; [done|]. apply (kept_task i j v); [done..| |].
    + apply (adds_round (wr_session_id v) (rn_config rt) (recorder_of v (rn_repository rt))).
    + intros ->. rewrite Hw in Ej. injection Ej as ->. rewrite Hs, Hc. by apply writes_round.
  - unfold writer_released. destruct (rn_writers rt !! j) as [v|] eqn:Ej; [|done].
    destruct (wr_aborted v) eqn:Ea; [done|]. destruct (tk_phase (wr_task v)) eqn:Ep; try done.
    destruct (h_queue (wr_handle v)) eqn:Eq; [|done].
    destruct (finish_dropped (wr_session_id v) (wr_task v) (rn_repository rt)) as [st d] eqn:Ef.
    apply (kept_task i j v); [done..| |].
    + pose proof (adds_dropped (wr_session_id v) (wr_task v) (rn_repository rt)) as H. by rewrite Ef in H.
    + intros ->. rewrite Hw in Ej. injection Ej as ->. rewrite Hs in Ef. by apply (writes_released n v (rn_repository rt)).
  - by apply kept_aborted.
  - apply (kept_call i j _ n n); [done..|]. intros ->. by destruct Hb.
  - apply (kept_call i j _ n n); [done..|]. intros Hj v Hv. destruct (Hb Hj). by apply writes_marker.
  - apply (kept_call i j _ n n); [done..|]. intros Hj v Hv. apply writes_shutdown; auto.
  - split; [done| |]; cbn.
    + exists w. split; [by apply lookup_app_l_Some|done].
    + intros k v Hk'. rewrite lookup_app. destruct (rn_writers rt !! k) as [v0|] eqn:E.
      * intros [= <-]. by apply (Ho k v0).
      * intros Hl. by apply list_lookup_singleton_Some in Hl as [_ <-].
Qed.

End isolation.
