(* ===== verification/Beside.v ===== *)
(** * The rest of the orchestrator beside one forwarder

    A forwarder owns its counter, its ring and its channel, and its session owns a writer of the recording
    runtime.  This file shows that nothing else in [Manager.v] touches them: every action of every API call, of
    every other forwarder, of every detach timer and of the environment either leaves them alone or is an event
    of the recording runtime that [Writers.v] allows.  It needs that the session is bound to a PTY once. *)

From S2P Require Import Prelude Core Replay SessionStore Recording Prog Manager ManagerInv Writers.
Import TerminalSessionManager.

Section beside.
Context {DB B D : Type} `{!SessionStore DB, !PtyBridge B, !RecordingStore D}.
Abbreviation world := (World DB B (RecordingRuntime D)).
Implicit Types w : world.
(** The session, its forwarder and its writer *)
Context (cfg : ManagerConfig) (s : TerminalSessionId) (args : ForwarderArgs) (i : nat).

(** What is not the forwarder's own doing: its objects stay as they are, and so does the recording. *)
Record elsewhere w w' : Prop := {
  el_counter : w_counters w' !! fw_next_seq args = w_counters w !! fw_next_seq args;
  el_ring : w_buffers w' !! fw_replay args = w_buffers w !! fw_replay args;
  el_chan : w_channels w' !! fw_output_tx args = w_channels w !! fw_output_tx args;
  el_rec : w_rec w' = w_rec w
}.

(** One action of somebody else *)
Definition aside w w' : Prop :=
  elsewhere w w' \/ exists ev, besides s i ev /\ w' = set_rec (runtime_step ev (w_rec w)) w.

(** ** Whose object is whose *)

(** Another forwarder shares nothing with ours. *)
Record apart (args' : ForwarderArgs) : Prop := {
  ap_next : fw_next_seq args' <> fw_next_seq args;
  ap_last : fw_last_seq args' <> fw_next_seq args;
  ap_ring : fw_replay args' <> fw_replay args;
  ap_chan : fw_output_tx args' <> fw_output_tx args;
  ap_writer : fw_recording args' <> Some i
}.

Record beside w : Prop := {
  be_next : (fw_next_seq args < w_next w)%nat;
  be_ring : (fw_replay args < w_next w)%nat;
  be_chan : (fw_output_tx args < w_next w)%nat;
  be_writer : (i < length (rn_writers (w_rec w)))%nat;
  be_counters : map_Forall (fun _ v => 0 <= v) (w_counters w);
  be_runtimes : map_Forall (fun id e => id <> s -> re_next_seq e <> fw_next_seq args) (w_runtimes w);
  be_tasks : map_Forall (fun _ t => match t with TForward args' => apart args' | _ => True end) (w_tasks w)
}.

(** [gentle p Q]: every action of [p], in every state where the objects are apart, is [aside] and keeps them
    apart, and [p] returns with [Q]. *)
Fixpoint gentle {A} (p : prog world A) (Q : A -> Prop) : Prop :=
  match p with
  | Ret a => Q a
  | Atomic f k => forall w, beside w -> beside (f w).2 /\ aside w (f w).2 /\ gentle (k (f w).1) Q
  end.

Lemma gentle_mono {A} (p : prog world A) (Q Q' : A -> Prop) :
  (forall a, Q a -> Q' a) -> gentle p Q -> gentle p Q'.
Proof.
  intros HQ. induction p as [a|X f k IH]; cbn; [apply HQ|]. intros H w Hw. destruct (H w Hw) as (? & ? & ?). auto.
Qed.

Lemma gentle_bind {A C} (p : prog world A) (k : A -> prog world C) (P : A -> Prop) Q :
  gentle p P -> (forall a, P a -> gentle (k a) Q) -> gentle (bind p k) Q.
Proof.
  intros Hp Hk. induction p as [a|X f k' IH]; cbn in *; [by apply Hk|].
  intros w Hw. destruct (Hp w Hw) as (? & ? & ?). auto.
Qed.

Definition anything {A} (a : A) : Prop := True.
Abbreviation quiet p := (gentle p anything).

Lemma mild_try {E A C} (p : prog world (result E A)) (k : A -> prog world (result E C)) :
  quiet p -> (forall a, quiet (k a)) -> quiet (try_bind p k).
Proof. intros Hp Hk. apply (gentle_bind _ _ anything); [done|]. intros [a|e] _; [apply Hk|done]. Qed.

Lemma mild_bind {A C} (p : prog world A) (k : A -> prog world C) :
  quiet p -> (forall a, quiet (k a)) -> quiet (bind p k).
Proof. intros Hp Hk. apply (gentle_bind _ _ anything); [done|]. intros a _. apply Hk. Qed.

Lemma gentle_act {A} (f : world -> A * world) (Q : A -> Prop) :
  (forall w, beside w -> beside (f w).2 /\ aside w (f w).2 /\ Q (f w).1) -> gentle (act f) Q.
Proof. done. Qed.

(** What a task leaves behind when it runs alone *)
Lemma gentle_run {A} (p : prog world A) Q w :
  gentle p Q -> beside w -> beside (run p w).2 /\ rtc aside w (run p w).2.
Proof.
  revert w. induction p as [a|X f k IH]; intros w Hp Hw; cbn in *; [done|].
  destruct (Hp w Hw) as (H1 & H2 & H3). destruct (f w) as [x w1]. cbn in *.
  destruct (IH x w1 H3 H1) as [I1 I2]. split; [done|]. by eapply rtc_l.
Qed.

(** ** Actions that leave the objects alone *)

(** A change that only the registries of sessions and tasks, the database, the clock and the bridges see *)
Definition untroubled w w' : Prop :=
  w_counters w' = w_counters w /\ w_buffers w' = w_buffers w /\ w_channels w' = w_channels w
  /\ w_rec w' = w_rec w /\ w_next w' = w_next w
  /\ (beside w -> map_Forall (fun id e => id <> s -> re_next_seq e <> fw_next_seq args) (w_runtimes w'))
  /\ (beside w -> map_Forall (fun _ t => match t with TForward args' => apart args' | _ => True end) (w_tasks w')).

#[export] Instance untroubled_preorder : PreOrder untroubled.
Proof.
  split.
  - intros w. split_and!; try done; by intros [].
  - intros w1 w2 w3 (A1 & A2 & A3 & A4 & A5 & A6 & A7) (B1 & B2 & B3 & B4 & B5 & B6 & B7).
    assert (H : beside w1 -> beside w2).
    { intros Hb. split; rewrite ?A1, ?A4, ?A5; try apply Hb; auto. }
    split_and!; try congruence; auto.
Qed.

Lemma untroubled_beside w w' : untroubled w w' -> beside w -> beside w' /\ aside w w'.
Proof.
  intros (E1 & E2 & E3 & E4 & E5 & H6 & H7) Hb. split.
  - split; rewrite ?E1, ?E4, ?E5; try apply Hb; auto.
  - left. by split; rewrite ?E1, ?E2, ?E3, ?E4.
Qed.

Lemma gentle_untroubled {A} (f : world -> A * world) : (forall w, untroubled w (f w).2) -> quiet (act f).
Proof. intros Hf. apply gentle_act. intros w Hw. destruct (untroubled_beside w (f w).2 (Hf w) Hw). done. Qed.

Lemma untroubled_db w d : untroubled w (set_db d w).
Proof. split_and!; try done; by intros []. Qed.

Lemma untroubled_pty w b : untroubled w (set_pty b w).
Proof. split_and!; try done; by intros []. Qed.

Lemma untroubled_now w t : untroubled w (set_now t w).
Proof. split_and!; try done; by intros []. Qed.

Lemma untroubled_attachments w f : untroubled w (upd_attachments f w).
Proof. split_and!; try done; by intros []. Qed.

Lemma untroubled_abort w h : untroubled w (abort h w).
Proof.
  destruct h as [h|]; [|done]. split_and!; try done; intros []; [done|]. by apply map_Forall_delete.
Qed.

Lemma untroubled_drop w l : untroubled w (drop_live l w).
Proof.
  destruct l as [l|]; [|done]. cbn. etransitivity; [apply untroubled_abort|].
  etransitivity; [apply untroubled_abort|apply untroubled_abort].
Qed.

Lemma untroubled_delete_runtime w id : untroubled w (upd_runtimes (delete id) w).
Proof. split_and!; try done; intros []; [|done]. by apply map_Forall_delete. Qed.

(** An entry that keeps its counter *)
Lemma untroubled_entry w id e e' :
  w_runtimes w !! id = Some e -> re_next_seq e' = re_next_seq e -> untroubled w (upd_runtimes <[id := e']> w).
Proof.
  intros He Hn. split_and!; try done; intros []; [|done]. cbn. apply map_Forall_insert_2; [|done].
  rewrite Hn. by apply (be_runtimes0 id e).
Qed.

#[local] Hint Resolve untroubled_db untroubled_pty untroubled_now untroubled_attachments untroubled_abort
  untroubled_drop untroubled_delete_runtime untroubled_entry : core.
#[local] Hint Extern 1 (untroubled ?w ?w) => reflexivity : core.

Lemma mild_repo {A} (f : DB -> result RepositoryError A * DB) : quiet (repo f).
Proof. apply gentle_untroubled. intros w. destruct (f (w_db w)) as [r d]. apply untroubled_db. Qed.

Lemma mild_read {A} (f : world -> A) : quiet (act (fun w => (f w, w))).
Proof. by apply gentle_untroubled. Qed.

Lemma mild_pure (f : world -> world) : (forall w, untroubled w (f w)) -> quiet (pure_act f).
Proof. intros Hf. by apply gentle_untroubled. Qed.

Lemma mild_get_owned id owner : quiet (get_owned id owner).
Proof. apply mild_try; [apply mild_repo|done]. Qed.

(** ** Actions on other objects *)

Lemma runtime_step_length ev rt : (length (rn_writers rt) <= length (rn_writers (runtime_step (D := D) ev rt)))%nat.
Proof.
  destruct ev as [j|j|j|j q b|j k q pl|j last|id]; cbn; unfold writer_round, writer_released;
    rewrite ?length_alter, ?length_app; try lia.
  - destruct (rn_writers rt !! j) as [v|]; [|lia]. destruct (wr_aborted v); cbn; rewrite ?length_insert; lia.
  - destruct (rn_writers rt !! j) as [v|]; [|lia]. repeat (case_match; try lia). cbn. rewrite ?length_insert; lia.
Qed.

Lemma aside_recording w ev : besides s i ev -> beside w ->
  beside (set_rec (runtime_step ev (w_rec w)) w) /\ aside w (set_rec (runtime_step ev (w_rec w)) w).
Proof.
  intros Hev []. split; [|right; by exists ev]. split; try done. cbn.
  pose proof (runtime_step_length ev (w_rec w)). lia.
Qed.

Lemma mild_record_marker wr kind seq payload :
  kind <> MkReplayGap -> 0 <= seq -> quiet (pure_act (record_marker (DB := DB) (B := B) (R := RecordingRuntime D) wr kind seq payload)).
Proof.
  intros Hk Hs. apply gentle_act. intros w Hw. destruct wr as [j|]; cbn; [|split; [done|by split; [left|]]].
  destruct (aside_recording w (RtMarker j kind seq payload)); [cbn; auto|done|done].
Qed.

Lemma mild_record_shutdown wr last :
  0 <= last -> quiet (pure_act (record_shutdown (DB := DB) (B := B) (R := RecordingRuntime D) wr last)).
Proof.
  intros Hl. apply gentle_act. intros w Hw. destruct wr as [j|]; cbn; [|split; [done|by split; [left|]]].
  destruct (aside_recording w (RtShutdown j last)); [cbn; auto|done|done].
Qed.

Lemma mild_record_output wr seq bytes :
  wr <> Some i -> quiet (pure_act (record_output (DB := DB) (B := B) (R := RecordingRuntime D) wr seq bytes)).
Proof.
  intros Hw. apply gentle_act. intros w Hb. destruct wr as [j|]; cbn; [|split; [done|by split; [left|]]].
  destruct (aside_recording w (RtOutput j seq bytes)); [cbn; congruence|done|done].
Qed.

Lemma gentle_spawn_writer id : id <> s -> gentle (act (spawn_writer cfg id)) (fun wr => wr <> Some i).
Proof.
  intros Hid. apply gentle_act. intros w Hw. unfold spawn_writer. destruct (mc_recording cfg).
  - cbn. destruct (aside_recording w (RtWriterFor id)) as [H1 H2]; [done|done|]. split; [done|]. split; [done|].
    destruct Hw. intros [= E]. lia.
  - split; [done|]. by split; [left|].
Qed.

(** What a fresh address is not *)
Lemma beside_fresh w : beside w -> beside (fresh w).2 /\ elsewhere w (fresh w).2.
Proof. intros []. split; [|done]. split; cbn; try done; lia. Qed.

Lemma elsewhere_aside w w' : elsewhere w w' -> aside w w'.
Proof. by left. Qed.

Lemma beside_spawn w t :
  beside w -> match t with TForward args' => apart args' | _ => True end ->
  beside (spawn t w).2 /\ aside w (spawn t w).2.
Proof.
  intros [] Ht. split; [|by left]. split; cbn; try done; try lia. by apply map_Forall_insert_2.
Qed.

Lemma mild_spawn t :
  match t with TForward args' => apart args' | _ => True end -> quiet (act (spawn (DB := DB) (B := B) (R := RecordingRuntime D) t)).
Proof. intros Ht. apply gentle_act. intros w Hw. by destruct (beside_spawn w t Hw Ht). Qed.

Lemma beside_new_counter w v :
  beside w -> 0 <= v -> beside (new_counter v w).2 /\ elsewhere w (new_counter v w).2
    /\ (new_counter v w).1 <> fw_next_seq args.
Proof.
  intros [] Hv. split; [|split].
  - split; cbn; try done; try lia. by apply map_Forall_insert_2.
  - split; cbn; try done. by rewrite lookup_insert_ne by lia.
  - cbn. lia.
Qed.

Lemma gentle_new_counter v :
  0 <= v -> gentle (act (new_counter (DB := DB) (B := B) (R := RecordingRuntime D) v)) (fun c => c <> fw_next_seq args).
Proof.
  intros Hv. apply gentle_act. intros w Hw. destruct (beside_new_counter w v Hw Hv) as (? & ? & ?).
  split; [done|]. by split; [left|].
Qed.

Lemma gentle_new_fanout :
  gentle (act (new_fanout (DB := DB) (B := B) (R := RecordingRuntime D)))
    (fun f => f.1 <> fw_output_tx args /\ f.2 <> fw_replay args).
Proof.
  apply gentle_act. intros w []. cbn. split; [|split; [left|split; lia]].
  - split; cbn; try done; lia.
  - split; cbn; try done; by rewrite lookup_insert_ne by lia.
Qed.

Lemma mild_register_starting row : quiet (act (register_starting (DB := DB) (B := B) (R := RecordingRuntime D) row)).
Proof.
  apply gentle_act. intros w Hw. destruct (beside_new_counter w 1 Hw ltac:(done)) as ([] & [] & Hc).
  unfold register_starting. destruct (new_counter 1 w) as [c w'] eqn:E. cbn [fst snd] in *.
  split; [|split; [left|done]]; split; cbn; try done. by apply map_Forall_insert_2.
Qed.

Lemma load_nonneg w c : beside w -> 0 <= load c w.
Proof.
  intros []. unfold load. destruct (w_counters w !! c) as [v|] eqn:E; [|done]. by apply (be_counters0 c v).
Qed.

Lemma gentle_load c : gentle (act (fun w => (load c w, w))) (fun v => 0 <= v).
Proof. apply gentle_act. intros w Hw. split; [done|]. split; [by left|]. by apply load_nonneg. Qed.

(** The counter of another entry *)
Lemma gentle_next_seq_of id :
  id <> s -> gentle (act (next_seq_of (DB := DB) (B := B) (R := RecordingRuntime D) id)) (fun o => o <> Some (fw_next_seq args)).
Proof.
  intros Hid. apply gentle_act. intros w Hw. split; [done|]. split; [by left|]. cbn.
  destruct (w_runtimes w !! id) as [e|] eqn:E; [|done]. cbn. destruct Hw. intros [= Hn].
  by apply (be_runtimes0 id e).
Qed.

(** A counter of another forwarder *)
Lemma beside_counters w c v :
  beside w -> c <> fw_next_seq args -> 0 <= v ->
  beside (upd_counters <[c := v]> w) /\ aside w (upd_counters <[c := v]> w).
Proof.
  intros [] Hc Hv. split; [|left].
  - split; cbn; try done. by apply map_Forall_insert_2.
  - split; cbn; try done. by rewrite lookup_insert_ne.
Qed.

Lemma wrapping_nonneg v : 0 <= wrapping_add64 v 1.
Proof. destruct (wrapping_add64_range v 1); lia. Qed.

Lemma gentle_fetch_add c :
  c <> fw_next_seq args -> gentle (act (fetch_add_one (DB := DB) (B := B) (R := RecordingRuntime D) c)) (fun v => 0 <= v).
Proof.
  intros Hc. apply gentle_act. intros w Hw. unfold fetch_add_one. cbn [fst snd].
  destruct (beside_counters w c (wrapping_add64 (load c w) 1) Hw Hc (wrapping_nonneg _)).
  split; [done|]. split; [done|]. by apply load_nonneg.
Qed.

Lemma mild_store c v :
  c <> fw_next_seq args -> 0 <= v -> quiet (pure_act (fun w => upd_counters <[c := v]> w)).
Proof. intros Hc Hv. apply gentle_act. intros w Hw. by destruct (beside_counters w c v Hw Hc Hv). Qed.

Lemma mild_push_frame buf frame :
  buf <> fw_replay args -> quiet (pure_act (push_frame (DB := DB) (B := B) (R := RecordingRuntime D) buf frame)).
Proof.
  intros Hb. apply gentle_act. intros w []. split; [by split|]. split; [left|done].
  split; cbn; try done. by rewrite lookup_alter_ne.
Qed.

Lemma mild_send_frame ch frame :
  ch <> fw_output_tx args -> quiet (pure_act (send_frame (DB := DB) (B := B) (R := RecordingRuntime D) ch frame)).
Proof.
  intros Hb. apply gentle_act. intros w []. split; [by split|]. split; [left|done].
  split; cbn; try done. by rewrite lookup_alter_ne.
Qed.

(** *** Entries of the registry *)

Lemma untroubled_end_entry w id : untroubled w (end_entry id w).
Proof.
  unfold end_entry. destruct (w_runtimes w !! id) as [e|] eqn:E; [|done].
  etransitivity; [|apply untroubled_drop]. by apply (untroubled_entry w id e).
Qed.

Lemma untroubled_install_live w id l : untroubled w (install_live id l w).2.
Proof.
  unfold install_live. destruct (w_runtimes w !! id) as [e|] eqn:E; [|done]. cbn [snd].
  etransitivity; [|apply untroubled_drop]. by apply (untroubled_entry w id e).
Qed.

Lemma untroubled_cancel w id : untroubled w (cancel_pending_close id w).2.
Proof.
  unfold cancel_pending_close. destruct (w_runtimes w !! id) as [[snap [l|] next]|] eqn:E; [|done..].
  destruct (lr_detach_close l); [|done]. cbn [snd].
  etransitivity; [by apply (untroubled_entry w id _ (mkEntry snap (Some (set_detach_close None l)) next) E)|
    apply untroubled_abort].
Qed.

Lemma untroubled_install_detach w id info h : untroubled w (install_detach_close id info h w).2.
Proof.
  unfold install_detach_close. destruct (w_runtimes w !! id) as [[snap [l|] next]|] eqn:E;
    [|apply untroubled_abort..]. destruct (lr_detach_close l); [apply untroubled_abort|].
  by apply (untroubled_entry w id (mkEntry snap (Some l) next)).
Qed.

Lemma untroubled_resize_entry w id cols rows : untroubled w (resize_entry id cols rows w).2.
Proof.
  unfold resize_entry. destruct (w_runtimes w !! id) as [e|] eqn:E; [|done]. by apply (untroubled_entry w id e).
Qed.

(** ** The calls *)

#[local] Hint Resolve mild_repo mild_read mild_get_owned mild_register_starting mild_spawn
  mild_record_shutdown untroubled_end_entry untroubled_install_live untroubled_cancel
  untroubled_install_detach untroubled_resize_entry : core.
#[local] Hint Extern 1 (gentle (Ret _) anything) => exact Logic.I : core.
#[local] Hint Extern 2 (gentle (pure_act _) anything) => apply mild_pure; intros; cbn [fst snd] : core.
#[local] Hint Extern 3 (gentle (act _) anything) => apply gentle_untroubled; intros; cbn [fst snd] : core.

(** One action of a call whose answer does not matter for what follows *)
Ltac mild_step :=
  match goal with
  | |- gentle (try_bind _ _) _ => apply mild_try; [try by eauto|intros ?]
  | |- gentle (bind _ _) _ => apply mild_bind; [try by eauto|intros ?]
  | |- gentle (if decide _ then _ else _) _ => case_decide
  | |- gentle (if ?b then _ else _) _ => destruct b
  | |- gentle (match ?o with Some _ => _ | None => _ end) _ => destruct o
  | |- gentle (let '(_, _) := ?x in _) _ => destruct x
  | |- gentle (Ret _) _ => exact Logic.I
  | |- gentle _ anything => by eauto
  end.
Ltac mild_steps := repeat mild_step.

Lemma mild_shutdown_removed e : quiet (shutdown_removed e).
Proof.
  destruct e as [e|]; [|done]. unfold shutdown_removed, shutdown_runtime. destruct (re_live e) as [l|]; [|done].
  do 2 mild_step. apply (gentle_bind _ _ (fun v => 0 <= v)); [apply gentle_load|]. intros v Hv. mild_steps.
Qed.
#[local] Hint Resolve mild_shutdown_removed : core.

Lemma mild_create_session req : quiet (create_session req).
Proof. unfold create_session. mild_steps. Qed.

Lemma mild_close_session id owner : quiet (close_session id owner).
Proof. unfold close_session, remove_runtime, drop_attachments, utc_now. mild_steps. Qed.
#[local] Hint Resolve mild_close_session : core.

Lemma mild_record_pty_start_failed owner id c : quiet (record_pty_start_failed owner id c).
Proof. unfold record_pty_start_failed, remove_runtime, drop_attachments, utc_now. mild_steps. Qed.

Lemma mild_attach_session req : quiet (attach_session req).
Proof. unfold attach_session. mild_steps. Qed.

Lemma mild_bridge_call {A} (f : world -> A * B) : quiet (act (fun w => let '(r, b) := f w in (r, set_pty b w))).
Proof. apply gentle_untroubled. intros w. destruct (f w). apply untroubled_pty. Qed.

Lemma mild_write_pty_input owner id bytes : quiet (write_pty_input owner id bytes).
Proof.
  apply mild_try; [by eauto|]. intros h.
  apply mild_bind; [apply (mild_bridge_call (fun w => pty_write_input h bytes (w_pty w)))|done].
Qed.

Lemma mild_apply_pty_resize owner id cols rows : quiet (apply_pty_resize owner id cols rows).
Proof.
  apply mild_try; [by eauto|]. intros [h|]; [|done].
  apply mild_bind; [apply (mild_bridge_call (fun w => pty_resize h cols rows (w_pty w)))|done].
Qed.

Lemma mild_get_session_attachment aid id : quiet (get_session_attachment aid id).
Proof. unfold get_session_attachment. mild_steps. Qed.
#[local] Hint Resolve mild_get_session_attachment : core.

Lemma mild_schedule_detach_close id owner : quiet (schedule_detach_close cfg id owner).
Proof. unfold schedule_detach_close, utc_now. mild_steps. Qed.
#[local] Hint Resolve mild_schedule_detach_close : core.

Lemma mild_detach_attachment owner id aid seq : quiet (detach_attachment cfg owner id aid seq).
Proof. unfold detach_attachment, detach_session, utc_now. mild_steps. Qed.

Lemma mild_expire_detach_close id owner : quiet (expire_detach_close id owner).
Proof. unfold expire_detach_close. mild_steps. Qed.

Lemma mild_resize_session owner id cols rows : quiet (resize_session owner id cols rows).
Proof.
  unfold resize_session. mild_steps. apply mild_record_marker; [done|lia].
Qed.

(** Another session is bound: its forwarder gets objects of its own. *)
Lemma mild_start_live_pty owner id start : id <> s -> quiet (start_live_pty cfg owner id start).
Proof.
  intros Hid. unfold start_live_pty. do 2 mild_step; [done|].
  eapply gentle_bind; [apply gentle_new_fanout|]. intros fanout [Hch Hbuf].
  eapply gentle_bind; [by apply gentle_next_seq_of|]. intros onext Hn.
  destruct onext as [c|]; [|done]. unfold try_bind at 1. cbn [bind ok_or].
  eapply gentle_bind; [by apply gentle_new_counter|]. intros last Hlast.
  eapply gentle_bind; [by apply gentle_spawn_writer|]. intros wr Hwr.
  apply mild_bind; [apply mild_spawn; split; cbn; congruence|]. intros h. mild_steps.
Qed.

(** Another forwarder *)
Lemma mild_pty_teardown args' reason : quiet (pty_teardown args' reason).
Proof.
  unfold pty_teardown, utc_now. mild_step. destruct a as [[row|]|e]; [|done..]. mild_steps.
Qed.

Lemma mild_forward_output args' bytes : apart args' -> quiet (forward_output args' bytes).
Proof.
  intros []. eapply gentle_bind; [by apply gentle_fetch_add|]. intros v Hv. cbv zeta.
  apply mild_bind; [by apply mild_push_frame|intros _].
  apply mild_bind; [by apply mild_send_frame|intros _].
  apply mild_bind; [by apply mild_store|intros _]. by apply mild_record_output.
Qed.

Lemma mild_forward_pty_output args' evts reason : apart args' -> quiet (forward_pty_output args' evts reason).
Proof.
  intros Ha. revert reason. induction evts as [|[bytes|code|r] evts IH]; intros reason; cbn [forward_pty_output];
    [apply mild_pty_teardown| |apply IH..]. apply mild_bind; [by apply mild_forward_output|intros _; apply IH].
Qed.

(** ** The scheduler *)

(** Not a second binding of the session *)
Definition binds_other (r : Request) : Prop := match r with ReqStartPty _ id _ => id <> s | _ => True end.

(** Whatever may start in [orchestrator_safety] may start here, but for that. *)
Inductive starts_beside : world -> world -> prog world unit -> Prop :=
| beside_request w r : binds_other r -> starts_beside w w (ignore (respond cfg r))
| beside_forwarder w h args' evts :
    w_tasks w !! h = Some (TForward args') ->
    starts_beside w (upd_tasks (delete h) w) (forward_pty_output args' evts None)
| beside_timer w h id owner :
    w_tasks w !! h = Some (TDetachClose id owner) ->
    starts_beside w (upd_tasks (delete h) w) (expire_detach_close id owner)
| beside_environment w d t b :
    store_eq (w_db w) d -> st_wf d -> w_now w <= t -> starts_beside w (set_pty b (set_now t (set_db d w))) (Ret tt).

Lemma starts_beside_starts w w' p : starts_beside w w' p -> starts cfg w w' p.
Proof. destruct 1; by econstructor. Qed.

Lemma mild_ignore {A} (p : prog world A) : quiet p -> quiet (ignore p).
Proof. intros Hp. by apply mild_bind. Qed.

Lemma mild_respond r : binds_other r -> quiet (respond cfg r).
Proof.
  intros Hr. destruct r as [req|owner id start|owner id c|req|owner id aid seq|owner id bytes|owner id cols rows
    |owner id cols rows|id owner]; (apply mild_try; [|done]).
  - apply mild_create_session.
  - by apply mild_start_live_pty.
  - apply mild_record_pty_start_failed.
  - apply mild_attach_session.
  - apply mild_detach_attachment.
  - apply mild_write_pty_input.
  - apply mild_apply_pty_resize.
  - apply mild_resize_session.
  - apply mild_close_session.
Qed.

Lemma untroubled_take_task w h : untroubled w (upd_tasks (delete h) w).
Proof. apply (untroubled_abort w (Some h)). Qed.

Lemma start_gentle w w' p : starts_beside w w' p -> beside w -> beside w' /\ aside w w' /\ quiet p.
Proof.
  intros Hs Hw. destruct Hs as [w r Hr|w h args' evts Ht|w h id owner Ht|w d t b _ _ _].
  - split; [done|]. split; [by left|]. by apply mild_ignore, mild_respond.
  - destruct (untroubled_beside _ _ (untroubled_take_task w h) Hw) as [H1 H2]. split; [done|]. split; [done|].
    apply mild_forward_pty_output. exact (be_tasks w Hw h _ Ht).
  - destruct (untroubled_beside _ _ (untroubled_take_task w h) Hw) as [H1 H2]. split; [done|]. split; [done|].
    apply mild_expire_detach_close.
  - assert (Hu : untroubled w (set_pty b (set_now t (set_db d w)))).
    { etransitivity; [apply untroubled_db|]. etransitivity; [apply untroubled_now|apply untroubled_pty]. }
    destruct (untroubled_beside _ _ Hu Hw) as [H1 H2]. done.
Qed.

(** Every step of the scheduler is [aside], and its tasks stay gentle. *)
Lemma pstep_aside (c c' : pool world) :
  pstep starts_beside c c' -> beside (p_world c) -> Forall (fun p => quiet p) (p_threads c) ->
  beside (p_world c') /\ aside (p_world c) (p_world c') /\ Forall (fun p => quiet p) (p_threads c').
Proof.
  intros [X f k w l1 l2|w w' l p Hs|w l1 p l2] Hw Hall; cbn [p_world p_threads] in *.
  - apply Forall_app in Hall as [H1 [Hp H2]%Forall_cons]. destruct (Hp w Hw) as (Hb & Ha & Hk).
    split; [done|]. split; [done|]. apply Forall_app. split; [done|]. by apply Forall_cons.
  - destruct (start_gentle w w' p Hs Hw) as (Hb & Ha & Hp). split; [done|]. split; [done|].
    apply Forall_app. split; [done|]. by apply Forall_singleton.
  - split; [done|]. split; [by left|]. apply Forall_app in Hall as [H1 [_ H2]%Forall_cons]. by apply Forall_app.
Qed.

End beside.
