(* ===== verification/Pipeline.v ===== *)
(** * From the server to the rows

    The composition of the components that terminal output passes: the bridge of [Bridge.v] with its driver,
    the task [forward_pty_output] of [Manager.v] as the consumer of the bridge, the objects of the orchestrator
    it writes to, and the recording runtime of [Writers.v].  The forwarder handles one event of the bridge at a
    time; between two of its events the bridge, the recording tasks and the rest of the orchestrator do what
    they like. *)

From S2P Require Import Prelude Core Replay SessionStore Prog Manager ManagerInv ManagerSpec.
From S2P Require Import Recording PgSession PgRecording Scenario Bridge BridgeSpec Writers Beside.
Import TerminalSessionManager.

(** ** The system *)

Section pipeline.
Context {DB B D : Type} `{!SessionStore DB, !PtyBridge B, !RecordingStore D}.
Abbreviation world := (World DB B (RecordingRuntime D)).

(** The bridge, the orchestrator, and the forwarder with the reason it heard last while it runs. *)
Record Pipe := mkPipe {
  pi_bridge : Bridge;
  pi_world : world;
  pi_forwarder : option (option ClosedReason)
}.

(** One turn of the loop of [forward_pty_output] *)
Definition forward_event (args : ForwarderArgs) (e : SshPtyEvent) (closed_reason : option ClosedReason)
  : prog world (option ClosedReason) :=
  match e with
  | PtyOutput bytes => do! _ <- forward_output args bytes; Ret closed_reason
  | PtyExit _ => Ret closed_reason
  | PtyClosed reason => Ret (Some reason)
  end.

Inductive PipeEvent :=
| PBridge (ev : BridgeEvent)
| PForward
| PForwarderEnds
| PForwarderAborted
| PRecording (ev : RuntimeEvent).

(** The events of the bridge that are the forwarder's own *)
Definition consumes (ev : BridgeEvent) : bool :=
  match ev with ConsumerReceives | ConsumerDropped => true | _ => false end.

Definition pipe_step (args : ForwarderArgs) (ev : PipeEvent) (p : Pipe) : option Pipe :=
  match ev with
  | PBridge ev =>
      if consumes ev then None
      else b ← bridge_step ev (pi_bridge p); Some (mkPipe b (pi_world p) (pi_forwarder p))
  | PForward =>
      reason ← pi_forwarder p;
      match br_output (pi_bridge p) with
      | e :: _ =>
          b ← bridge_step ConsumerReceives (pi_bridge p);
          let '(reason, w) := run (forward_event args e reason) (pi_world p) in
          Some (mkPipe b w (Some reason))
      | [] => None
      end
  | PForwarderEnds =>
      reason ← pi_forwarder p;
      if bool_decide (br_output (pi_bridge p) = []) && is_gone (br_phase (pi_bridge p)) then
        b ← bridge_step ConsumerDropped (pi_bridge p);
        Some (mkPipe b (run (pty_teardown args reason) (pi_world p)).2 None)
      else None
  | PForwarderAborted =>
      _ ← pi_forwarder p;
      b ← bridge_step ConsumerDropped (pi_bridge p);
      Some (mkPipe b (pi_world p) None)
  | PRecording ev =>
      Some (mkPipe (pi_bridge p) (set_rec (runtime_step ev (w_rec (pi_world p))) (pi_world p)) (pi_forwarder p))
  end.

Fixpoint pipe_run (args : ForwarderArgs) (evs : list PipeEvent) (p : Pipe) : option Pipe :=
  match evs with
  | [] => Some p
  | ev :: evs => p ← pipe_step args ev p; pipe_run args evs p
  end.

(** ** The loop is made of its turns *)

Lemma run_forward_event args e evts reason w :
  run (forward_pty_output args (e :: evts) reason) w =
  (let '(reason', w') := run (forward_event args e reason) w in run (forward_pty_output args evts reason') w').
Proof.
  destruct e; cbn [forward_pty_output forward_event]; [|done..]. rewrite !run_bind.
  by destruct (run (forward_output args bytes) w).
Qed.

(** What one frame does to the forwarder's objects and to the recording *)
Lemma seq_forward_recorded args bytes i n b ch (w : world) :
  fanout args n b ch w -> 0 <= n < u64_max -> fw_recording args = Some i ->
  fanout args (n + 1) (ReplayBuffer.push b (mkFrame n bytes)) (ch ++ [mkFrame n bytes])
    (run (forward_output args bytes) w).2
  /\ w_rec (run (forward_output args bytes) w).2 = rec_output i n bytes (w_rec w).
Proof.
  intros Hf Hn Hi. split.
  - by apply (seq_forward_output args bytes n b ch w (fun _ w' => fanout args (n + 1) _ _ w')).
  - destruct Hf as [Hc _ _ _].
    apply (seq_bind (act (fetch_add_one (fw_next_seq args))) _ w
      (fun _ w' => w_rec w' = rec_output i n bytes (w_rec w))), seq_act.
    unfold fetch_add_one, load. rewrite Hc. cbn [fst snd from_option default].
    apply seq_bind, seq_act, seq_bind, seq_act, seq_bind, seq_act, seq_act. cbn [fst snd].
    unfold record_output. by rewrite Hi.
Qed.

End pipeline.
Arguments mkPipe {DB B D}.
Arguments pi_bridge {DB B D}.
Arguments pi_world {DB B D}.
Arguments pi_forwarder {DB B D}.

(** ** What the rows hold *)

(** The chunks, by their sequence numbers *)
Definition chunk_at (chunks : list (list Byte.byte)) (n : Z) : list Byte.byte :=
  default [Byte.x00] (chunks !! Z.to_nat (n - 1)).

Definition agrees (data : Z -> list Byte.byte) (chunks : list (list Byte.byte)) : Prop :=
  forall k c, chunks !! k = Some c -> data (Z.of_nat k + 1) = c.

Lemma agrees_app data l k : agrees data (l ++ k) -> agrees data l.
Proof. intros H n c Hn. apply H. by apply lookup_app_l_Some. Qed.

Lemma agrees_last data l c : agrees data (l ++ [c]) -> data (len l + 1) = c.
Proof. intros H. apply (H (length l)). by rewrite list_lookup_middle. Qed.

Lemma agrees_chunk_at chunks : agrees (chunk_at chunks) chunks.
Proof. intros k c Hk. unfold chunk_at. by rewrite Z.add_simpl_r, Nat2Z.id, Hk. Qed.

Lemma chunk_at_pos chunks n : Forall (fun c => 0 < len c) chunks -> 0 < len (chunk_at chunks n).
Proof.
  intros H. unfold chunk_at. destruct (chunks !! _) as [c|] eqn:E; [|done].
  exact (proj1 (Forall_lookup _ _) H _ _ E).
Qed.

Lemma outputs_snoc l e :
  outputs (l ++ [e]) = outputs l ++ match e with PtyOutput x => [x] | _ => [] end.
Proof. unfold outputs. rewrite omap_app. by destruct e. Qed.

Lemma stamp_snoc n l c : stamp n (l ++ [c]) = stamp n l ++ [mkFrame (n + len l) c].
Proof.
  revert n. induction l as [|x l IH]; intros n; cbn [stamp app]; [by rewrite len_nil, Z.add_0_r|].
  rewrite IH, len_cons. do 4 f_equal. lia.
Qed.

Lemma push_all_snoc b fs f : ReplayBuffer.push_all b (fs ++ [f]) = ReplayBuffer.push (ReplayBuffer.push_all b fs) f.
Proof. unfold ReplayBuffer.push_all. by rewrite foldl_app. Qed.

Lemma received_other ev b b' :
  consumes ev = false -> bridge_step ev b = Some b' -> received b' = received b.
Proof.
  intros Hc H. destruct ev; try discriminate Hc; step_cases H; rewrite ?received_note, ?app_nil_r; reflexivity.
Qed.

(** ** Reachable states *)

Section exact.
Context {DB B D : Type} `{!SessionStore DB, !PtyBridge B, !RecordingStore D, !RecordingStoreLaws D}.
Abbreviation world := (World DB B (RecordingRuntime D)).
Abbreviation pipe := (@Pipe DB B D).
Context (s : TerminalSessionId) (cfg : RecordingWriterConfig) (args : ForwarderArgs).
(** The states of the repository in which [replay_gap] markers of the session are accepted *)
Context (good : D -> Prop).
Context (Hgood_chunk : forall c d, good d -> good (rs_append_chunk c d).2).
Context (Hgood_marker : forall m d, good d -> good (rs_append_marker m d).2).
Context (Hgaps : forall m d, good d -> mk_session m = s -> mk_kind m = MkReplayGap ->
  1 <= mk_seq m -> is_object (mk_payload m) = true -> exists d', rs_append_marker m d = (Ok tt, d')).
Context (Htarget : chunk_hard_cap_bytes cfg <= i32_max).
(** The recording runtime before the session got its writer; the session has no rows yet. *)
Context (mcfg : ManagerConfig) (rt : RecordingRuntime D) (Hconfig : rn_config rt = cfg).
Context (Hfresh : Forall (fun v => wr_session_id v <> s) (rn_writers rt)).
Context (Hempty : rs_rows s (rn_repository rt) = []) (Hgood : good (rn_repository rt)).
Abbreviation writer := (length (rn_writers rt)).

(** The session was just bound to its PTY: the forwarder has not stamped anything, and the session has a new
    writer. *)
Record bound (w : world) : Prop := {
  bn_fanout : fanout args 1 (ReplayBuffer.new replay_config_default) [] w;
  bn_writer : fw_recording args = Some writer;
  bn_runtime : w_rec w = (rec_writer_for s rt).2;
  bn_beside : beside s args writer w
}.

(** What may happen by itself: of the recording, what its tasks do. *)
Definition by_task (ev : RuntimeEvent) : bool :=
  match ev with RtRound _ | RtReleased _ | RtAborted _ => true | _ => false end.
Definition allowed (ev : PipeEvent) : Prop := match ev with PRecording ev => by_task ev = true | _ => True end.

(** The pipeline and, interleaved with it, all that the orchestrator may do besides: any API call, any other
    forwarder, any detach timer, and the environment.  The session is bound to a PTY once. *)
Inductive composed (w0 : world) : pipe -> list (prog world unit) -> Prop :=
| composed_start : composed w0 (mkPipe new_bridge w0 (Some None)) []
| composed_pipe ev p p' ts :
    composed w0 p ts -> allowed ev -> pipe_step args ev p = Some p' -> composed w0 p' ts
| composed_others p ts w ts' :
    composed w0 p ts -> pstep (starts_beside mcfg s) (mkPool (pi_world p) ts) (mkPool w ts') ->
    composed w0 (mkPipe (pi_bridge p) w (pi_forwarder p)) ts'.

(** The same, with the others reduced to what they do to the forwarder and the recording *)
Inductive piped (w0 : world) : pipe -> Prop :=
| piped_start : piped w0 (mkPipe new_bridge w0 (Some None))
| piped_step ev p p' : piped w0 p -> allowed ev -> pipe_step args ev p = Some p' -> piped w0 p'
| piped_aside p w : piped w0 p -> aside s args writer (pi_world p) w ->
    piped w0 (mkPipe (pi_bridge p) w (pi_forwarder p)).

Lemma run_composed w0 evs p p' ts :
  composed w0 p ts -> Forall allowed evs -> pipe_run args evs p = Some p' -> composed w0 p' ts.
Proof.
  intros Hp Ha. revert p Hp. induction Ha as [|ev evs Hev _ IH]; intros p Hp; cbn [pipe_run]; [by intros [= <-]|].
  destruct (pipe_step args ev p) as [p1|] eqn:E; [|done]. apply IH. by apply (composed_pipe w0 ev p).
Qed.

(** A call that is not interrupted *)
Lemma composed_call w0 p ts q :
  composed w0 p ts -> starts_beside mcfg s (pi_world p) (pi_world p) q ->
  composed w0 (mkPipe (pi_bridge p) (run q (pi_world p)).2 (pi_forwarder p)) (ts ++ [Ret (run q (pi_world p)).1]).
Proof.
  intros Hp Hs. assert (H1 := composed_others w0 p ts _ _ Hp (pstep_start _ _ _ ts q Hs)).
  assert (Hr := pstep_run (starts_beside mcfg s) q (pi_world p) ts []).
  assert (Hgen : forall c, rtc (pstep (starts_beside mcfg s)) (mkPool (pi_world p) (ts ++ [q])) c ->
    composed w0 (mkPipe (pi_bridge p) (p_world c) (pi_forwarder p)) (p_threads c)); [|by apply (Hgen _ Hr)].
  apply rtc_ind_r; [done|]. intros [w1 ts1] [w2 ts2] _ Hst Hc. by apply (composed_others w0 _ _ w2 ts2 Hc).
Qed.

(** The forwarder keeps the objects apart. *)
Lemma beside_forward e reason (w : world) :
  beside s args writer w -> beside s args writer (run (forward_event args e reason) w).2.
Proof.
  intros Hw. destruct e as [bytes|code|r]; [|done..]. assert (Hl := load_nonneg s args writer w (fw_next_seq args) Hw).
  cbn. destruct Hw as [H1 H2 H3 H4 H5 H6 H7].
  assert (Hc : map_Forall (fun _ v => 0 <= v)
    (<[fw_last_seq args := load (fw_next_seq args) w]>
      (<[fw_next_seq args := wrapping_add64 (load (fw_next_seq args) w) 1]> (w_counters w)))).
  { apply map_Forall_insert_2; [done|]. apply map_Forall_insert_2; [apply wrapping_nonneg|done]. }
  unfold record_output. destruct (fw_recording args) as [j|]; split; cbn; try done. by rewrite length_alter.
Qed.

Lemma beside_step ev (p p' : pipe) :
  allowed ev -> pipe_step args ev p = Some p' -> beside s args writer (pi_world p) ->
  beside s args writer (pi_world p').
Proof.
  intros Ha H Hb. destruct ev as [bev| | | |rev]; cbn [pipe_step] in H.
  - destruct (consumes bev); [done|]. destruct (bridge_step bev (pi_bridge p)); [|done]. by injection H as <-.
  - destruct (pi_forwarder p) as [reason|]; [|done]. cbn [mbind option_bind] in H.
    destruct (br_output (pi_bridge p)) as [|e rest]; [done|].
    destruct (bridge_step ConsumerReceives (pi_bridge p)); [|done]. cbn [mbind option_bind] in H.
    assert (Hf := beside_forward e reason (pi_world p) Hb).
    destruct (run (forward_event args e reason) (pi_world p)). by injection H as <-.
  - destruct (pi_forwarder p) as [reason|]; [|done]. cbn [mbind option_bind] in H. destruct (_ && _); [|done].
    injection H as <-. by apply (gentle_run s args writer (pty_teardown args reason) anything); [apply mild_pty_teardown|].
  - destruct (pi_forwarder p) as [reason|]; [|done]. by injection H as <-.
  - injection H as <-. apply (aside_recording s args writer); [by destruct rev|done].
Qed.

Lemma composed_piped w0 p ts :
  beside s args writer w0 -> composed w0 p ts ->
  piped w0 p /\ beside s args writer (pi_world p) /\ Forall (fun q => gentle s args writer q anything) ts.
Proof.
  intros Hb. induction 1 as [|ev p p' ts _ (IH1 & IH2 & IH3) Ha Hs|p ts w ts' _ (IH1 & IH2 & IH3) Hs].
  - split; [apply piped_start|done].
  - split; [by apply (piped_step w0 ev p)|]. split; [by apply (beside_step ev p)|done].
  - destruct (pstep_aside mcfg s args writer _ _ Hs) as (H1 & H2 & H3); [done|done|].
    split; [by apply piped_aside|done].
Qed.

Abbreviation d0 := (rn_repository rt).
Abbreviation seen p := (outputs (received (pi_bridge p))).

Section with_data.
Context (data : Z -> list Byte.byte) (Hdata : forall n, 0 < len (data n)).
Abbreviation held := (kept good s cfg data d0 writer).

(** Everything that left the bridge is in the channel, in the ring and with the writer. *)
Record flowing (p : pipe) : Prop := {
  fw_bridged : exists evs, bridged evs (pi_bridge p);
  fw_fanout : fanout args (1 + len (seen p))
    (ReplayBuffer.push_all (ReplayBuffer.new replay_config_default) (stamp 1 (seen p))) (stamp 1 (seen p)) (pi_world p);
  fw_kept : held (len (seen p)) (w_rec (pi_world p))
}.

Lemma flowing_bound w : bound w -> flowing (mkPipe new_bridge w (Some None)).
Proof.
  intros [Hf _ Hr _]. split; cbn.
  - exists []. apply bridged_start.
  - done.
  - rewrite Hr. by apply kept_writer_for.
Qed.

(** The forwarder handles one event. *)
Lemma flowing_forward p e b reason :
  fw_recording args = Some writer -> flowing p ->
  (exists evs, bridged evs b) -> received b = received (pi_bridge p) ++ [e] ->
  agrees data (outputs (received b)) -> len (outputs (received b)) <= i64_max ->
  let out := run (forward_event args e reason) (pi_world p) in flowing (mkPipe b out.2 (Some out.1)).
Proof.
  intros Hw [Hb Hf Hk] Hb' Hr Ha Hlen out. rewrite Hr, outputs_snoc in Ha, Hlen.
  destruct e as [bytes|code|r]; subst out; cbn [forward_event run fst snd] in *;
    [|split; cbn [pi_bridge pi_world]; rewrite ?Hr, ?outputs_snoc, ?app_nil_r; done..].
  rewrite len_app in Hlen. change (len [bytes]) with 1 in Hlen.
  pose proof (len_nonneg (seen p)) as H0.
  assert (Hmax : i64_max < u64_max) by done.
  destruct (seq_forward_recorded args bytes writer (1 + len (seen p)) _ _ (pi_world p) Hf) as [Hf' Hr'];
    [lia|done|].
  rewrite run_bind. destruct (run (forward_output args bytes) (pi_world p)) as [[] w'] eqn:E. cbn [run fst snd] in *.
  split; cbn [pi_bridge pi_world]; [done|..]; rewrite Hr, outputs_snoc, len_app; change (len [bytes]) with 1.
  - rewrite stamp_snoc, push_all_snoc, Z.add_assoc. exact Hf'.
  - rewrite Hr', (Z.add_comm 1). rewrite <- (agrees_last data (seen p) bytes Ha). by apply kept_output; try lia.
Qed.

(** What one step does: it is a turn of the forwarder, or it takes nothing from the bridge. *)
Lemma step_received ev (p p' : pipe) :
  allowed ev -> pipe_step args ev p = Some p' ->
  (exists e rest reason, ev = PForward /\ pi_forwarder p = Some reason /\ br_output (pi_bridge p) = e :: rest
     /\ bridge_step ConsumerReceives (pi_bridge p) = Some (pi_bridge p')
     /\ received (pi_bridge p') = received (pi_bridge p) ++ [e]
     /\ let out := run (forward_event args e reason) (pi_world p) in
        p' = mkPipe (pi_bridge p') out.2 (Some out.1))
  \/ (received (pi_bridge p') = received (pi_bridge p)
      /\ (exists bev, bridge_step bev (pi_bridge p) = Some (pi_bridge p') \/ pi_bridge p' = pi_bridge p)
      /\ aside s args writer (pi_world p) (pi_world p')).
Proof.
  intros Ha. destruct ev as [bev| | | |rev]; cbn [pipe_step].
  - destruct (consumes bev) eqn:Ec; [done|]. destruct (bridge_step bev (pi_bridge p)) as [b|] eqn:Eb; [|done].
    intros [= <-]. right. cbn. split; [by apply (received_other bev)|]. split; [by exists bev; left|by left].
  - destruct (pi_forwarder p) as [reason|]; [|done]. cbn [mbind option_bind].
    destruct (br_output (pi_bridge p)) as [|e rest] eqn:Eo; [done|].
    destruct (bridge_step ConsumerReceives (pi_bridge p)) as [b|] eqn:Eb; [|done]. cbn [mbind option_bind].
    destruct (run (forward_event args e reason) (pi_world p)) as [r' w'] eqn:Er. intros [= <-]. left.
    exists e, rest, reason. cbn [pi_bridge]. rewrite Er. split_and!; try done.
    cbn [bridge_step] in Eb. destruct (br_consumer (pi_bridge p)); [|done]. rewrite Eo in Eb.
    injection Eb as <-. by rewrite received_note.
  - destruct (pi_forwarder p) as [reason|]; [|done]. cbn [mbind option_bind].
    destruct (_ && _); [|done]. intros [= <-]. right. cbn [pi_bridge pi_world]. split; [done|].
    split; [by exists ConsumerDropped; left|]. left.
    by apply (seq_pty_teardown args reason (pi_world p) (fun _ w' => elsewhere args (pi_world p) w')).
  - destruct (pi_forwarder p) as [reason|]; [|done]. intros [= <-]. right. cbn. split; [done|].
    split; [by exists ConsumerDropped; left|by left].
  - intros [= <-]. right. cbn. split; [done|]. split; [by exists DriverReads; right|]. right.
    exists rev. by destruct rev.
Qed.

Lemma flowing_aside p b w :
  received b = received (pi_bridge p) -> (exists evs, bridged evs b) -> len (seen p) <= i64_max ->
  flowing p -> aside s args writer (pi_world p) w -> flowing (mkPipe b w (pi_forwarder p)).
Proof.
  intros Hr Hb Hn [_ [F1 F2 F3 F4] Hk] Ha.
  split; cbn [pi_bridge pi_world]; rewrite ?Hr; [done|..]; destruct Ha as [[E1 E2 E3 E4]|(ev & Hev & ->)].
  - split; try done; congruence.
  - by split.
  - by rewrite E4.
  - by apply kept_step.
Qed.

Lemma flowing_piped w0 p :
  bound w0 -> piped w0 p -> agrees data (seen p) -> len (seen p) <= i64_max -> flowing p.
Proof.
  intros Hb Hp. induction Hp as [|ev p p' Hp IH Hev Hs|p w Hp IH He]; intros Ha Hn.
  - by apply flowing_bound.
  - destruct (step_received ev p p' Hev Hs) as
      [(e & rest & reason & -> & Hf & Ho & Hbs & Hr & Hout)|(Hr & [bev Hbs] & Hw)].
    + rewrite Hr, outputs_snoc in Ha, Hn. rewrite len_app in Hn.
      assert (H0 := len_nonneg (match e with PtyOutput x => [x] | _ => [] end)).
      specialize (IH (agrees_app _ _ _ Ha) ltac:(lia)). destruct Hb as [_ Hw _ _].
      cbv zeta in Hout. rewrite Hout. apply flowing_forward; try done.
      * destruct (fw_bridged _ IH) as [evs Hevs]. eexists. by apply (bridged_step evs ConsumerReceives (pi_bridge p)).
      * by rewrite Hr, outputs_snoc.
      * rewrite Hr, outputs_snoc, len_app. done.
    + rewrite Hr in Ha, Hn. specialize (IH Ha Hn).
      assert (H : flowing (mkPipe (pi_bridge p') (pi_world p') (pi_forwarder p))); [|by destruct H; split].
      apply flowing_aside; try done. destruct (fw_bridged _ IH) as [evs Hevs].
      destruct Hbs as [Hbs| ->]; [|by exists evs]. eexists. by apply (bridged_step evs bev (pi_bridge p)).
  - specialize (IH Ha Hn). apply flowing_aside; try done. apply (fw_bridged _ IH).
Qed.

End with_data.

(** One answer of the ring for every bookmark *)
Lemma ring_answers fs :
  ReplaySpec.numbered fs -> total_bytes fs <= usize_max -> len fs <= u64_max ->
  let ring := ReplayBuffer.push_all (ReplayBuffer.new replay_config_default) fs in
  exists n, forall k, 0 < k < len fs ->
    ReplayBuffer.replay_since ring (Some k) =
      (if Z.of_nat n <=? k then Ok (mkRange (drop (Z.to_nat k) fs) (len fs))
       else Err (mkWindowLost k (Some (Z.of_nat n + 1)) (len fs)))
    /\ (fits replay_config_default (drop (Z.to_nat k) fs) -> Z.of_nat n <= k).
Proof.
  intros Hnum Htot Hlen. cbv zeta. destruct (push_all_abs replay_config_default fs Hnum Htot) as [n Habs].
  exists n. intros k Hk. split.
  - rewrite (replay_refines _ _ k Habs) by (unfold is_u64; cbn; lia).
    unfold ReplaySpec.replay. cbn [ReplaySpec.entries ReplaySpec.evicted]. change (default 0 (Some k)) with k.
    by rewrite (proj2 (Z.leb_gt _ _)), (proj2 (Z.eqb_neq k 0)) by lia.
  - intros Hfit. destruct (decide (Z.of_nat n <= k)) as [|Hgt]; [done|]. exfalso.
    apply (ReplaySpec.abs_tight _ _ Habs (Z.to_nat k)); [cbn; lia|].
    cbn. by destruct (push_all_suffix replay_config_default fs Htot) as (_ & _ & _ & -> & _).
Qed.


End exact.

(** ** The binding of a PTY makes a bound session *)

Section binding.
Context {DB B D : Type} `{!SessionStore DB, !PtyBridge B, !RecordingStore D}.
Abbreviation world := (World DB B (RecordingRuntime D)).
Implicit Types w : world.

Lemma seq_get_owned_db id owner w (Q : result TerminalSessionManagerError TerminalSession -> world -> Prop) :
  (forall r d, Q r (set_db d w)) -> seq (get_owned id owner) w Q.
Proof.
  intros HQ. apply seq_try, seq_repo. destruct (st_get _ _) as [[o|e] d]; cbn [map_err fst snd]; apply HQ.
Qed.

(** A session that [create_session] has registered: its counter stands at 1 and nobody else uses it. *)
Record unbound (id : TerminalSessionId) (e : RuntimeEntry) w : Prop := {
  ub_entry : w_runtimes w !! id = Some e;
  ub_live : re_live e = None;
  ub_counter : w_counters w !! re_next_seq e = Some 1;
  ub_next : (re_next_seq e < w_next w)%nat;
  ub_counters : map_Forall (fun _ v => 0 <= v) (w_counters w);
  ub_runtimes : map_Forall (fun id' e' => id' <> id -> re_next_seq e' <> re_next_seq e) (w_runtimes w);
  ub_tasks : map_Forall (fun _ t => match t with
    | TForward a => fw_next_seq a <> re_next_seq e /\ fw_last_seq a <> re_next_seq e
        /\ (fw_replay a < w_next w)%nat /\ (fw_output_tx a < w_next w)%nat
        /\ forall j, fw_recording a = Some j -> (j < length (rn_writers (w_rec w)))%nat
    | _ => True end) (w_tasks w)
}.

(** When [start_live_pty] has bound a PTY to a registered session and the forwarder it has spawned, the one of
    the live runtime, begins, the state is one where [pipeline_exact] begins. *)
Theorem start_live_pty_binds cfg owner id start e w :
  mc_recording cfg = true -> unbound id e w ->
  let out := run (start_live_pty cfg owner id start) w in
  forall session, out.1 = Ok session ->
  exists args h l, w_tasks out.2 !! h = Some (TForward args)
    /\ live_of id out.2 = Some l /\ lr_forwarder l = Some h /\ lr_replay l = fw_replay args
    /\ fw_session_id args = id /\ bound id args (w_rec w) (upd_tasks (delete h) out.2).
Proof.
  intros Hrec [He Hl Hc Hlt Hcs Hrs Hts]. cbv zeta.
  apply (seq_try (get_owned id owner) _ w (fun r w' => forall session, r = Ok session -> exists args h l,
    w_tasks w' !! h = Some (TForward args) /\ live_of id w' = Some l /\ lr_forwarder l = Some h
    /\ lr_replay l = fw_replay args /\ fw_session_id args = id
    /\ bound id args (w_rec w) (upd_tasks (delete h) w'))).
  apply seq_get_owned_db. intros [s0|err] d0; [|done]. case_decide; [by apply seq_ret|].
  apply seq_bind, seq_act, seq_bind, seq_act. cbn [fst snd new_fanout fresh next_seq_of].
  cbn [w_runtimes upd_buffers upd_channels set_db]. rewrite He. cbn [fmap option_fmap option_map ok_or].
  apply seq_try, seq_ret, seq_bind, seq_act, seq_bind, seq_act. unfold spawn_writer. rewrite Hrec.
  apply seq_bind, seq_act. cbn [fst snd rec_writer_for recording_runtime_sink].
  apply seq_try, seq_repo. destruct (st_set_status _ _ _ _) as [[u|err] d1]; cbn [map_err fst snd]; [|done].
  apply seq_try, seq_get_owned_db. intros [s1|err] d2; [|done].
  apply seq_bind, seq_act. unfold install_live. cbn -[lookup insert delete]. rewrite He, Hl.
  cbn [fst snd drop_live]. apply seq_ret. intros _ _. do 3 eexists.
  split; [apply lookup_insert_eq|]. split; [unfold live_of; cbn; by rewrite lookup_insert_eq|].
  do 3 (split; [done|]). split; [|done|done|].
  - split; cbn; [by rewrite lookup_insert_ne by lia|apply lookup_insert_eq..|lia].
  - split; cbn; try lia.
    + rewrite length_app. cbn. lia.
    + by apply map_Forall_insert_2.
    + apply map_Forall_insert_2; [by intros []|done].
    + rewrite delete_insert_eq. apply map_Forall_delete. eapply map_Forall_impl; [exact Hts|].
      intros k [a| |] Ha; try done. destruct Ha as (A1 & A2 & A3 & A4 & A5). split; cbn; try done; try lia.
      intros E. specialize (A5 _ E). lia.
Qed.
End binding.

(** ** A concrete session *)

(** The deployment of [Scenario.v] with the recording runtime over [rec_db] in the place of its sink *)
Definition rt0 : RecordingRuntime PgRec := mkRecordingRuntime (rec_db None []) rec_cfg [].
Definition wr0 : World PgDb Loopback (RecordingRuntime PgRec) := boot db0 5000 (mkLoopback [] [] []) rt0.
Definition wr_created : World PgDb Loopback (RecordingRuntime PgRec) := (run (create_session create_req) wr0).2.
(** The forwarder has begun. *)
Definition wr_live : World PgDb Loopback (RecordingRuntime PgRec) :=
  upd_tasks (delete 4%nat) (run (start_live_pty Scenario.cfg user 100 pty) wr_created).2.

Definition three : list Byte.byte := rec_data 1.

(** Two chunks and an oversized one go through, and the server ends the stream. *)
Definition session_run : list PipeEvent :=
  [PBridge (ServerSends (ChData three)); PBridge DriverReads; PBridge (ServerSends (ChExtendedData three 1));
   PBridge DriverSends; PForward; PBridge DriverReads; PRecording (RtRound 0); PBridge DriverSends;
   PBridge (CallWrite three); PForward; PBridge (ServerSends (ChData (rec_data 3))); PBridge DriverReads;
   PBridge (ServerSends ChEof); PBridge DriverSends; PForward; PRecording (RtRound 0);
   PBridge DriverReads; PBridge DriverSends; PBridge DriverCloses; PForward; PForwarderEnds].

Definition session_pipe : Pipe := mkPipe new_bridge wr_live (Some None).
Definition pipe_after (evs : list PipeEvent) (p : @Pipe PgDb Loopback PgRec) : Pipe := default session_pipe (pipe_run fw evs p).

(** Its owner closes the session, and the writer comes to its end. *)
Definition ended_session : Pipe := pipe_after session_run session_pipe.
Definition close_call : prog (World PgDb Loopback (RecordingRuntime PgRec)) unit :=
  ignore (respond Scenario.cfg (ReqClose 100 user)).
Definition closed_session : Pipe :=
  mkPipe (pi_bridge ended_session) (run close_call (pi_world ended_session)).2 (pi_forwarder ended_session).
Definition writer_run : list PipeEvent := replicate 5 (PRecording (RtRound 0)).
Definition after_session : Pipe := pipe_after writer_run closed_session.

Definition entry_created : RuntimeEntry := mkEntry (mkRuntime 100 user 10 RtStarting 1000 80 24) None 0.
Definition l_bound : LiveRuntime := mkLive 7 1 2 (Some 4%nat) (Some 70%nat) None (Some 0%nat) 3.

Lemma unbound_wr_created : unbound 100 entry_created wr_created.
Proof.
  assert (Er : w_runtimes wr_created = {[ 100 := entry_created ]}) by (vm_compute; reflexivity).
  assert (Ec : w_counters wr_created = {[ 0%nat := 1 ]}) by (vm_compute; reflexivity).
  assert (Et : w_tasks wr_created = empty) by (vm_compute; reflexivity).
  split; rewrite ?Er, ?Ec, ?Et; [by vm_compute..|vm_compute; lia| | |apply map_Forall_empty].
  - apply map_Forall_singleton. lia.
  - apply map_Forall_singleton. by intros [].
Qed.

Lemma bound_wr_live : bound 100 fw rt0 wr_live.
Proof.
  destruct (start_live_pty_binds Scenario.cfg user 100 pty entry_created wr_created eq_refl unbound_wr_created
    s_active) as (args & h & l & Ht & Hl & Hf & _ & _ & Hb); [by vm_compute|].
  assert (El : live_of 100 (run (start_live_pty Scenario.cfg user 100 pty) wr_created).2 = Some l_bound)
    by (vm_compute; reflexivity).
  rewrite El in Hl. injection Hl as <-. injection Hf as <-.
  assert (Et : w_tasks (run (start_live_pty Scenario.cfg user 100 pty) wr_created).2 !! 4%nat = Some (TForward fw))
    by (vm_compute; reflexivity).
  rewrite Et in Ht. injection Ht as <-. exact Hb.
Qed.

Lemma composed_session : composed 100 fw Scenario.cfg wr_live after_session [Ret tt].
Proof.
  apply (run_composed 100 fw Scenario.cfg wr_live writer_run closed_session);
    [|repeat constructor|by vm_compute].
  apply (composed_call 100 fw Scenario.cfg wr_live ended_session [] close_call).
  - apply (run_composed 100 fw Scenario.cfg wr_live session_run session_pipe); [apply composed_start|
      repeat constructor|by vm_compute].
  - by apply (beside_request Scenario.cfg 100 _ (ReqClose 100 user)).
Qed.

Lemma seen_session : outputs (received (pi_bridge after_session)) = [three; three; rec_data 3].
Proof. by vm_compute. Qed.

